(** * Apple ANS NVMe host driver: queue/DMA engine

    A shallow embedding of [drivers/nvme/host/apple-ans.c]: the tag
    tracking table (NVMMU TCBs), the submission path, the PRP builder,
    the completion reaper and the timeout handler, followed by the
    properties established about them. *)

From Stdlib Require Import ZArith Lia List Bool.
From stdpp Require Import base option list gmap.

Local Open Scope Z_scope.

(** ** Machine integers

    C integers are carried as [Z]; every store into a fixed-width object
    goes through the wrap of that width. *)

Definition u8 (x : Z) : Z := x mod 2 ^ 8.
Definition u16 (x : Z) : Z := x mod 2 ^ 16.
Definition u32 (x : Z) : Z := x mod 2 ^ 32.
Definition u64 (x : Z) : Z := x mod 2 ^ 64.
(** [int]: two's complement on 32 bits (the kernel builds with wrapping
    signed arithmetic). *)
Definition s32 (x : Z) : Z := (x + 2 ^ 31) mod 2 ^ 32 - 2 ^ 31.

Definition DIV_ROUND_UP (n d : Z) : Z := (n + d - 1) / d.

(** [DIV_ROUND_UP] on [int] operands: the sum wraps on 32 bits and the
    division truncates toward zero. *)
Definition DIV_ROUND_UP_int (n d : Z) : Z := Z.quot (s32 (n + d - 1)) d.

(** ** Constants of the driver *)

Definition APPLE_ANS2_QUEUE_DEPTH : Z := 64.
Definition APPLE_NVMMU_NUM_TCBS : Z := 64.
Definition APPLE_ANS2_LINEAR_ASQ_DB : Z := 0x2490c.
Definition APPLE_ANS2_LINEAR_IOSQ_DB : Z := 0x24910.
Definition APPLE_NVMMU_TCB_INVAL : Z := 0x28118.
Definition APPLE_NVMMU_TCB_STAT : Z := 0x28120.
Definition APPLE_ANS2_TCB_DMA_FROM_DEVICE : Z := 1.
Definition APPLE_ANS2_TCB_DMA_TO_DEVICE : Z := 2.
Definition NVMEQ_ENABLED : Z := 0.

(** Modelled from the spec: the controller page size, declared in the
    absent header [nvme.h]; the spec gives it as the 4096-byte addressing
    unit of the descriptor-chain builder. *)
Definition NVME_CTRL_PAGE_SIZE : Z := 4096.

(** [sizeof(struct apple_nvmmu_tcb)], see [tcb_bytes] below. *)
Definition sizeof_tcb : Z := 128.

(** Modelled from the spec: the size of the command descriptor
    ([struct nvme_command] of the absent header [linux/nvme.h]), a fixed
    64-byte hardware-visible record. *)
Definition sizeof_nvme_command : Z := 64.

(** ** Data *)

(** Modelled from the spec: the command descriptor, [struct nvme_command]
    of the absent header [linux/nvme.h]: opcode, command tag, the two
    64-bit pointer fields and the opcode-specific words.  The union
    members the driver touches are views of the same words: [rw.length]
    is the low half of word 12, [abort.sqid] and [abort.cid] are the two
    halves of word 10. *)
Record nvme_command : Type := mk_nvme_command {
  c_opcode : Z;
  c_flags : Z;
  c_command_id : Z;
  c_nsid : Z;
  c_cdw2 : Z;
  c_cdw3 : Z;
  c_metadata : Z;
  c_prp1 : Z;
  c_prp2 : Z;
  c_cdw10 : Z;
  c_cdw11 : Z;
  c_cdw12 : Z;
  c_cdw13 : Z;
  c_cdw14 : Z;
  c_cdw15 : Z
}.

(** [struct nvme_command c = { };] *)
Definition nvme_command_zero : nvme_command :=
  mk_nvme_command 0 0 0 0 0 0 0 0 0 0 0 0 0 0 0.

Definition rw_length (c : nvme_command) : Z := Z.land (c_cdw12 c) 0xffff.

Definition set_prp1 (c : nvme_command) (v : Z) : nvme_command :=
  mk_nvme_command (c_opcode c) (c_flags c) (c_command_id c) (c_nsid c)
    (c_cdw2 c) (c_cdw3 c) (c_metadata c) v (c_prp2 c) (c_cdw10 c)
    (c_cdw11 c) (c_cdw12 c) (c_cdw13 c) (c_cdw14 c) (c_cdw15 c).

Definition set_prp2 (c : nvme_command) (v : Z) : nvme_command :=
  mk_nvme_command (c_opcode c) (c_flags c) (c_command_id c) (c_nsid c)
    (c_cdw2 c) (c_cdw3 c) (c_metadata c) (c_prp1 c) v (c_cdw10 c)
    (c_cdw11 c) (c_cdw12 c) (c_cdw13 c) (c_cdw14 c) (c_cdw15 c).

Definition set_metadata (c : nvme_command) (v : Z) : nvme_command :=
  mk_nvme_command (c_opcode c) (c_flags c) (c_command_id c) (c_nsid c)
    (c_cdw2 c) (c_cdw3 c) v (c_prp1 c) (c_prp2 c) (c_cdw10 c)
    (c_cdw11 c) (c_cdw12 c) (c_cdw13 c) (c_cdw14 c) (c_cdw15 c).

Definition set_opcode (c : nvme_command) (v : Z) : nvme_command :=
  mk_nvme_command (u8 v) (c_flags c) (c_command_id c) (c_nsid c)
    (c_cdw2 c) (c_cdw3 c) (c_metadata c) (c_prp1 c) (c_prp2 c) (c_cdw10 c)
    (c_cdw11 c) (c_cdw12 c) (c_cdw13 c) (c_cdw14 c) (c_cdw15 c).

(** [cmd.abort.sqid = sqid; cmd.abort.cid = cid;] *)
Definition set_abort (c : nvme_command) (sqid cid : Z) : nvme_command :=
  mk_nvme_command (c_opcode c) (c_flags c) (c_command_id c) (c_nsid c)
    (c_cdw2 c) (c_cdw3 c) (c_metadata c) (c_prp1 c) (c_prp2 c)
    (Z.lor (u16 sqid) (Z.shiftl (u16 cid) 16))
    (c_cdw11 c) (c_cdw12 c) (c_cdw13 c) (c_cdw14 c) (c_cdw15 c).

Definition abort_cid (c : nvme_command) : Z := Z.shiftr (c_cdw10 c) 16.
Definition abort_sqid (c : nvme_command) : Z := Z.land (c_cdw10 c) 0xffff.

(** [struct apple_nvmmu_tcb] *)
Record apple_nvmmu_tcb : Type := mk_tcb {
  tcb_opcode : Z;
  tcb_dma_flags : Z;
  tcb_command_id : Z;
  tcb_unk0 : Z;
  tcb_length : Z;
  tcb_unk1 : list Z;
  tcb_prp1 : Z;
  tcb_prp2 : Z;
  tcb_unk2 : list Z;
  tcb_aes_iv : list Z;
  tcb_aes_unk : list Z
}.

(** What [memset(tcb, 0, sizeof tcb[0])] leaves in the slot. *)
Definition tcb_zero : apple_nvmmu_tcb :=
  mk_tcb 0 0 0 0 0 (replicate 2 0) 0 0 (replicate 2 0)
    (replicate 8 0) (replicate 64 0).

(** Little-endian image of an integer on [n] bytes. *)
Fixpoint le_bytes (n : nat) (x : Z) : list Z :=
  match n with
  | O => []
  | S n' => x mod 256 :: le_bytes n' (x / 256)
  end.

(** The slot as the device sees it, field after field. *)
Definition tcb_bytes (t : apple_nvmmu_tcb) : list Z :=
  le_bytes 1 (tcb_opcode t) ++ le_bytes 1 (tcb_dma_flags t) ++
  le_bytes 1 (tcb_command_id t) ++ le_bytes 1 (tcb_unk0 t) ++
  le_bytes 4 (tcb_length t) ++
  concat (map (le_bytes 8) (tcb_unk1 t)) ++
  le_bytes 8 (tcb_prp1 t) ++ le_bytes 8 (tcb_prp2 t) ++
  concat (map (le_bytes 8) (tcb_unk2 t)) ++
  concat (map (le_bytes 1) (tcb_aes_iv t)) ++
  concat (map (le_bytes 1) (tcb_aes_unk t)).

Definition tcb_set_opcode (t : apple_nvmmu_tcb) (v : Z) : apple_nvmmu_tcb :=
  mk_tcb (u8 v) (tcb_dma_flags t) (tcb_command_id t) (tcb_unk0 t)
    (tcb_length t) (tcb_unk1 t) (tcb_prp1 t) (tcb_prp2 t) (tcb_unk2 t)
    (tcb_aes_iv t) (tcb_aes_unk t).
Definition tcb_set_dma_flags (t : apple_nvmmu_tcb) (v : Z) : apple_nvmmu_tcb :=
  mk_tcb (tcb_opcode t) (u8 v) (tcb_command_id t) (tcb_unk0 t)
    (tcb_length t) (tcb_unk1 t) (tcb_prp1 t) (tcb_prp2 t) (tcb_unk2 t)
    (tcb_aes_iv t) (tcb_aes_unk t).
Definition tcb_set_command_id (t : apple_nvmmu_tcb) (v : Z) : apple_nvmmu_tcb :=
  mk_tcb (tcb_opcode t) (tcb_dma_flags t) (u8 v) (tcb_unk0 t)
    (tcb_length t) (tcb_unk1 t) (tcb_prp1 t) (tcb_prp2 t) (tcb_unk2 t)
    (tcb_aes_iv t) (tcb_aes_unk t).
Definition tcb_set_length (t : apple_nvmmu_tcb) (v : Z) : apple_nvmmu_tcb :=
  mk_tcb (tcb_opcode t) (tcb_dma_flags t) (tcb_command_id t) (tcb_unk0 t)
    (u32 v) (tcb_unk1 t) (tcb_prp1 t) (tcb_prp2 t) (tcb_unk2 t)
    (tcb_aes_iv t) (tcb_aes_unk t).
Definition tcb_set_prp1 (t : apple_nvmmu_tcb) (v : Z) : apple_nvmmu_tcb :=
  mk_tcb (tcb_opcode t) (tcb_dma_flags t) (tcb_command_id t) (tcb_unk0 t)
    (tcb_length t) (tcb_unk1 t) (u64 v) (tcb_prp2 t) (tcb_unk2 t)
    (tcb_aes_iv t) (tcb_aes_unk t).
Definition tcb_set_prp2 (t : apple_nvmmu_tcb) (v : Z) : apple_nvmmu_tcb :=
  mk_tcb (tcb_opcode t) (tcb_dma_flags t) (tcb_command_id t) (tcb_unk0 t)
    (tcb_length t) (tcb_unk1 t) (tcb_prp1 t) (u64 v) (tcb_unk2 t)
    (tcb_aes_iv t) (tcb_aes_unk t).

(** [struct nvme_completion], the 16-byte completion entry. *)
Record nvme_completion : Type := mk_cqe {
  cqe_result : Z;
  cqe_sq_head : Z;
  cqe_sq_id : Z;
  cqe_command_id : Z;
  cqe_status : Z
}.

(** The memory regions the device reads and the registers it decodes. *)
Inductive hw_region : Type :=
  | RegionTcb
  | RegionSq
  | RegionDoorbell
  | RegionMmio.

Inductive tcb_field : Type :=
  | F_opcode | F_prp1 | F_prp2 | F_length | F_command_id | F_dma_flags.

(** One entry per store the driver performs on device-visible state, and
    per register access, in program order. *)
Inductive hw_event : Type :=
  | EvTcbMemset (tag : Z) (len : Z)
  | EvTcbStore (tag : Z) (f : tcb_field) (v : Z)
  | EvSqMemcpy (off : Z) (len : Z) (cmd : nvme_command)
  | EvDoorbell (reg : Z) (v : Z)
  | EvWritel (reg : Z) (v : Z)
  | EvReadl (reg : Z) (v : Z)
  | EvWarnInval.

Definition event_region (e : hw_event) : hw_region :=
  match e with
  | EvTcbMemset _ _ | EvTcbStore _ _ _ => RegionTcb
  | EvSqMemcpy _ _ _ => RegionSq
  | EvDoorbell _ _ => RegionDoorbell
  | EvWritel _ _ | EvReadl _ _ | EvWarnInval => RegionMmio
  end.

(** [struct apple_nvme_queue].  [sq_cmds] is keyed by byte offset into the
    submission ring and holds the 64-byte command copied there; this is
    the ring as long as the commands copied do not overlap, that is for
    entries of at least 64 bytes ([sqes] at least 6; the driver sets 6).
    [ans2_tcb_ptr] is the array of 64 tracking slots, [ans2_q_db] and
    [q_db] are register offsets. *)
Record apple_nvme_queue : Type := mk_queue {
  sq_cmds : gmap Z nvme_command;
  cqes : list nvme_completion;
  q_db : Z;
  q_depth : Z;
  cq_head : Z;
  cq_phase : Z;
  sqes : Z;
  q_flags : Z;
  ans2_q_db : Z;
  ans2_tcb_ptr : list apple_nvmmu_tcb;
  is_adminq : bool
}.

Definition set_tcbs (q : apple_nvme_queue) (t : list apple_nvmmu_tcb)
  : apple_nvme_queue :=
  mk_queue (sq_cmds q) (cqes q) (q_db q) (q_depth q) (cq_head q)
    (cq_phase q) (sqes q) (q_flags q) (ans2_q_db q) t (is_adminq q).

Definition set_sq_cmds (q : apple_nvme_queue) (s : gmap Z nvme_command)
  : apple_nvme_queue :=
  mk_queue s (cqes q) (q_db q) (q_depth q) (cq_head q)
    (cq_phase q) (sqes q) (q_flags q) (ans2_q_db q) (ans2_tcb_ptr q)
    (is_adminq q).

Definition set_cq (q : apple_nvme_queue) (head phase : Z)
  : apple_nvme_queue :=
  mk_queue (sq_cmds q) (cqes q) (q_db q) (q_depth q) head
    phase (sqes q) (q_flags q) (ans2_q_db q) (ans2_tcb_ptr q)
    (is_adminq q).

(** Functions and constants of the absent header [nvme.h] that the driver
    uses; the development is generic in them.  [nvme_tag_from_cid]
    returns a [u16]. *)
Class nvme_host : Type := {
  nvme_tag_from_cid : Z -> Z;
  nvme_is_write : nvme_command -> bool;
  nvme_is_aen_req : Z -> Z -> bool;
  NVME_CSTS_CFS : Z;
  NVME_REQ_CANCELLED : Z;
  nvme_admin_abort_cmd : Z
}.

(** ** Tag tracking table *)

(** A store through [tcb = nvmeq->ans2_tcb_ptr + tag * sizeof tcb[0]].
    The table has [APPLE_NVMMU_NUM_TCBS] slots; the C code does not check
    the tag, and a store past the table is outside this model (the update
    leaves the table as it is). *)
Definition tcb_update (q : apple_nvme_queue) (tag : Z)
    (f : apple_nvmmu_tcb -> apple_nvmmu_tcb) : apple_nvme_queue :=
  set_tcbs q (alter f (Z.to_nat tag) (ans2_tcb_ptr q)).

(** [apple_nvmmu_inval]; [stat] is the value read back from
    [APPLE_NVMMU_TCB_STAT]. *)
Definition apple_nvmmu_inval (nvmeq : apple_nvme_queue) (tag : Z) (stat : Z)
  : apple_nvme_queue * list hw_event :=
  let nvmeq := tcb_update nvmeq tag (fun _ => tcb_zero) in
  (nvmeq,
   [EvTcbMemset tag sizeof_tcb;
    EvWritel APPLE_NVMMU_TCB_INVAL (u32 tag);
    EvReadl APPLE_NVMMU_TCB_STAT stat] ++
   (if stat =? 0 then [] else [EvWarnInval])).

(** ** Submission *)

(** [apple_nvme_submit_cmd] *)
Definition apple_nvme_submit_cmd `{nvme_host} (nvmeq : apple_nvme_queue)
    (cmd : nvme_command) : apple_nvme_queue * list hw_event :=
  let tag := u16 (nvme_tag_from_cid (c_command_id cmd)) in
  let nvmeq := tcb_update nvmeq tag (fun _ => tcb_zero) in
  let nvmeq := tcb_update nvmeq tag (fun t => tcb_set_opcode t (c_opcode cmd)) in
  let nvmeq := tcb_update nvmeq tag (fun t => tcb_set_prp1 t (c_prp1 cmd)) in
  let nvmeq := tcb_update nvmeq tag (fun t => tcb_set_prp2 t (c_prp2 cmd)) in
  let nvmeq := tcb_update nvmeq tag (fun t => tcb_set_length t (rw_length cmd)) in
  let nvmeq := tcb_update nvmeq tag (fun t => tcb_set_command_id t tag) in
  let dma_flags :=
    if nvme_is_write cmd then APPLE_ANS2_TCB_DMA_TO_DEVICE
    else APPLE_ANS2_TCB_DMA_FROM_DEVICE in
  let nvmeq := tcb_update nvmeq tag (fun t => tcb_set_dma_flags t dma_flags) in
  let off := u32 (Z.shiftl tag (sqes nvmeq)) in
  let nvmeq := set_sq_cmds nvmeq (<[off := cmd]> (sq_cmds nvmeq)) in
  (nvmeq,
   [EvTcbMemset tag sizeof_tcb;
    EvTcbStore tag F_opcode (u8 (c_opcode cmd));
    EvTcbStore tag F_prp1 (u64 (c_prp1 cmd));
    EvTcbStore tag F_prp2 (u64 (c_prp2 cmd));
    EvTcbStore tag F_length (u32 (rw_length cmd));
    EvTcbStore tag F_command_id (u8 tag);
    EvTcbStore tag F_dma_flags dma_flags;
    EvSqMemcpy off sizeof_nvme_command cmd;
    EvDoorbell (ans2_q_db nvmeq) tag]).

(** ** Requests and the device context *)

(** Modelled from the spec: the status returned to the block layer
    ([blk_status_t] of the absent header [blk_types.h]).  The spec's
    kinds are [NotReady] (retry later: [BLK_STS_RESOURCE] and
    [BLK_STS_DEV_RESOURCE]) and [IoError] ([BLK_STS_IOERR]). *)
Inductive blk_status_t : Type :=
  | BLK_STS_OK
  | BLK_STS_NOTSUPP
  | BLK_STS_RESOURCE
  | BLK_STS_IOERR
  | BLK_STS_DEV_RESOURCE.

Definition blk_status_eqb (a b : blk_status_t) : bool :=
  match a, b with
  | BLK_STS_OK, BLK_STS_OK | BLK_STS_NOTSUPP, BLK_STS_NOTSUPP
  | BLK_STS_RESOURCE, BLK_STS_RESOURCE | BLK_STS_IOERR, BLK_STS_IOERR
  | BLK_STS_DEV_RESOURCE, BLK_STS_DEV_RESOURCE => true
  | _, _ => false
  end.

(** Modelled from the spec: the controller lifecycle state
    ([enum nvme_ctrl_state] of the absent header [nvme.h]): one of
    uninitialized, live, resetting, connecting, deleting. *)
Inductive nvme_ctrl_state : Type :=
  | NVME_CTRL_NEW
  | NVME_CTRL_LIVE
  | NVME_CTRL_RESETTING
  | NVME_CTRL_CONNECTING
  | NVME_CTRL_DELETING.

(** A scatterlist entry after DMA mapping: [sg_dma_address], [sg_dma_len]. *)
Abbreviation sg_entry := (Z * Z)%type (only parsing).

(** [struct apple_nvme_iod].  [iod_sg] is the mapped scatterlist,
    [iod_list] the array returned by [apple_nvme_iod_list]: the PRP pages
    of the request, each named by its DMA handle. *)
Record apple_nvme_iod : Type := mk_iod {
  iod_cmd : nvme_command;
  aborted : Z;
  npages : Z;
  nents : Z;
  first_dma : Z;
  dma_len : Z;
  meta_dma : Z;
  iod_sg : list sg_entry;
  iod_list : gmap Z Z
}.

Definition iod_set_cmd (d : apple_nvme_iod) (c : nvme_command) :=
  mk_iod c (aborted d) (npages d) (nents d) (first_dma d) (dma_len d)
    (meta_dma d) (iod_sg d) (iod_list d).
Definition iod_set_aborted (d : apple_nvme_iod) (v : Z) :=
  mk_iod (iod_cmd d) v (npages d) (nents d) (first_dma d) (dma_len d)
    (meta_dma d) (iod_sg d) (iod_list d).
Definition iod_set_npages (d : apple_nvme_iod) (v : Z) :=
  mk_iod (iod_cmd d) (aborted d) v (nents d) (first_dma d) (dma_len d)
    (meta_dma d) (iod_sg d) (iod_list d).
Definition iod_set_nents (d : apple_nvme_iod) (v : Z) :=
  mk_iod (iod_cmd d) (aborted d) (npages d) v (first_dma d) (dma_len d)
    (meta_dma d) (iod_sg d) (iod_list d).
Definition iod_set_first_dma (d : apple_nvme_iod) (v : Z) :=
  mk_iod (iod_cmd d) (aborted d) (npages d) (nents d) v (dma_len d)
    (meta_dma d) (iod_sg d) (iod_list d).
Definition iod_set_dma_len (d : apple_nvme_iod) (v : Z) :=
  mk_iod (iod_cmd d) (aborted d) (npages d) (nents d) (first_dma d) v
    (meta_dma d) (iod_sg d) (iod_list d).
Definition iod_set_meta_dma (d : apple_nvme_iod) (v : Z) :=
  mk_iod (iod_cmd d) (aborted d) (npages d) (nents d) (first_dma d)
    (dma_len d) v (iod_sg d) (iod_list d).
Definition iod_set_sg (d : apple_nvme_iod) (v : list sg_entry) :=
  mk_iod (iod_cmd d) (aborted d) (npages d) (nents d) (first_dma d)
    (dma_len d) (meta_dma d) v (iod_list d).
Definition iod_set_list (d : apple_nvme_iod) (v : gmap Z Z) :=
  mk_iod (iod_cmd d) (aborted d) (npages d) (nents d) (first_dma d)
    (dma_len d) (meta_dma d) (iod_sg d) v.

(** [struct bio_vec], as far as the driver reads it. *)
Record bio_vec : Type := mk_bvec { bv_offset : Z; bv_len : Z }.

(** [struct request] with its driver payload. *)
Record request : Type := mk_request {
  rq_tag : Z;
  rq_nr_phys_segments : Z;
  rq_bvec : bio_vec;
  rq_payload_bytes : Z;
  rq_integrity : bool;
  rq_flags : Z;
  rq_iod : apple_nvme_iod
}.

Definition rq_set_iod (r : request) (d : apple_nvme_iod) : request :=
  mk_request (rq_tag r) (rq_nr_phys_segments r) (rq_bvec r)
    (rq_payload_bytes r) (rq_integrity r) (rq_flags r) d.
Definition rq_set_flags (r : request) (f : Z) : request :=
  mk_request (rq_tag r) (rq_nr_phys_segments r) (rq_bvec r)
    (rq_payload_bytes r) (rq_integrity r) f (rq_iod r).

(** [struct apple_nvme_dev], the parts this development reads.  A DMA
    pool is the list of the blocks it can still hand out, each named by
    its DMA handle; [dma_mem] is the content of the PRP list blocks,
    addressed by block and 8-byte slot.  [abort_inflight] holds the abort
    commands handed to the admin queue whose completion has not run. *)
Record apple_nvme_dev : Type := mk_dev {
  prp_page_pool : list Z;
  prp_small_pool : list Z;
  dma_mem : gmap (Z * Z) Z;
  db_stride : Z;
  ctrl_state : nvme_ctrl_state;
  abort_limit : Z;
  abort_inflight : list nvme_command
}.

Definition dev_set_page_pool (d : apple_nvme_dev) (p : list Z) :=
  mk_dev p (prp_small_pool d) (dma_mem d) (db_stride d) (ctrl_state d) (abort_limit d)
    (abort_inflight d).
Definition dev_set_small_pool (d : apple_nvme_dev) (p : list Z) :=
  mk_dev (prp_page_pool d) p (dma_mem d) (db_stride d) (ctrl_state d) (abort_limit d)
    (abort_inflight d).
Definition dev_set_mem (d : apple_nvme_dev) (m : gmap (Z * Z) Z) :=
  mk_dev (prp_page_pool d) (prp_small_pool d) m (db_stride d) (ctrl_state d)
    (abort_limit d) (abort_inflight d).
Definition dev_set_state (d : apple_nvme_dev) (s : nvme_ctrl_state) :=
  mk_dev (prp_page_pool d) (prp_small_pool d) (dma_mem d) (db_stride d) s
    (abort_limit d) (abort_inflight d).
Definition dev_set_abort_limit (d : apple_nvme_dev) (v : Z) :=
  mk_dev (prp_page_pool d) (prp_small_pool d) (dma_mem d) (db_stride d) (ctrl_state d)
    v (abort_inflight d).
Definition dev_set_inflight (d : apple_nvme_dev) (l : list nvme_command) :=
  mk_dev (prp_page_pool d) (prp_small_pool d) (dma_mem d) (db_stride d) (ctrl_state d)
    (abort_limit d) l.

(** ** DMA pools *)

(** Which of the two pools the local [pool] of [apple_nvme_setup_prps]
    points to. *)
Inductive pool_sel : Type := SmallPool | PagePool.

Definition pool_of (dev : apple_nvme_dev) (p : pool_sel) : list Z :=
  match p with
  | SmallPool => prp_small_pool dev
  | PagePool => prp_page_pool dev
  end.

Definition dev_set_pool (dev : apple_nvme_dev) (p : pool_sel) (l : list Z) :=
  match p with
  | SmallPool => dev_set_small_pool dev l
  | PagePool => dev_set_page_pool dev l
  end.

(** [dma_pool_alloc(pool, GFP_ATOMIC, &prp_dma)]: the block handed out,
    or [None] when the pool is exhausted. *)
Definition dma_pool_alloc (dev : apple_nvme_dev) (p : pool_sel)
  : option (Z * apple_nvme_dev) :=
  match pool_of dev p with
  | [] => None
  | b :: rest => Some (b, dev_set_pool dev p rest)
  end.

Definition dma_pool_free (dev : apple_nvme_dev) (p : pool_sel) (b : Z)
  : apple_nvme_dev :=
  dev_set_pool dev p (b :: pool_of dev p).

(** [prp_list[i]] read and written through the block's mapping. *)
Definition prp_read (dev : apple_nvme_dev) (blk i : Z) : Z :=
  default 0 (dma_mem dev !! (blk, i)).
Definition prp_write (dev : apple_nvme_dev) (blk i v : Z) : apple_nvme_dev :=
  dev_set_mem dev (<[(blk, i) := u64 v]> (dma_mem dev)).

(** [apple_nvme_free_prps] *)
Fixpoint free_prps_loop (n : nat) (i : Z) (dev : apple_nvme_dev)
    (list : gmap Z Z) (dma_addr : Z) : apple_nvme_dev :=
  match n with
  | O => dev
  | S n' =>
      let last_prp := NVME_CTRL_PAGE_SIZE / 8 - 1 in
      let prp_list := default 0 (list !! i) in
      let next_dma_addr := prp_read dev prp_list last_prp in
      let dev := dma_pool_free dev PagePool prp_list in
      free_prps_loop n' (i + 1) dev list next_dma_addr
  end.

Definition apple_nvme_free_prps (dev : apple_nvme_dev) (iod : apple_nvme_iod)
  : apple_nvme_dev :=
  free_prps_loop (Z.to_nat (npages iod)) 0 dev (iod_list iod) (first_dma iod).

(** [apple_nvme_unmap_data] *)
Definition apple_nvme_unmap_data (dev : apple_nvme_dev) (iod : apple_nvme_iod)
  : apple_nvme_dev :=
  if negb (dma_len iod =? 0) then dev
  else if npages iod =? 0 then
    dma_pool_free dev SmallPool (default 0 (iod_list iod !! 0))
  else apple_nvme_free_prps dev iod.

(** ** Results of code that can dereference a null scatterlist pointer *)

(** [Ok] is a normal return.  [NullDeref] is [sg_dma_address] applied to
    the null pointer [sg_next] returns past the last entry.  [NoFuel] is
    the bound of the model's loop counter being hit before the loop
    ended. *)
Inductive exec (A : Type) : Type :=
  | Ok (a : A)
  | NullDeref
  | NoFuel.
Arguments Ok {A} a.
Arguments NullDeref {A}.
Arguments NoFuel {A}.

#[global] Instance exec_ret : MRet exec := fun _ a => Ok a.
#[global] Instance exec_bind : MBind exec := fun _ _ k m =>
  match m with
  | Ok a => k a
  | NullDeref => NullDeref
  | NoFuel => NoFuel
  end.

(** ** PRP builder *)

(** The scatterlist cursor [sg] is the list of the entries from the
    current one on; [sg_next] drops the current one. *)
Definition sg_next (sg : list sg_entry) : list sg_entry := tail sg.

Definition sg_load (sg : list sg_entry) : exec (Z * Z) :=
  match sg with
  | [] => NullDeref
  | (a, l) :: _ => Ok (u64 a, u32 l)
  end.

(** The locals of [apple_nvme_setup_prps] that live across iterations of
    its [for (;;)] loop, with the device and the iod it updates. *)
Record prp_loop_state : Type := mk_pls {
  pl_dev : apple_nvme_dev;
  pl_iod : apple_nvme_iod;
  pl_prp_list : Z;
  pl_i : Z;
  pl_sg : list sg_entry;
  pl_dma_addr : Z;
  pl_dma_len : Z;
  pl_length : Z
}.

(** How one iteration leaves the loop body. *)
Inductive prp_step : Type :=
  | PrpContinue (s : prp_loop_state)
  | PrpBreak (s : prp_loop_state)
  | PrpFreePrps (s : prp_loop_state)
  | PrpBadSgl (s : prp_loop_state).

(** The block under [if (i == NVME_CTRL_PAGE_SIZE >> 3)]: when the
    current PRP block is full, take a new block, move the last entry to
    its first slot and leave the address of the new block in its place.
    [None] is the [goto free_prps] of a failed allocation; otherwise the
    device, the iod, [prp_list] and [i] after the block. *)
Definition prp_next_page (pool : pool_sel) (s : prp_loop_state)
  : option (apple_nvme_dev * apple_nvme_iod * Z * Z) :=
  let dev := pl_dev s in
  let iod := pl_iod s in
  let prp_list := pl_prp_list s in
  let i := pl_i s in
  if i =? Z.shiftr NVME_CTRL_PAGE_SIZE 3 then
    let old_prp_list := prp_list in
    match dma_pool_alloc dev pool with
    | None => None
    | Some (prp_dma, dev) =>
        let iod := iod_set_list iod (<[npages iod := prp_dma]> (iod_list iod)) in
        let iod := iod_set_npages iod (s32 (npages iod + 1)) in
        let dev := prp_write dev prp_dma 0 (prp_read dev old_prp_list (i - 1)) in
        let dev := prp_write dev old_prp_list (i - 1) prp_dma in
        Some (dev, iod, prp_dma, 1)
    end
  else Some (dev, iod, prp_list, i).

(** One iteration of the loop. *)
Definition prp_loop_body (pool : pool_sel) (s : prp_loop_state)
  : exec prp_step :=
  match prp_next_page pool s with
  | None => Ok (PrpFreePrps s)
  | Some (dev, iod, prp_list, i) =>
      let dev := prp_write dev prp_list i (pl_dma_addr s) in
      let i := s32 (i + 1) in
      let dma_len := s32 (pl_dma_len s - NVME_CTRL_PAGE_SIZE) in
      let dma_addr := u64 (pl_dma_addr s + NVME_CTRL_PAGE_SIZE) in
      let length := s32 (pl_length s - NVME_CTRL_PAGE_SIZE) in
      if length <=? 0 then
        Ok (PrpBreak (mk_pls dev iod prp_list i (pl_sg s) dma_addr dma_len length))
      else if 0 <? dma_len then
        Ok (PrpContinue (mk_pls dev iod prp_list i (pl_sg s) dma_addr dma_len length))
      else if dma_len <? 0 then
        Ok (PrpBadSgl (mk_pls dev iod prp_list i (pl_sg s) dma_addr dma_len length))
      else
        let sg := sg_next (pl_sg s) in
        '(dma_addr, dma_len) ← sg_load sg;
        Ok (PrpContinue (mk_pls dev iod prp_list i sg dma_addr (s32 dma_len) length))
  end.

(** The loop, cut after [fuel] iterations. *)
Fixpoint prp_loop (fuel : nat) (pool : pool_sel) (s : prp_loop_state)
  : exec prp_step :=
  match fuel with
  | O => NoFuel
  | S fuel' =>
      r ← prp_loop_body pool s;
      match r with
      | PrpContinue s' => prp_loop fuel' pool s'
      | _ => Ok r
      end
  end.

(** The label [done:] of [apple_nvme_setup_prps]. *)
Definition prps_done (dev : apple_nvme_dev) (iod : apple_nvme_iod)
    (cmnd : nvme_command)
  : exec (blk_status_t * apple_nvme_dev * apple_nvme_iod * nvme_command) :=
  '(a0, _) ← sg_load (iod_sg iod);
  let cmnd := set_prp1 cmnd a0 in
  let cmnd := set_prp2 cmnd (u64 (first_dma iod)) in
  Ok (BLK_STS_OK, dev, iod, cmnd).

(** [apple_nvme_setup_prps]; [payload] is [blk_rq_payload_bytes(req)].
    [length], [dma_len], [offset], [nprps] and [i] are [int]s.  Every
    iteration of the loop takes a page off [length], so the loop counter
    below is never exhausted before the loop ends. *)
Definition apple_nvme_setup_prps (dev : apple_nvme_dev) (iod : apple_nvme_iod)
    (payload : Z) (cmnd : nvme_command)
  : exec (blk_status_t * apple_nvme_dev * apple_nvme_iod * nvme_command) :=
  let length := s32 payload in
  let sg := iod_sg iod in
  '(dma_addr, dma_len) ← sg_load sg;
  let dma_len := s32 dma_len in
  let offset := s32 (Z.land dma_addr (NVME_CTRL_PAGE_SIZE - 1)) in
  let length := s32 (length - (NVME_CTRL_PAGE_SIZE - offset)) in
  if length <=? 0 then
    prps_done dev (iod_set_first_dma iod 0) cmnd
  else
    let dma_len := s32 (dma_len - (NVME_CTRL_PAGE_SIZE - offset)) in
    '(sg, dma_addr, dma_len) ←
      (if negb (dma_len =? 0) then
         Ok (sg, u64 (dma_addr + (NVME_CTRL_PAGE_SIZE - offset)), dma_len)
       else
         let sg := sg_next sg in
         '(a, l) ← sg_load sg;
         Ok (sg, a, s32 l));
    if length <=? NVME_CTRL_PAGE_SIZE then
      prps_done dev (iod_set_first_dma iod dma_addr) cmnd
    else
      let nprps := s32 (DIV_ROUND_UP_int length NVME_CTRL_PAGE_SIZE) in
      let pool := if nprps <=? 256 / 8 then SmallPool else PagePool in
      let iod := iod_set_npages iod (if nprps <=? 256 / 8 then 0 else 1) in
      match dma_pool_alloc dev pool with
      | None =>
          let iod := iod_set_first_dma iod dma_addr in
          let iod := iod_set_npages iod (-1) in
          Ok (BLK_STS_RESOURCE, dev, iod, cmnd)
      | Some (prp_dma, dev) =>
          let iod := iod_set_list iod (<[0 := prp_dma]> (iod_list iod)) in
          let iod := iod_set_first_dma iod prp_dma in
          let s := mk_pls dev iod prp_dma 0 sg dma_addr dma_len length in
          r ← prp_loop (Z.to_nat (length / NVME_CTRL_PAGE_SIZE) + 1) pool s;
          match r with
          | PrpContinue _ => NoFuel
          | PrpBreak s' => prps_done (pl_dev s') (pl_iod s') cmnd
          | PrpFreePrps s' =>
              Ok (BLK_STS_RESOURCE,
                  apple_nvme_free_prps (pl_dev s') (pl_iod s'), pl_iod s', cmnd)
          | PrpBadSgl s' => Ok (BLK_STS_IOERR, pl_dev s', pl_iod s', cmnd)
          end
      end.

(** What the kernel returns to the calls the mapping code makes:
    [dma_map_bvec] and [dma_mapping_error] on the data and on the
    integrity vector, [mempool_alloc], [blk_rq_map_sg] and
    [dma_map_sg_attrs] with the scatterlist they leave mapped. *)
Record dma_oracle : Type := mk_dma_oracle {
  o_bvec_dma : Z;
  o_bvec_err : bool;
  o_sg_alloc : bool;
  o_nents : Z;
  o_nr_mapped : Z;
  o_sgl : list sg_entry;
  o_meta_dma : Z;
  o_meta_err : bool
}.

(** [apple_nvme_setup_prp_simple] *)
Definition apple_nvme_setup_prp_simple (o : dma_oracle) (iod : apple_nvme_iod)
    (cmnd : nvme_command) (bv : bio_vec)
  : blk_status_t * apple_nvme_iod * nvme_command :=
  let offset := u32 (Z.land (bv_offset bv) (NVME_CTRL_PAGE_SIZE - 1)) in
  let first_prp_len := u32 (NVME_CTRL_PAGE_SIZE - offset) in
  let iod := iod_set_first_dma iod (u64 (o_bvec_dma o)) in
  if o_bvec_err o then (BLK_STS_RESOURCE, iod, cmnd)
  else
    let iod := iod_set_dma_len iod (u32 (bv_len bv)) in
    let cmnd := set_prp1 cmnd (first_dma iod) in
    let cmnd :=
      if first_prp_len <? u32 (bv_len bv)
      then set_prp2 cmnd (u64 (first_dma iod + first_prp_len))
      else cmnd in
    (BLK_STS_OK, iod, cmnd).

(** [apple_nvme_map_data] *)
Definition apple_nvme_map_data (o : dma_oracle) (dev : apple_nvme_dev)
    (req : request) (cmnd : nvme_command)
  : exec (blk_status_t * apple_nvme_dev * apple_nvme_iod * nvme_command) :=
  let iod := rq_iod req in
  let bv := rq_bvec req in
  if (rq_nr_phys_segments req =? 1) &&
     (u32 (bv_offset bv + bv_len bv) <=? NVME_CTRL_PAGE_SIZE * 2) then
    let '(ret, iod, cmnd) := apple_nvme_setup_prp_simple o iod cmnd bv in
    Ok (ret, dev, iod, cmnd)
  else
    let iod := iod_set_dma_len iod 0 in
    if negb (o_sg_alloc o) then Ok (BLK_STS_RESOURCE, dev, iod, cmnd)
    else
      let iod := iod_set_nents iod (s32 (o_nents o)) in
      if nents iod =? 0 then Ok (BLK_STS_RESOURCE, dev, iod, cmnd)
      else if s32 (o_nr_mapped o) =? 0 then Ok (BLK_STS_RESOURCE, dev, iod, cmnd)
      else
        let iod := iod_set_sg iod (o_sgl o) in
        '(ret, dev, iod, cmnd) ←
          apple_nvme_setup_prps dev iod (rq_payload_bytes req) cmnd;
        Ok (ret, dev, iod, cmnd).

(** [apple_nvme_map_metadata] *)
Definition apple_nvme_map_metadata (o : dma_oracle) (iod : apple_nvme_iod)
    (cmnd : nvme_command) : blk_status_t * apple_nvme_iod * nvme_command :=
  let iod := iod_set_meta_dma iod (u64 (o_meta_dma o)) in
  if o_meta_err o then (BLK_STS_IOERR, iod, cmnd)
  else (BLK_STS_OK, iod, set_metadata cmnd (meta_dma iod)).

(** ** Calls into the rest of the kernel

    Functions of the block layer and of the NVMe core, and the device-wide
    [apple_nvme_dev_disable], appear as entries of a call log, in program
    order. *)
Inductive drv_event : Type :=
  | CallStartRequest (tag : Z)
  | CallCleanupCmd (tag : Z)
  | CallCompleteAsyncEvent (status result : Z)
  | CallWarnInvalidId (command_id sq_id : Z)
  | CallTryCompleteReq (command_id status result : Z)
  | CallCommonCompleteRq (command_id : Z)
  | CallWarnReset (csts : Z)
  | CallDevDisable (shutdown : bool)
  | CallResetCtrl
  | CallPollIrqdisable (adminq : bool)
  | CallWarnPolled (tag : Z)
  | CallChangeCtrlState (s : nvme_ctrl_state)
  | CallWarnDisable (tag : Z)
  | CallWarnTimeoutReset (tag : Z)
  | CallWarnAborting (tag : Z)
  | CallExecuteRqNowait (cmd : nvme_command).

(** ** [apple_nvme_queue_rq] *)

(** What the NVMe core answers during one submission: [nvme_check_ready],
    [nvme_fail_nonready_command], and [nvme_setup_cmd] with the command it
    builds in [iod->cmd]. *)
Record rq_oracle : Type := mk_rq_oracle {
  o_check_ready : bool;
  o_fail_nonready : blk_status_t;
  o_setup_status : blk_status_t;
  o_setup_cmd : nvme_command;
  o_dma : dma_oracle
}.

Record rq_result : Type := mk_rq_result {
  r_status : blk_status_t;
  r_nvmeq : apple_nvme_queue;
  r_dev : apple_nvme_dev;
  r_req : request;
  r_hw : list hw_event;
  r_calls : list drv_event
}.

Definition test_bit (nr : Z) (flags : Z) : bool := Z.testbit flags nr.

Definition apple_nvme_queue_rq `{nvme_host} (o : rq_oracle)
    (nvmeq : apple_nvme_queue) (dev : apple_nvme_dev) (req : request)
  : exec rq_result :=
  let iod := rq_iod req in
  let iod := iod_set_aborted iod 0 in
  let iod := iod_set_npages iod (-1) in
  let iod := iod_set_nents iod 0 in
  let req := rq_set_iod req iod in
  if negb (test_bit NVMEQ_ENABLED (q_flags nvmeq)) then
    Ok (mk_rq_result BLK_STS_IOERR nvmeq dev req [] [])
  else if negb (o_check_ready o) then
    Ok (mk_rq_result (o_fail_nonready o) nvmeq dev req [] [])
  else
    let iod := iod_set_cmd iod (o_setup_cmd o) in
    let req := rq_set_iod req iod in
    if negb (blk_status_eqb (o_setup_status o) BLK_STS_OK) then
      Ok (mk_rq_result (o_setup_status o) nvmeq dev req [] [])
    else
      '(ret, dev, iod) ←
        (if negb (rq_nr_phys_segments req =? 0) then
           '(ret, dev, iod, cmnd) ←
             apple_nvme_map_data (o_dma o) dev req (iod_cmd iod);
           Ok (ret, dev, iod_set_cmd iod cmnd)
         else Ok (BLK_STS_OK, dev, iod));
      let req := rq_set_iod req iod in
      if negb (blk_status_eqb ret BLK_STS_OK) then
        Ok (mk_rq_result ret nvmeq dev req [] [CallCleanupCmd (rq_tag req)])
      else
        let '(ret, iod) :=
          if rq_integrity req then
            let '(ret, iod, cmnd) :=
              apple_nvme_map_metadata (o_dma o) iod (iod_cmd iod) in
            (ret, iod_set_cmd iod cmnd)
          else (BLK_STS_OK, iod) in
        let req := rq_set_iod req iod in
        if negb (blk_status_eqb ret BLK_STS_OK) then
          let dev := apple_nvme_unmap_data dev iod in
          Ok (mk_rq_result ret nvmeq dev req [] [CallCleanupCmd (rq_tag req)])
        else
          let '(nvmeq, hw) := apple_nvme_submit_cmd nvmeq (iod_cmd iod) in
          Ok (mk_rq_result BLK_STS_OK nvmeq dev req hw
                [CallStartRequest (rq_tag req)]).

(** ** Completion reaper *)

(** What the tag set and the NVMMU answer while a ring is drained:
    [nvme_find_rq], [nvme_try_complete_req], and the value read back from
    [APPLE_NVMMU_TCB_STAT] after invalidating a tag. *)
Record cq_oracle : Type := mk_cq_oracle {
  o_find_rq : Z -> bool;
  o_try_complete : Z -> bool;
  o_tcb_stat : Z -> Z
}.

Definition cqe_zero : nvme_completion := mk_cqe 0 0 0 0 0.

(** [&nvmeq->cqes[idx]].  The ring holds [q_depth] entries and the head
    stays below [q_depth]; an index past the ring is outside this model
    and reads as a zeroed entry. *)
Definition cqe_at (nvmeq : apple_nvme_queue) (idx : Z) : nvme_completion :=
  default cqe_zero (cqes nvmeq !! Z.to_nat idx).

(** [apple_nvme_cqe_pending] *)
Definition apple_nvme_cqe_pending (nvmeq : apple_nvme_queue) : bool :=
  let hcqe := cqe_at nvmeq (cq_head nvmeq) in
  Z.land (cqe_status hcqe) 1 =? cq_phase nvmeq.

(** [apple_nvme_queue_id] *)
Definition apple_nvme_queue_id (nvmeq : apple_nvme_queue) : Z :=
  if is_adminq nvmeq then 0 else 1.

(** [apple_nvme_ring_cq_doorbell]; [q_db] is a [u32] pointer. *)
Definition apple_nvme_ring_cq_doorbell (dev : apple_nvme_dev)
    (nvmeq : apple_nvme_queue) : list hw_event :=
  [EvDoorbell (q_db nvmeq + 4 * db_stride dev) (cq_head nvmeq)].

(** [apple_nvme_handle_cqe] *)
Definition apple_nvme_handle_cqe `{nvme_host} (o : cq_oracle)
    (nvmeq : apple_nvme_queue) (idx : Z)
  : apple_nvme_queue * list hw_event * list drv_event :=
  let cqe := cqe_at nvmeq idx in
  let command_id := cqe_command_id cqe in
  let tag := u16 (nvme_tag_from_cid command_id) in
  let '(nvmeq, hw) := apple_nvmmu_inval nvmeq tag (o_tcb_stat o tag) in
  if nvme_is_aen_req (apple_nvme_queue_id nvmeq) command_id then
    (nvmeq, hw, [CallCompleteAsyncEvent (cqe_status cqe) (cqe_result cqe)])
  else if negb (o_find_rq o command_id) then
    (nvmeq, hw, [CallWarnInvalidId command_id (cqe_sq_id cqe)])
  else if negb (o_try_complete o command_id) then
    (nvmeq, hw,
     [CallTryCompleteReq command_id (cqe_status cqe) (cqe_result cqe);
      CallCommonCompleteRq command_id])
  else
    (nvmeq, hw,
     [CallTryCompleteReq command_id (cqe_status cqe) (cqe_result cqe)]).

(** [apple_nvme_update_cq_head] *)
Definition apple_nvme_update_cq_head (nvmeq : apple_nvme_queue)
  : apple_nvme_queue :=
  let tmp := u32 (cq_head nvmeq + 1) in
  if tmp =? q_depth nvmeq then
    set_cq nvmeq 0 (u8 (Z.lxor (cq_phase nvmeq) 1))
  else
    set_cq nvmeq (u16 tmp) (cq_phase nvmeq).

(** An entry handed to [apple_nvme_handle_cqe]: its index, its content
    and the phase the queue expected when it was taken. *)
Record consumed : Type := mk_consumed {
  cons_idx : Z;
  cons_cqe : nvme_completion;
  cons_phase : Z
}.

Record cq_run : Type := mk_cq_run {
  run_nvmeq : apple_nvme_queue;
  run_found : Z;
  run_hw : list hw_event;
  run_calls : list drv_event;
  run_consumed : list consumed
}.

(** The [while] loop of [nvme_process_cq], cut after [fuel] iterations. *)
Fixpoint process_cq_loop `{nvme_host} (fuel : nat) (o : cq_oracle)
    (r : cq_run) : exec cq_run :=
  if apple_nvme_cqe_pending (run_nvmeq r) then
    match fuel with
    | O => NoFuel
    | S fuel' =>
        let nvmeq := run_nvmeq r in
        let found := s32 (run_found r + 1) in
        let c := mk_consumed (cq_head nvmeq) (cqe_at nvmeq (cq_head nvmeq))
                   (cq_phase nvmeq) in
        let '(nvmeq, hw, calls) :=
          apple_nvme_handle_cqe o nvmeq (cq_head nvmeq) in
        let nvmeq := apple_nvme_update_cq_head nvmeq in
        process_cq_loop fuel' o
          (mk_cq_run nvmeq found (run_hw r ++ hw) (run_calls r ++ calls)
             (run_consumed r ++ [c]))
    end
  else Ok r.

(** [nvme_process_cq].  The ring is read as it stands when the drain
    starts; at most [q_depth] entries can then carry the expected phase
    (see [process_cq_loop_total]), which bounds the loop. *)
Definition nvme_process_cq `{nvme_host} (o : cq_oracle)
    (dev : apple_nvme_dev) (nvmeq : apple_nvme_queue) : exec cq_run :=
  r ← process_cq_loop (Z.to_nat (q_depth nvmeq)) o
        (mk_cq_run nvmeq 0 [] [] []);
  if negb (run_found r =? 0) then
    Ok (mk_cq_run (run_nvmeq r) (run_found r)
          (run_hw r ++ apple_nvme_ring_cq_doorbell dev (run_nvmeq r))
          (run_calls r) (run_consumed r))
  else Ok r.

(** ** Timeout handler *)

Inductive blk_eh_timer_return : Type :=
  | BLK_EH_DONE
  | BLK_EH_RESET_TIMER.

(** What the handler observes: the [CSTS] register, whether the request
    is found completed after the forced poll, and whether
    [nvme_alloc_request] could allocate the abort request. *)
Record timeout_oracle : Type := mk_timeout_oracle {
  o_csts : Z;
  o_completed : bool;
  o_alloc_ok : bool
}.

(** [atomic_dec_return], [atomic_inc] on an [atomic_t]. *)
Definition atomic_dec_return (v : Z) : Z := s32 (v - 1).
Definition atomic_inc (v : Z) : Z := s32 (v + 1).

(** [apple_abort_endio], for the [k]-th abort request in flight. *)
Definition apple_abort_endio (dev : apple_nvme_dev) (k : nat)
  : apple_nvme_dev :=
  let dev := dev_set_abort_limit dev (atomic_inc (abort_limit dev)) in
  dev_set_inflight dev (delete k (abort_inflight dev)).

(** [apple_nvme_should_reset] *)
Definition apple_nvme_should_reset `{nvme_host} (dev : apple_nvme_dev)
    (csts : Z) : bool :=
  match ctrl_state dev with
  | NVME_CTRL_RESETTING | NVME_CTRL_CONNECTING => false
  | _ => negb (Z.land csts NVME_CSTS_CFS =? 0)
  end.

Record timeout_result : Type := mk_timeout_result {
  t_ret : blk_eh_timer_return;
  t_dev : apple_nvme_dev;
  t_req : request;
  t_calls : list drv_event
}.

(** [apple_nvme_timeout].  [t_dev] is the device record after the
    handler's own stores and after [nvme_change_ctrl_state]; what
    [apple_nvme_dev_disable] and [nvme_reset_ctrl] do to the device
    (queues suspended, requests cancelled, the state moved to resetting)
    is not applied to it: these two appear in the call log only. *)
Definition apple_nvme_timeout `{nvme_host} (o : timeout_oracle)
    (dev : apple_nvme_dev) (nvmeq : apple_nvme_queue) (req : request)
  : timeout_result :=
  let iod := rq_iod req in
  let csts := u32 (o_csts o) in
  if apple_nvme_should_reset dev csts then
    mk_timeout_result BLK_EH_DONE dev req
      [CallWarnReset csts; CallDevDisable false; CallResetCtrl]
  else
    let log := [CallPollIrqdisable (is_adminq nvmeq)] in
    if o_completed o then
      mk_timeout_result BLK_EH_DONE dev req (log ++ [CallWarnPolled (rq_tag req)])
    else
      let shutdown_now (dev : apple_nvme_dev) (log : list drv_event) :=
        let req := rq_set_flags req (u8 (Z.lor (rq_flags req) NVME_REQ_CANCELLED)) in
        mk_timeout_result BLK_EH_DONE dev req
          (log ++ [CallWarnDisable (rq_tag req); CallDevDisable true]) in
      match ctrl_state dev with
      | NVME_CTRL_CONNECTING =>
          shutdown_now (dev_set_state dev NVME_CTRL_DELETING)
            (log ++ [CallChangeCtrlState NVME_CTRL_DELETING])
      | NVME_CTRL_DELETING => shutdown_now dev log
      | NVME_CTRL_RESETTING => mk_timeout_result BLK_EH_RESET_TIMER dev req log
      | _ =>
          if is_adminq nvmeq || negb (aborted iod =? 0) then
            let req := rq_set_flags req (u8 (Z.lor (rq_flags req) NVME_REQ_CANCELLED)) in
            mk_timeout_result BLK_EH_DONE dev req
              (log ++ [CallWarnTimeoutReset (rq_tag req); CallDevDisable false;
                       CallResetCtrl])
          else
            let dev := dev_set_abort_limit dev (atomic_dec_return (abort_limit dev)) in
            if abort_limit dev <? 0 then
              let dev := dev_set_abort_limit dev (atomic_inc (abort_limit dev)) in
              mk_timeout_result BLK_EH_RESET_TIMER dev req log
            else
              let iod := iod_set_aborted iod 1 in
              let req := rq_set_iod req iod in
              let cmd := set_opcode nvme_command_zero nvme_admin_abort_cmd in
              let cmd := set_abort cmd 1 (rq_tag req) in
              let log := log ++ [CallWarnAborting (rq_tag req)] in
              if negb (o_alloc_ok o) then
                let dev := dev_set_abort_limit dev (atomic_inc (abort_limit dev)) in
                mk_timeout_result BLK_EH_RESET_TIMER dev req log
              else
                let dev := dev_set_inflight dev (abort_inflight dev ++ [cmd]) in
                mk_timeout_result BLK_EH_RESET_TIMER dev req
                  (log ++ [CallExecuteRqNowait cmd])
      end.

(** ** The driver as a transition system on the abort budget

    A step is one run of the timeout handler, on any request and with
    any answers from the environment, or the completion of one abort
    command in flight. *)
Inductive drv_step `{nvme_host} : apple_nvme_dev -> apple_nvme_dev -> Prop :=
  | step_timeout (o : timeout_oracle) (dev : apple_nvme_dev)
      (nvmeq : apple_nvme_queue) (req : request) :
      drv_step dev (t_dev (apple_nvme_timeout o dev nvmeq req))
  | step_abort_endio (dev : apple_nvme_dev) (k : nat) :
      (k < length (abort_inflight dev))%nat ->
      drv_step dev (apple_abort_endio dev k).

Inductive drv_steps `{nvme_host} : apple_nvme_dev -> apple_nvme_dev -> Prop :=
  | steps_refl (dev : apple_nvme_dev) : drv_steps dev dev
  | steps_snoc (d1 d2 d3 : apple_nvme_dev) :
      drv_steps d1 d2 -> drv_step d2 d3 -> drv_steps d1 d3.

(** ** Reading the device-visible state back *)

#[global] Instance hw_region_eq_dec : EqDecision hw_region.
Proof. solve_decision. Defined.

(** The regions a trace writes, in order, runs of stores to one region
    counted once. *)
Fixpoint squash_runs (l : list hw_region) : list hw_region :=
  match l with
  | [] => []
  | r :: rest =>
      match rest with
      | [] => [r]
      | r' :: _ => if decide (r = r') then squash_runs rest
                   else r :: squash_runs rest
      end
  end.

Definition write_order (tr : list hw_event) : list hw_region :=
  squash_runs (event_region <$> tr).

(** The spec's [NotReady] kind: the caller should retry later. *)
Definition is_not_ready (s : blk_status_t) : bool :=
  match s with
  | BLK_STS_RESOURCE | BLK_STS_DEV_RESOURCE => true
  | _ => false
  end.

(** The helpers of the absent header [nvme.h] as mainline Linux defines
    them; used for the concrete runs below only.  A fabrics command
    (opcode 0x7f) is a write when bit 0 of its [fctype] is set, the byte
    that follows the command id, which is the low byte of [c_nsid]; an
    asynchronous event request is a completion of the admin queue whose
    tag is at least [NVME_AQ_BLK_MQ_DEPTH], 31. *)
Definition linux_nvme_host : nvme_host := {|
  nvme_tag_from_cid := fun cid => Z.land cid 0xfff;
  nvme_is_write := fun c =>
    if c_opcode c =? 0x7f then Z.testbit (c_nsid c) 0
    else Z.testbit (c_opcode c) 0;
  nvme_is_aen_req := fun qid cid =>
    (qid =? 0) && (31 <=? Z.land cid 0xfff);
  NVME_CSTS_CFS := 2;
  NVME_REQ_CANCELLED := 1;
  nvme_admin_abort_cmd := 8
|}.

(** *** PRP lists as the controller reads them *)

Definition last_prp : Z := NVME_CTRL_PAGE_SIZE / 8 - 1.

(** The [n] entries of the PRP list that starts at slot [i] of block
    [blk]: the last slot of a block holds the address of the next block
    when more than one entry is still to be read. *)
Fixpoint prp_walk (mem : gmap (Z * Z) Z) (blk i : Z) (n : nat)
  : option (list Z) :=
  match n with
  | O => Some []
  | S n' =>
      if (i =? last_prp) && negb (Nat.eqb n' 0) then
        next ← mem !! (blk, i);
        e ← mem !! (next, 0);
        es ← prp_walk mem next 1 n';
        Some (e :: es)
      else
        e ← mem !! (blk, i);
        es ← prp_walk mem blk (i + 1) n';
        Some (e :: es)
  end.

(** The memory a list of pointers covers when [remaining] bytes are to
    be moved: each pointer runs to the end of its page at most. *)
Fixpoint prp_cover (ptrs : list Z) (remaining : Z) : list (Z * Z) :=
  match ptrs with
  | [] => []
  | p :: ps =>
      let n := Z.min remaining (NVME_CTRL_PAGE_SIZE - p mod NVME_CTRL_PAGE_SIZE) in
      (p, n) :: prp_cover ps (remaining - n)
  end.

(** The transfer a command describes: [prp1] alone, [prp1] and [prp2] as
    two data pointers, or [prp1] and the list [prp2] points to. *)
Definition prp_decode (mem : gmap (Z * Z) Z) (prp1 prp2 total : Z)
  : option (list (Z * Z)) :=
  let first := Z.min total (NVME_CTRL_PAGE_SIZE - prp1 mod NVME_CTRL_PAGE_SIZE) in
  let rest := total - first in
  if rest <=? 0 then Some (prp_cover [prp1] total)
  else if rest <=? NVME_CTRL_PAGE_SIZE then Some (prp_cover [prp1; prp2] total)
  else
    ptrs ← prp_walk mem prp2 0 (Z.to_nat (DIV_ROUND_UP rest NVME_CTRL_PAGE_SIZE));
    Some (prp_cover (prp1 :: ptrs) total).

(** *** Scatterlists cut at page boundaries *)

Fixpoint pieces_n (k : nat) (a l : Z) : list (Z * Z) :=
  match k with
  | O => []
  | S k' =>
      let c := NVME_CTRL_PAGE_SIZE - a mod NVME_CTRL_PAGE_SIZE in
      if l <=? c then [(a, l)]
      else (a, c) :: pieces_n k' (a + c) (l - c)
  end.

(** The pieces of one fragment: from its address to the next page
    boundary, then page after page. *)
Definition frag_pieces (f : sg_entry) : list (Z * Z) :=
  pieces_n
    (Z.to_nat (DIV_ROUND_UP (f.1 mod NVME_CTRL_PAGE_SIZE + f.2)
                 NVME_CTRL_PAGE_SIZE))
    f.1 f.2.

Definition sgl_pieces (sgl : list sg_entry) : list (Z * Z) :=
  concat (frag_pieces <$> sgl).

Definition sum_list (l : list Z) : Z := foldr Z.add 0 l.

Definition sgl_bytes (sgl : list sg_entry) : Z := sum_list (snd <$> sgl).

(** The fragments after the first one of a list the block layer builds
    under the controller's virtual boundary: each starts on a page
    boundary, and each but the last is a whole number of pages. *)
Fixpoint sgl_tail_ok (sgl : list sg_entry) : bool :=
  match sgl with
  | [] => true
  | (a, l) :: rest =>
      (0 <=? a) && (0 <? l) && (a + l <=? 2 ^ 64) &&
      (a mod NVME_CTRL_PAGE_SIZE =? 0) &&
      (match rest with
       | [] => true
       | _ => l mod NVME_CTRL_PAGE_SIZE =? 0
       end) &&
      sgl_tail_ok rest
  end.

(** A list the block layer builds: the first fragment may start inside
    a page and ends on a page boundary unless it is the last one. *)
Definition sgl_ok (sgl : list sg_entry) : bool :=
  match sgl with
  | [] => false
  | (a, l) :: rest =>
      (0 <=? a) && (0 <? l) && (a + l <=? 2 ^ 64) &&
      (match rest with
       | [] => true
       | _ => (a + l) mod NVME_CTRL_PAGE_SIZE =? 0
       end) &&
      sgl_tail_ok rest
  end.

(** The PRP list blocks [pages], linked through their last slots, hold
    the entries [es]. *)
Fixpoint prp_chain (mem : gmap (Z * Z) Z) (pages : list Z) (es : list Z)
  : Prop :=
  match pages with
  | [] => False
  | p :: rest =>
      match rest with
      | [] =>
          (length es <= 512)%nat /\
          forall (k : nat) (e : Z), es !! k = Some e ->
            mem !! (p, Z.of_nat k) = Some e
      | q :: _ =>
          (512 < length es)%nat /\
          (forall (k : nat) (e : Z), take 511 es !! k = Some e ->
            mem !! (p, Z.of_nat k) = Some e) /\
          mem !! (p, 511) = Some q /\
          prp_chain mem rest (drop 511 es)
      end
  end.

(** All pieces but the last fill their page to the end. *)
Definition piece_full (p : Z * Z) : Prop :=
  p.2 = NVME_CTRL_PAGE_SIZE - p.1 mod NVME_CTRL_PAGE_SIZE.
Definition piece_part (p : Z * Z) : Prop :=
  0 < p.2 <= NVME_CTRL_PAGE_SIZE - p.1 mod NVME_CTRL_PAGE_SIZE.

Fixpoint pieces_regular (ps : list (Z * Z)) : Prop :=
  match ps with
  | [] => False
  | p :: rest =>
      match rest with
      | [] => piece_part p
      | _ => piece_full p /\ pieces_regular rest
      end
  end.

Definition in_u64 (x : Z) : Prop := 0 <= x < 2 ^ 64.

(** What the loop of [apple_nvme_setup_prps] maintains about the PRP
    blocks: the blocks [pages] followed by the current one hold the
    entries written so far, they are distinct from each other and from
    the blocks left in the pool, [i] is the fill of the current block,
    and the pool can serve the [todo] entries still to come. *)
Definition prp_mem_inv (pool : pool_sel) (dev : apple_nvme_dev)
    (prp_list i : Z) (pages written : list Z) (todo : Z) : Prop :=
  prp_chain (dma_mem dev) (pages ++ [prp_list]) written /\
  NoDup ((pages ++ [prp_list]) ++ pool_of dev pool) /\
  Forall in_u64 (pool_of dev pool) /\
  Forall in_u64 written /\
  Z.of_nat (length written) = i + 511 * Z.of_nat (length pages) /\
  0 <= i <= 512 /\
  todo <= (512 - i) + 511 * Z.of_nat (length (pool_of dev pool)).

(** What the loop maintains about the scatterlist cursor: [rest] are the
    entries after the current one, and what is left of the current one
    starts at [dma_addr] and is [dma_len] long. *)
Definition prp_cur_inv (sg : list sg_entry) (dma_addr dma_len length : Z)
    (rest : list sg_entry) : Prop :=
  (exists x, sg = x :: rest) /\
  sgl_tail_ok ((dma_addr, dma_len) :: rest) = true /\
  length = dma_len + sgl_bytes rest /\
  length < 2 ^ 31.

(** ** Concrete inputs *)

Definition ex_queue : apple_nvme_queue :=
  mk_queue ∅ (replicate 64 cqe_zero) 0x1008 64 0 1 6 1
    APPLE_ANS2_LINEAR_IOSQ_DB (replicate 64 tcb_zero) false.

(** The same queue after [apple_nvme_suspend_queue] cleared
    [NVMEQ_ENABLED]. *)
Definition ex_queue_suspended : apple_nvme_queue :=
  mk_queue ∅ (replicate 64 cqe_zero) 0x1008 64 0 1 6 0
    APPLE_ANS2_LINEAR_IOSQ_DB (replicate 64 tcb_zero) false.

Definition ex_adminq : apple_nvme_queue :=
  mk_queue ∅ (replicate 32 cqe_zero) 0x1000 32 0 1 6 1
    APPLE_ANS2_LINEAR_ASQ_DB (replicate 64 tcb_zero) true.

Definition ex_dev : apple_nvme_dev :=
  mk_dev [0x100000; 0x101000; 0x102000] [0x200000; 0x200100] ∅ 1
    NVME_CTRL_LIVE 4 [].

Definition ex_iod : apple_nvme_iod :=
  mk_iod nvme_command_zero 0 (-1) 0 0 0 0 [] ∅.

(** A read of 8 blocks, command id 5. *)
Definition ex_cmd : nvme_command :=
  mk_nvme_command 2 0 5 1 0 0 0 0x5200 0 0 0 7 0 0 0.

Definition ex_req : request :=
  mk_request 5 1 (mk_bvec 0x200 0x1000) 0x1000 false 0 ex_iod.

Definition ex_dma_oracle : dma_oracle :=
  mk_dma_oracle 0x5200 false true 1 1 [(0x5200, 0x1000)] 0 false.

Definition ex_rq_oracle : rq_oracle :=
  mk_rq_oracle true BLK_STS_RESOURCE BLK_STS_OK ex_cmd ex_dma_oracle.

(** A request of two fragments, 0xe00 bytes to the end of a page and
    three more pages. *)
Definition ex_iod_sg : apple_nvme_iod :=
  mk_iod nvme_command_zero 0 (-1) 2 0 0 0
    [(0x5200, 0xe00); (0x9000, 0x3000)] ∅.

(** One fragment of 1030 pages: the PRP list spills over three blocks
    of the page pool. *)
Definition ex_iod_large : apple_nvme_iod :=
  mk_iod nvme_command_zero 0 (-1) 1 0 0 0 [(0x1000000, 4096 * 1030)] ∅.

(** A first timeout of an I/O request on a live, healthy controller,
    with no memory for the abort request. *)
Definition ex_timeout_noalloc : timeout_oracle :=
  mk_timeout_oracle 0 false false.

Definition ex_timeout_alloc : timeout_oracle :=
  mk_timeout_oracle 0 false true.

(** Whether a call log hands an abort command to the admin queue. *)
Definition issues_abort (calls : list drv_event) : bool :=
  existsb (fun e => match e with
                    | CallExecuteRqNowait _ => true
                    | _ => false
                    end) calls.

Definition disables_device (calls : list drv_event) : bool :=
  existsb (fun e => match e with
                    | CallDevDisable _ | CallResetCtrl => true
                    | _ => false
                    end) calls.

(** * More of the NVMe driver *)

(** ** More on the completion reaper *)

Definition flip_phase (p : Z) : Z := u8 (Z.lxor p 1).

Definition not_doorbell (e : hw_event) : Prop :=
  event_region e <> RegionDoorbell.

(** Fields of the queue the reaper does not write. *)
Definition cq_frame (q q' : apple_nvme_queue) : Prop :=
  sq_cmds q' = sq_cmds q /\ cqes q' = cqes q /\ q_db q' = q_db q /\
  q_depth q' = q_depth q /\ sqes q' = sqes q /\ q_flags q' = q_flags q /\
  ans2_q_db q' = ans2_q_db q /\ is_adminq q' = is_adminq q /\
  length (ans2_tcb_ptr q') = length (ans2_tcb_ptr q) /\
  forall (k : nat) (t : apple_nvmmu_tcb),
    ans2_tcb_ptr q' !! k = Some t ->
    t = tcb_zero \/ ans2_tcb_ptr q !! k = Some t.

Definition ex_queue_pending : apple_nvme_queue :=
  mk_queue ∅ ([mk_cqe 0 0 1 5 1; mk_cqe 0 0 1 6 1] ++ replicate 62 cqe_zero)
    0x1008 64 0 1 6 1 APPLE_ANS2_LINEAR_IOSQ_DB (replicate 64 tcb_zero) false.

Definition ex_cq_oracle : cq_oracle :=
  mk_cq_oracle (fun _ => true) (fun _ => true) (fun _ => 0).

(** *** PRP blocks held by a request *)

(** The blocks [apple_nvme_free_prps] gives back for a request:
    [list[0]] to [list[npages - 1]]. *)
Definition iod_blocks (iod : apple_nvme_iod) : list Z :=
  (fun k : nat => default 0 (iod_list iod !! Z.of_nat k))
    <$> seq 0 (Z.to_nat (npages iod)).

(** Slots per block of a pool: 256 bytes in the small pool, a page in
    the other. *)
Definition pool_slots (pool : pool_sel) : Z :=
  match pool with
  | SmallPool => 256 / 8
  | PagePool => NVME_CTRL_PAGE_SIZE / 8
  end.

(** PRP memory differs from [m0] only inside the blocks [blocks], at
    slots below [cap]. *)
Definition mem_frame (blocks : list Z) (cap : Z) (m0 m : gmap (Z * Z) Z)
  : Prop :=
  forall blk i : Z, blk ∉ blocks \/ ~ (0 <= i < cap) ->
    m !! (blk, i) = m0 !! (blk, i).

(** [length] as [apple_nvme_setup_prps] has it when it decides whether a
    PRP list is needed: the payload less what the first page takes. *)
Definition prp_list_bytes (iod : apple_nvme_iod) (payload : Z) : Z :=
  match iod_sg iod with
  | [] => 0
  | (a, _) :: _ =>
      s32 (s32 payload -
           (NVME_CTRL_PAGE_SIZE - s32 (Z.land (u64 a) (NVME_CTRL_PAGE_SIZE - 1))))
  end.

(** What the loop of [apple_nvme_setup_prps] maintains about the pools,
    on any scatterlist, with [len0] bytes to describe: with the small
    pool the one block taken is [list[0]] and the loop stays inside it;
    with the page pool the blocks taken are the [npages] blocks of the
    request, all full but the current one, which holds the entry moved
    from its predecessor if it has one; the other pool is not
    touched, and memory changes inside blocks of the pool only. *)
Definition prp_acc (pool : pool_sel) (dev0 : apple_nvme_dev) (dl0 len0 : Z)
    (dev : apple_nvme_dev) (iod : apple_nvme_iod) (prp_list i length : Z)
  : Prop :=
  match pool with
  | SmallPool =>
      npages iod = 0 /\
      iod_list iod !! 0 = Some prp_list /\
      prp_small_pool dev0 = prp_list :: prp_small_pool dev /\
      prp_page_pool dev = prp_page_pool dev0 /\
      0 <= i /\
      NVME_CTRL_PAGE_SIZE * i + length = len0 /\
      len0 <= 32 * NVME_CTRL_PAGE_SIZE
  | PagePool =>
      1 <= npages iod /\
      prp_page_pool dev0 ≡ₚ iod_blocks iod ++ prp_page_pool dev /\
      prp_small_pool dev = prp_small_pool dev0 /\
      prp_list ∈ prp_page_pool dev0 /\
      0 <= i <= 512 /\
      NVME_CTRL_PAGE_SIZE * (i + 511 * (npages iod - 1)) + length = len0 /\
      len0 < 2 ^ 31 /\
      (npages iod = 1 \/ 2 <= i)
  end /\
  dma_len iod = dl0 /\
  mem_frame (pool_of dev0 pool) (pool_slots pool) (dma_mem dev0) (dma_mem dev).

Definition prp_acc_state (pool : pool_sel) (dev0 : apple_nvme_dev)
    (dl0 len0 : Z) (s : prp_loop_state) : Prop :=
  prp_acc pool dev0 dl0 len0 (pl_dev s) (pl_iod s) (pl_prp_list s) (pl_i s)
    (pl_length s).

(** [apple_nvme_npages_prp]: the number of block pointers the [list]
    array of a request has room for.  [page_size] is the kernel's
    [PAGE_SIZE], an [unsigned long]; the result is returned as [int]. *)
Definition NVME_MAX_KB_SZ : Z := 4096.

Definition apple_nvme_npages_prp (page_size : Z) : Z :=
  let nprps :=
    u32 (DIV_ROUND_UP (NVME_MAX_KB_SZ + NVME_CTRL_PAGE_SIZE)
           NVME_CTRL_PAGE_SIZE) in
  s32 (u64 (u64 (u32 (8 * nprps)) + u64 (page_size - 8) - 1)
         / u64 (page_size - 8)).

(** A page pool of one block, too few for the list of [ex_iod_large]. *)
Definition ex_dev_one_page : apple_nvme_dev :=
  mk_dev [0x100000] [0x200000; 0x200100] ∅ 1 NVME_CTRL_LIVE 4 [].

(** A request of two segments, mapped to the scatterlist of
    [ex_iod_sg]. *)
Definition ex_req_sg : request :=
  mk_request 5 2 (mk_bvec 0x200 0xe00) 0x3e00 false 0 ex_iod.

Definition ex_dma_oracle_sg : dma_oracle :=
  mk_dma_oracle 0 false true 2 2 [(0x5200, 0xe00); (0x9000, 0x3000)] 0 false.

(** A scatterlist whose first fragment ends in the middle of a page
    while more fragments follow, which the builder rejects, and a
    request mapped to it. *)
Definition ex_dma_oracle_bad : dma_oracle :=
  mk_dma_oracle 0 false true 2 2 [(0x5000, 0x1800); (0x9000, 0x3000)] 0 false.

Definition ex_req_bad : request :=
  mk_request 5 2 (mk_bvec 0 0x1800) 0x4800 false 0 ex_iod.

(** [apple_nvme_common_complete_rq], its effect on the PRP pools: the
    data of a request with segments is unmapped.  The unmapping of the
    metadata page and [nvme_complete_rq] are calls out of the driver. *)
Definition apple_nvme_common_complete_rq (dev : apple_nvme_dev)
    (req : request) : apple_nvme_dev :=
  if negb (rq_nr_phys_segments req =? 0) then
    apple_nvme_unmap_data dev (rq_iod req)
  else dev.

(** A submission of [ex_req_sg]: ready, set up, mapped to two
    fragments. *)
Definition ex_rq_oracle_sg : rq_oracle :=
  mk_rq_oracle true BLK_STS_RESOURCE BLK_STS_OK ex_cmd ex_dma_oracle_sg.

(** ** Queue life cycle *)

Definition set_q_flags (q : apple_nvme_queue) (f : Z) : apple_nvme_queue :=
  mk_queue (sq_cmds q) (cqes q) (q_db q) (q_depth q) (cq_head q)
    (cq_phase q) (sqes q) f (ans2_q_db q) (ans2_tcb_ptr q) (is_adminq q).

Definition set_q_db (q : apple_nvme_queue) (db : Z) : apple_nvme_queue :=
  mk_queue (sq_cmds q) (cqes q) db (q_depth q) (cq_head q)
    (cq_phase q) (sqes q) (q_flags q) (ans2_q_db q) (ans2_tcb_ptr q)
    (is_adminq q).

Definition set_cqes (q : apple_nvme_queue) (l : list nvme_completion)
  : apple_nvme_queue :=
  mk_queue (sq_cmds q) l (q_db q) (q_depth q) (cq_head q)
    (cq_phase q) (sqes q) (q_flags q) (ans2_q_db q) (ans2_tcb_ptr q)
    (is_adminq q).

(** [test_and_clear_bit(nr, &flags)] on an [unsigned long]: the old value
    of the bit and the new word. *)
Definition test_and_clear_bit (nr : Z) (flags : Z) : bool * Z :=
  (Z.testbit flags nr, Z.clearbit flags nr).

(** The two queues of [struct apple_nvme_dev] with the fields that say
    whether they are up; [admin_q] is whether [ctrl.admin_q] is set. *)
Record apple_nvme_queues : Type := mk_queues {
  adminq : apple_nvme_queue;
  ioq : apple_nvme_queue;
  adminq_online : bool;
  ioq_online : bool;
  admin_q : bool
}.

(** Which of [dev->adminq] and [dev->ioq] a queue pointer is. *)
Inductive queue_sel : Type := AdminQ | IoQ.

Definition queue_of (d : apple_nvme_queues) (sel : queue_sel)
  : apple_nvme_queue :=
  match sel with AdminQ => adminq d | IoQ => ioq d end.

Definition set_queue (d : apple_nvme_queues) (sel : queue_sel)
    (q : apple_nvme_queue) : apple_nvme_queues :=
  match sel with
  | AdminQ => mk_queues q (ioq d) (adminq_online d) (ioq_online d) (admin_q d)
  | IoQ => mk_queues (adminq d) q (adminq_online d) (ioq_online d) (admin_q d)
  end.

Definition set_adminq_online (d : apple_nvme_queues) (b : bool) :=
  mk_queues (adminq d) (ioq d) b (ioq_online d) (admin_q d).

Definition set_ioq_online (d : apple_nvme_queues) (b : bool) :=
  mk_queues (adminq d) (ioq d) (adminq_online d) b (admin_q d).

(** Calls of the life-cycle code into the block layer. *)
Inductive ctl_event : Type :=
  | CallQuiesceAdminQueue.

(** [apple_nvme_suspend_queue] on the queue [sel] points to. *)
Definition apple_nvme_suspend_queue (d : apple_nvme_queues) (sel : queue_sel)
  : Z * apple_nvme_queues * list ctl_event :=
  let nvmeq := queue_of d sel in
  let '(was_set, flags) := test_and_clear_bit NVMEQ_ENABLED (q_flags nvmeq) in
  let nvmeq := set_q_flags nvmeq flags in
  let d := set_queue d sel nvmeq in
  if negb was_set then (1, d, [])
  else
    let calls :=
      if is_adminq nvmeq && admin_q d then [CallQuiesceAdminQueue] else [] in
    let d :=
      if is_adminq nvmeq then set_adminq_online d false
      else set_ioq_online d false in
    (0, d, calls).

(** [apple_nvme_init_queue]; [dbs] is the offset of the doorbell array
    [dev->dbs], an array of [u32].  The [memset] clears the [q_depth]
    entries of the completion ring. *)
Definition apple_nvme_init_queue (dev : apple_nvme_dev) (dbs : Z)
    (nvmeq : apple_nvme_queue) : apple_nvme_queue :=
  let nvmeq := set_cq nvmeq 0 1 in
  let nvmeq :=
    set_q_db nvmeq
      (dbs + 4 * u32 (apple_nvme_queue_id nvmeq * 2 * db_stride dev)) in
  set_cqes nvmeq
    (replicate (Z.to_nat (q_depth nvmeq)) cqe_zero ++
     drop (Z.to_nat (q_depth nvmeq)) (cqes nvmeq)).

(** ** Interrupt handler *)

Inductive irqreturn_t : Type := IRQ_NONE | IRQ_HANDLED.

Record irq_result : Type := mk_irq_result {
  irq_ret : irqreturn_t;
  irq_queues : apple_nvme_queues;
  irq_hw : list hw_event;
  irq_calls : list drv_event
}.

(** [apple_nvme_irq]; [oa] and [oi] are what the environment answers
    while the admin and the I/O ring are drained. *)
Definition apple_nvme_irq `{nvme_host} (oa oi : cq_oracle)
    (dev : apple_nvme_dev) (d : apple_nvme_queues) : exec irq_result :=
  let handled := false in
  '(handled, d, hw, calls) ←
    (if adminq_online d then
       r ← nvme_process_cq oa dev (adminq d);
       Ok (if negb (run_found r =? 0) then true else handled,
           set_queue d AdminQ (run_nvmeq r), run_hw r, run_calls r)
     else Ok (handled, d, [], []));
  '(handled, d, hw, calls) ←
    (if ioq_online d then
       r ← nvme_process_cq oi dev (ioq d);
       Ok (if negb (run_found r =? 0) then true else handled,
           set_queue d IoQ (run_nvmeq r), hw ++ run_hw r, calls ++ run_calls r)
     else Ok (handled, d, hw, calls));
  Ok (mk_irq_result (if handled : bool then IRQ_HANDLED else IRQ_NONE)
        d hw calls).

(** The two queues as [apple_nvme_probe] sets them up, running. *)
Definition ex_queues : apple_nvme_queues :=
  mk_queues ex_adminq ex_queue_pending true true true.

(** The tracking slot [apple_nvme_submit_cmd] leaves for a command. *)
Definition tcb_of_cmd `{nvme_host} (cmd : nvme_command) : apple_nvmmu_tcb :=
  mk_tcb (u8 (c_opcode cmd))
    (if nvme_is_write cmd then APPLE_ANS2_TCB_DMA_TO_DEVICE
     else APPLE_ANS2_TCB_DMA_FROM_DEVICE)
    (u8 (u16 (nvme_tag_from_cid (c_command_id cmd)))) 0
    (u32 (rw_length cmd)) (replicate 2 0) (u64 (c_prp1 cmd))
    (u64 (c_prp2 cmd)) (replicate 2 0) (replicate 8 0) (replicate 64 0).

(** * The SART address filter ([apple-sart.c]) *)

(** ** Bit fields

    [GENMASK], [FIELD_GET] and [FIELD_PREP] of the kernel headers
    [linux/bits.h] and [linux/bitfield.h] (absent), on a 64-bit
    [unsigned long]: the mask of the bits [h] down to [l], the field a
    mask selects moved down to bit 0, and a value moved up into the
    field.  [bf_shf] is the position of the lowest set bit of a mask. *)
Definition GENMASK (h l : Z) : Z :=
  Z.land (u64 (Z.ones 64 - Z.shiftl 1 l + 1))
    (Z.shiftr (Z.ones 64) (64 - 1 - h)).

Definition bf_shf (mask : Z) : Z := Z.log2 (Z.land mask (- mask)).

Definition FIELD_GET (mask reg : Z) : Z :=
  Z.shiftr (Z.land reg mask) (bf_shf mask).

Definition FIELD_PREP (mask val : Z) : Z :=
  Z.land (Z.shiftl val (bf_shf mask)) mask.

(** [set_bit], [clear_bit] and [test_and_set_bit] on a bitmap word. *)
Definition set_bit (nr : Z) (w : Z) : Z := Z.setbit w nr.

Definition clear_bit (nr : Z) (w : Z) : Z := Z.clearbit w nr.

Definition test_and_set_bit (nr : Z) (w : Z) : bool * Z :=
  (Z.testbit w nr, Z.setbit w nr).

(** Error numbers of [errno-base.h] and [errno.h] (absent). *)
Definition ENOMEM : Z := 12.

Definition EBUSY : Z := 16.

Definition ENODEV : Z := 19.

Definition EINVAL : Z := 22.

(** ** Registers *)

Definition APPLE_SART_MAX_ENTRIES : Z := 16.

Definition APPLE_SART_CONFIG (idx : Z) : Z := 0x00 + 4 * idx.

Definition APPLE_SART_CONFIG_FLAGS : Z := GENMASK 31 24.

Definition APPLE_SART_CONFIG_SIZE : Z := GENMASK 23 0.

Definition APPLE_SART_CONFIG_SIZE_SHIFT : Z := 12.

Definition APPLE_SART_CONFIG_FLAGS_ALLOW : Z := 0xff.

Definition APPLE_SART_PADDR (idx : Z) : Z := 0x40 + 4 * idx.

Definition APPLE_SART_PADDR_SHIFT : Z := 12.

Definition APPLE_SART3_CONFIG (idx : Z) : Z := 0x00 + 4 * idx.

Definition APPLE_SART3_SIZE (idx : Z) : Z := 0x80 + 4 * idx.

Definition APPLE_SART3_SIZE_SHIFT : Z := 12.

(** The two [struct apple_sart_ops] of the driver. *)
Inductive apple_sart_ops : Type := sart_ops_v2 | sart_ops_v3.

(** [struct apple_sart].  The MMIO region is a map from byte offset to
    the 32-bit word there: a register holds the word last written to
    it, and reads as 0 if the map has no word for it. *)
Record apple_sart : Type := mk_sart {
  sart_regs : gmap Z Z;
  sart_ops : apple_sart_ops;
  protected_entries : Z;
  used_entries : Z
}.

Definition sart_set_regs (s : apple_sart) (r : gmap Z Z) : apple_sart :=
  mk_sart r (sart_ops s) (protected_entries s) (used_entries s).

Definition sart_set_protected (s : apple_sart) (w : Z) : apple_sart :=
  mk_sart (sart_regs s) (sart_ops s) w (used_entries s).

Definition sart_set_used (s : apple_sart) (w : Z) : apple_sart :=
  mk_sart (sart_regs s) (sart_ops s) (protected_entries s) w.

Definition readl_relaxed (s : apple_sart) (off : Z) : Z :=
  u32 (default 0 (sart_regs s !! off)).

Definition writel_relaxed (v : Z) (s : apple_sart) (off : Z) : apple_sart :=
  sart_set_regs s (<[off := u32 v]> (sart_regs s)).

(** What [get_entry] stores through its three pointers. *)
Record sart_entry : Type := mk_sart_entry {
  e_flags : Z;
  e_paddr : Z;
  e_size : Z
}.

(** [sart2_get_entry].  The shift of the address register is done on a
    [u32], the shift of the size field on an [unsigned long]. *)
Definition sart2_get_entry (sart : apple_sart) (index : Z) : sart_entry :=
  let cfg := readl_relaxed sart (APPLE_SART_CONFIG index) in
  let flags := u8 (FIELD_GET APPLE_SART_CONFIG_FLAGS cfg) in
  let size :=
    u64 (Z.shiftl (FIELD_GET APPLE_SART_CONFIG_SIZE cfg)
           APPLE_SART_CONFIG_SIZE_SHIFT) in
  let paddr :=
    u32 (Z.shiftl (readl_relaxed sart (APPLE_SART_PADDR index))
           APPLE_SART_PADDR_SHIFT) in
  mk_sart_entry flags paddr size.

(** [sart2_set_entry] *)
Definition sart2_set_entry (sart : apple_sart) (index : Z)
    (flags paddr size : Z) : apple_sart :=
  let cfg := u32 (FIELD_PREP APPLE_SART_CONFIG_FLAGS (u8 flags)) in
  let cfg :=
    u32 (Z.lor cfg
           (FIELD_PREP APPLE_SART_CONFIG_SIZE
              (Z.shiftr (u64 size) APPLE_SART_CONFIG_SIZE_SHIFT))) in
  let paddr := Z.shiftr (u64 paddr) APPLE_SART_PADDR_SHIFT in
  let sart := writel_relaxed paddr sart (APPLE_SART_PADDR index) in
  writel_relaxed cfg sart (APPLE_SART_CONFIG index).

(** [sart3_get_entry]: here both shifts are done on 64 bits. *)
Definition sart3_get_entry (sart : apple_sart) (index : Z) : sart_entry :=
  let flags := u8 (readl_relaxed sart (APPLE_SART3_CONFIG index)) in
  let size :=
    u64 (Z.shiftl (readl_relaxed sart (APPLE_SART3_SIZE index))
           APPLE_SART3_SIZE_SHIFT) in
  let paddr :=
    u64 (Z.shiftl (readl_relaxed sart (APPLE_SART_PADDR index))
           APPLE_SART_PADDR_SHIFT) in
  mk_sart_entry flags paddr size.

(** [sart3_set_entry] *)
Definition sart3_set_entry (sart : apple_sart) (index : Z)
    (flags paddr size : Z) : apple_sart :=
  let paddr := Z.shiftr (u64 paddr) APPLE_SART_PADDR_SHIFT in
  let sart := writel_relaxed paddr sart (APPLE_SART_PADDR index) in
  let size := Z.shiftr (u64 size) APPLE_SART3_SIZE_SHIFT in
  let sart := writel_relaxed size sart (APPLE_SART3_SIZE index) in
  writel_relaxed (u8 flags) sart (APPLE_SART3_CONFIG index).

(** [sart->ops->get_entry], [sart->ops->set_entry] *)
Definition sart_get_entry (sart : apple_sart) (index : Z) : sart_entry :=
  match sart_ops sart with
  | sart_ops_v2 => sart2_get_entry sart index
  | sart_ops_v3 => sart3_get_entry sart index
  end.

Definition sart_set_entry (sart : apple_sart) (index : Z)
    (flags paddr size : Z) : apple_sart :=
  match sart_ops sart with
  | sart_ops_v2 => sart2_set_entry sart index flags paddr size
  | sart_ops_v3 => sart3_set_entry sart index flags paddr size
  end.

(** The loop of [apple_sart_probe], [n] entries from [i] on. *)
Fixpoint sart_probe_loop (n : nat) (i : Z) (sart : apple_sart) : apple_sart :=
  match n with
  | O => sart
  | S n' =>
      let e := sart_get_entry sart i in
      let sart :=
        if e_flags e =? 0 then sart
        else sart_set_protected sart (set_bit i (protected_entries sart)) in
      sart_probe_loop n' (i + 1) sart
  end.

(** What the platform answers during [apple_sart_probe]:
    [devm_kzalloc], the error of [devm_platform_ioremap_resource] (0 for
    none) with the mapped registers, and the results of
    [devm_clk_bulk_get_all] and [clk_bulk_prepare_enable]. *)
Record sart_probe_oracle : Type := mk_sart_probe_oracle {
  o_kzalloc_ok : bool;
  o_match_data : apple_sart_ops;
  o_ioremap_err : Z;
  o_regs : gmap Z Z;
  o_clk_get : Z;
  o_clk_enable : Z
}.

(** [apple_sart_probe]: the return value and the driver data. *)
Definition apple_sart_probe (o : sart_probe_oracle) : Z * option apple_sart :=
  if negb (o_kzalloc_ok o) then (- ENOMEM, None)
  else
    let sart := mk_sart ∅ (o_match_data o) 0 0 in
    if negb (o_ioremap_err o =? 0) then (s32 (o_ioremap_err o), Some sart)
    else
      let sart := sart_set_regs sart (o_regs o) in
      let ret := s32 (o_clk_get o) in
      if ret <? 0 then (ret, Some sart)
      else
        let ret := s32 (o_clk_enable o) in
        if negb (ret =? 0) then (ret, Some sart)
        else
          (0, Some (sart_probe_loop (Z.to_nat APPLE_SART_MAX_ENTRIES) 0 sart)).

(** The loop of [apple_sart_add_allowed_region]: [Some] is the [return 0]
    inside the loop, [None] is falling out of it. *)
Fixpoint sart_add_loop (n : nat) (i : Z) (sart : apple_sart) (paddr size : Z)
  : option apple_sart * apple_sart :=
  match n with
  | O => (None, sart)
  | S n' =>
      if test_bit i (protected_entries sart) then
        sart_add_loop n' (i + 1) sart paddr size
      else
        let '(was_set, used) := test_and_set_bit i (used_entries sart) in
        let sart := sart_set_used sart used in
        if was_set then sart_add_loop n' (i + 1) sart paddr size
        else
          let sart :=
            sart_set_entry sart i APPLE_SART_CONFIG_FLAGS_ALLOW paddr size in
          (Some sart, sart)
  end.

(** [apple_sart_add_allowed_region] *)
Definition apple_sart_add_allowed_region (sart : apple_sart) (paddr size : Z)
  : Z * apple_sart :=
  if negb (Z.land size (Z.shiftl 1 APPLE_SART_CONFIG_SIZE_SHIFT - 1) =? 0)
  then (- EINVAL, sart)
  else if negb (Z.land paddr (Z.shiftl 1 APPLE_SART_PADDR_SHIFT - 1) =? 0)
  then (- EINVAL, sart)
  else
    match sart_add_loop (Z.to_nat APPLE_SART_MAX_ENTRIES) 0 sart paddr size with
    | (Some sart, _) => (0, sart)
    | (None, sart) => (- EBUSY, sart)
    end.

(** The loop of [apple_sart_remove_allowed_region]; [paddr] and [size]
    are the arguments after [size >>= 12; paddr >>= 12]. *)
Fixpoint sart_remove_loop (n : nat) (i : Z) (sart : apple_sart)
    (paddr size : Z) : option apple_sart :=
  match n with
  | O => None
  | S n' =>
      let e := sart_get_entry sart i in
      if negb (e_paddr e =? paddr) || negb (e_size e =? size) then
        sart_remove_loop n' (i + 1) sart paddr size
      else
        let sart := sart_set_entry sart i 0 0 0 in
        let sart := sart_set_used sart (clear_bit i (used_entries sart)) in
        Some sart
  end.

(** [apple_sart_remove_allowed_region] *)
Definition apple_sart_remove_allowed_region (sart : apple_sart)
    (paddr size : Z) : Z * apple_sart :=
  if negb (Z.land size (Z.shiftl 1 APPLE_SART_CONFIG_SIZE_SHIFT - 1) =? 0)
  then (- EINVAL, sart)
  else if negb (Z.land paddr (Z.shiftl 1 APPLE_SART_PADDR_SHIFT - 1) =? 0)
  then (- EINVAL, sart)
  else
    let size := Z.shiftr size APPLE_SART_CONFIG_SIZE_SHIFT in
    let paddr := Z.shiftr paddr APPLE_SART_PADDR_SHIFT in
    match sart_remove_loop (Z.to_nat APPLE_SART_MAX_ENTRIES) 0 sart paddr size
    with
    | Some sart => (0, sart)
    | None => (- EINVAL, sart)
    end.

(** [apple_sart_shutdown] *)
Fixpoint sart_shutdown_loop (n : nat) (i : Z) (sart : apple_sart)
  : apple_sart :=
  match n with
  | O => sart
  | S n' =>
      let sart :=
        if test_bit i (protected_entries sart) then sart
        else sart_set_entry sart i 0 0 0 in
      sart_shutdown_loop n' (i + 1) sart
  end.

Definition apple_sart_shutdown (sart : apple_sart) : apple_sart :=
  sart_shutdown_loop (Z.to_nat APPLE_SART_MAX_ENTRIES) 0 sart.

(** Entry [i] can be handed out: neither set up by the bootloader nor
    in use. *)
Definition sart_entry_free (sart : apple_sart) (i : Z) : bool :=
  negb (test_bit i (protected_entries sart)) &&
  negb (test_bit i (used_entries sart)).

(** A version 3 filter whose bootloader left one region in entry 0. *)
Definition ex_sart : apple_sart :=
  mk_sart (<[0x00 := 0xff]> (<[0x40 := 0x800000]> (<[0x80 := 0x100]> ∅)))
    sart_ops_v3 1 0.

(** A version 3 filter whose entry 2 allows the page at 0x1000. *)
Definition ex_sart_low : apple_sart :=
  mk_sart (<[0x08 := 0xff]> (<[0x48 := 1]> (<[0x88 := 1]> ∅)))
    sart_ops_v3 0 4.

Definition ex_sart_probe_oracle : sart_probe_oracle :=
  mk_sart_probe_oracle true sart_ops_v3 0
    (<[0x00 := 0xff]> (<[0x40 := 0x800000]> (<[0x80 := 0x100]> ∅))) 1 0.

(** * The RTKit management protocol ([apple-rtkit.c])

    The co-processor the driver boots before it touches the NVMe
    registers talks over a mailbox; endpoint 0 carries the management
    messages of the boot handshake.  Diagnostics ([rtk_warn], [WARN_ON])
    are not modelled. *)

Definition BIT (n : Z) : Z := Z.shiftl 1 n.

Definition ENOTSUPP : Z := 524.

Inductive rtkit_state : Type :=
  | APPLE_RTKIT_STATE_INIT
  | APPLE_RTKIT_STATE_BOOTING
  | APPLE_RTKIT_STATE_RUNNING
  | APPLE_RTKIT_STATE_BOOT_FAILED.

Definition rtkit_running (s : rtkit_state) : bool :=
  match s with APPLE_RTKIT_STATE_RUNNING => true | _ => false end.

Definition APPLE_RTKIT_CPU_CONTROL_RUN : Z := BIT 4.

Definition APPLE_RTKIT_EP_MGMT : Z := 0.

Definition APPLE_RTKIT_EP_CRASHLOG : Z := 1.

Definition APPLE_RTKIT_EP_SYSLOG : Z := 2.

Definition APPLE_RTKIT_EP_DEBUG : Z := 3.

Definition APPLE_RTKIT_EP_IOREPORT : Z := 4.

Definition APPLE_RTKIT_MGMT_WAKEUP : Z := 0x60000000000220.

Definition APPLE_RTKIT_MGMT_TYPE : Z := GENMASK 59 52.

Definition APPLE_RTKIT_MGMT_HELLO : Z := 1.

Definition APPLE_RTKIT_MGMT_HELLO_REPLY : Z := 2.

Definition APPLE_RTKIT_MGMT_HELLO_MINVER : Z := GENMASK 15 0.

Definition APPLE_RTKIT_MGMT_HELLO_MAXVER : Z := GENMASK 31 16.

Definition APPLE_RTKIT_MGMT_EPMAP : Z := 8.

Definition APPLE_RTKIT_MGMT_EPMAP_LAST : Z := BIT 51.

Definition APPLE_RTKIT_MGMT_EPMAP_BASE : Z := GENMASK 34 32.

Definition APPLE_RTKIT_MGMT_EPMAP_BITMAP : Z := GENMASK 31 0.

Definition APPLE_RTKIT_MGMT_EPMAP_REPLY : Z := 8.

Definition APPLE_RTKIT_MGMT_EPMAP_REPLY_MORE : Z := BIT 0.

Definition APPLE_RTKIT_MGMT_STARTEP : Z := 5.

Definition APPLE_RTKIT_MGMT_STARTEP_EP : Z := GENMASK 39 32.

Definition APPLE_RTKIT_MGMT_STARTEP_FLAG : Z := BIT 1.

Definition APPLE_RTKIT_MGMT_BOOT_DONE : Z := 7.

Definition APPLE_RTKIT_MGMT_BOOT_DONE_UNK : Z := GENMASK 15 0.

Definition APPLE_RTKIT_MGMT_BOOT_DONE2 : Z := 0xb.

Definition APPLE_RTKIT_MIN_SUPPORTED_VERSION : Z := 11.

Definition APPLE_RTKIT_MAX_SUPPORTED_VERSION : Z := 12.

(** What the library does to the rest of the kernel, in program order:
    a message handed to [mbox_send_message], as its two words,
    [mbox_free_channel], [complete] and [complete_all] on the boot
    completion, and the write of the CPU control register. *)
Inductive rtk_event : Type :=
  | RtkMboxSend (msg0 msg1 : Z)
  | RtkMboxFreeChannel
  | RtkComplete
  | RtkCompleteAll
  | RtkWriteCpuControl (v : Z).

(** [struct apple_rtkit], the fields of the boot handshake.
    [rtk_endpoints] is the 256-bit bitmap [endpoints]. *)
Record apple_rtkit : Type := mk_rtkit {
  rtk_state : rtkit_state;
  rtk_boot_result : Z;
  rtk_version : Z;
  rtk_endpoints : Z;
  rtk_log : list rtk_event
}.

Definition rtk_set_state (r : apple_rtkit) (s : rtkit_state) :=
  mk_rtkit s (rtk_boot_result r) (rtk_version r) (rtk_endpoints r) (rtk_log r).

Definition rtk_set_boot_result (r : apple_rtkit) (v : Z) :=
  mk_rtkit (rtk_state r) v (rtk_version r) (rtk_endpoints r) (rtk_log r).

Definition rtk_set_version (r : apple_rtkit) (v : Z) :=
  mk_rtkit (rtk_state r) (rtk_boot_result r) v (rtk_endpoints r) (rtk_log r).

Definition rtk_set_endpoints (r : apple_rtkit) (v : Z) :=
  mk_rtkit (rtk_state r) (rtk_boot_result r) (rtk_version r) v (rtk_log r).

Definition rtk_emit (r : apple_rtkit) (e : list rtk_event) :=
  mk_rtkit (rtk_state r) (rtk_boot_result r) (rtk_version r) (rtk_endpoints r)
    (rtk_log r ++ e).

(** [apple_rtkit_boot_abort] *)
Definition apple_rtkit_boot_abort (rtk : apple_rtkit) (res : Z) : apple_rtkit :=
  let rtk := rtk_set_state rtk APPLE_RTKIT_STATE_BOOT_FAILED in
  let rtk := rtk_set_boot_result rtk (s32 res) in
  rtk_emit rtk [RtkMboxFreeChannel; RtkComplete].

(** [apple_rtkit_send_message]; [mbox] is what [mbox_send_message]
    returns for a message. *)
Definition apple_rtkit_send_message (mbox : Z -> Z -> Z) (rtk : apple_rtkit)
    (ep message : Z) : Z * apple_rtkit :=
  let ep := u8 ep in
  if (0x20 <=? ep) && negb (rtkit_running (rtk_state rtk)) then (- EINVAL, rtk)
  else
    let msg0 := u64 message in
    let rtk := rtk_emit rtk [RtkMboxSend msg0 ep] in
    let ret := s32 (mbox msg0 ep) in
    if ret <? 0 then (ret, rtk) else (0, rtk).

(** The message [apple_rtkit_management_send] builds: [msg] with its
    type field replaced by [type]. *)
Definition mgmt_msg (type msg : Z) : Z :=
  let msg := Z.land (u64 msg) (u64 (Z.lnot APPLE_RTKIT_MGMT_TYPE)) in
  Z.lor msg (FIELD_PREP APPLE_RTKIT_MGMT_TYPE (u8 type)).

(** [apple_rtkit_management_send] *)
Definition apple_rtkit_management_send (mbox : Z -> Z -> Z)
    (rtk : apple_rtkit) (type msg : Z) : apple_rtkit :=
  (apple_rtkit_send_message mbox rtk APPLE_RTKIT_EP_MGMT (mgmt_msg type msg)).2.

(** [apple_rtkit_management_rx_hello] *)
Definition apple_rtkit_management_rx_hello (mbox : Z -> Z -> Z)
    (rtk : apple_rtkit) (msg : Z) : apple_rtkit :=
  let min_ver := s32 (FIELD_GET APPLE_RTKIT_MGMT_HELLO_MINVER msg) in
  let max_ver := s32 (FIELD_GET APPLE_RTKIT_MGMT_HELLO_MAXVER msg) in
  let want_ver := Z.min APPLE_RTKIT_MAX_SUPPORTED_VERSION max_ver in
  if APPLE_RTKIT_MAX_SUPPORTED_VERSION <? min_ver then
    apple_rtkit_boot_abort rtk (- ENOTSUPP)
  else if max_ver <? APPLE_RTKIT_MIN_SUPPORTED_VERSION then
    apple_rtkit_boot_abort rtk (- ENOTSUPP)
  else
    let rtk := rtk_set_version rtk want_ver in
    let reply :=
      Z.lor (FIELD_PREP APPLE_RTKIT_MGMT_HELLO_MINVER want_ver)
        (FIELD_PREP APPLE_RTKIT_MGMT_HELLO_MAXVER want_ver) in
    apple_rtkit_management_send mbox rtk APPLE_RTKIT_MGMT_HELLO_REPLY reply.

(** [apple_rtkit_start_ep] *)
Definition apple_rtkit_start_ep (mbox : Z -> Z -> Z) (rtk : apple_rtkit)
    (endpoint : Z) : Z * apple_rtkit :=
  let endpoint := u8 endpoint in
  if negb (test_bit endpoint (rtk_endpoints rtk)) then (- EINVAL, rtk)
  else if (0x20 <=? endpoint) && negb (rtkit_running (rtk_state rtk)) then
    (- EINVAL, rtk)
  else
    let msg := FIELD_PREP APPLE_RTKIT_MGMT_STARTEP_EP endpoint in
    let msg := Z.lor msg APPLE_RTKIT_MGMT_STARTEP_FLAG in
    (0, apple_rtkit_management_send mbox rtk APPLE_RTKIT_MGMT_STARTEP msg).

(** The first loop of [apple_rtkit_management_rx_epmap], [n] bits from
    [i] on. *)
Fixpoint epmap_set_loop (n : nat) (i : Z) (rtk : apple_rtkit) (msg : Z)
  : apple_rtkit :=
  match n with
  | O => rtk
  | S n' =>
      let bitmap := u32 (FIELD_GET APPLE_RTKIT_MGMT_EPMAP_BITMAP msg) in
      let base := u32 (FIELD_GET APPLE_RTKIT_MGMT_EPMAP_BASE msg) in
      let rtk :=
        if negb (Z.land bitmap (BIT i) =? 0) then
          rtk_set_endpoints rtk
            (set_bit (u32 (32 * base + i)) (rtk_endpoints rtk))
        else rtk in
      epmap_set_loop n' (i + 1) rtk msg
  end.

(** Its [for_each_set_bit] loop over the 256 endpoints, [n] of them
    from [ep] on. *)
Fixpoint epmap_start_loop (mbox : Z -> Z -> Z) (n : nat) (ep : Z)
    (rtk : apple_rtkit) : apple_rtkit :=
  match n with
  | O => rtk
  | S n' =>
      let rtk :=
        if test_bit ep (rtk_endpoints rtk) then
          if ep =? APPLE_RTKIT_EP_MGMT then rtk
          else if (ep =? APPLE_RTKIT_EP_SYSLOG) ||
                  (ep =? APPLE_RTKIT_EP_CRASHLOG) ||
                  (ep =? APPLE_RTKIT_EP_DEBUG) ||
                  (ep =? APPLE_RTKIT_EP_IOREPORT) then
            (apple_rtkit_start_ep mbox rtk ep).2
          else rtk
        else rtk in
      epmap_start_loop mbox n' (ep + 1) rtk
  end.

(** [apple_rtkit_management_rx_epmap] *)
Definition apple_rtkit_management_rx_epmap (mbox : Z -> Z -> Z)
    (rtk : apple_rtkit) (msg : Z) : apple_rtkit :=
  let rtk := epmap_set_loop 32 0 rtk msg in
  let reply :=
    FIELD_PREP APPLE_RTKIT_MGMT_EPMAP_BASE
      (FIELD_GET APPLE_RTKIT_MGMT_EPMAP_BASE msg) in
  let last := negb (Z.land msg APPLE_RTKIT_MGMT_EPMAP_LAST =? 0) in
  let reply :=
    if last then Z.lor reply APPLE_RTKIT_MGMT_EPMAP_LAST
    else Z.lor reply APPLE_RTKIT_MGMT_EPMAP_REPLY_MORE in
  let rtk :=
    apple_rtkit_management_send mbox rtk APPLE_RTKIT_MGMT_EPMAP_REPLY reply in
  if last then epmap_start_loop mbox 0x100 0 rtk else rtk.

(** [apple_rtkit_management_rx_boot_done] *)
Definition apple_rtkit_management_rx_boot_done (mbox : Z -> Z -> Z)
    (rtk : apple_rtkit) (msg : Z) : apple_rtkit :=
  let reply := FIELD_PREP APPLE_RTKIT_MGMT_BOOT_DONE_UNK 0x20 in
  apple_rtkit_management_send mbox rtk 0xb reply.

(** [apple_rtkit_management_rx_boot_done2] *)
Definition apple_rtkit_management_rx_boot_done2 (rtk : apple_rtkit) (msg : Z)
  : apple_rtkit :=
  let rtk := rtk_set_state rtk APPLE_RTKIT_STATE_RUNNING in
  rtk_emit rtk [RtkCompleteAll].

(** [apple_rtkit_management_rx] *)
Definition apple_rtkit_management_rx (mbox : Z -> Z -> Z) (rtk : apple_rtkit)
    (msg : Z) : apple_rtkit :=
  let type := u8 (FIELD_GET APPLE_RTKIT_MGMT_TYPE msg) in
  if type =? APPLE_RTKIT_MGMT_HELLO then
    apple_rtkit_management_rx_hello mbox rtk msg
  else if type =? APPLE_RTKIT_MGMT_EPMAP then
    apple_rtkit_management_rx_epmap mbox rtk msg
  else if type =? APPLE_RTKIT_MGMT_BOOT_DONE then
    apple_rtkit_management_rx_boot_done mbox rtk msg
  else if type =? APPLE_RTKIT_MGMT_BOOT_DONE2 then
    apple_rtkit_management_rx_boot_done2 rtk msg
  else rtk.

(** [apple_rtkit_boot]; [cpu_ctrl] is the value read from the CPU
    control register. *)
Definition apple_rtkit_boot (mbox : Z -> Z -> Z) (rtk : apple_rtkit)
    (cpu_ctrl : Z) : Z * apple_rtkit :=
  match rtk_state rtk with
  | APPLE_RTKIT_STATE_INIT =>
      let rtk := rtk_set_state rtk APPLE_RTKIT_STATE_BOOTING in
      let cpu_ctrl := u32 cpu_ctrl in
      let '(ret, rtk) :=
        if negb (Z.land cpu_ctrl APPLE_RTKIT_CPU_CONTROL_RUN =? 0) then
          apple_rtkit_send_message mbox rtk APPLE_RTKIT_EP_MGMT
            APPLE_RTKIT_MGMT_WAKEUP
        else
          (0, rtk_emit rtk
                [RtkWriteCpuControl
                   (u32 (Z.lor cpu_ctrl APPLE_RTKIT_CPU_CONTROL_RUN))]) in
      if negb (ret =? 0) then (ret, apple_rtkit_boot_abort rtk ret)
      else (ret, rtk)
  | _ => (0, rtk)
  end.

(** The messages of a log, oldest first, as pairs of words. *)
Definition rtk_sent (log : list rtk_event) : list (Z * Z) :=
  omap (fun e => match e with
                 | RtkMboxSend m0 m1 => Some (m0, m1)
                 | _ => None
                 end) log.

(** The message [apple_rtkit_start_ep] sends for an endpoint. *)
Definition startep_msg (ep : Z) : Z :=
  u64 (mgmt_msg APPLE_RTKIT_MGMT_STARTEP
         (Z.lor (FIELD_PREP APPLE_RTKIT_MGMT_STARTEP_EP ep)
            APPLE_RTKIT_MGMT_STARTEP_FLAG)).

(** A mailbox that takes every message. *)
Definition ex_mbox : Z -> Z -> Z := fun _ _ => 0.

Definition ex_rtkit : apple_rtkit :=
  mk_rtkit APPLE_RTKIT_STATE_BOOTING 0 0 0 [].

(** A hello offering versions 10 to 12, and a last endpoint map, for
    endpoints 0, 1, 2 and 4. *)
Definition ex_hello : Z := 0x0010000000000000 + 12 * 2 ^ 16 + 10.

Definition ex_epmap : Z := 0x0088000000000000 + 0x17.

(** What one step of the start loop does for a system endpoint. *)
Definition start_system_ep (mbox : Z -> Z -> Z) (rtk : apple_rtkit) (ep : Z)
  : apple_rtkit :=
  if test_bit ep (rtk_endpoints rtk)
  then rtk_emit rtk [RtkMboxSend (startep_msg ep) 0]
  else rtk.

(** The reply to an endpoint map, for a base and a last flag. *)
Definition epmap_reply (base : Z) (last : bool) : Z :=
  let reply := FIELD_PREP APPLE_RTKIT_MGMT_EPMAP_BASE base in
  let reply :=
    if last then Z.lor reply APPLE_RTKIT_MGMT_EPMAP_LAST
    else Z.lor reply APPLE_RTKIT_MGMT_EPMAP_REPLY_MORE in
  u64 (mgmt_msg APPLE_RTKIT_MGMT_EPMAP_REPLY reply).

(** * Properties *)

(** Closed comparisons on [Z] and [nat], by evaluation. *)
Ltac zclosed :=
  vm_compute; intuition (first [discriminate | reflexivity | lia]).

(** ** Machine integers *)

Lemma u64_small (x : Z) : 0 <= x < 2 ^ 64 -> u64 x = x.
Proof. intros Hx. unfold u64. apply Z.mod_small. exact Hx. Qed.

Lemma u32_small (x : Z) : 0 <= x < 2 ^ 32 -> u32 x = x.
Proof. intros Hx. unfold u32. apply Z.mod_small. exact Hx. Qed.

Lemma u16_small (x : Z) : 0 <= x < 2 ^ 16 -> u16 x = x.
Proof. intros Hx. unfold u16. apply Z.mod_small. exact Hx. Qed.

Lemma u8_small (x : Z) : 0 <= x < 2 ^ 8 -> u8 x = x.
Proof. intros Hx. unfold u8. apply Z.mod_small. exact Hx. Qed.

Lemma s32_small (x : Z) : - 2 ^ 31 <= x < 2 ^ 31 -> s32 x = x.
Proof.
  intros Hx. unfold s32. rewrite Z.mod_small; lia.
Qed.

(** Below [2 ^ 31] less a page the rounding sum does not wrap, and the
    [int] computation is the mathematical one. *)
Lemma DIV_ROUND_UP_int_small (n : Z) :
  0 <= n <= 2 ^ 31 - NVME_CTRL_PAGE_SIZE ->
  s32 (DIV_ROUND_UP_int n NVME_CTRL_PAGE_SIZE)
  = DIV_ROUND_UP n NVME_CTRL_PAGE_SIZE.
Proof.
  intros Hn. unfold DIV_ROUND_UP_int, DIV_ROUND_UP, NVME_CTRL_PAGE_SIZE in *.
  change (2 ^ 31) with 2147483648 in Hn.
  rewrite (s32_small (n + 4096 - 1))
    by (change (2 ^ 31) with 2147483648; lia).
  rewrite Z.quot_div_nonneg by lia.
  apply s32_small. change (2 ^ 31) with 2147483648.
  Z.div_mod_to_equations. lia.
Qed.

Lemma land_page_mask (x : Z) :
  Z.land x (NVME_CTRL_PAGE_SIZE - 1) = x mod NVME_CTRL_PAGE_SIZE.
Proof.
  change (NVME_CTRL_PAGE_SIZE - 1) with (Z.ones 12).
  rewrite Z.land_ones by lia. reflexivity.
Qed.

(** ** Submission to a suspended queue *)

(** A suspended queue fails the request with the hard error at a concrete
    input: the status is [BLK_STS_IOERR], which is not of the retry-later
    kind. *)
Lemma queue_rq_suspended_not_notready :
  apple_nvme_queue_rq (H := linux_nvme_host) ex_rq_oracle ex_queue_suspended
    ex_dev ex_req
  = Ok (mk_rq_result BLK_STS_IOERR ex_queue_suspended ex_dev ex_req [] [])
  /\ is_not_ready BLK_STS_IOERR = false.
Proof. split; reflexivity. Qed.

(** C1, as the code has it: a request submitted to a queue whose
    [NVMEQ_ENABLED] flag is cleared is failed with [BLK_STS_IOERR]; the
    queue and the device are left as they were, nothing is written to the
    hardware, no kernel call is made, and only the three bookkeeping
    fields of the iod are reset. *)
Theorem queue_rq_suspended_ioerr `{nvme_host} (o : rq_oracle)
    (nvmeq : apple_nvme_queue) (dev : apple_nvme_dev) (req : request) :
  test_bit NVMEQ_ENABLED (q_flags nvmeq) = false ->
  apple_nvme_queue_rq o nvmeq dev req =
    Ok (mk_rq_result BLK_STS_IOERR nvmeq dev
          (rq_set_iod req
             (iod_set_nents
                (iod_set_npages (iod_set_aborted (rq_iod req) 0) (-1)) 0))
          [] []).
Proof.
  intros Hoff. unfold apple_nvme_queue_rq. rewrite Hoff. reflexivity.
Qed.

Lemma queue_rq_suspended_ioerr_witness :
  test_bit NVMEQ_ENABLED (q_flags ex_queue_suspended) = false /\
  apple_nvme_queue_rq (H := linux_nvme_host) ex_rq_oracle ex_queue_suspended
    ex_dev ex_req =
    Ok (mk_rq_result BLK_STS_IOERR ex_queue_suspended ex_dev
          (rq_set_iod ex_req
             (iod_set_nents
                (iod_set_npages (iod_set_aborted (rq_iod ex_req) 0) (-1)) 0))
          [] []).
Proof.
  split; [reflexivity |].
  apply (@queue_rq_suspended_ioerr linux_nvme_host ex_rq_oracle
           ex_queue_suspended ex_dev ex_req).
  reflexivity.
Defined.

(** ** Order of the writes of a submission *)

(** At a concrete command the regions are written in the order tracking
    table, submission ring, doorbell: the command slot is not written
    first. *)
Lemma submit_cmd_not_cmd_first :
  write_order (apple_nvme_submit_cmd (H := linux_nvme_host) ex_queue ex_cmd).2
    = [RegionTcb; RegionSq; RegionDoorbell]
  /\ write_order (apple_nvme_submit_cmd (H := linux_nvme_host) ex_queue ex_cmd).2
    <> [RegionSq; RegionTcb; RegionDoorbell].
Proof. split; [reflexivity | discriminate]. Qed.

(** C2, as the code has it: every submission first writes the tracking
    slot of the tag (one [memset] that zeroes the slot, then stores to
    its fields and nothing else), then copies
    the 64-byte command into the ring slot of the tag once, then writes
    the tag to the doorbell once; nothing is written after the doorbell,
    and the ring slot then holds the command. *)
Theorem submit_cmd_write_order `{nvme_host} (nvmeq : apple_nvme_queue)
    (cmd : nvme_command) :
  let tag := u16 (nvme_tag_from_cid (c_command_id cmd)) in
  let off := u32 (Z.shiftl tag (sqes nvmeq)) in
  let r := apple_nvme_submit_cmd nvmeq cmd in
  exists tcb_writes stores : list hw_event,
    r.2 = tcb_writes ++
            [EvSqMemcpy off sizeof_nvme_command cmd;
             EvDoorbell (ans2_q_db nvmeq) tag] /\
    tcb_writes = EvTcbMemset tag sizeof_tcb :: stores /\
    stores <> [] /\
    Forall (fun e => exists f v, e = EvTcbStore tag f v) stores /\
    Forall (fun e => event_region e = RegionTcb) tcb_writes /\
    write_order r.2 = [RegionTcb; RegionSq; RegionDoorbell] /\
    sizeof_nvme_command = 64 /\
    sq_cmds r.1 !! off = Some cmd.
Proof.
  intros tag off r.
  eexists [_; _; _; _; _; _; _], [_; _; _; _; _; _].
  split; [reflexivity |].
  split; [reflexivity |].
  split; [discriminate |].
  split; [repeat constructor; eexists _, _; reflexivity |].
  split; [repeat constructor |].
  split; [reflexivity |]. split; [reflexivity |].
  subst r. cbn. apply lookup_insert_eq.
Qed.

(** ** Tag tracking table *)

Lemma tcb_update_lookup (q : apple_nvme_queue) (tag : Z)
    (f : apple_nvmmu_tcb -> apple_nvmmu_tcb) (t : apple_nvmmu_tcb) :
  ans2_tcb_ptr q !! Z.to_nat tag = Some t ->
  ans2_tcb_ptr (tcb_update q tag f) !! Z.to_nat tag = Some (f t).
Proof.
  intros Ht. unfold tcb_update. cbn.
  rewrite list_lookup_alter_eq. rewrite Ht. reflexivity.
Qed.

Lemma inval_twice (q : apple_nvme_queue) (tag stat stat' : Z) :
  (apple_nvmmu_inval (apple_nvmmu_inval q tag stat).1 tag stat').1
  = (apple_nvmmu_inval q tag stat).1.
Proof.
  unfold apple_nvmmu_inval, tcb_update. cbn.
  unfold set_tcbs. cbn. f_equal.
  apply list_eq. intros i.
  destruct (decide (i = Z.to_nat tag)) as [-> | Hne].
  - rewrite !list_lookup_alter_eq.
    destruct (ans2_tcb_ptr q !! Z.to_nat tag); reflexivity.
  - rewrite list_lookup_alter_ne by congruence. reflexivity.
Qed.

(** C8: arming the slot of a tag during submission and then invalidating
    the tag leaves the slot zeroed, all 128 bytes of it; invalidating the
    tag again leaves the whole queue, and so the slot, as it is.  The
    armed slot in between holds the fields of the command. *)
Theorem tcb_arm_inval_zero `{nvme_host} (nvmeq : apple_nvme_queue)
    (cmd : nvme_command) (stat stat' : Z) :
  let tag := u16 (nvme_tag_from_cid (c_command_id cmd)) in
  (Z.to_nat tag < length (ans2_tcb_ptr nvmeq))%nat ->
  let armed := (apple_nvme_submit_cmd nvmeq cmd).1 in
  let inv1 := (apple_nvmmu_inval armed tag stat).1 in
  let inv2 := (apple_nvmmu_inval inv1 tag stat').1 in
  (exists t, ans2_tcb_ptr armed !! Z.to_nat tag = Some t /\
             tcb_opcode t = u8 (c_opcode cmd) /\
             tcb_command_id t = u8 tag /\
             tcb_prp1 t = u64 (c_prp1 cmd) /\
             tcb_prp2 t = u64 (c_prp2 cmd)) /\
  ans2_tcb_ptr inv1 !! Z.to_nat tag = Some tcb_zero /\
  tcb_bytes tcb_zero = replicate (Z.to_nat sizeof_tcb) 0 /\
  inv2 = inv1.
Proof.
  intros tag Hlt armed inv1 inv2.
  destruct (lookup_lt_is_Some_2 _ _ Hlt) as [t0 Ht0].
  assert (Harmed : exists t, ans2_tcb_ptr armed !! Z.to_nat tag = Some t /\
             tcb_opcode t = u8 (c_opcode cmd) /\
             tcb_command_id t = u8 tag /\
             tcb_prp1 t = u64 (c_prp1 cmd) /\
             tcb_prp2 t = u64 (c_prp2 cmd)).
  { eexists. split.
    - subst armed. unfold apple_nvme_submit_cmd, tcb_update. cbn.
      fold tag. rewrite !list_lookup_alter_eq, Ht0. reflexivity.
    - cbn. repeat split; reflexivity. }
  split; [exact Harmed |].
  destruct Harmed as (t & Ht & _).
  split.
  - subst inv1. unfold apple_nvmmu_inval. cbn [fst].
    erewrite tcb_update_lookup by exact Ht. reflexivity.
  - split; [reflexivity |]. subst inv2 inv1. apply inval_twice.
Qed.

Lemma tcb_arm_inval_zero_witness :
  let tag := u16 (nvme_tag_from_cid (nvme_host := linux_nvme_host)
                    (c_command_id ex_cmd)) in
  (Z.to_nat tag < length (ans2_tcb_ptr ex_queue))%nat /\
  ans2_tcb_ptr
    (apple_nvmmu_inval
       (apple_nvme_submit_cmd (H := linux_nvme_host) ex_queue ex_cmd).1
       tag 0).1 !! Z.to_nat tag = Some tcb_zero.
Proof.
  split; [vm_compute; lia |].
  apply (@tcb_arm_inval_zero linux_nvme_host ex_queue ex_cmd 0 0).
  vm_compute; lia.
Defined.

(** ** Simple PRP path *)

(** C4: a request with one physical segment whose offset plus length is
    at most two controller pages is mapped by the simple path.  The
    device, and with it both PRP pools, comes back unchanged; when the
    mapping succeeds [prp1] is the mapped address, and [prp2] is that
    address plus the bytes left in the first page exactly when the
    segment is longer than those bytes (it keeps its old value
    otherwise). *)
Theorem map_data_simple_path (o : dma_oracle) (dev : apple_nvme_dev)
    (req : request) (cmnd : nvme_command) :
  let bv := rq_bvec req in
  let first := NVME_CTRL_PAGE_SIZE - bv_offset bv mod NVME_CTRL_PAGE_SIZE in
  rq_nr_phys_segments req = 1 ->
  0 <= bv_offset bv -> 0 <= bv_len bv ->
  bv_offset bv + bv_len bv <= 2 * NVME_CTRL_PAGE_SIZE ->
  0 <= o_bvec_dma o < 2 ^ 64 ->
  exists ret iod' cmnd',
    apple_nvme_map_data o dev req cmnd = Ok (ret, dev, iod', cmnd') /\
    (o_bvec_err o = false ->
       ret = BLK_STS_OK /\
       first_dma iod' = o_bvec_dma o /\
       c_prp1 cmnd' = o_bvec_dma o /\
       (first < bv_len bv -> c_prp2 cmnd' = u64 (o_bvec_dma o + first)) /\
       (bv_len bv <= first -> c_prp2 cmnd' = c_prp2 cmnd)).
Proof.
  intros bv first Hseg Hoff Hlen Hfit Hdma.
  assert (Hmod : 0 <= bv_offset bv mod NVME_CTRL_PAGE_SIZE < NVME_CTRL_PAGE_SIZE)
    by (apply Z.mod_pos_bound; reflexivity).
  unfold NVME_CTRL_PAGE_SIZE in *.
  unfold apple_nvme_map_data. fold bv. rewrite Hseg.
  rewrite (u32_small (bv_offset bv + bv_len bv)) by lia.
  replace (bv_offset bv + bv_len bv <=? NVME_CTRL_PAGE_SIZE * 2) with true
    by (symmetry; apply Z.leb_le; unfold NVME_CTRL_PAGE_SIZE; lia).
  cbn [Z.eqb Pos.eqb andb].
  unfold apple_nvme_setup_prp_simple.
  rewrite land_page_mask. unfold NVME_CTRL_PAGE_SIZE.
  rewrite (u32_small (bv_offset bv mod 4096)) by lia.
  rewrite (u32_small (4096 - _)) by lia.
  rewrite (u32_small (bv_len bv)) by lia.
  destruct (o_bvec_err o) eqn:Herr.
  - eexists _, _, _. split; [reflexivity | discriminate].
  - eexists _, _, _. split; [reflexivity |]. intros _.
    cbn [first_dma iod_set_first_dma iod_set_dma_len].
    rewrite (u64_small (o_bvec_dma o)) by exact Hdma.
    split; [reflexivity |]. split; [reflexivity |].
    subst first.
    destruct (Z.ltb_spec (4096 - bv_offset bv mod 4096) (bv_len bv)).
    + split; [reflexivity |]. split; [reflexivity | lia].
    + split; [reflexivity |]. split; [lia | reflexivity].
Qed.

Lemma map_data_simple_path_witness :
  exists ret iod' cmnd',
    apple_nvme_map_data ex_dma_oracle ex_dev ex_req ex_cmd
      = Ok (ret, ex_dev, iod', cmnd') /\
    (o_bvec_err ex_dma_oracle = false ->
       ret = BLK_STS_OK /\
       first_dma iod' = 0x5200 /\
       c_prp1 cmnd' = 0x5200 /\
       (0xe00 < 0x1000 -> c_prp2 cmnd' = u64 (0x5200 + 0xe00)) /\
       (0x1000 <= 0xe00 -> c_prp2 cmnd' = c_prp2 ex_cmd)).
Proof.
  apply (map_data_simple_path ex_dma_oracle ex_dev ex_req ex_cmd);
    zclosed.
Defined.

(** C10: in the simple path, a segment that ends within its first
    controller page leaves [prp2] as it was; the builder writes [prp1]
    and nothing else of the command (and nothing at all when the mapping
    fails). *)
Theorem prp_simple_one_page (o : dma_oracle) (iod : apple_nvme_iod)
    (cmnd : nvme_command) (bv : bio_vec) :
  0 <= bv_offset bv ->
  0 <= bv_len bv <= NVME_CTRL_PAGE_SIZE - bv_offset bv mod NVME_CTRL_PAGE_SIZE ->
  let r := apple_nvme_setup_prp_simple o iod cmnd bv in
  c_prp2 r.2 = c_prp2 cmnd /\
  (o_bvec_err o = false ->
     r.1.1 = BLK_STS_OK /\ r.2 = set_prp1 cmnd (u64 (o_bvec_dma o))) /\
  (o_bvec_err o = true -> r.2 = cmnd).
Proof.
  intros Hoff Hlen r. subst r.
  assert (Hmod : 0 <= bv_offset bv mod NVME_CTRL_PAGE_SIZE < NVME_CTRL_PAGE_SIZE)
    by (apply Z.mod_pos_bound; reflexivity).
  unfold apple_nvme_setup_prp_simple.
  rewrite land_page_mask. unfold NVME_CTRL_PAGE_SIZE in *.
  rewrite (u32_small (bv_offset bv mod 4096)) by lia.
  rewrite (u32_small (4096 - _)) by lia.
  rewrite (u32_small (bv_len bv)) by lia.
  destruct (o_bvec_err o).
  - cbn. split; [reflexivity |]. split; [discriminate | reflexivity].
  - replace (4096 - bv_offset bv mod 4096 <? bv_len bv) with false
      by (symmetry; apply Z.ltb_ge; lia).
    cbn. split; [reflexivity |]. split; [| discriminate].
    intros _. split; reflexivity.
Qed.

Lemma prp_simple_one_page_witness :
  c_prp2 (apple_nvme_setup_prp_simple ex_dma_oracle ex_iod ex_cmd
            (mk_bvec 0x200 0xe00)).2 = c_prp2 ex_cmd.
Proof.
  apply (prp_simple_one_page ex_dma_oracle ex_iod ex_cmd (mk_bvec 0x200 0xe00));
    zclosed.
Defined.

(** ** Timeout handler *)

(** C6: once the fatal-status check, the forced poll and the lifecycle
    states [CONNECTING], [DELETING] and [RESETTING] are passed, a timeout
    on the admin queue, or of a request already marked aborted, disables
    the device, schedules a reset and ends the timeout as handled.  The
    device record, hence the abort budget and the aborts in flight, is
    unchanged: no abort is attempted. *)
Theorem timeout_admin_or_aborted `{nvme_host} (o : timeout_oracle)
    (dev : apple_nvme_dev) (nvmeq : apple_nvme_queue) (req : request) :
  apple_nvme_should_reset dev (u32 (o_csts o)) = false ->
  o_completed o = false ->
  ctrl_state dev <> NVME_CTRL_CONNECTING ->
  ctrl_state dev <> NVME_CTRL_DELETING ->
  ctrl_state dev <> NVME_CTRL_RESETTING ->
  is_adminq nvmeq = true \/ aborted (rq_iod req) <> 0 ->
  let r := apple_nvme_timeout o dev nvmeq req in
  r = mk_timeout_result BLK_EH_DONE dev
        (rq_set_flags req (u8 (Z.lor (rq_flags req) NVME_REQ_CANCELLED)))
        [CallPollIrqdisable (is_adminq nvmeq);
         CallWarnTimeoutReset (rq_tag req);
         CallDevDisable false; CallResetCtrl] /\
  issues_abort (t_calls r) = false /\
  abort_limit (t_dev r) = abort_limit dev /\
  abort_inflight (t_dev r) = abort_inflight dev.
Proof.
  intros Hreset Hdone Hc Hd Hr Hwho r.
  assert (Hr_eq : r = mk_timeout_result BLK_EH_DONE dev
        (rq_set_flags req (u8 (Z.lor (rq_flags req) NVME_REQ_CANCELLED)))
        [CallPollIrqdisable (is_adminq nvmeq);
         CallWarnTimeoutReset (rq_tag req);
         CallDevDisable false; CallResetCtrl]).
  { subst r. unfold apple_nvme_timeout. rewrite Hreset, Hdone.
    assert (Hgate : is_adminq nvmeq || negb (aborted (rq_iod req) =? 0) = true).
    { destruct Hwho as [-> | Hab]; [reflexivity |].
      apply orb_true_iff. right. apply negb_true_iff, Z.eqb_neq. exact Hab. }
    destruct (ctrl_state dev); try congruence; rewrite Hgate; reflexivity. }
  rewrite Hr_eq. repeat split; reflexivity.
Qed.

Lemma timeout_admin_or_aborted_witness :
  t_ret (apple_nvme_timeout (H := linux_nvme_host) ex_timeout_alloc ex_dev
           ex_adminq ex_req) = BLK_EH_DONE /\
  issues_abort
    (t_calls (apple_nvme_timeout (H := linux_nvme_host) ex_timeout_alloc
                ex_dev ex_adminq ex_req)) = false.
Proof.
  pose proof (@timeout_admin_or_aborted linux_nvme_host ex_timeout_alloc
                ex_dev ex_adminq ex_req) as Hthm.
  cbv zeta in Hthm.
  destruct Hthm as (Heq & Hno & _); try discriminate; try reflexivity.
  - left. reflexivity.
  - split; [rewrite Heq; reflexivity | exact Hno].
Defined.

(** With a slot of the budget available but no memory for the abort
    request, the handler marks the request aborted and issues no abort
    command. *)
Lemma timeout_slot_without_abort :
  0 < abort_limit ex_dev /\
  ctrl_state ex_dev = NVME_CTRL_LIVE /\
  aborted (rq_iod ex_req) = 0 /\
  aborted (rq_iod (t_req (apple_nvme_timeout (H := linux_nvme_host)
                            ex_timeout_noalloc ex_dev ex_queue ex_req))) = 1 /\
  issues_abort
    (t_calls (apple_nvme_timeout (H := linux_nvme_host) ex_timeout_noalloc
                ex_dev ex_queue ex_req)) = false.
Proof. repeat split. Qed.

Lemma abort_cmd_fields (c : nvme_command) (tag : Z) :
  abort_sqid (set_abort c 1 tag) = 1 /\
  abort_cid (set_abort c 1 tag) = u16 tag.
Proof.
  unfold abort_sqid, abort_cid, set_abort. cbn [c_cdw10].
  assert (Ht : 0 <= u16 tag < 2 ^ 16) by (apply Z.mod_pos_bound; reflexivity).
  change (u16 1) with 1. split.
  - change 0xffff with (Z.ones 16). rewrite Z.land_ones by lia.
    rewrite Z.shiftl_mul_pow2 by lia.
    rewrite <- Z.add_nocarry_lor.
    + rewrite Z.mod_add by (apply Z.pow_nonzero; lia). reflexivity.
    + rewrite <- Z.shiftl_mul_pow2 by lia.
      apply Z.bits_inj'. intros n Hn. rewrite Z.land_spec, Z.bits_0.
      destruct (Z.eq_dec n 0) as [-> | Hn0].
      * rewrite Z.shiftl_spec_low by lia. apply andb_false_r.
      * rewrite (Z.bits_above_log2 1 n); [reflexivity | lia |].
        change (Z.log2 1) with 0. lia.
  - rewrite Z.shiftr_lor. rewrite Z.shiftr_shiftl_l by lia.
    change (Z.shiftr 1 16) with 0. rewrite Z.lor_0_l.
    replace (16 - 16) with 0 by lia. apply Z.shiftl_0_r.
Qed.

(** C7, as the code has it: on a first timeout of an I/O request that is
    not marked aborted, with the controller live and reporting no fatal
    status and the request not completed by the forced poll, the handler
    re-arms the timer and never disables or resets the device.  With the
    budget exhausted, device and request are left as they were.  With a
    slot available the request is marked aborted; when the abort request
    can be allocated an abort command for the tag goes to the admin queue
    and the slot stays taken, and when it cannot the slot is given back
    and no command is issued. *)
Theorem timeout_first_io `{nvme_host} (o : timeout_oracle)
    (dev : apple_nvme_dev) (nvmeq : apple_nvme_queue) (req : request) :
  ctrl_state dev = NVME_CTRL_LIVE ->
  Z.land (u32 (o_csts o)) NVME_CSTS_CFS = 0 ->
  o_completed o = false ->
  is_adminq nvmeq = false ->
  aborted (rq_iod req) = 0 ->
  - 2 ^ 31 < abort_limit dev < 2 ^ 31 ->
  let r := apple_nvme_timeout o dev nvmeq req in
  t_ret r = BLK_EH_RESET_TIMER /\
  disables_device (t_calls r) = false /\
  (abort_limit dev <= 0 ->
     t_dev r = dev /\ t_req r = req /\ issues_abort (t_calls r) = false) /\
  (0 < abort_limit dev ->
     aborted (rq_iod (t_req r)) = 1 /\
     (o_alloc_ok o = true ->
        exists cmd,
          t_calls r = [CallPollIrqdisable false; CallWarnAborting (rq_tag req);
                       CallExecuteRqNowait cmd] /\
          c_opcode cmd = u8 nvme_admin_abort_cmd /\
          abort_cid cmd = u16 (rq_tag req) /\
          abort_sqid cmd = 1 /\
          abort_limit (t_dev r) = abort_limit dev - 1 /\
          abort_inflight (t_dev r) = abort_inflight dev ++ [cmd]) /\
     (o_alloc_ok o = false ->
        issues_abort (t_calls r) = false /\ t_dev r = dev)).
Proof.
  intros Hlive Hcfs Hdone Hio Hab Hrange r. subst r.
  unfold apple_nvme_timeout, apple_nvme_should_reset.
  rewrite Hlive, Hcfs, Hdone, Hio, Hab.
  cbn [Z.eqb negb orb].
  unfold atomic_dec_return, atomic_inc.
  cbn [abort_limit dev_set_abort_limit].
  rewrite (s32_small (abort_limit dev - 1)) by lia.
  destruct (Z.ltb_spec (abort_limit dev - 1) 0) as [Hneg | Hpos].
  - replace (abort_limit dev - 1 + 1) with (abort_limit dev) by lia.
    rewrite (s32_small (abort_limit dev)) by lia.
    cbn. split; [reflexivity |]. split; [reflexivity |]. split; [| lia].
    intros _. destruct dev; repeat split; reflexivity.
  - destruct (o_alloc_ok o) eqn:Halloc.
    + cbn. split; [reflexivity |]. split; [reflexivity |]. split; [lia |].
      intros _. split; [reflexivity |]. split; [| discriminate].
      intros _. eexists. split; [reflexivity |].
      destruct (abort_cmd_fields (set_opcode nvme_command_zero nvme_admin_abort_cmd)
                  (rq_tag req)) as [Hsq Hcid].
      repeat split; assumption || reflexivity.
    + replace (abort_limit dev - 1 + 1) with (abort_limit dev) by lia.
      rewrite (s32_small (abort_limit dev)) by lia.
      cbn. split; [reflexivity |]. split; [reflexivity |]. split; [lia |].
      intros _. split; [reflexivity |]. split; [discriminate |].
      intros _. split; [reflexivity |]. destruct dev; reflexivity.
Qed.

Lemma timeout_first_io_witness :
  t_ret (apple_nvme_timeout (H := linux_nvme_host) ex_timeout_alloc ex_dev
           ex_queue ex_req) = BLK_EH_RESET_TIMER /\
  disables_device
    (t_calls (apple_nvme_timeout (H := linux_nvme_host) ex_timeout_alloc
                ex_dev ex_queue ex_req)) = false.
Proof.
  pose proof (@timeout_first_io linux_nvme_host ex_timeout_alloc ex_dev
                ex_queue ex_req) as Hthm.
  cbv zeta in Hthm.
  destruct Hthm as (Hret & Hno & _); try reflexivity.
  - zclosed.
  - split; assumption.
Defined.

(** ** Abort budget *)

(** What one run of the timeout handler does to the budget: nothing, or
    one slot taken for an abort command now in flight. *)
Lemma timeout_budget `{nvme_host} (o : timeout_oracle) (dev : apple_nvme_dev)
    (nvmeq : apple_nvme_queue) (req : request) :
  - 2 ^ 31 < abort_limit dev < 2 ^ 31 ->
  let r := apple_nvme_timeout o dev nvmeq req in
  (abort_limit (t_dev r) = abort_limit dev /\
   abort_inflight (t_dev r) = abort_inflight dev /\
   issues_abort (t_calls r) = false) \/
  (exists cmd,
     0 < abort_limit dev /\
     abort_limit (t_dev r) = abort_limit dev - 1 /\
     abort_inflight (t_dev r) = abort_inflight dev ++ [cmd] /\
     last (t_calls r) = Some (CallExecuteRqNowait cmd)).
Proof.
  intros Hrange r. subst r. unfold apple_nvme_timeout.
  destruct (apple_nvme_should_reset dev (u32 (o_csts o)));
    [left; repeat split; reflexivity |].
  destruct (o_completed o); [left; repeat split; reflexivity |].
  destruct (ctrl_state dev) eqn:Hst;
    try (left; repeat split; reflexivity).
  all: destruct (is_adminq nvmeq || negb (aborted (rq_iod req) =? 0));
    [left; repeat split; reflexivity |].
  all: unfold atomic_dec_return, atomic_inc;
    cbn [abort_limit dev_set_abort_limit];
    rewrite (s32_small (abort_limit dev - 1)) by lia;
    destruct (Z.ltb_spec (abort_limit dev - 1) 0) as [Hneg | Hpos];
    [ replace (abort_limit dev - 1 + 1) with (abort_limit dev) by lia;
      rewrite (s32_small (abort_limit dev)) by lia;
      left; repeat split; reflexivity |].
  all: destruct (o_alloc_ok o);
    [ right; eexists; cbn; repeat split; try reflexivity; lia
    | replace (abort_limit dev - 1 + 1) with (abort_limit dev) by lia;
      rewrite (s32_small (abort_limit dev)) by lia;
      left; repeat split; reflexivity ].
Qed.

Lemma abort_endio_budget (dev : apple_nvme_dev) (k : nat) :
  - 2 ^ 31 <= abort_limit dev < 2 ^ 31 - 1 ->
  (k < length (abort_inflight dev))%nat ->
  abort_limit (apple_abort_endio dev k) = abort_limit dev + 1 /\
  S (length (abort_inflight (apple_abort_endio dev k)))
    = length (abort_inflight dev).
Proof.
  intros Hrange Hk. unfold apple_abort_endio, atomic_inc. cbn.
  rewrite s32_small by lia. split; [reflexivity |].
  rewrite length_delete by (apply lookup_lt_is_Some_2; exact Hk). lia.
Qed.

(** The invariant carried along a run. *)
Lemma drv_steps_budget `{nvme_host} (d d' : apple_nvme_dev) :
  0 <= abort_limit d ->
  abort_limit d + Z.of_nat (length (abort_inflight d)) < 2 ^ 31 ->
  drv_steps d d' ->
  0 <= abort_limit d' /\
  abort_limit d' + Z.of_nat (length (abort_inflight d'))
    = abort_limit d + Z.of_nat (length (abort_inflight d)).
Proof.
  intros Hpos Hbound Hsteps.
  induction Hsteps as [d | d1 d2 d3 Hsteps IH Hstep].
  - split; [exact Hpos | reflexivity].
  - specialize (IH Hpos Hbound). destruct IH as [Hpos2 Hbal2].
    inversion Hstep as [o dev nvmeq req Hd2 Hd3 | dev k Hk Hd2 Hd3]; subst.
    + destruct (timeout_budget o d2 nvmeq req) as [(Hl & Hi & _) | (cmd & Hs & Hl & Hi & _)];
        [lia | |].
      * rewrite Hl, Hi. split; [exact Hpos2 | exact Hbal2].
      * rewrite Hl, Hi, length_app. cbn [length]. split; lia.
    + destruct (abort_endio_budget d2 k) as [Hl Hi]; [lia | exact Hk |].
      rewrite Hl. split; lia.
Qed.

(** C9: the timeout path does not leak the abort budget.  A run of the
    handler either leaves the counter and the aborts in flight as they
    were (the decrement that went negative, or that was followed by a
    failed allocation, is undone on the spot), or takes one slot and puts
    one abort command in flight; the completion of an abort command in
    flight gives one slot back; so along any run of the driver the
    counter plus the number of aborts in flight is constant. *)
Theorem abort_budget_not_leaked `{nvme_host} (d : apple_nvme_dev) :
  0 <= abort_limit d ->
  abort_limit d + Z.of_nat (length (abort_inflight d)) < 2 ^ 31 ->
  (forall o nvmeq req,
     let r := apple_nvme_timeout o d nvmeq req in
     (abort_limit (t_dev r) = abort_limit d /\
      abort_inflight (t_dev r) = abort_inflight d /\
      issues_abort (t_calls r) = false) \/
     (exists cmd,
        0 < abort_limit d /\
        abort_limit (t_dev r) = abort_limit d - 1 /\
        abort_inflight (t_dev r) = abort_inflight d ++ [cmd] /\
        last (t_calls r) = Some (CallExecuteRqNowait cmd))) /\
  (forall k, (k < length (abort_inflight d))%nat ->
     abort_limit (apple_abort_endio d k) = abort_limit d + 1 /\
     S (length (abort_inflight (apple_abort_endio d k)))
       = length (abort_inflight d)) /\
  (forall d', drv_steps d d' ->
     0 <= abort_limit d' /\
     abort_limit d' + Z.of_nat (length (abort_inflight d'))
       = abort_limit d + Z.of_nat (length (abort_inflight d))).
Proof.
  intros Hpos Hbound. split; [| split].
  - intros o nvmeq req. apply timeout_budget. lia.
  - intros k Hk. apply abort_endio_budget; [lia | exact Hk].
  - intros d' Hsteps. apply drv_steps_budget; assumption.
Qed.

Lemma abort_budget_not_leaked_witness :
  let d1 := t_dev (apple_nvme_timeout (H := linux_nvme_host) ex_timeout_alloc
                     ex_dev ex_queue ex_req) in
  let d2 := apple_abort_endio d1 0 in
  0 <= abort_limit d2 /\
  abort_limit d2 + Z.of_nat (length (abort_inflight d2))
    = abort_limit ex_dev + Z.of_nat (length (abort_inflight ex_dev)).
Proof.
  intros d1 d2.
  apply (@abort_budget_not_leaked linux_nvme_host ex_dev); [zclosed | zclosed |].
  eapply steps_snoc; [eapply steps_snoc; [apply steps_refl |] |].
  - apply (step_timeout (H := linux_nvme_host) ex_timeout_alloc ex_dev
             ex_queue ex_req).
  - apply (step_abort_endio (H := linux_nvme_host)). vm_compute. lia.
Defined.

(** ** Completion ring *)

Lemma lxor_1_u8 (p : Z) :
  0 <= p < 256 -> 0 <= Z.lxor p 1 < 256 /\ Z.lxor p 1 <> p.
Proof.
  intros Hp. split.
  - assert (Hnn : 0 <= Z.lxor p 1) by (apply Z.lxor_nonneg; lia).
    split; [exact Hnn |].
    destruct (Z.eq_dec (Z.lxor p 1) 0) as [-> | Hnz]; [lia |].
    change 256 with (2 ^ 8). apply Z.log2_lt_pow2; [lia |].
    pose proof (Z.log2_lxor p 1 ltac:(lia) ltac:(lia)) as Hlog.
    change (Z.log2 1) with 0 in Hlog.
    destruct (Z.eq_dec p 0) as [-> | Hp0].
    + cbn in *. lia.
    + assert (Z.log2 p < 8) by (apply Z.log2_lt_pow2; lia). lia.
  - intros Heq.
    assert (Hx : Z.lxor (Z.lxor p 1) p = 0) by (rewrite Heq; apply Z.lxor_nilpotent).
    rewrite (Z.lxor_comm p 1), Z.lxor_assoc, Z.lxor_nilpotent in Hx.
    discriminate Hx.
Qed.

Lemma update_cq_head_next (q : apple_nvme_queue) :
  0 <= cq_head q -> cq_head q + 1 < q_depth q -> q_depth q <= 65536 ->
  apple_nvme_update_cq_head q = set_cq q (cq_head q + 1) (cq_phase q).
Proof.
  intros H0 H1 H2. unfold apple_nvme_update_cq_head.
  rewrite u32_small by lia.
  replace (cq_head q + 1 =? q_depth q) with false by (symmetry; apply Z.eqb_neq; lia).
  rewrite u16_small by lia. reflexivity.
Qed.

Lemma update_cq_head_wrap (q : apple_nvme_queue) :
  0 <= cq_head q -> cq_head q + 1 = q_depth q -> q_depth q <= 65536 ->
  apple_nvme_update_cq_head q = set_cq q 0 (u8 (Z.lxor (cq_phase q) 1)).
Proof.
  intros H0 H1 H2. unfold apple_nvme_update_cq_head.
  rewrite u32_small by lia.
  replace (cq_head q + 1 =? q_depth q) with true by (symmetry; apply Z.eqb_eq; lia).
  reflexivity.
Qed.

(** Within a lap the head counts up and the phase stands still. *)
Lemma update_cq_head_iter (q : apple_nvme_queue) (k : nat) :
  cq_head q = 0 -> Z.of_nat k < q_depth q -> q_depth q <= 65536 ->
  Nat.iter k apple_nvme_update_cq_head q = set_cq q (Z.of_nat k) (cq_phase q).
Proof.
  intros Hh Hk HD. induction k as [| k IH].
  - cbn. destruct q; cbn in *; subst; reflexivity.
  - rewrite Nat.iter_succ, IH by lia.
    rewrite update_cq_head_next; cbn; try lia.
    unfold set_cq; cbn. f_equal. lia.
Qed.

Lemma handle_cqe_frame `{nvme_host} (o : cq_oracle) (q : apple_nvme_queue)
    (idx : Z) :
  let q' := (apple_nvme_handle_cqe o q idx).1.1 in
  cqes q' = cqes q /\ cq_head q' = cq_head q /\
  cq_phase q' = cq_phase q /\ q_depth q' = q_depth q.
Proof.
  unfold apple_nvme_handle_cqe, apple_nvmmu_inval.
  cbv zeta. cbn [fst snd].
  repeat match goal with |- context [if ?b then _ else _] => destruct b end;
    cbn; repeat split; reflexivity.
Qed.

Lemma process_cq_loop_stop `{nvme_host} (fuel : nat) (o : cq_oracle)
    (r : cq_run) :
  apple_nvme_cqe_pending (run_nvmeq r) = false ->
  process_cq_loop fuel o r = Ok r.
Proof. intros Hp. destruct fuel; cbn; rewrite Hp; reflexivity. Qed.

(** One iteration, with what it keeps of the queue. *)
Lemma process_cq_loop_step `{nvme_host} (fuel : nat) (o : cq_oracle)
    (r : cq_run) :
  let q := run_nvmeq r in
  apple_nvme_cqe_pending q = true ->
  exists r1,
    process_cq_loop (S fuel) o r = process_cq_loop fuel o r1 /\
    cqes (run_nvmeq r1) = cqes q /\
    q_depth (run_nvmeq r1) = q_depth q /\
    cq_head (run_nvmeq r1) = cq_head (apple_nvme_update_cq_head q) /\
    cq_phase (run_nvmeq r1) = cq_phase (apple_nvme_update_cq_head q) /\
    run_found r1 = s32 (run_found r + 1) /\
    run_consumed r1 =
      run_consumed r ++
        [mk_consumed (cq_head q) (cqe_at q (cq_head q)) (cq_phase q)].
Proof.
  intros q Hp. cbn [process_cq_loop]. fold q. rewrite Hp.
  pose proof (handle_cqe_frame o q (cq_head q)) as Hf. cbv zeta in Hf.
  destruct (apple_nvme_handle_cqe o q (cq_head q)) as [[q1 hw] calls].
  cbn [fst] in Hf. destruct Hf as (Hc & Hh & Hph & Hd).
  eexists. split; [reflexivity |]. cbn [run_nvmeq run_found run_consumed].
  unfold apple_nvme_update_cq_head. rewrite Hh, Hph, Hd.
  destruct (u32 (cq_head q + 1) =? q_depth q); cbn;
    repeat split; assumption || reflexivity.
Qed.

Lemma cqe_at_cqes (q q' : apple_nvme_queue) (i : Z) :
  cqes q' = cqes q -> cqe_at q' i = cqe_at q i.
Proof. intros Hc. unfold cqe_at. rewrite Hc. reflexivity. Qed.

(** The loop stops at an entry ahead in the lap whose phase bit is not
    the expected one. *)
Lemma process_cq_loop_ahead `{nvme_host} (o : cq_oracle) (k : nat) :
  forall (fuel : nat) (r : cq_run),
    let q := run_nvmeq r in
    0 <= cq_head q -> cq_head q + Z.of_nat k < q_depth q ->
    q_depth q <= 65536 ->
    Z.land (cqe_status (cqe_at q (cq_head q + Z.of_nat k))) 1 <> cq_phase q ->
    (k <= fuel)%nat ->
    exists r', process_cq_loop fuel o r = Ok r'.
Proof.
  induction k as [| k IH]; intros fuel r q H0 Hk HD Hbit Hfuel.
  - exists r. apply process_cq_loop_stop. fold q.
    unfold apple_nvme_cqe_pending. apply Z.eqb_neq.
    replace (cq_head q + Z.of_nat 0) with (cq_head q) in Hbit by lia.
    exact Hbit.
  - destruct (apple_nvme_cqe_pending q) eqn:Hp.
    + destruct fuel as [| fuel]; [lia |].
      destruct (process_cq_loop_step fuel o r Hp)
        as (r1 & Hstep & Hc & Hd & Hh & Hph & _).
      fold q in Hc, Hd, Hh, Hph.
      rewrite update_cq_head_next in Hh, Hph by lia. cbn in Hh, Hph.
      rewrite Hstep. apply IH; rewrite ?Hph, ?Hh, ?Hd; try lia.
      rewrite (cqe_at_cqes q) by exact Hc.
      replace (cq_head q + 1 + Z.of_nat k) with (cq_head q + Z.of_nat (S k)) by lia.
      exact Hbit.
    + exists r. apply process_cq_loop_stop. exact Hp.
Qed.

(** The loop stops, after the wrap at the latest, at an entry behind the
    head whose phase bit is not the flipped phase. *)
Lemma process_cq_loop_behind `{nvme_host} (o : cq_oracle) (k : nat) :
  forall (fuel : nat) (r : cq_run) (t : nat),
    let q := run_nvmeq r in
    0 <= cq_head q < q_depth q ->
    cq_head q + Z.of_nat k = q_depth q ->
    q_depth q <= 65536 ->
    Z.of_nat t < q_depth q ->
    Z.land (cqe_status (cqe_at q (Z.of_nat t))) 1
      <> u8 (Z.lxor (cq_phase q) 1) ->
    (k + t <= fuel)%nat ->
    exists r', process_cq_loop fuel o r = Ok r'.
Proof.
  induction k as [| k IH]; intros fuel r t q H0 Hk HD Ht Hbit Hfuel; [lia |].
  destruct (apple_nvme_cqe_pending q) eqn:Hp.
  - destruct fuel as [| fuel]; [lia |].
    destruct (process_cq_loop_step fuel o r Hp)
      as (r1 & Hstep & Hc & Hd & Hh & Hph & _).
    fold q in Hc, Hd, Hh, Hph. rewrite Hstep.
    destruct (Z.eq_dec (cq_head q + 1) (q_depth q)) as [Hwrap | Hnext].
    + rewrite update_cq_head_wrap in Hh, Hph by lia. cbn in Hh, Hph.
      apply (process_cq_loop_ahead o t); rewrite ?Hph, ?Hh, ?Hd; try lia.
      rewrite (cqe_at_cqes q) by exact Hc.
      replace (0 + Z.of_nat t) with (Z.of_nat t) by lia. exact Hbit.
    + rewrite update_cq_head_next in Hh, Hph by lia. cbn in Hh, Hph.
      apply (IH fuel r1 t); rewrite ?Hph, ?Hh, ?Hd; try lia.
      rewrite (cqe_at_cqes q) by exact Hc. exact Hbit.
  - exists r. apply process_cq_loop_stop. exact Hp.
Qed.

(** A drain of a ring read as it stands ends within [q_depth] entries. *)
Lemma process_cq_loop_total `{nvme_host} (o : cq_oracle) (r : cq_run) :
  let q := run_nvmeq r in
  0 <= cq_head q < q_depth q -> q_depth q <= 65536 ->
  0 <= cq_phase q < 256 ->
  exists r', process_cq_loop (Z.to_nat (q_depth q)) o r = Ok r'.
Proof.
  intros q Hh HD Hph.
  destruct (apple_nvme_cqe_pending q) eqn:Hp.
  - apply (process_cq_loop_behind o (Z.to_nat (q_depth q - cq_head q))
             _ r (Z.to_nat (cq_head q))); fold q; try lia.
    unfold apple_nvme_cqe_pending in Hp. apply Z.eqb_eq in Hp.
    rewrite Z2Nat.id by lia. rewrite Hp.
    destruct (lxor_1_u8 (cq_phase q) Hph) as [Hr Hne].
    rewrite u8_small by (change (2 ^ 8) with 256; lia).
    intros Heq. apply Hne. symmetry. exact Heq.
  - exists r. apply process_cq_loop_stop. exact Hp.
Qed.

(** Every entry the loop takes carried the phase expected at that time. *)
Lemma process_cq_loop_fresh `{nvme_host} (o : cq_oracle) (q0 : apple_nvme_queue)
    (fuel : nat) :
  forall r r',
    let fresh := fun c =>
      Z.land (cqe_status (cons_cqe c)) 1 = cons_phase c /\
      cons_cqe c = cqe_at q0 (cons_idx c) in
    process_cq_loop fuel o r = Ok r' ->
    cqes (run_nvmeq r) = cqes q0 ->
    run_found r = Z.of_nat (length (run_consumed r)) ->
    Z.of_nat (length (run_consumed r) + fuel) < 2 ^ 31 ->
    Forall fresh (run_consumed r) ->
    Forall fresh (run_consumed r') /\
    run_found r' = Z.of_nat (length (run_consumed r')) /\
    cqes (run_nvmeq r') = cqes q0.
Proof.
  induction fuel as [| fuel IH]; intros r r' fresh Hrun Hc Hfound Hlen Hall.
  - cbn in Hrun. destruct (apple_nvme_cqe_pending (run_nvmeq r)); [discriminate |].
    injection Hrun as <-. repeat split; assumption.
  - destruct (apple_nvme_cqe_pending (run_nvmeq r)) eqn:Hp.
    + destruct (process_cq_loop_step fuel o r Hp)
        as (r1 & Hstep & Hc1 & _ & _ & _ & Hf1 & Hcons1).
      rewrite Hstep in Hrun.
      apply (IH r1 r' Hrun).
      * rewrite Hc1. exact Hc.
      * rewrite Hf1, Hcons1, length_app, Hfound. cbn [length].
        rewrite s32_small by lia. lia.
      * rewrite Hcons1, length_app. cbn [length]. lia.
      * rewrite Hcons1. apply Forall_app. split; [exact Hall |].
        constructor; [| constructor]. cbn. split.
        -- unfold apple_nvme_cqe_pending in Hp. apply Z.eqb_eq. exact Hp.
        -- apply cqe_at_cqes. exact Hc.
    + rewrite process_cq_loop_stop in Hrun by exact Hp.
      injection Hrun as <-. repeat split; assumption.
Qed.

(** C5: on a ring of depth [D], [D] advances of the head from 0 bring it
    back to 0 and flip the phase once, at the last advance (before it the
    head counts up and the phase stands still); a drain returns, having
    taken only entries whose status low bit was the phase the queue
    expected when it took them; and a drain that finds another bit at the
    head takes nothing. *)
Theorem cq_lap_flips_phase_once `{nvme_host} (o : cq_oracle)
    (dev : apple_nvme_dev) (q : apple_nvme_queue) :
  0 < q_depth q <= 65536 ->
  0 <= cq_phase q < 256 ->
  (cq_head q = 0 ->
     (forall k : nat, Z.of_nat k < q_depth q ->
        cq_head (Nat.iter k apple_nvme_update_cq_head q) = Z.of_nat k /\
        cq_phase (Nat.iter k apple_nvme_update_cq_head q) = cq_phase q) /\
     cq_head (Nat.iter (Z.to_nat (q_depth q)) apple_nvme_update_cq_head q) = 0 /\
     cq_phase (Nat.iter (Z.to_nat (q_depth q)) apple_nvme_update_cq_head q)
       = Z.lxor (cq_phase q) 1 /\
     Z.lxor (cq_phase q) 1 <> cq_phase q) /\
  (0 <= cq_head q < q_depth q ->
     exists r,
       nvme_process_cq o dev q = Ok r /\
       Forall (fun c =>
                 Z.land (cqe_status (cons_cqe c)) 1 = cons_phase c /\
                 cons_cqe c = cqe_at q (cons_idx c)) (run_consumed r) /\
       run_found r = Z.of_nat (length (run_consumed r))) /\
  (Z.land (cqe_status (cqe_at q (cq_head q))) 1 <> cq_phase q ->
     nvme_process_cq o dev q = Ok (mk_cq_run q 0 [] [] [])).
Proof.
  intros HD Hph. split; [| split].
  - intros Hh. destruct (lxor_1_u8 (cq_phase q) Hph) as [Hr Hne].
    split; [| split; [| split]]; try exact Hne.
    + intros k Hk. rewrite update_cq_head_iter by lia. cbn. split; reflexivity.
    + replace (Z.to_nat (q_depth q)) with (S (Z.to_nat (q_depth q - 1))) by lia.
      rewrite Nat.iter_succ, update_cq_head_iter by lia.
      rewrite update_cq_head_wrap; cbn; lia.
    + replace (Z.to_nat (q_depth q)) with (S (Z.to_nat (q_depth q - 1))) by lia.
      rewrite Nat.iter_succ, update_cq_head_iter by lia.
      rewrite update_cq_head_wrap; cbn; try lia.
      apply u8_small. change (2 ^ 8) with 256. lia.
  - intros Hh.
    destruct (process_cq_loop_total o (mk_cq_run q 0 [] [] []))
      as [r Hr]; cbn; try lia.
    cbn in Hr.
    destruct (process_cq_loop_fresh o q _ _ _ Hr) as (Hall & Hfound & _);
      cbn; try reflexivity; try lia; [constructor |].
    unfold nvme_process_cq. rewrite Hr. cbn.
    destruct (run_found r =? 0); cbn; eexists; split; try reflexivity;
      cbn; split; assumption.
  - intros Hstale. unfold nvme_process_cq.
    rewrite process_cq_loop_stop; [reflexivity |].
    cbn [run_nvmeq]. unfold apple_nvme_cqe_pending.
    apply Z.eqb_neq. exact Hstale.
Qed.

Lemma cq_lap_flips_phase_once_witness :
  cq_head (Nat.iter 64 apple_nvme_update_cq_head ex_queue) = 0 /\
  cq_phase (Nat.iter 64 apple_nvme_update_cq_head ex_queue) = 0.
Proof.
  pose proof (@cq_lap_flips_phase_once linux_nvme_host
                (mk_cq_oracle (fun _ => true) (fun _ => false) (fun _ => 0))
                ex_dev ex_queue) as Hthm.
  destruct Hthm as (Hlap & _ & _); [zclosed | zclosed |].
  destruct Hlap as (_ & Hhead & Hphase & _); [reflexivity |].
  split; [exact Hhead | exact Hphase].
Defined.

(** ** Scatterlists cut at page boundaries *)

Ltac page_arith :=
  unfold NVME_CTRL_PAGE_SIZE, DIV_ROUND_UP in *;
  change (2 ^ 31) with 2147483648 in *;
  change (2 ^ 64) with 18446744073709551616 in *;
  Z.div_mod_to_equations; lia.

Lemma page_next_aligned (a : Z) :
  (a + (NVME_CTRL_PAGE_SIZE - a mod NVME_CTRL_PAGE_SIZE))
    mod NVME_CTRL_PAGE_SIZE = 0.
Proof. page_arith. Qed.

Lemma pieces_n_one (k : nat) (a l : Z) :
  l <= NVME_CTRL_PAGE_SIZE - a mod NVME_CTRL_PAGE_SIZE ->
  pieces_n (S k) a l = [(a, l)].
Proof.
  intros Hl. cbn [pieces_n].
  replace (l <=? _) with true by (symmetry; apply Z.leb_le; exact Hl).
  reflexivity.
Qed.

Lemma pieces_n_cons (k : nat) (a l : Z) :
  NVME_CTRL_PAGE_SIZE - a mod NVME_CTRL_PAGE_SIZE < l ->
  pieces_n (S k) a l =
    (a, NVME_CTRL_PAGE_SIZE - a mod NVME_CTRL_PAGE_SIZE)
      :: pieces_n k (a + (NVME_CTRL_PAGE_SIZE - a mod NVME_CTRL_PAGE_SIZE))
           (l - (NVME_CTRL_PAGE_SIZE - a mod NVME_CTRL_PAGE_SIZE)).
Proof.
  intros Hl. cbn [pieces_n].
  replace (l <=? _) with false by (symmetry; apply Z.leb_gt; exact Hl).
  reflexivity.
Qed.

Lemma frag_pieces_one (a l : Z) :
  0 < l <= NVME_CTRL_PAGE_SIZE - a mod NVME_CTRL_PAGE_SIZE ->
  frag_pieces (a, l) = [(a, l)].
Proof.
  intros Hl. unfold frag_pieces. cbn [fst snd].
  replace (Z.to_nat _) with 1%nat.
  - apply pieces_n_one. lia.
  - assert (DIV_ROUND_UP (a mod NVME_CTRL_PAGE_SIZE + l) NVME_CTRL_PAGE_SIZE = 1)
      by page_arith.
    lia.
Qed.

Lemma frag_pieces_cons (a l : Z) :
  NVME_CTRL_PAGE_SIZE - a mod NVME_CTRL_PAGE_SIZE < l ->
  frag_pieces (a, l) =
    (a, NVME_CTRL_PAGE_SIZE - a mod NVME_CTRL_PAGE_SIZE)
      :: frag_pieces (a + (NVME_CTRL_PAGE_SIZE - a mod NVME_CTRL_PAGE_SIZE),
                      l - (NVME_CTRL_PAGE_SIZE - a mod NVME_CTRL_PAGE_SIZE)).
Proof.
  intros Hl. unfold frag_pieces. cbn [fst snd].
  rewrite page_next_aligned.
  set (c := NVME_CTRL_PAGE_SIZE - a mod NVME_CTRL_PAGE_SIZE) in *.
  assert (Hcount :
    DIV_ROUND_UP (a mod NVME_CTRL_PAGE_SIZE + l) NVME_CTRL_PAGE_SIZE
    = DIV_ROUND_UP (0 + (l - c)) NVME_CTRL_PAGE_SIZE + 1 /\
    0 <= DIV_ROUND_UP (0 + (l - c)) NVME_CTRL_PAGE_SIZE).
  { subst c. page_arith. }
  destruct Hcount as [-> Hnn].
  rewrite Z2Nat.inj_add by lia. rewrite Nat.add_1_r.
  apply pieces_n_cons. exact Hl.
Qed.

(** Induction on a fragment, page by page. *)
Lemma frag_ind (Q : Z -> Z -> Prop) :
  (forall a l, 0 < l <= NVME_CTRL_PAGE_SIZE - a mod NVME_CTRL_PAGE_SIZE -> Q a l) ->
  (forall a l, NVME_CTRL_PAGE_SIZE - a mod NVME_CTRL_PAGE_SIZE < l ->
     Q (a + (NVME_CTRL_PAGE_SIZE - a mod NVME_CTRL_PAGE_SIZE))
       (l - (NVME_CTRL_PAGE_SIZE - a mod NVME_CTRL_PAGE_SIZE)) ->
     Q a l) ->
  forall a l, 0 < l -> Q a l.
Proof.
  intros Hone Hcons a l Hl.
  assert (Hgen : forall n : nat, forall a l, 0 < l -> l <= Z.of_nat n -> Q a l).
  { induction n as [| n IH]; intros a' l' Hl' Hn; [lia |].
    destruct (Z_le_gt_dec l' (NVME_CTRL_PAGE_SIZE - a' mod NVME_CTRL_PAGE_SIZE))
      as [Hle | Hgt].
    - apply Hone. lia.
    - apply Hcons; [lia |]. apply IH.
      + lia.
      + assert (0 <= a' mod NVME_CTRL_PAGE_SIZE < NVME_CTRL_PAGE_SIZE)
          by (apply Z.mod_pos_bound; reflexivity).
        lia. }
  apply (Hgen (Z.to_nat l)); lia.
Qed.

Lemma frag_pieces_sum (a l : Z) :
  0 < l -> sum_list (snd <$> frag_pieces (a, l)) = l.
Proof.
  revert a l.
  apply (frag_ind (fun a l => sum_list (snd <$> frag_pieces (a, l)) = l));
    intros a l Hl.
  - rewrite frag_pieces_one by exact Hl. cbn. lia.
  - intros IH. rewrite frag_pieces_cons by exact Hl. cbn [fmap list_fmap snd sum_list foldr].
    fold (sum_list (snd <$> frag_pieces
      (a + (NVME_CTRL_PAGE_SIZE - a mod NVME_CTRL_PAGE_SIZE),
       l - (NVME_CTRL_PAGE_SIZE - a mod NVME_CTRL_PAGE_SIZE)))).
    rewrite IH. lia.
Qed.

Lemma frag_pieces_regular (a l : Z) :
  0 < l -> pieces_regular (frag_pieces (a, l)).
Proof.
  revert a l.
  apply (frag_ind (fun a l => pieces_regular (frag_pieces (a, l))));
    intros a l Hl.
  - rewrite frag_pieces_one by exact Hl. cbn. unfold piece_part. cbn. exact Hl.
  - intros IH. rewrite frag_pieces_cons by exact Hl.
    destruct (frag_pieces _) as [| p ps] eqn:Hps; [destruct IH |].
    cbn [pieces_regular]. split; [reflexivity | exact IH].
Qed.

(** A fragment that ends on a page boundary has full pieces only. *)
Lemma frag_pieces_full (a l : Z) :
  0 < l -> (a + l) mod NVME_CTRL_PAGE_SIZE = 0 ->
  Forall piece_full (frag_pieces (a, l)).
Proof.
  revert a l.
  apply (frag_ind (fun a l => (a + l) mod NVME_CTRL_PAGE_SIZE = 0 ->
                              Forall piece_full (frag_pieces (a, l))));
    intros a l Hl.
  - intros Hend. rewrite frag_pieces_one by exact Hl.
    constructor; [| constructor]. unfold piece_full. cbn. page_arith.
  - intros IH Hend. rewrite frag_pieces_cons by exact Hl.
    constructor; [reflexivity |]. apply IH.
    replace (a + (NVME_CTRL_PAGE_SIZE - a mod NVME_CTRL_PAGE_SIZE) +
             (l - (NVME_CTRL_PAGE_SIZE - a mod NVME_CTRL_PAGE_SIZE)))
      with (a + l) by lia.
    exact Hend.
Qed.

Lemma frag_pieces_aligned (a l : Z) :
  0 < l -> a mod NVME_CTRL_PAGE_SIZE = 0 ->
  Forall (fun p => p.1 mod NVME_CTRL_PAGE_SIZE = 0) (frag_pieces (a, l)).
Proof.
  revert a l.
  apply (frag_ind (fun a l => a mod NVME_CTRL_PAGE_SIZE = 0 ->
           Forall (fun p => p.1 mod NVME_CTRL_PAGE_SIZE = 0) (frag_pieces (a, l))));
    intros a l Hl.
  - intros Ha. rewrite frag_pieces_one by exact Hl. repeat constructor. exact Ha.
  - intros IH Ha. rewrite frag_pieces_cons by exact Hl.
    constructor; [exact Ha |]. apply IH. apply page_next_aligned.
Qed.

Lemma frag_pieces_in_u64 (a l : Z) :
  0 < l -> 0 <= a -> a + l <= 2 ^ 64 ->
  Forall (fun p => in_u64 p.1) (frag_pieces (a, l)).
Proof.
  revert a l.
  apply (frag_ind (fun a l => 0 <= a -> a + l <= 2 ^ 64 ->
           Forall (fun p => in_u64 p.1) (frag_pieces (a, l))));
    intros a l Hl.
  - intros Ha Hend. rewrite frag_pieces_one by exact Hl.
    repeat constructor; cbn; lia.
  - intros IH Ha Hend. rewrite frag_pieces_cons by exact Hl.
    assert (0 <= a mod NVME_CTRL_PAGE_SIZE < NVME_CTRL_PAGE_SIZE)
      by (apply Z.mod_pos_bound; reflexivity).
    constructor; [split; cbn; lia |]. apply IH; lia.
Qed.

Lemma sum_list_app (xs ys : list Z) :
  sum_list (xs ++ ys) = sum_list xs + sum_list ys.
Proof.
  induction xs as [| x xs IH]; cbn; [reflexivity |].
  fold (sum_list (xs ++ ys)). fold (sum_list xs). rewrite IH. lia.
Qed.

Lemma sum_list_cons (x : Z) (xs : list Z) :
  sum_list (x :: xs) = x + sum_list xs.
Proof. reflexivity. Qed.

Lemma pieces_regular_cons (p : Z * Z) (ps : list (Z * Z)) :
  ps <> [] ->
  pieces_regular (p :: ps) <-> piece_full p /\ pieces_regular ps.
Proof. intros Hne. destruct ps; [congruence |]. reflexivity. Qed.

Lemma pieces_regular_app (xs ys : list (Z * Z)) :
  Forall piece_full xs -> pieces_regular ys -> pieces_regular (xs ++ ys).
Proof.
  intros Hxs Hys. induction Hxs as [| x xs Hx Hxs IH]; [exact Hys |].
  cbn [app]. apply pieces_regular_cons.
  - destruct xs; [destruct ys; [destruct Hys | discriminate] | discriminate].
  - split; assumption.
Qed.

Lemma page_room (a : Z) :
  0 < NVME_CTRL_PAGE_SIZE - a mod NVME_CTRL_PAGE_SIZE <= NVME_CTRL_PAGE_SIZE.
Proof. page_arith. Qed.

Lemma pieces_regular_sum_pos (ps : list (Z * Z)) :
  pieces_regular ps -> 0 < sum_list (snd <$> ps).
Proof.
  induction ps as [| p ps IH]; [intros [] |].
  destruct ps as [| p' ps'].
  - intros Hp. cbn [pieces_regular] in Hp. unfold piece_part in Hp.
    cbn. lia.
  - intros [Hfull Hrest]. specialize (IH Hrest).
    rewrite fmap_cons, sum_list_cons. unfold piece_full in Hfull.
    pose proof (page_room p.1). lia.
Qed.

(** Read with the byte count, the addresses of regular pieces give the
    pieces back. *)
Lemma prp_cover_regular (ps : list (Z * Z)) :
  pieces_regular ps ->
  prp_cover (fst <$> ps) (sum_list (snd <$> ps)) = ps.
Proof.
  induction ps as [| p ps IH]; [intros [] |].
  destruct ps as [| p' ps'].
  - intros Hp. destruct p as [a l]. cbn. cbn [pieces_regular] in Hp.
    unfold piece_part in Hp. cbn [fst snd] in Hp.
    rewrite Z.min_l by lia. f_equal. f_equal. lia.
  - intros [Hfull Hrest]. specialize (IH Hrest).
    pose proof (pieces_regular_sum_pos _ Hrest) as Hpos.
    destruct p as [a l]. unfold piece_full in Hfull. cbn [fst snd] in Hfull.
    remember (p' :: ps') as tl eqn:Htl.
    rewrite !fmap_cons, sum_list_cons. cbn [prp_cover fst snd].
    rewrite Z.min_r by lia. rewrite <- Hfull.
    replace (l + sum_list (snd <$> tl) - l) with (sum_list (snd <$> tl)) by lia.
    rewrite IH. reflexivity.
Qed.

(** Regular pieces that start on page boundaries: their number is the
    byte count in pages, rounded up. *)
Lemma pieces_regular_count (ps : list (Z * Z)) :
  pieces_regular ps ->
  Forall (fun p => p.1 mod NVME_CTRL_PAGE_SIZE = 0) ps ->
  NVME_CTRL_PAGE_SIZE * (Z.of_nat (length ps) - 1) < sum_list (snd <$> ps)
    <= NVME_CTRL_PAGE_SIZE * Z.of_nat (length ps).
Proof.
  induction ps as [| p ps IH]; [intros [] |].
  destruct ps as [| p' ps'].
  - intros Hp Hal. apply Forall_inv in Hal. cbn [pieces_regular] in Hp.
    unfold piece_part in Hp. rewrite Hal in Hp. cbn. unfold NVME_CTRL_PAGE_SIZE in *. lia.
  - intros [Hfull Hrest] Hal.
    pose proof (Forall_inv Hal) as Ha. apply Forall_inv_tail in Hal.
    specialize (IH Hrest Hal).
    unfold piece_full in Hfull. rewrite Ha in Hfull.
    rewrite fmap_cons, sum_list_cons. cbn [length] in *. lia.
Qed.

Lemma sgl_tail_ok_cons (a l : Z) (rest : list sg_entry) :
  sgl_tail_ok ((a, l) :: rest) = true <->
  0 <= a /\ 0 < l /\ a + l <= 2 ^ 64 /\ a mod NVME_CTRL_PAGE_SIZE = 0 /\
  (rest <> [] -> l mod NVME_CTRL_PAGE_SIZE = 0) /\
  sgl_tail_ok rest = true.
Proof.
  cbn [sgl_tail_ok]. rewrite !andb_true_iff.
  rewrite Z.leb_le, Z.ltb_lt, Z.leb_le, Z.eqb_eq.
  destruct rest as [| r rest'].
  - intuition congruence.
  - rewrite Z.eqb_eq. intuition congruence.
Qed.

Lemma sgl_pieces_cons (f : sg_entry) (rest : list sg_entry) :
  sgl_pieces (f :: rest) = frag_pieces f ++ sgl_pieces rest.
Proof. reflexivity. Qed.

Lemma sgl_bytes_cons (a l : Z) (rest : list sg_entry) :
  sgl_bytes ((a, l) :: rest) = l + sgl_bytes rest.
Proof. reflexivity. Qed.

Lemma sgl_tail_bytes_pos (sgl : list sg_entry) :
  sgl_tail_ok sgl = true -> sgl <> [] -> 0 < sgl_bytes sgl.
Proof.
  induction sgl as [| [a l] rest IH]; [congruence |].
  intros Hok _. apply sgl_tail_ok_cons in Hok.
  destruct Hok as (_ & Hl & _ & _ & _ & Hrest).
  rewrite sgl_bytes_cons. destruct rest as [| r rest'].
  - cbn. lia.
  - specialize (IH Hrest ltac:(discriminate)). lia.
Qed.

Lemma sgl_tail_pieces (sgl : list sg_entry) :
  sgl_tail_ok sgl = true ->
  Forall (fun p => p.1 mod NVME_CTRL_PAGE_SIZE = 0) (sgl_pieces sgl) /\
  Forall (fun p => in_u64 p.1) (sgl_pieces sgl) /\
  sum_list (snd <$> sgl_pieces sgl) = sgl_bytes sgl /\
  (sgl <> [] -> pieces_regular (sgl_pieces sgl)).
Proof.
  induction sgl as [| [a l] rest IH].
  - intros _. cbn. repeat split; try constructor. congruence.
  - intros Hok. apply sgl_tail_ok_cons in Hok.
    destruct Hok as (Ha & Hl & Hend & Hal & Hmul & Hrest).
    destruct (IH Hrest) as (IHal & IHin & IHsum & IHreg).
    rewrite sgl_pieces_cons, sgl_bytes_cons.
    split; [| split; [| split]].
    + apply Forall_app. split; [apply frag_pieces_aligned; assumption | exact IHal].
    + apply Forall_app. split; [apply frag_pieces_in_u64; assumption | exact IHin].
    + rewrite fmap_app, sum_list_app, frag_pieces_sum, IHsum by exact Hl.
      reflexivity.
    + intros _. destruct rest as [| r rest'].
      * cbn [sgl_pieces fmap list_fmap concat]. rewrite app_nil_r.
        apply frag_pieces_regular. exact Hl.
      * apply pieces_regular_app.
        -- apply frag_pieces_full; [exact Hl |].
           specialize (Hmul ltac:(discriminate)). page_arith.
        -- apply IHreg. discriminate.
Qed.

(** ** PRP blocks in memory *)

(** Two slots differ: in their block or in their index. *)
Ltac slot_ne :=
  let H := fresh in
  intros H; injection H; intros; first [congruence | lia].

Lemma prp_chain_more (mem : gmap (Z * Z) Z) (p q : Z) (rest es : list Z) :
  prp_chain mem (p :: q :: rest) es <->
  (512 < length es)%nat /\
  (forall (k : nat) (e : Z), take 511 es !! k = Some e ->
     mem !! (p, Z.of_nat k) = Some e) /\
  mem !! (p, 511) = Some q /\
  prp_chain mem (q :: rest) (drop 511 es).
Proof. reflexivity. Qed.

Lemma prp_chain_one (mem : gmap (Z * Z) Z) (p : Z) (es : list Z) :
  prp_chain mem [p] es <->
  (length es <= 512)%nat /\
  forall (k : nat) (e : Z), es !! k = Some e -> mem !! (p, Z.of_nat k) = Some e.
Proof. reflexivity. Qed.

Lemma snoc_is_cons (pages : list Z) (cur : Z) :
  exists q rest, pages ++ [cur] = q :: rest /\ cur ∈ q :: rest.
Proof.
  destruct pages as [| p pages].
  - exists cur, []. split; [reflexivity | set_solver].
  - exists p, (pages ++ [cur]). split; [reflexivity | set_solver].
Qed.

(** Writing the next entry into the current block. *)
Lemma prp_chain_snoc (mem : gmap (Z * Z) Z) (pages : list Z) (cur : Z)
    (es : list Z) (a i : Z) :
  prp_chain mem (pages ++ [cur]) es ->
  NoDup (pages ++ [cur]) ->
  Z.of_nat (length es) = i + 511 * Z.of_nat (length pages) ->
  0 <= i < 512 ->
  prp_chain (<[(cur, i) := a]> mem) (pages ++ [cur]) (es ++ [a]).
Proof.
  revert es. induction pages as [| p pages IH]; intros es Hch Hnd Hlen Hi.
  - cbn [app length] in *. apply prp_chain_one in Hch. destruct Hch as [Hle Hlk].
    apply prp_chain_one. split; [rewrite length_app; cbn; lia |].
    intros k e Hk. apply lookup_app_Some in Hk. destruct Hk as [Hk | [Hge Hk]].
    + rewrite lookup_insert_ne; [apply Hlk; exact Hk |].
      apply lookup_lt_Some in Hk. slot_ne.
    + apply list_lookup_singleton_Some in Hk. destruct Hk as [Hk0 <-].
      replace (Z.of_nat k) with i by lia. apply lookup_insert_eq.
  - cbn [app length] in *.
    destruct (snoc_is_cons pages cur) as (q & rest & Hq & Hin).
    rewrite Hq in Hch, Hnd |- *.
    apply prp_chain_more in Hch. destruct Hch as (Hlt & Htake & Hlink & Hch').
    apply NoDup_cons in Hnd. destruct Hnd as [Hnotin Hnd'].
    assert (Hpc : p <> cur) by (intros ->; contradiction).
    apply prp_chain_more. split; [rewrite length_app; lia |]. split.
    + intros k e Hk. rewrite take_app_le in Hk by lia.
      rewrite lookup_insert_ne by congruence. apply Htake. exact Hk.
    + split; [rewrite lookup_insert_ne by congruence; exact Hlink |].
      rewrite drop_app_le by lia. rewrite <- Hq in Hch', Hnd' |- *.
      apply IH; [exact Hch' | exact Hnd' | rewrite length_drop; lia | exact Hi].
Qed.

(** Chaining a new block [q] behind a full current block and writing the
    next entry after the moved one. *)
Lemma prp_chain_link (mem : gmap (Z * Z) Z) (pages : list Z) (cur : Z)
    (es : list Z) (q e a : Z) :
  prp_chain mem (pages ++ [cur]) es ->
  NoDup (pages ++ [cur]) ->
  q ∉ pages ++ [cur] ->
  Z.of_nat (length es) = 512 + 511 * Z.of_nat (length pages) ->
  mem !! (cur, 511) = Some e ->
  prp_chain (<[(q, 1) := a]> (<[(cur, 511) := q]> (<[(q, 0) := e]> mem)))
    ((pages ++ [cur]) ++ [q]) (es ++ [a]).
Proof.
  revert es. induction pages as [| p pages IH]; intros es Hch Hnd Hq Hlen He.
  - cbn [app length] in *. apply prp_chain_one in Hch. destruct Hch as [Hle Hlk].
    assert (Hcq : cur <> q) by set_solver.
    destruct (lookup_lt_is_Some_2 es 511 ltac:(lia)) as [e' He'].
    pose proof (Hlk _ _ He') as Hmem.
    change (Z.of_nat 511) with 511 in Hmem. rewrite He in Hmem.
    injection Hmem as <-.
    apply prp_chain_more. split; [rewrite length_app; cbn; lia |]. split.
    + intros k x Hk. rewrite take_app_le in Hk by lia.
      apply lookup_take_Some in Hk. destruct Hk as [Hk Hlt].
      rewrite !lookup_insert_ne; [apply Hlk; exact Hk | | |]; slot_ne.
    + split.
      * rewrite lookup_insert_ne by slot_ne.
        apply lookup_insert_eq.
      * rewrite drop_app_le by lia.
        rewrite (drop_S es e 511) by exact He'.
        rewrite drop_ge by lia. cbn [app].
        apply prp_chain_one. split; [cbn; lia |].
        intros k x Hk. destruct k as [| [| k]]; cbn in Hk; try discriminate.
        -- injection Hk as <-.
           rewrite !lookup_insert_ne by slot_ne.
           apply lookup_insert_eq.
        -- injection Hk as <-. apply lookup_insert_eq.
  - cbn [app length] in *.
    destruct (snoc_is_cons pages cur) as (q' & rest & Hq' & Hin).
    apply NoDup_cons in Hnd. destruct Hnd as [Hnotin Hnd'].
    assert (Hpc : p <> cur) by (intros ->; rewrite Hq' in Hnotin; contradiction).
    apply not_elem_of_cons in Hq. destruct Hq as [Hqp Hq2].
    assert (Hpq : p <> q) by congruence.
    rewrite Hq' in Hch. apply prp_chain_more in Hch.
    destruct Hch as (Hlt & Htake & Hlink & Hch').
    rewrite <- Hq' in Hch'.
    assert (Hshape : ((pages ++ [cur]) ++ [q]) = q' :: (rest ++ [q]))
      by (rewrite Hq'; reflexivity).
    rewrite Hshape. apply prp_chain_more. rewrite <- Hshape.
    split; [rewrite length_app; lia |]. split.
    + intros k x Hk. rewrite take_app_le in Hk by lia.
      rewrite !lookup_insert_ne by slot_ne.
      apply Htake. exact Hk.
    + split.
      * rewrite !lookup_insert_ne by slot_ne.
        exact Hlink.
      * rewrite drop_app_le by lia.
        apply IH; [exact Hch' | exact Hnd' | exact Hq2
                  | rewrite length_drop; lia | exact He].
Qed.

(** ** Walking a PRP list *)

Lemma prp_walk_within (mem : gmap (Z * Z) Z) (p : Z) (part : list Z) :
  forall (j : Z) (n : nat),
    0 <= j ->
    (forall (k : nat) (e : Z), part !! k = Some e ->
       mem !! (p, j + Z.of_nat k) = Some e) ->
    j + Z.of_nat (length part) <= 511 ->
    prp_walk mem p j (length part + n)
    = (fun es => part ++ es) <$> prp_walk mem p (j + Z.of_nat (length part)) n.
Proof.
  induction part as [| x part IH]; intros j n Hj Hlk Hfit.
  - cbn [length Nat.add app]. replace (j + Z.of_nat 0) with j by lia.
    destruct (prp_walk mem p j n); reflexivity.
  - cbn [length Nat.add prp_walk].
    replace (j =? last_prp) with false
      by (symmetry; apply Z.eqb_neq; unfold last_prp, NVME_CTRL_PAGE_SIZE;
          cbn [length] in Hfit; change (4096 / 8 - 1) with 511; lia).
    cbn [andb].
    pose proof (Hlk 0%nat x eq_refl) as H0.
    replace (j + Z.of_nat 0) with j in H0 by lia. rewrite H0. cbn [mbind option_bind].
    rewrite (IH (j + 1) n).
    + replace (j + 1 + Z.of_nat (length part))
        with (j + Z.of_nat (length (x :: part))) by (cbn [length]; lia).
      destruct (prp_walk mem p _ n); reflexivity.
    + lia.
    + intros k e Hk. replace (j + 1 + Z.of_nat k) with (j + Z.of_nat (S k)) by lia.
      apply Hlk. exact Hk.
    + cbn [length] in Hfit. lia.
Qed.

Lemma prp_walk_last (mem : gmap (Z * Z) Z) (p : Z) (part : list Z) :
  forall j : Z,
    0 <= j ->
    (forall (k : nat) (e : Z), part !! k = Some e ->
       mem !! (p, j + Z.of_nat k) = Some e) ->
    j + Z.of_nat (length part) <= 512 ->
    prp_walk mem p j (length part) = Some part.
Proof.
  induction part as [| x part IH]; intros j Hj Hlk Hfit; [reflexivity |].
  cbn [length prp_walk].
  assert (Hbr : (j =? last_prp) && negb (length part =? 0)%nat = false).
  { destruct part as [| y part']; [apply andb_false_r |].
    cbn [length] in Hfit.
    replace (j =? last_prp) with false; [reflexivity |].
    symmetry. apply Z.eqb_neq. unfold last_prp, NVME_CTRL_PAGE_SIZE.
    change (4096 / 8 - 1) with 511. lia. }
  rewrite Hbr.
  pose proof (Hlk 0%nat x eq_refl) as H0.
  replace (j + Z.of_nat 0) with j in H0 by lia. rewrite H0. cbn [mbind option_bind].
  rewrite (IH (j + 1)); [reflexivity | lia | | cbn [length] in Hfit; lia].
  intros k e Hk. replace (j + 1 + Z.of_nat k) with (j + Z.of_nat (S k)) by lia.
  apply Hlk. exact Hk.
Qed.

Lemma prp_walk_link (mem : gmap (Z * Z) Z) (p q : Z) (n : nat) :
  mem !! (p, 511) = Some q ->
  n <> 0%nat ->
  prp_walk mem p 511 (S n) = prp_walk mem q 0 (S n).
Proof.
  intros Hlink Hn. cbn [prp_walk].
  change (511 =? last_prp) with true. change (0 =? last_prp) with false.
  replace (n =? 0)%nat with false by (symmetry; apply Nat.eqb_neq; exact Hn).
  cbn [andb negb]. rewrite Hlink. reflexivity.
Qed.

(** Walked from its first block, a chain gives its entries back. *)
Lemma prp_walk_chain (mem : gmap (Z * Z) Z) (pages : list Z) :
  forall (es : list Z) (p : Z),
    prp_chain mem pages es ->
    head pages = Some p ->
    prp_walk mem p 0 (length es) = Some es.
Proof.
  induction pages as [| p0 pages IH]; intros es p Hch Hhd; [destruct Hch |].
  cbn in Hhd. injection Hhd as <-.
  destruct pages as [| q rest].
  - apply prp_chain_one in Hch. destruct Hch as [Hle Hlk].
    apply prp_walk_last; [lia | | lia].
    intros k e Hk. replace (0 + Z.of_nat k) with (Z.of_nat k) by lia.
    apply Hlk. exact Hk.
  - apply prp_chain_more in Hch. destruct Hch as (Hlt & Htake & Hlink & Hch').
    specialize (IH (drop 511 es) q Hch' eq_refl).
    rewrite <- (take_drop 511 es) at 1 2.
    rewrite length_app.
    assert (Hlt' : length (take 511 es) = 511%nat) by (rewrite length_take; lia).
    rewrite (prp_walk_within mem p0 (take 511 es) 0 (length (drop 511 es)));
      [| lia | | rewrite Hlt'; lia].
    + rewrite Hlt'. change (0 + Z.of_nat 511) with 511.
      assert (Hd : exists n, length (drop 511 es) = S n /\ n <> 0%nat).
      { rewrite length_drop. exists (length es - 512)%nat. lia. }
      destruct Hd as (n & Hn & Hn0). rewrite Hn.
      rewrite (prp_walk_link mem p0 q n Hlink Hn0). rewrite <- Hn, IH.
      reflexivity.
    + intros k e Hk. replace (0 + Z.of_nat k) with (Z.of_nat k) by lia.
      apply Htake. exact Hk.
Qed.

(** ** The loop of [apple_nvme_setup_prps] *)

Lemma pool_of_prp_write (dev : apple_nvme_dev) (pool : pool_sel) (b i v : Z) :
  pool_of (prp_write dev b i v) pool = pool_of dev pool.
Proof. destruct pool; reflexivity. Qed.

Lemma pool_of_set_pool (dev : apple_nvme_dev) (pool : pool_sel) (l : list Z) :
  pool_of (dev_set_pool dev pool l) pool = l.
Proof. destruct pool; reflexivity. Qed.

Lemma dma_mem_set_pool (dev : apple_nvme_dev) (pool : pool_sel) (l : list Z) :
  dma_mem (dev_set_pool dev pool l) = dma_mem dev.
Proof. destruct pool; reflexivity. Qed.

Lemma dma_pool_alloc_cons (dev : apple_nvme_dev) (pool : pool_sel) (b : Z)
    (rest : list Z) :
  pool_of dev pool = b :: rest ->
  dma_pool_alloc dev pool = Some (b, dev_set_pool dev pool rest).
Proof. intros Hp. unfold dma_pool_alloc. rewrite Hp. reflexivity. Qed.

(** The last slot of a full current block holds the last entry. *)
Lemma prp_chain_last_slot (mem : gmap (Z * Z) Z) (pages : list Z) (cur : Z) :
  forall es : list Z,
    prp_chain mem (pages ++ [cur]) es ->
    Z.of_nat (length es) = 512 + 511 * Z.of_nat (length pages) ->
    exists e, mem !! (cur, 511) = Some e /\ e ∈ es.
Proof.
  induction pages as [| p pages IH]; intros es Hch Hlen.
  - cbn [app length] in *. apply prp_chain_one in Hch. destruct Hch as [_ Hlk].
    destruct (lookup_lt_is_Some_2 es 511 ltac:(lia)) as [e He].
    exists e. split; [apply (Hlk 511%nat e He) |].
    apply (list_elem_of_lookup_2 _ _ _ He).
  - cbn [app length] in *.
    destruct (snoc_is_cons pages cur) as (q & rest & Hq & _).
    rewrite Hq in Hch. apply prp_chain_more in Hch.
    destruct Hch as (_ & _ & _ & Hch'). rewrite <- Hq in Hch'.
    destruct (IH (drop 511 es) Hch') as (e & He & Hin).
    + rewrite length_drop. lia.
    + exists e. split; [exact He |].
      apply list_elem_of_lookup in Hin. destruct Hin as [k Hk].
      rewrite lookup_drop in Hk. apply (list_elem_of_lookup_2 _ _ _ Hk).
Qed.

(** Making room for, and writing, the next entry. *)
Lemma prp_next_page_inv (pool : pool_sel) (s : prp_loop_state)
    (pages written : list Z) (todo a : Z) :
  prp_mem_inv pool (pl_dev s) (pl_prp_list s) (pl_i s) pages written todo ->
  1 <= todo ->
  in_u64 a ->
  exists dev1 iod1 pl1 i1 pages1,
    prp_next_page pool s = Some (dev1, iod1, pl1, i1) /\
    0 <= i1 < 512 /\
    prp_mem_inv pool (prp_write dev1 pl1 i1 a) pl1 (i1 + 1) pages1
      (written ++ [a]) (todo - 1) /\
    head (pages1 ++ [pl1]) = head (pages ++ [pl_prp_list s]) /\
    first_dma iod1 = first_dma (pl_iod s) /\
    iod_sg iod1 = iod_sg (pl_iod s).
Proof.
  intros (Hch & Hnd & Hpool & Hwr & Hlen & Hi & Htodo) Hone Ha.
  unfold prp_next_page. change (Z.shiftr NVME_CTRL_PAGE_SIZE 3) with 512.
  assert (Hua : u64 a = a) by (apply u64_small; exact Ha).
  destruct (Z.eqb_spec (pl_i s) 512) as [Hfull | Hroom].
  - destruct (pool_of (pl_dev s) pool) as [| b rest] eqn:Hp;
      [cbn [length] in Htodo; lia |].
    rewrite (dma_pool_alloc_cons _ _ _ _ Hp).
    rewrite Hfull in *. change (512 - 1) with 511.
    destruct (prp_chain_last_slot _ _ _ _ Hch ltac:(lia)) as (e & He & Hein).
    assert (Hue : u64 e = e).
    { apply u64_small. rewrite Forall_forall in Hwr. apply Hwr. exact Hein. }
    assert (Hub : u64 b = b).
    { apply u64_small. apply Forall_inv in Hpool. exact Hpool. }
    apply NoDup_app in Hnd. destruct Hnd as (Hnd1 & Hdisj & Hnd2).
    apply NoDup_cons in Hnd2. destruct Hnd2 as [Hb Hnd2].
    assert (Hbfresh : b ∉ pages ++ [pl_prp_list s]).
    { intros Hin. apply (Hdisj b Hin). left. }
    eexists _, _, b, 1, (pages ++ [pl_prp_list s]).
    split; [reflexivity |]. split; [lia |]. split; [| split; [| split]].
    + unfold prp_mem_inv.
      rewrite !pool_of_prp_write, pool_of_set_pool.
      unfold prp_write at 1 2 3. cbn [dma_mem dev_set_mem].
      unfold prp_read. rewrite dma_mem_set_pool, He. cbn [default from_option].
      unfold id.
      rewrite Hua, Hue, Hub.
      split; [apply prp_chain_link; assumption || lia |].
      split.
      { rewrite <- app_assoc. cbn [app]. apply NoDup_app.
        split; [exact Hnd1 |]. split; [| constructor; assumption].
        intros x Hx. apply Hdisj. exact Hx. }
      split; [apply Forall_inv_tail in Hpool; exact Hpool |].
      split; [apply Forall_app; split; [exact Hwr | constructor; [exact Ha | constructor]] |].
      split; [rewrite !length_app; cbn [length]; lia |].
      split; [lia |]. cbn [length] in Htodo. lia.
    + destruct pages; reflexivity.
    + reflexivity.
    + reflexivity.
  - eexists _, _, (pl_prp_list s), (pl_i s), pages.
    split; [reflexivity |]. split; [lia |]. split; [| repeat split].
    unfold prp_mem_inv. rewrite pool_of_prp_write.
    unfold prp_write. cbn [dma_mem dev_set_mem]. rewrite Hua.
    split; [apply prp_chain_snoc; try assumption; try lia |].
    { apply NoDup_app in Hnd. destruct Hnd as (Hnd1 & _). exact Hnd1. }
    split; [exact Hnd |]. split; [exact Hpool |].
    split; [apply Forall_app; split; [exact Hwr | constructor; [exact Ha | constructor]] |].
    split; [rewrite length_app; cbn [length]; lia |].
    split; lia.
Qed.

Lemma sgl_tail_bytes_nonneg (sgl : list sg_entry) :
  sgl_tail_ok sgl = true -> 0 <= sgl_bytes sgl.
Proof.
  intros Hok. destruct sgl as [| f rest]; [cbn; lia |].
  pose proof (sgl_tail_bytes_pos _ Hok ltac:(discriminate)). lia.
Qed.

(** Advancing the scatterlist cursor by one page. *)
Lemma prp_loop_body_cursor (pool : pool_sel) (s : prp_loop_state)
    (dev1 : apple_nvme_dev) (iod1 : apple_nvme_iod) (pl1 i1 : Z)
    (rest : list sg_entry) :
  prp_next_page pool s = Some (dev1, iod1, pl1, i1) ->
  0 <= i1 < 512 ->
  prp_cur_inv (pl_sg s) (pl_dma_addr s) (pl_dma_len s) (pl_length s) rest ->
  let dev2 := prp_write dev1 pl1 i1 (pl_dma_addr s) in
  (sgl_pieces ((pl_dma_addr s, pl_dma_len s) :: rest)
     = [(pl_dma_addr s, pl_dma_len s)] /\
   exists sg' da' dl' len',
     prp_loop_body pool s
       = Ok (PrpBreak (mk_pls dev2 iod1 pl1 (i1 + 1) sg' da' dl' len')))
  \/
  (exists sg' da' dl' rest',
     prp_loop_body pool s
       = Ok (PrpContinue (mk_pls dev2 iod1 pl1 (i1 + 1) sg' da' dl'
                            (pl_length s - NVME_CTRL_PAGE_SIZE))) /\
     prp_cur_inv sg' da' dl' (pl_length s - NVME_CTRL_PAGE_SIZE) rest' /\
     sgl_pieces ((pl_dma_addr s, pl_dma_len s) :: rest)
       = (pl_dma_addr s, NVME_CTRL_PAGE_SIZE) :: sgl_pieces ((da', dl') :: rest')).
Proof.
  intros Hnext Hi1 ((x & Hsg) & Hok & Hlen & Hmax) dev2.
  pose proof Hok as Hok0.
  apply sgl_tail_ok_cons in Hok.
  destruct Hok as (Ha & Hl & Hend & Hal & Hmul & Hrest).
  pose proof (sgl_tail_bytes_nonneg _ Hrest) as Hbytes.
  assert (HP : NVME_CTRL_PAGE_SIZE = 4096) by reflexivity.
  assert (Hroom : NVME_CTRL_PAGE_SIZE - pl_dma_addr s mod NVME_CTRL_PAGE_SIZE
                  = NVME_CTRL_PAGE_SIZE) by (rewrite Hal; lia).
  unfold prp_loop_body. rewrite Hnext. fold dev2.
  rewrite (s32_small (i1 + 1)) by lia.
  rewrite (s32_small (pl_dma_len s - NVME_CTRL_PAGE_SIZE)) by lia.
  rewrite (s32_small (pl_length s - NVME_CTRL_PAGE_SIZE)) by lia.
  destruct (Z.leb_spec (pl_length s - NVME_CTRL_PAGE_SIZE) 0) as [Hbreak | Hmore].
  - left. split; [| eexists _, _, _, _; reflexivity].
    destruct rest as [| r rest'].
    + cbn [sgl_pieces fmap list_fmap concat]. rewrite app_nil_r.
      apply frag_pieces_one. cbn in Hlen. lia.
    + specialize (Hmul ltac:(discriminate)).
      pose proof (sgl_tail_bytes_pos _ Hrest ltac:(discriminate)).
      exfalso. clear Hok0. page_arith.
  - right.
    destruct (Z.ltb_spec 0 (pl_dma_len s - NVME_CTRL_PAGE_SIZE)) as [Hin | Hout].
    + exists (pl_sg s), (pl_dma_addr s + NVME_CTRL_PAGE_SIZE),
        (pl_dma_len s - NVME_CTRL_PAGE_SIZE), rest.
      rewrite (u64_small (pl_dma_addr s + NVME_CTRL_PAGE_SIZE)) by lia.
      split; [reflexivity |]. split.
      * split; [exists x; exact Hsg |]. split; [| split; lia].
        apply sgl_tail_ok_cons. repeat split; try lia; try assumption.
        -- clear Hok0. page_arith.
        -- intros Hne. specialize (Hmul Hne). clear Hok0. page_arith.
      * rewrite !sgl_pieces_cons.
        rewrite (frag_pieces_cons (pl_dma_addr s) (pl_dma_len s)) by lia.
        rewrite Hroom. reflexivity.
    + destruct (Z.ltb_spec (pl_dma_len s - NVME_CTRL_PAGE_SIZE) 0) as [Hbad | Hzero].
      * exfalso. destruct rest as [| r rest'].
        -- cbn in Hlen. lia.
        -- specialize (Hmul ltac:(discriminate)). clear Hok0. page_arith.
      * assert (Hdl : pl_dma_len s = NVME_CTRL_PAGE_SIZE) by lia.
        rewrite Hsg. cbn [sg_next tail].
        destruct rest as [| [a' l'] rest'].
        -- cbn in Hlen. lia.
        -- pose proof Hrest as Hrest0.
           apply sgl_tail_ok_cons in Hrest.
           destruct Hrest as (Ha' & Hl' & Hend' & Hal' & Hmul' & Hrest').
           pose proof (sgl_tail_bytes_nonneg _ Hrest') as Hbytes'.
           rewrite sgl_bytes_cons in Hlen, Hbytes.
           cbn [sg_load mbind exec_bind].
           rewrite (u64_small a') by lia.
           rewrite (u32_small l') by lia.
           rewrite (s32_small l') by lia.
           exists ((a', l') :: rest'), a', l', rest'.
           split; [reflexivity |]. split.
           ++ split; [exists (a', l'); reflexivity |].
              split; [exact Hrest0 |]. split; lia.
           ++ rewrite (sgl_pieces_cons (pl_dma_addr s, pl_dma_len s)).
              rewrite frag_pieces_one by (rewrite Hroom; lia).
              rewrite Hdl. reflexivity.
Qed.

Lemma sgl_cursor_pieces_nonempty (da dl : Z) (rest : list sg_entry) :
  sgl_tail_ok ((da, dl) :: rest) = true ->
  (1 <= length (sgl_pieces ((da, dl) :: rest)))%nat.
Proof.
  intros Hok. destruct (sgl_tail_pieces _ Hok) as (_ & _ & _ & Hreg).
  specialize (Hreg ltac:(discriminate)).
  destruct (sgl_pieces ((da, dl) :: rest)); [destruct Hreg | cbn; lia].
Qed.

(** The loop ends by [break], having laid the remaining addresses of the
    scatterlist out in the PRP blocks. *)
Lemma prp_loop_builds (pool : pool_sel) (E : list Z) (fuel : nat) :
  forall (s : prp_loop_state) (pages written : list Z) (rest : list sg_entry),
    let cursor := (pl_dma_addr s, pl_dma_len s) :: rest in
    prp_mem_inv pool (pl_dev s) (pl_prp_list s) (pl_i s) pages written
      (Z.of_nat (length (sgl_pieces cursor))) ->
    prp_cur_inv (pl_sg s) (pl_dma_addr s) (pl_dma_len s) (pl_length s) rest ->
    E = written ++ (fst <$> sgl_pieces cursor) ->
    (length (sgl_pieces cursor) <= fuel)%nat ->
    exists s' pages',
      prp_loop fuel pool s = Ok (PrpBreak s') /\
      prp_chain (dma_mem (pl_dev s')) pages' E /\
      head pages' = head (pages ++ [pl_prp_list s]) /\
      first_dma (pl_iod s') = first_dma (pl_iod s) /\
      iod_sg (pl_iod s') = iod_sg (pl_iod s).
Proof.
  induction fuel as [| fuel IH]; intros s pages written rest cursor Hmem Hcur HE Hfuel.
  - destruct Hcur as (_ & Hok & _).
    pose proof (sgl_cursor_pieces_nonempty _ _ _ Hok). subst cursor. lia.
  - pose proof Hcur as (_ & Hok & _).
    pose proof (sgl_cursor_pieces_nonempty _ _ _ Hok) as Hne.
    apply sgl_tail_ok_cons in Hok. destruct Hok as (Ha & Hl & Hend & _).
    destruct (prp_next_page_inv pool s pages written _ (pl_dma_addr s) Hmem)
      as (dev1 & iod1 & pl1 & i1 & pages1 & Hnext & Hi1 & Hmem1 & Hhd & Hfd & Hsg);
      [subst cursor; lia | split; lia |].
    destruct (prp_loop_body_cursor pool s dev1 iod1 pl1 i1 rest Hnext Hi1 Hcur)
      as [(Hpieces & sg' & da' & dl' & len' & Hbody)
         | (sg' & da' & dl' & rest' & Hbody & Hcur' & Hpieces)].
    + cbn [prp_loop]. rewrite Hbody. cbn [mbind exec_bind].
      eexists _, (pages1 ++ [pl1]). split; [reflexivity |].
      cbn [pl_dev pl_iod]. destruct Hmem1 as (Hch & _).
      subst cursor. rewrite Hpieces in HE. cbn in HE. subst E.
      repeat split; assumption.
    + cbn [prp_loop]. rewrite Hbody. cbn [mbind exec_bind].
      subst cursor. rewrite Hpieces in HE, Hmem1, Hfuel.
      cbn [length] in Hmem1, Hfuel.
      destruct (IH (mk_pls (prp_write dev1 pl1 i1 (pl_dma_addr s)) iod1 pl1
                      (i1 + 1) sg' da' dl' (pl_length s - NVME_CTRL_PAGE_SIZE))
                  pages1 (written ++ [pl_dma_addr s]) rest')
        as (s' & pages' & Hloop & Hch & Hhd' & Hfd' & Hsg').
      * cbn [pl_dev pl_prp_list pl_i pl_dma_addr pl_dma_len].
        replace (Z.of_nat (length (sgl_pieces ((da', dl') :: rest'))))
          with (Z.of_nat (S (length (sgl_pieces ((da', dl') :: rest')))) - 1) by lia.
        exact Hmem1.
      * exact Hcur'.
      * cbn [pl_dma_addr pl_dma_len]. rewrite HE. cbn [fmap list_fmap fst].
        rewrite <- app_assoc. reflexivity.
      * cbn [pl_dma_addr pl_dma_len]. lia.
      * exists s', pages'. cbn [pl_iod pl_prp_list] in *.
        split; [exact Hloop |]. split; [exact Hch |].
        split; [congruence |]. split; congruence.
Qed.

(** The first page of the transfer goes to [prp1]; the cursor the code
    starts the list from stands on the rest of the scatterlist. *)
Lemma sgl_first_cursor (a0 l0 : Z) (rest0 : list sg_entry) :
  let sgl := (a0, l0) :: rest0 in
  let first := NVME_CTRL_PAGE_SIZE - a0 mod NVME_CTRL_PAGE_SIZE in
  sgl_ok sgl = true ->
  sgl_bytes sgl < 2 ^ 31 ->
  first < sgl_bytes sgl ->
  exists sg da dl rest,
    (if negb (l0 - first =? 0) then Ok (sgl, u64 (a0 + first), l0 - first)
     else ('(a, l) ← sg_load (sg_next sgl); Ok (sg_next sgl, a, s32 l)))
    = Ok (sg, da, dl) /\
    prp_cur_inv sg da dl (sgl_bytes sgl - first) rest /\
    sgl_pieces sgl = (a0, first) :: sgl_pieces ((da, dl) :: rest).
Proof.
  intros sgl first Hok Hmax Hmore. subst sgl.
  cbn [sgl_ok] in Hok. rewrite !andb_true_iff in Hok.
  destruct Hok as ((((Ha & Hl) & Hend) & Hbound) & Hrest).
  apply Z.leb_le in Ha, Hend. apply Z.ltb_lt in Hl.
  pose proof (sgl_tail_bytes_nonneg _ Hrest) as Hbytes.
  rewrite sgl_bytes_cons in *.
  pose proof (page_room a0) as Hroom. fold first in Hroom.
  pose proof (page_next_aligned a0) as Hnext. fold first in Hnext.
  destruct (Z.eqb_spec (l0 - first) 0) as [Hz | Hnz]; cbn [negb].
  - destruct rest0 as [| [a1 l1] rest1]; [cbn in Hmore; lia |].
    pose proof Hrest as Hrest0.
    apply sgl_tail_ok_cons in Hrest.
    destruct Hrest as (Ha1 & Hl1 & Hend1 & Hal1 & Hmul1 & Hrest1).
    pose proof (sgl_tail_bytes_nonneg _ Hrest1) as Hbytes1.
    rewrite sgl_bytes_cons in *.
    cbn [sg_next tail sg_load mbind exec_bind].
    rewrite (u64_small a1), (u32_small l1), (s32_small l1) by lia.
    exists ((a1, l1) :: rest1), a1, l1, rest1.
    split; [reflexivity |]. split.
    + split; [exists (a1, l1); reflexivity |].
      split; [exact Hrest0 |]. split; lia.
    + rewrite (sgl_pieces_cons (a0, l0)).
      rewrite frag_pieces_one by (fold first; lia).
      replace l0 with first by lia. reflexivity.
  - assert (Hgt : first < l0).
    { destruct rest0 as [| r rest1]; [cbn in Hmore; lia |].
      apply Z.eqb_eq in Hbound. subst first. page_arith. }
    rewrite (u64_small (a0 + first)) by lia.
    exists ((a0, l0) :: rest0), (a0 + first), (l0 - first), rest0.
    split; [reflexivity |]. split.
    + split; [exists (a0, l0); reflexivity |]. split; [| split; lia].
      apply sgl_tail_ok_cons. repeat split; try lia; try assumption.
      intros Hne. destruct rest0 as [| r rest1]; [congruence |].
      apply Z.eqb_eq in Hbound. subst first. page_arith.
    + rewrite !sgl_pieces_cons.
      rewrite (frag_pieces_cons a0 l0) by (fold first; lia).
      reflexivity.
Qed.

(** C3: for a scatterlist whose payload needs a PRP list (more than one
    page is left after the first one), built with blocks available in
    the pool, [apple_nvme_setup_prps] returns [BLK_STS_OK] with [prp1]
    the address of the first fragment; the list found through [prp2],
    walked block after block, is the sequence of the fragments' page
    addresses after the first, in order; read with the byte count the
    command describes exactly the fragments cut at page boundaries, and
    the lengths so covered add up to the payload. *)
Theorem setup_prps_roundtrip (dev : apple_nvme_dev) (iod : apple_nvme_iod)
    (payload : Z) (cmnd : nvme_command) (a0 l0 : Z) (rest0 : list sg_entry) :
  let first := NVME_CTRL_PAGE_SIZE - a0 mod NVME_CTRL_PAGE_SIZE in
  let nprps := DIV_ROUND_UP (payload - first) NVME_CTRL_PAGE_SIZE in
  let pool := if nprps <=? 32 then SmallPool else PagePool in
  iod_sg iod = (a0, l0) :: rest0 ->
  sgl_ok (iod_sg iod) = true ->
  payload = sgl_bytes (iod_sg iod) ->
  payload < 2 ^ 31 ->
  NVME_CTRL_PAGE_SIZE < payload - first ->
  payload - first <= 2 ^ 31 - NVME_CTRL_PAGE_SIZE ->
  NoDup (pool_of dev pool) ->
  Forall in_u64 (pool_of dev pool) ->
  nprps <= 511 * Z.of_nat (length (pool_of dev pool)) + 1 ->
  exists dev' iod' cmnd',
    apple_nvme_setup_prps dev iod payload cmnd
      = Ok (BLK_STS_OK, dev', iod', cmnd') /\
    c_prp1 cmnd' = a0 /\
    prp_walk (dma_mem dev') (c_prp2 cmnd') 0 (Z.to_nat nprps)
      = Some (tail (fst <$> sgl_pieces (iod_sg iod))) /\
    prp_decode (dma_mem dev') (c_prp1 cmnd') (c_prp2 cmnd') payload
      = Some (sgl_pieces (iod_sg iod)) /\
    sum_list (snd <$> sgl_pieces (iod_sg iod)) = payload.
Proof.
  intros first nprps pool Hsg Hok Hpay Hmax Hneed Hfit Hnd Hin Henough.
  rewrite Hsg in *.
  pose proof (page_room a0) as Hroom. fold first in Hroom.
  destruct (sgl_first_cursor a0 l0 rest0 Hok ltac:(lia) ltac:(fold first; lia))
    as (sg & da & dl & rest & Hcursor & Hcur & Hpieces).
  fold first in Hcursor, Hcur, Hpieces. rewrite <- Hpay in Hcur.
  pose proof Hcur as (_ & Htail & Hbytes & _).
  destruct (sgl_tail_pieces _ Htail) as (Hal & Hu64 & Hsum & Hreg).
  specialize (Hreg ltac:(discriminate)).
  pose proof (pieces_regular_count _ Hreg Hal) as Hcount.
  rewrite Hsum, sgl_bytes_cons, <- Hbytes in Hcount.
  set (E := fst <$> sgl_pieces ((da, dl) :: rest)) in *.
  assert (HlenP : Z.of_nat (length (sgl_pieces ((da, dl) :: rest))) = nprps).
  { subst nprps. clear - Hcount. page_arith. }
  assert (HlenE : Z.of_nat (length E) = nprps).
  { subst E. rewrite length_fmap. exact HlenP. }
  (* the entry of the function *)
  assert (Ha0 : 0 <= a0 /\ 0 < l0 /\ a0 + l0 <= 2 ^ 64).
  { cbn [sgl_ok] in Hok. rewrite !andb_true_iff in Hok.
    destruct Hok as ((((Ha & Hl) & Hend) & _) & _).
    apply Z.leb_le in Ha, Hend. apply Z.ltb_lt in Hl. lia. }
  assert (Hl0 : l0 <= payload).
  { rewrite Hpay, sgl_bytes_cons.
    assert (0 <= sgl_bytes rest0); [| lia].
    apply sgl_tail_bytes_nonneg. cbn [sgl_ok] in Hok.
    rewrite !andb_true_iff in Hok. apply Hok. }
  unfold apple_nvme_setup_prps. rewrite Hsg. cbn [sg_load mbind exec_bind].
  rewrite (u64_small a0), (u32_small l0), (s32_small l0), (s32_small payload) by lia.
  rewrite land_page_mask.
  assert (Hmod : 0 <= a0 mod NVME_CTRL_PAGE_SIZE < NVME_CTRL_PAGE_SIZE)
    by (apply Z.mod_pos_bound; reflexivity).
  rewrite (s32_small (a0 mod NVME_CTRL_PAGE_SIZE))
    by (unfold NVME_CTRL_PAGE_SIZE in *; lia).
  fold first.
  rewrite (s32_small (payload - first)), (s32_small (l0 - first))
    by (unfold NVME_CTRL_PAGE_SIZE in *; lia).
  replace (payload - first <=? 0) with false
    by (symmetry; apply Z.leb_gt; unfold NVME_CTRL_PAGE_SIZE in *; lia).
  rewrite Hcursor. cbn [mbind exec_bind].
  replace (payload - first <=? NVME_CTRL_PAGE_SIZE) with false
    by (symmetry; apply Z.leb_gt; lia).
  rewrite (DIV_ROUND_UP_int_small (payload - first))
    by (unfold NVME_CTRL_PAGE_SIZE in *; lia).
  fold nprps. change (256 / 8) with 32.
  replace (if nprps <=? 32 then SmallPool else PagePool) with pool by reflexivity.
  destruct (pool_of dev pool) as [| b pool_rest] eqn:Hpool.
  { cbn [length] in Henough. exfalso. subst nprps.
    clear - Henough Hneed. page_arith. }
  rewrite (dma_pool_alloc_cons _ _ _ _ Hpool).
  apply NoDup_cons in Hnd. destruct Hnd as [Hbfresh Hnd].
  pose proof (Forall_inv Hin) as Hb. apply Forall_inv_tail in Hin.
  set (iod0 := iod_set_first_dma _ b).
  set (dev0 := dev_set_pool dev pool pool_rest).
  destruct (prp_loop_builds pool E
              (Z.to_nat ((payload - first) / NVME_CTRL_PAGE_SIZE) + 1)
              (mk_pls dev0 iod0 b 0 sg da dl (payload - first)) [] [] rest)
    as (s' & pages' & Hloop & Hch & Hhd & Hfd & Hsg').
  { cbn [pl_dev pl_prp_list pl_i pl_dma_addr pl_dma_len app].
    unfold prp_mem_inv. subst dev0. rewrite pool_of_set_pool, dma_mem_set_pool.
    cbn [app length].
    split; [apply prp_chain_one; split; [cbn; lia | intros k e Hk; discriminate] |].
    split; [constructor; assumption |].
    split; [exact Hin |]. split; [constructor |]. split; [reflexivity |].
    split; [lia |].
    rewrite HlenP. cbn [length] in Henough. lia. }
  { exact Hcur. }
  { reflexivity. }
  { cbn [pl_dma_addr pl_dma_len]. subst nprps. clear - HlenP Hneed. page_arith. }
  rewrite Hloop. cbn [mbind exec_bind].
  unfold prps_done. rewrite Hsg'. subst iod0. cbn [pl_iod iod_sg iod_set_first_dma
    iod_set_list iod_set_npages]. rewrite Hsg. cbn [sg_load mbind exec_bind].
  rewrite (u64_small a0) by lia.
  rewrite Hfd. cbn [pl_iod first_dma iod_set_first_dma].
  rewrite (u64_small b) by exact Hb.
  cbn [pl_prp_list app head] in Hhd.
  assert (Hwalk : prp_walk (dma_mem (pl_dev s')) b 0 (Z.to_nat nprps) = Some E).
  { rewrite <- HlenE, Nat2Z.id. apply (prp_walk_chain _ pages'); assumption. }
  eexists _, _, _. split; [reflexivity |].
  cbn [c_prp1 c_prp2 set_prp1 set_prp2].
  split; [reflexivity |].
  split; [rewrite Hwalk, Hpieces; reflexivity |].
  assert (Hregall : pieces_regular ((a0, first) :: sgl_pieces ((da, dl) :: rest))).
  { apply pieces_regular_cons.
    - intros Hnil. rewrite Hnil in Hreg. destruct Hreg.
    - split; [reflexivity | exact Hreg]. }
  assert (Hsumall :
    sum_list (snd <$> (a0, first) :: sgl_pieces ((da, dl) :: rest)) = payload).
  { rewrite fmap_cons, sum_list_cons, Hsum, sgl_bytes_cons, <- Hbytes.
    cbn [snd]. lia. }
  split; [| rewrite Hpieces; exact Hsumall].
  unfold prp_decode. fold first.
  rewrite Z.min_r by lia.
  replace (payload - first <=? 0) with false by (symmetry; apply Z.leb_gt; lia).
  replace (payload - first <=? NVME_CTRL_PAGE_SIZE) with false
    by (symmetry; apply Z.leb_gt; lia).
  fold nprps. rewrite Hwalk. cbn [mbind option_bind].
  rewrite Hpieces. f_equal.
  rewrite <- Hsumall at 1.
  change (a0 :: E) with (fst <$> (a0, first) :: sgl_pieces ((da, dl) :: rest)).
  apply prp_cover_regular. exact Hregall.
Qed.

Lemma setup_prps_roundtrip_witness :
  exists dev' iod' cmnd',
    apple_nvme_setup_prps ex_dev ex_iod_sg 0x3e00 ex_cmd
      = Ok (BLK_STS_OK, dev', iod', cmnd') /\
    c_prp1 cmnd' = 0x5200 /\
    prp_decode (dma_mem dev') (c_prp1 cmnd') (c_prp2 cmnd') 0x3e00
      = Some [(0x5200, 0xe00); (0x9000, 0x1000); (0xa000, 0x1000);
              (0xb000, 0x1000)].
Proof.
  destruct (setup_prps_roundtrip ex_dev ex_iod_sg 0x3e00 ex_cmd
              0x5200 0xe00 [(0x9000, 0x3000)])
    as (dev' & iod' & cmnd' & Hret & Hprp1 & _ & Hdecode & _).
  - reflexivity.
  - reflexivity.
  - reflexivity.
  - zclosed.
  - zclosed.
  - zclosed.
  - change (NoDup [0x200000; 0x200100]).
    apply NoDup_cons. split; [| apply NoDup_singleton].
    rewrite list_elem_of_singleton. discriminate.
  - change (Forall in_u64 [0x200000; 0x200100]).
    repeat (constructor;
            [split; [apply Z.leb_le | apply Z.ltb_lt]; reflexivity |]).
    constructor.
  - zclosed.
  - exists dev', iod', cmnd'. split; [exact Hret |]. split; [exact Hprp1 |].
    exact Hdecode.
Defined.

(** The same on a transfer whose list is chained over three blocks, by
    evaluation: the blocks are linked through their last slots and the
    command decodes to the 1030 pages of the fragment. *)
Example setup_prps_chained :
  match apple_nvme_setup_prps ex_dev ex_iod_large (4096 * 1030) ex_cmd with
  | Ok (st, dev', iod', cmnd') =>
      st = BLK_STS_OK /\
      npages iod' = 3 /\
      prp_page_pool dev' = [] /\
      dma_mem dev' !! (0x100000, 511) = Some 0x101000 /\
      dma_mem dev' !! (0x101000, 511) = Some 0x102000 /\
      prp_decode (dma_mem dev') (c_prp1 cmnd') (c_prp2 cmnd') (4096 * 1030)
        = Some (sgl_pieces (iod_sg ex_iod_large))
  | _ => False
  end.
Proof. vm_compute. repeat split; reflexivity. Qed.

(** * Further properties *)

(** ** The completion reaper *)

Lemma flip_phase_range (p : Z) : 0 <= p < 256 -> 0 <= flip_phase p < 256.
Proof.
  intros Hp. unfold flip_phase. destruct (lxor_1_u8 p Hp) as [Hr _].
  rewrite u8_small by (change (2 ^ 8) with 256; lia). exact Hr.
Qed.

(** When the loop returns, the entry at the head does not carry the
    expected phase. *)
Lemma process_cq_loop_post `{nvme_host} (o : cq_oracle) (fuel : nat) :
  forall r r', process_cq_loop fuel o r = Ok r' ->
    apple_nvme_cqe_pending (run_nvmeq r') = false.
Proof.
  induction fuel as [| fuel IH]; intros r r' Hrun.
  - cbn [process_cq_loop] in Hrun.
    destruct (apple_nvme_cqe_pending (run_nvmeq r)) eqn:Hp; [discriminate |].
    injection Hrun as <-. exact Hp.
  - destruct (apple_nvme_cqe_pending (run_nvmeq r)) eqn:Hp.
    + destruct (process_cq_loop_step fuel o r Hp) as (r1 & Hstep & _).
      rewrite Hstep in Hrun. exact (IH _ _ Hrun).
    + rewrite process_cq_loop_stop in Hrun by exact Hp.
      injection Hrun as <-. exact Hp.
Qed.

(** The head moves by one slot per entry taken, modulo the depth, and
    the phase is flipped once per wrap. *)
Lemma process_cq_loop_head `{nvme_host} (o : cq_oracle) (fuel : nat) :
  forall r r',
    let q := run_nvmeq r in
    process_cq_loop fuel o r = Ok r' ->
    0 <= cq_head q < q_depth q -> q_depth q <= 65536 ->
    0 <= cq_phase q < 256 ->
    exists l,
      run_consumed r' = run_consumed r ++ l /\
      (length l <= fuel)%nat /\
      q_depth (run_nvmeq r') = q_depth q /\
      cq_head (run_nvmeq r') = (cq_head q + Z.of_nat (length l)) mod q_depth q /\
      cq_phase (run_nvmeq r') =
        Nat.iter (Z.to_nat ((cq_head q + Z.of_nat (length l)) / q_depth q))
          flip_phase (cq_phase q).
Proof.
  induction fuel as [| fuel IH]; intros r r' q Hrun Hh Hd Hph; subst q.
  - cbn [process_cq_loop] in Hrun.
    destruct (apple_nvme_cqe_pending (run_nvmeq r)) eqn:Hp; [discriminate |].
    injection Hrun as <-. exists []. rewrite app_nil_r. cbn [length].
    rewrite Z.add_0_r, Z.mod_small, Z.div_small by lia.
    repeat split; try reflexivity; lia.
  - destruct (apple_nvme_cqe_pending (run_nvmeq r)) eqn:Hp.
    + destruct (process_cq_loop_step fuel o r Hp)
        as (r1 & Hstep & _ & Hd1 & Hh1 & Hph1 & _ & Hc1).
      rewrite Hstep in Hrun.
      destruct (Z.eq_dec (cq_head (run_nvmeq r) + 1) (q_depth (run_nvmeq r)))
        as [Hwrap | Hnext].
      * rewrite update_cq_head_wrap in Hh1, Hph1 by lia.
        cbn [set_cq cq_head cq_phase] in Hh1, Hph1.
        destruct (IH r1 r' Hrun) as (l & Hl & Hlen & Hd' & Hh' & Hph').
        { rewrite Hh1, Hd1. lia. }
        { rewrite Hd1. exact Hd. }
        { rewrite Hph1. apply flip_phase_range. exact Hph. }
        exists (mk_consumed (cq_head (run_nvmeq r))
                  (cqe_at (run_nvmeq r) (cq_head (run_nvmeq r)))
                  (cq_phase (run_nvmeq r)) :: l).
        rewrite Hl, Hc1, <- app_assoc. cbn [app length].
        rewrite Hd1, Hh1, Hph1 in *. clear Hl Hc1 Hstep.
        split; [reflexivity |]. split; [lia |]. split; [exact Hd' |].
        set (D := q_depth (run_nvmeq r)) in *.
        set (n := Z.of_nat (length l)) in *.
        replace (cq_head (run_nvmeq r) + Z.of_nat (S (length l)))
          with (n + 1 * D) by lia.
        rewrite Z.mod_add, Z.div_add by lia.
        rewrite Z.add_0_l in Hh', Hph'.
        split; [exact Hh' |].
        rewrite Hph'. rewrite Z2Nat.inj_add by (try apply Z.div_pos; lia).
        rewrite Nat.add_comm. change (Z.to_nat 1) with 1%nat.
        cbn [Nat.add]. rewrite Nat.iter_succ_r. reflexivity.
      * rewrite update_cq_head_next in Hh1, Hph1 by lia.
        cbn [set_cq cq_head cq_phase] in Hh1, Hph1.
        destruct (IH r1 r' Hrun) as (l & Hl & Hlen & Hd' & Hh' & Hph').
        { rewrite Hh1, Hd1. lia. }
        { rewrite Hd1. exact Hd. }
        { rewrite Hph1. exact Hph. }
        exists (mk_consumed (cq_head (run_nvmeq r))
                  (cqe_at (run_nvmeq r) (cq_head (run_nvmeq r)))
                  (cq_phase (run_nvmeq r)) :: l).
        rewrite Hl, Hc1, <- app_assoc. cbn [app length].
        rewrite Hd1, Hh1, Hph1 in *. clear Hl Hc1 Hstep.
        split; [reflexivity |]. split; [lia |]. split; [exact Hd' |].
        replace (cq_head (run_nvmeq r) + Z.of_nat (S (length l)))
          with (cq_head (run_nvmeq r) + 1 + Z.of_nat (length l)) by lia.
        split; assumption.
    + rewrite process_cq_loop_stop in Hrun by exact Hp.
      injection Hrun as <-. exists []. rewrite app_nil_r. cbn [length].
      rewrite Z.add_0_r, Z.mod_small, Z.div_small by lia.
      repeat split; try reflexivity; lia.
Qed.

Lemma process_cq_loop_unfold `{nvme_host} (o : cq_oracle) (fuel : nat)
    (r : cq_run) :
  let q := run_nvmeq r in
  let h := apple_nvme_handle_cqe o q (cq_head q) in
  apple_nvme_cqe_pending q = true ->
  process_cq_loop (S fuel) o r =
    process_cq_loop fuel o
      (mk_cq_run (apple_nvme_update_cq_head h.1.1) (s32 (run_found r + 1))
         (run_hw r ++ h.1.2) (run_calls r ++ h.2)
         (run_consumed r ++ [mk_consumed (cq_head q) (cqe_at q (cq_head q))
                               (cq_phase q)])).
Proof.
  intros q h Hp. subst q h. cbn [process_cq_loop]. rewrite Hp.
  destruct (apple_nvme_handle_cqe o (run_nvmeq r) (cq_head (run_nvmeq r)))
    as [[q1 hw] calls].
  reflexivity.
Qed.

(** What [apple_nvme_handle_cqe] does to the queue and to the hardware:
    it invalidates the tracking slot of the entry's tag. *)
Lemma handle_cqe_inval `{nvme_host} (o : cq_oracle) (q : apple_nvme_queue)
    (idx : Z) :
  let tag := u16 (nvme_tag_from_cid (cqe_command_id (cqe_at q idx))) in
  (apple_nvme_handle_cqe o q idx).1 = apple_nvmmu_inval q tag (o_tcb_stat o tag).
Proof.
  intros tag. unfold apple_nvme_handle_cqe. fold tag.
  destruct (apple_nvmmu_inval q tag (o_tcb_stat o tag)) as [q1 hw].
  repeat match goal with |- context [if ?b then _ else _] => destruct b end;
    reflexivity.
Qed.

Lemma inval_not_doorbell (q : apple_nvme_queue) (tag stat : Z) :
  Forall not_doorbell (apple_nvmmu_inval q tag stat).2.
Proof.
  unfold apple_nvmmu_inval. cbn [snd].
  destruct (stat =? 0); repeat constructor; discriminate.
Qed.

Lemma cq_frame_refl (q : apple_nvme_queue) : cq_frame q q.
Proof. unfold cq_frame. repeat split; try reflexivity. intros; right; assumption. Qed.

Lemma cq_frame_trans (q1 q2 q3 : apple_nvme_queue) :
  cq_frame q1 q2 -> cq_frame q2 q3 -> cq_frame q1 q3.
Proof.
  unfold cq_frame. intros (?&?&?&?&?&?&?&?&?&H12) (?&?&?&?&?&?&?&?&?&H23).
  repeat split; try congruence.
  intros k t Hk. destruct (H23 k t Hk) as [-> | Hk2]; [left; reflexivity |].
  exact (H12 k t Hk2).
Qed.

Lemma tcb_update_zero_frame (q : apple_nvme_queue) (tag : Z) :
  cq_frame q (tcb_update q tag (fun _ => tcb_zero)).
Proof.
  unfold cq_frame, tcb_update, set_tcbs. cbn.
  repeat split; try reflexivity.
  - apply length_alter.
  - intros k t Hk.
    destruct (decide (k = Z.to_nat tag)) as [-> | Hne].
    + rewrite list_lookup_alter_eq in Hk.
      destruct (ans2_tcb_ptr q !! Z.to_nat tag); [| discriminate].
      cbn in Hk. injection Hk as <-. left; reflexivity.
    + rewrite list_lookup_alter_ne in Hk by congruence. right; exact Hk.
Qed.

Lemma update_cq_head_frame (q : apple_nvme_queue) :
  cq_frame q (apple_nvme_update_cq_head q).
Proof.
  unfold apple_nvme_update_cq_head.
  destruct (u32 (cq_head q + 1) =? q_depth q); unfold cq_frame, set_cq; cbn;
    repeat split; try reflexivity; intros; right; assumption.
Qed.

(** One drain, whatever it finds: the trace it adds holds no doorbell
    write, the queue changes by zeroed tracking slots and the head only,
    each entry taken has its slot zeroed, and a drain that takes nothing
    changes nothing. *)
Lemma process_cq_loop_frame `{nvme_host} (o : cq_oracle) (fuel : nat) :
  forall r r',
    process_cq_loop fuel o r = Ok r' ->
    cq_frame (run_nvmeq r) (run_nvmeq r') /\
    (exists hw, run_hw r' = run_hw r ++ hw /\ Forall not_doorbell hw) /\
    (exists l, run_consumed r' = run_consumed r ++ l /\
       (l = [] -> r' = r) /\
       Forall (fun c =>
         let tag := u16 (nvme_tag_from_cid (cqe_command_id (cons_cqe c))) in
         forall t, ans2_tcb_ptr (run_nvmeq r') !! Z.to_nat tag = Some t ->
                   t = tcb_zero) l).
Proof.
  assert (Hstop : forall r : cq_run,
    cq_frame (run_nvmeq r) (run_nvmeq r) /\
    (exists hw, run_hw r = run_hw r ++ hw /\ Forall not_doorbell hw) /\
    (exists l, run_consumed r = run_consumed r ++ l /\
       (l = [] -> r = r) /\
       Forall (fun c =>
         let tag := u16 (nvme_tag_from_cid (cqe_command_id (cons_cqe c))) in
         forall t, ans2_tcb_ptr (run_nvmeq r) !! Z.to_nat tag = Some t ->
                   t = tcb_zero) l)).
  { intros r. split; [apply cq_frame_refl |]. split.
    - exists []. rewrite app_nil_r. split; [reflexivity | constructor].
    - exists []. rewrite app_nil_r. split; [reflexivity |].
      split; [reflexivity | constructor]. }
  induction fuel as [| fuel IH]; intros r r' Hrun.
  - cbn [process_cq_loop] in Hrun.
    destruct (apple_nvme_cqe_pending (run_nvmeq r)) eqn:Hp; [discriminate |].
    injection Hrun as <-. apply Hstop.
  - destruct (apple_nvme_cqe_pending (run_nvmeq r)) eqn:Hp.
    2:{ rewrite process_cq_loop_stop in Hrun by exact Hp.
        injection Hrun as <-. apply Hstop. }
    rewrite process_cq_loop_unfold in Hrun by exact Hp.
    set (q := run_nvmeq r) in *.
    set (c := mk_consumed (cq_head q) (cqe_at q (cq_head q)) (cq_phase q)) in *.
    pose proof (handle_cqe_inval o q (cq_head q)) as Hh. cbn zeta in Hh.
    set (tag := u16 (nvme_tag_from_cid (cqe_command_id (cqe_at q (cq_head q))))) in *.
    destruct (apple_nvme_handle_cqe o q (cq_head q)) as [[q1 hw1] calls1] eqn:Hcall.
    cbn [fst snd] in Hh, Hrun.
    assert (Hq1 : q1 = tcb_update q tag (fun _ => tcb_zero)).
    { unfold apple_nvmmu_inval in Hh. congruence. }
    assert (Hhw1 : Forall not_doorbell hw1).
    { replace hw1 with (apple_nvmmu_inval q tag (o_tcb_stat o tag)).2
        by (rewrite <- Hh; reflexivity).
      apply inval_not_doorbell. }
    destruct (IH _ _ Hrun) as (Hfr & (hw & Hhw & Hnd) & (l & Hl & _ & Hz)).
    cbn [run_nvmeq run_hw run_consumed] in Hfr, Hhw, Hl.
    assert (Hfr1 : cq_frame q (apple_nvme_update_cq_head q1)).
    { eapply cq_frame_trans; [| apply update_cq_head_frame].
      rewrite Hq1. apply tcb_update_zero_frame. }
    split; [eapply cq_frame_trans; eassumption |]. split.
    + exists (hw1 ++ hw). rewrite Hhw, <- app_assoc. split; [reflexivity |].
      apply Forall_app. split; assumption.
    + exists (c :: l). rewrite Hl, <- app_assoc. split; [reflexivity |].
      split; [discriminate |].
      constructor; [| exact Hz].
      cbn [cons_cqe c]. fold tag. intros t Ht.
      destruct Hfr as (_&_&_&_&_&_&_&_&_& Hslots).
      destruct (Hslots _ _ Ht) as [-> | Ht1]; [reflexivity |].
      destruct (update_cq_head_frame q1) as (_&_&_&_&_&_&_&_&_& Hslots1).
      destruct (Hslots1 _ _ Ht1) as [-> | Ht2]; [reflexivity |].
      rewrite Hq1 in Ht2. unfold tcb_update, set_tcbs in Ht2. cbn in Ht2.
      rewrite list_lookup_alter_eq in Ht2.
      destruct (ans2_tcb_ptr q !! Z.to_nat tag); [| discriminate].
      cbn in Ht2. congruence.
Qed.

Lemma process_cq_loop_run `{nvme_host} (o : cq_oracle) (q : apple_nvme_queue) :
  0 <= cq_head q < q_depth q -> q_depth q <= 65536 ->
  0 <= cq_phase q < 256 ->
  exists r,
    process_cq_loop (Z.to_nat (q_depth q)) o (mk_cq_run q 0 [] [] []) = Ok r /\
    run_found r = Z.of_nat (length (run_consumed r)) /\
    0 <= run_found r <= q_depth q /\
    q_depth (run_nvmeq r) = q_depth q /\
    cq_head (run_nvmeq r) = (cq_head q + run_found r) mod q_depth q /\
    cq_phase (run_nvmeq r) =
      (if cq_head q + run_found r <? q_depth q then cq_phase q
       else u8 (Z.lxor (cq_phase q) 1)).
Proof.
  intros Hh Hd Hph.
  destruct (process_cq_loop_total o (mk_cq_run q 0 [] [] []) Hh Hd Hph)
    as (r & Hrun).
  cbn [run_nvmeq] in Hrun. exists r. split; [exact Hrun |].
  destruct (process_cq_loop_fresh o q _ _ _ Hrun) as (_ & Hfound & _).
  { reflexivity. } { reflexivity. }
  { cbn [run_consumed length Nat.add]. rewrite Z2Nat.id by lia.
    change (2 ^ 31) with 2147483648. lia. }
  { constructor. }
  destruct (process_cq_loop_head o _ _ _ Hrun Hh Hd Hph)
    as (l & Hl & Hlen & Hd' & Hh' & Hph').
  cbn [run_nvmeq run_consumed app] in Hl, Hd', Hh', Hph'.
  rewrite Hl in Hfound. rewrite Hfound, Hl.
  split; [reflexivity |]. split; [lia |]. split; [exact Hd' |].
  split; [exact Hh' |]. rewrite Hph'.
  set (n := Z.of_nat (length l)) in *.
  destruct (Z.ltb_spec (cq_head q + n) (q_depth q)) as [Hlt | Hge].
  - rewrite Z.div_small by lia. reflexivity.
  - replace ((cq_head q + n) / q_depth q) with 1; [reflexivity |].
    apply (Z.div_unique _ _ 1 (cq_head q + n - q_depth q)); lia.
Qed.

(** X1: one drain of a ring whose head is inside the ring returns; it
    takes at most [q_depth] entries; the head ends [found] slots further,
    modulo the depth, and the phase is flipped exactly when the head went
    past the end of the ring; the entry then at the head does not carry
    the expected phase. *)
Theorem process_cq_advances `{nvme_host} (o : cq_oracle) (dev : apple_nvme_dev)
    (q : apple_nvme_queue) :
  0 <= cq_head q < q_depth q -> q_depth q <= 65536 ->
  0 <= cq_phase q < 256 ->
  exists r,
    nvme_process_cq o dev q = Ok r /\
    run_found r = Z.of_nat (length (run_consumed r)) /\
    0 <= run_found r <= q_depth q /\
    cq_head (run_nvmeq r) = (cq_head q + run_found r) mod q_depth q /\
    cq_phase (run_nvmeq r) =
      (if cq_head q + run_found r <? q_depth q then cq_phase q
       else u8 (Z.lxor (cq_phase q) 1)) /\
    apple_nvme_cqe_pending (run_nvmeq r) = false.
Proof.
  intros Hh Hd Hph.
  destruct (process_cq_loop_run o q Hh Hd Hph)
    as (r & Hrun & Hfound & Hrange & _ & Hh' & Hph').
  pose proof (process_cq_loop_post o _ _ _ Hrun) as Hpost.
  unfold nvme_process_cq. rewrite Hrun. cbn [mbind exec_bind].
  destruct (run_found r =? 0); cbn [negb]; eexists; (split; [reflexivity |]);
    cbn [run_found run_consumed run_nvmeq]; repeat split; assumption || lia.
Qed.

Lemma process_cq_advances_witness :
  exists r,
    nvme_process_cq (H := linux_nvme_host) ex_cq_oracle ex_dev ex_queue_pending
      = Ok r /\
    run_found r = 2 /\ cq_head (run_nvmeq r) = 2 /\ cq_phase (run_nvmeq r) = 1.
Proof.
  destruct (process_cq_advances (H := linux_nvme_host) ex_cq_oracle ex_dev
              ex_queue_pending)
    as (r & Hrun & Hfound & Hrange & Hh & Hph & Hpost).
  - zclosed.
  - zclosed.
  - zclosed.
  - exists r. split; [exact Hrun |].
    assert (Hr : Ok r = nvme_process_cq (H := linux_nvme_host) ex_cq_oracle
                          ex_dev ex_queue_pending) by (symmetry; exact Hrun).
    vm_compute in Hr. injection Hr as ->. repeat split; reflexivity.
Defined.

(** X2: the completion doorbell is written once per drain, after every
    entry has been handled, with the head the drain ends on; a drain
    that finds nothing writes nothing and leaves the queue as it was. *)
Theorem process_cq_doorbell_once `{nvme_host} (o : cq_oracle)
    (dev : apple_nvme_dev) (q : apple_nvme_queue) :
  0 <= cq_head q < q_depth q -> q_depth q <= 65536 ->
  0 <= cq_phase q < 256 ->
  exists r,
    nvme_process_cq o dev q = Ok r /\
    (run_found r = 0 -> r = mk_cq_run q 0 [] [] []) /\
    (run_found r <> 0 ->
       exists hw,
         run_hw r =
           hw ++ [EvDoorbell (q_db q + 4 * db_stride dev)
                    (cq_head (run_nvmeq r))] /\
         Forall not_doorbell hw).
Proof.
  intros Hh Hd Hph.
  destruct (process_cq_loop_run o q Hh Hd Hph)
    as (r & Hrun & Hfound & _).
  destruct (process_cq_loop_frame o _ _ _ Hrun)
    as (Hfr & (hw & Hhw & Hnd) & (l & Hl & Hnil & _)).
  cbn [run_nvmeq run_hw run_consumed app] in Hfr, Hhw, Hl.
  unfold nvme_process_cq. rewrite Hrun. cbn [mbind exec_bind].
  destruct (Z.eqb_spec (run_found r) 0) as [Hz | Hnz]; cbn [negb].
  - exists r. split; [reflexivity |]. split; [| intros Hne; contradiction].
    intros _. apply Hnil. rewrite Hl in Hfound. rewrite Hz in Hfound.
    destruct l; [reflexivity | cbn [length] in Hfound; lia].
  - eexists. split; [reflexivity |]. cbn [run_found run_hw run_nvmeq].
    split; [intros Hz; contradiction |]. intros _.
    exists hw. rewrite Hhw. unfold apple_nvme_ring_cq_doorbell.
    destruct Hfr as (_ & _ & -> & _). split; [reflexivity | exact Hnd].
Qed.

Lemma process_cq_doorbell_once_witness :
  exists r,
    nvme_process_cq (H := linux_nvme_host) ex_cq_oracle ex_dev ex_queue_pending
      = Ok r /\
    last (run_hw r) = Some (EvDoorbell 0x100c 2).
Proof.
  destruct (process_cq_doorbell_once (H := linux_nvme_host) ex_cq_oracle ex_dev
              ex_queue_pending)
    as (r & Hrun & _ & _).
  - zclosed.
  - zclosed.
  - zclosed.
  - exists r. split; [exact Hrun |].
    assert (Hr : Ok r = nvme_process_cq (H := linux_nvme_host) ex_cq_oracle
                          ex_dev ex_queue_pending) by (symmetry; exact Hrun).
    vm_compute in Hr. injection Hr as ->. reflexivity.
Defined.



(** ** Transfers without a PRP list *)

(** X4: a transfer that needs no PRP list (at most one page is left
    after the first one) takes no block from either pool and writes no
    PRP memory; [prp1] is the address of the first fragment, [prp2] is 0
    when the transfer ends in the first page and the address of the
    second page otherwise, and the two pointers decode to the fragments
    cut at page boundaries. *)
Theorem setup_prps_no_list (dev : apple_nvme_dev) (iod : apple_nvme_iod)
    (payload : Z) (cmnd : nvme_command) (a0 l0 : Z) (rest0 : list sg_entry) :
  let first := NVME_CTRL_PAGE_SIZE - a0 mod NVME_CTRL_PAGE_SIZE in
  iod_sg iod = (a0, l0) :: rest0 ->
  sgl_ok (iod_sg iod) = true ->
  payload = sgl_bytes (iod_sg iod) ->
  payload < 2 ^ 31 ->
  payload - first <= NVME_CTRL_PAGE_SIZE ->
  exists iod' cmnd',
    apple_nvme_setup_prps dev iod payload cmnd
      = Ok (BLK_STS_OK, dev, iod', cmnd') /\
    npages iod' = npages iod /\
    c_prp1 cmnd' = a0 /\
    (payload <= first -> c_prp2 cmnd' = 0) /\
    (first < payload -> c_prp2 cmnd' = (fst <$> sgl_pieces (iod_sg iod)) !!! 1%nat) /\
    prp_decode (dma_mem dev) (c_prp1 cmnd') (c_prp2 cmnd') payload
      = Some (sgl_pieces (iod_sg iod)).
Proof.
  intros first Hsg Hok Hpay Hmax Hshort.
  rewrite Hsg in *.
  pose proof (page_room a0) as Hroom. fold first in Hroom.
  assert (Ha0 : 0 <= a0 /\ 0 < l0 /\ a0 + l0 <= 2 ^ 64).
  { cbn [sgl_ok] in Hok. rewrite !andb_true_iff in Hok.
    destruct Hok as ((((Ha & Hl) & Hend) & _) & _).
    apply Z.leb_le in Ha, Hend. apply Z.ltb_lt in Hl. lia. }
  assert (Hrest0 : sgl_tail_ok rest0 = true).
  { cbn [sgl_ok] in Hok. rewrite !andb_true_iff in Hok. apply Hok. }
  pose proof (sgl_tail_bytes_nonneg _ Hrest0) as Hbytes0.
  assert (Hl0 : l0 <= payload) by (rewrite Hpay, sgl_bytes_cons; lia).
  assert (Hmod : 0 <= a0 mod NVME_CTRL_PAGE_SIZE < NVME_CTRL_PAGE_SIZE)
    by (apply Z.mod_pos_bound; reflexivity).
  unfold apple_nvme_setup_prps. rewrite Hsg. cbn [sg_load mbind exec_bind].
  rewrite (u64_small a0), (u32_small l0), (s32_small l0), (s32_small payload)
    by lia.
  rewrite land_page_mask.
  rewrite (s32_small (a0 mod NVME_CTRL_PAGE_SIZE))
    by (unfold NVME_CTRL_PAGE_SIZE in *; lia).
  fold first.
  rewrite (s32_small (payload - first)), (s32_small (l0 - first))
    by (unfold NVME_CTRL_PAGE_SIZE in *; lia).
  destruct (Z.leb_spec (payload - first) 0) as [Hone | Htwo].
  - (* the transfer ends in the first page *)
    assert (Hnil : rest0 = []).
    { destruct rest0 as [| [a1 l1] rest1]; [reflexivity | exfalso].
      pose proof (sgl_tail_bytes_pos _ Hrest0 ltac:(discriminate)) as Hpos.
      cbn [sgl_ok] in Hok. rewrite !andb_true_iff in Hok.
      destruct Hok as ((_ & Hbound) & _). apply Z.eqb_eq in Hbound.
      rewrite sgl_bytes_cons in Hpay.
      assert (first <= l0) by (subst first; clear - Hbound Ha0; page_arith).
      lia. }
    subst rest0. rewrite sgl_bytes_cons in Hpay. cbn in Hpay.
    unfold sum_list in Hpay. cbn in Hpay.
    assert (Hl : l0 = payload) by lia. subst l0.
    unfold prps_done. cbn [iod_sg iod_set_first_dma]. rewrite Hsg.
    cbn [sg_load mbind exec_bind]. rewrite (u64_small a0) by lia.
    eexists _, _. split; [reflexivity |].
    cbn [npages c_prp1 c_prp2 set_prp1 set_prp2 first_dma].
    split; [reflexivity |]. split; [reflexivity |].
    split; [intros _; reflexivity |]. split; [intros Hgt; lia |].
    unfold prp_decode. fold first. rewrite Z.min_l by lia.
    rewrite Z.sub_diag. cbn [Z.leb Z.compare prp_cover]. fold first.
    rewrite Z.min_l by lia. f_equal.
    unfold sgl_pieces. cbn [fmap list_fmap concat]. rewrite app_nil_r.
    symmetry. apply frag_pieces_one. fold first. lia.
  - (* one more page *)
    destruct (sgl_first_cursor a0 l0 rest0 Hok ltac:(lia) ltac:(fold first; lia))
      as (sg & da & dl & rest & Hcursor & Hcur & Hpieces).
    fold first in Hcursor, Hcur, Hpieces. rewrite <- Hpay in Hcur.
    rewrite Hcursor. cbn [mbind exec_bind].
    replace (payload - first <=? NVME_CTRL_PAGE_SIZE) with true
      by (symmetry; apply Z.leb_le; lia).
    destruct Hcur as (_ & Htail & Hbytes & _).
    pose proof Htail as Htail0.
    apply sgl_tail_ok_cons in Htail.
    destruct Htail as (Hda & Hdl & Hend & Hal & Hmul & Hrest).
    assert (Hnil : rest = []).
    { destruct rest as [| r rest1]; [reflexivity | exfalso].
      pose proof (sgl_tail_bytes_pos _ Hrest ltac:(discriminate)) as Hpos.
      specialize (Hmul ltac:(discriminate)).
      assert (NVME_CTRL_PAGE_SIZE <= dl) by (clear - Hmul Hdl; page_arith).
      lia. }
    subst rest. cbn in Hbytes. unfold sum_list in Hbytes. cbn in Hbytes.
    rewrite Z.add_0_r in Hbytes.
    assert (Hone : sgl_pieces [(da, dl)] = [(da, dl)]).
    { unfold sgl_pieces. cbn [fmap list_fmap concat]. rewrite app_nil_r.
      apply frag_pieces_one. rewrite Hal. lia. }
    rewrite Hone in Hpieces.
    unfold prps_done. cbn [iod_sg iod_set_first_dma]. rewrite Hsg.
    cbn [sg_load mbind exec_bind]. rewrite (u64_small a0) by lia.
    cbn [first_dma iod_set_first_dma]. rewrite (u64_small da) by lia.
    eexists _, _. split; [reflexivity |].
    cbn [npages c_prp1 c_prp2 set_prp1 set_prp2].
    split; [reflexivity |]. split; [reflexivity |].
    split; [intros Hle; lia |].
    split; [intros _; rewrite Hpieces; reflexivity |].
    unfold prp_decode. fold first. rewrite Z.min_r by lia.
    replace (payload - first <=? 0) with false by (symmetry; apply Z.leb_gt; lia).
    replace (payload - first <=? NVME_CTRL_PAGE_SIZE) with true
      by (symmetry; apply Z.leb_le; lia).
    rewrite Hpieces. f_equal. cbn [prp_cover]. fold first.
    rewrite Z.min_r by lia. rewrite Hal, Z.sub_0_r.
    rewrite Z.min_l by lia. rewrite Hbytes. reflexivity.
Qed.

Lemma setup_prps_no_list_witness :
  exists iod' cmnd',
    apple_nvme_setup_prps ex_dev
      (mk_iod nvme_command_zero 0 (-1) 1 0 0 0 [(0x5200, 0x1800)] ∅)
      0x1800 ex_cmd
      = Ok (BLK_STS_OK, ex_dev, iod', cmnd') /\
    c_prp1 cmnd' = 0x5200 /\ c_prp2 cmnd' = 0x6000.
Proof.
  destruct (setup_prps_no_list ex_dev
              (mk_iod nvme_command_zero 0 (-1) 1 0 0 0 [(0x5200, 0x1800)] ∅)
              0x1800 ex_cmd 0x5200 0x1800 [])
    as (iod' & cmnd' & Hret & _ & Hprp1 & _ & Hprp2 & _).
  - reflexivity.
  - reflexivity.
  - reflexivity.
  - zclosed.
  - zclosed.
  - exists iod', cmnd'. split; [exact Hret |]. split; [exact Hprp1 |].
    apply Hprp2. zclosed.
Defined.

(** ** PRP blocks and the pools *)

Lemma s32_range (x : Z) : - 2 ^ 31 <= s32 x < 2 ^ 31.
Proof.
  unfold s32. pose proof (Z.mod_pos_bound (x + 2 ^ 31) (2 ^ 32) ltac:(lia)).
  change (2 ^ 32) with (2 * 2 ^ 31) in *. lia.
Qed.

Lemma iod_blocks_snoc (iod : apple_nvme_iod) (b : Z) :
  0 <= npages iod ->
  iod_blocks (iod_set_npages
                (iod_set_list iod (<[npages iod := b]> (iod_list iod)))
                (npages iod + 1))
  = iod_blocks iod ++ [b].
Proof.
  intros Hn. unfold iod_blocks. cbn [npages iod_list iod_set_npages iod_set_list].
  replace (Z.to_nat (npages iod + 1)) with (S (Z.to_nat (npages iod))) by lia.
  rewrite seq_S, fmap_app. cbn [Nat.add fmap list_fmap].
  rewrite Z2Nat.id by lia. rewrite lookup_insert_eq. cbn [default from_option].
  unfold id. f_equal.
  apply list_fmap_ext. intros j k Hk.
  apply lookup_seq in Hk. destruct Hk as [-> Hlt].
  rewrite lookup_insert_ne by lia. reflexivity.
Qed.

Lemma iod_blocks_length (iod : apple_nvme_iod) :
  0 <= npages iod -> Z.of_nat (length (iod_blocks iod)) = npages iod.
Proof.
  intros Hn. unfold iod_blocks. rewrite length_fmap, length_seq. lia.
Qed.

Lemma free_prps_loop_pools (list : gmap Z Z) (n : nat) :
  forall (i : Z) (dev : apple_nvme_dev) (dma_addr : Z),
    let dev' := free_prps_loop n i dev list dma_addr in
    prp_page_pool dev' ≡ₚ
      ((fun k : nat => default 0 (list !! (i + Z.of_nat k))) <$> seq 0 n)
        ++ prp_page_pool dev /\
    prp_small_pool dev' = prp_small_pool dev /\
    dma_mem dev' = dma_mem dev.
Proof.
  induction n as [| n IH]; intros i dev dma_addr; cbn zeta.
  - cbn. repeat split; reflexivity.
  - cbn [free_prps_loop].
    destruct (IH (i + 1) (dma_pool_free dev PagePool (default 0 (list !! i)))
                (prp_read dev (default 0 (list !! i))
                   (NVME_CTRL_PAGE_SIZE / 8 - 1)))
      as (Hp & Hs & Hm).
    cbn zeta in Hp, Hs, Hm. rewrite Hs, Hm. split; [| split; reflexivity].
    rewrite Hp. unfold dma_pool_free. cbn [dev_set_pool pool_of prp_page_pool
      dev_set_page_pool].
    rewrite <- Permutation_middle.
    cbn [seq fmap list_fmap app]. rewrite Z.add_0_r.
    apply Permutation_cons; [reflexivity |].
    apply Permutation_app_tail.
    rewrite <- fmap_S_seq, <- list_fmap_compose.
    erewrite list_fmap_ext; [reflexivity |].
    intros j k _. cbn. f_equal. f_equal. lia.
Qed.

Lemma free_prps_pools (dev : apple_nvme_dev) (iod : apple_nvme_iod) :
  let dev' := apple_nvme_free_prps dev iod in
  prp_page_pool dev' ≡ₚ iod_blocks iod ++ prp_page_pool dev /\
  prp_small_pool dev' = prp_small_pool dev /\
  dma_mem dev' = dma_mem dev.
Proof.
  unfold apple_nvme_free_prps.
  destruct (free_prps_loop_pools (iod_list iod) (Z.to_nat (npages iod)) 0 dev
              (first_dma iod)) as (Hp & Hs & Hm).
  cbn zeta in *. split; [| split; assumption].
  rewrite Hp. unfold iod_blocks. reflexivity.
Qed.

Lemma mem_frame_write (blocks : list Z) (cap : Z) (m0 : gmap (Z * Z) Z)
    (dev : apple_nvme_dev) (blk i v : Z) :
  mem_frame blocks cap m0 (dma_mem dev) ->
  blk ∈ blocks -> 0 <= i < cap ->
  mem_frame blocks cap m0 (dma_mem (prp_write dev blk i v)).
Proof.
  intros Hfr Hin Hi b k Hout. unfold prp_write, dev_set_mem. cbn [dma_mem].
  rewrite lookup_insert_ne; [apply Hfr; exact Hout |].
  intros [= <- <-]. destruct Hout as [Hout | Hout]; contradiction.
Qed.

(** One iteration keeps the accounting, however it ends. *)
Lemma prp_loop_body_acc (pool : pool_sel) (dev0 : apple_nvme_dev)
    (dl0 len0 : Z) (s : prp_loop_state) (r : prp_step) :
  prp_acc_state pool dev0 dl0 len0 s ->
  0 < pl_length s < 2 ^ 31 ->
  prp_loop_body pool s = Ok r ->
  match r with
  | PrpContinue s' =>
      prp_acc_state pool dev0 dl0 len0 s' /\ 0 < pl_length s' < 2 ^ 31
  | PrpBreak s' =>
      prp_acc_state pool dev0 dl0 len0 s' /\
      - NVME_CTRL_PAGE_SIZE < pl_length s' <= 0 /\ 1 <= pl_i s'
  | PrpBadSgl s' => prp_acc_state pool dev0 dl0 len0 s'
  | PrpFreePrps s' => s' = s /\ pool = PagePool
  end.
Proof.
  intros Hacc Hlen Hbody.
  assert (Hnext :
    match prp_next_page pool s with
    | None => pool = PagePool
    | Some (dev1, iod1, pl1, i1) =>
        0 <= i1 < pool_slots pool /\
        forall a,
          prp_acc pool dev0 dl0 len0 (prp_write dev1 pl1 i1 a) iod1 pl1 (i1 + 1)
            (pl_length s - NVME_CTRL_PAGE_SIZE)
    end).
  { unfold prp_acc_state, prp_acc in Hacc. unfold prp_next_page.
    change (Z.shiftr NVME_CTRL_PAGE_SIZE 3) with 512.
    destruct pool.
    - destruct Hacc as ((Hn & Hl0 & Hsm & Hpg & Hi & Hcount & Hroom) & Hdl & Hfr).
      assert (Hi32 : pl_i s < 32) by (unfold NVME_CTRL_PAGE_SIZE in *; lia).
      replace (pl_i s =? 512) with false by (symmetry; apply Z.eqb_neq; lia).
      change (pool_slots SmallPool) with 32.
      split; [lia |]. intros a. unfold prp_acc.
      rewrite ?pool_of_prp_write.
      change (prp_small_pool (prp_write ?d ?b ?i ?v)) with (prp_small_pool d).
      change (prp_page_pool (prp_write ?d ?b ?i ?v)) with (prp_page_pool d).
      repeat split; try assumption; try lia;
        try (unfold NVME_CTRL_PAGE_SIZE in *; lia).
      apply mem_frame_write; [exact Hfr | | change (pool_slots SmallPool) with 32; lia].
      cbn [pool_of]. rewrite Hsm. apply list_elem_of_here.
    - destruct Hacc as ((Hn & Hperm & Hsm & Hin & Hi & Hcount & Hroom) & Hdl & Hfr).
      change (pool_slots PagePool) with 512.
      destruct (Z.eqb_spec (pl_i s) 512) as [Hfull | Hnot].
      + unfold dma_pool_alloc. cbn [pool_of].
        destruct (prp_page_pool (pl_dev s)) as [| b rest] eqn:Hpool;
          [reflexivity |].
        split; [lia |]. intros a. unfold prp_acc.
        assert (Hb : b ∈ prp_page_pool dev0).
        { rewrite Hperm. apply elem_of_app. right. apply list_elem_of_here. }
        change (npages (iod_set_list (pl_iod s) ?l)) with (npages (pl_iod s)).
        rewrite (s32_small (npages (pl_iod s) + 1))
          by (unfold NVME_CTRL_PAGE_SIZE in *;
              change (2 ^ 31) with 2147483648 in *; lia).
        rewrite iod_blocks_snoc by lia.
        cbn [npages iod_set_npages iod_set_list dma_len].
        repeat change (prp_small_pool (prp_write ?d ?b ?i ?v))
          with (prp_small_pool d).
        repeat change (prp_page_pool (prp_write ?d ?b ?i ?v))
          with (prp_page_pool d).
        cbn [dev_set_pool dev_set_page_pool prp_page_pool prp_small_pool].
        repeat split; try assumption; try lia;
          try (unfold NVME_CTRL_PAGE_SIZE in *; lia).
        * rewrite Hperm, <- app_assoc. reflexivity.
        * cbn [pool_of].
          apply mem_frame_write; [| exact Hb | change (pool_slots PagePool) with 512; lia].
          apply mem_frame_write; [| exact Hin | change (pool_slots PagePool) with 512; lia].
          apply mem_frame_write; [| exact Hb | change (pool_slots PagePool) with 512; lia].
          exact Hfr.
      + split; [lia |]. intros a. unfold prp_acc.
        change (prp_small_pool (prp_write ?d ?b ?i ?v)) with (prp_small_pool d).
        change (prp_page_pool (prp_write ?d ?b ?i ?v)) with (prp_page_pool d).
        repeat split; try assumption; try lia;
          try (unfold NVME_CTRL_PAGE_SIZE in *; lia).
        apply mem_frame_write; [exact Hfr | exact Hin |].
        change (pool_slots PagePool) with 512. lia. }
  unfold prp_loop_body in Hbody.
  destruct (prp_next_page pool s) as [[[[dev1 iod1] pl1] i1] |].
  2:{ injection Hbody as <-. split; [reflexivity | exact Hnext]. }
  destruct Hnext as (Hi1 & Hacc1).
  assert (Hi1' : 0 <= i1 < 512).
  { destruct pool;
      [change (pool_slots SmallPool) with 32 in Hi1
      | change (pool_slots PagePool) with 512 in Hi1]; lia. }
  rewrite (s32_small (i1 + 1)) in Hbody by lia.
  rewrite (s32_small (pl_length s - NVME_CTRL_PAGE_SIZE)) in Hbody
    by (unfold NVME_CTRL_PAGE_SIZE; lia).
  specialize (Hacc1 (pl_dma_addr s)).
  destruct (Z.leb_spec (pl_length s - NVME_CTRL_PAGE_SIZE) 0).
  { injection Hbody as <-. split; [exact Hacc1 |].
    cbn [pl_length pl_i]. lia. }
  destruct (0 <? s32 (pl_dma_len s - NVME_CTRL_PAGE_SIZE)).
  { injection Hbody as <-.
    split; [exact Hacc1 | cbn [pl_length]; unfold NVME_CTRL_PAGE_SIZE in *; lia]. }
  destruct (s32 (pl_dma_len s - NVME_CTRL_PAGE_SIZE) <? 0).
  { injection Hbody as <-. exact Hacc1. }
  destruct (sg_load (sg_next (pl_sg s))) as [[a l] | |]; try discriminate.
  cbn [mbind exec_bind] in Hbody. injection Hbody as <-.
  split; [exact Hacc1 | cbn [pl_length]; unfold NVME_CTRL_PAGE_SIZE in *; lia].
Qed.

Lemma prp_loop_acc (pool : pool_sel) (dev0 : apple_nvme_dev) (dl0 len0 : Z)
    (fuel : nat) :
  forall (s : prp_loop_state) (r : prp_step),
    prp_acc_state pool dev0 dl0 len0 s ->
    0 < pl_length s < 2 ^ 31 ->
    prp_loop fuel pool s = Ok r ->
    match r with
    | PrpContinue _ => False
    | PrpBreak s' =>
        prp_acc_state pool dev0 dl0 len0 s' /\
        - NVME_CTRL_PAGE_SIZE < pl_length s' <= 0 /\ 1 <= pl_i s'
    | PrpBadSgl s' => prp_acc_state pool dev0 dl0 len0 s'
    | PrpFreePrps s' => prp_acc_state pool dev0 dl0 len0 s' /\ pool = PagePool
    end.
Proof.
  induction fuel as [| fuel IH]; intros s r Hacc Hlen Hrun; [discriminate |].
  cbn [prp_loop] in Hrun.
  destruct (prp_loop_body pool s) as [r1 | |] eqn:Hbody; try discriminate.
  cbn [mbind exec_bind] in Hrun.
  pose proof (prp_loop_body_acc pool dev0 dl0 len0 s r1 Hacc Hlen Hbody) as Hstep.
  destruct r1 as [s1 | s1 | s1 | s1].
  - destruct Hstep as [Hacc1 Hlen1]. exact (IH s1 r Hacc1 Hlen1 Hrun).
  - injection Hrun as <-. exact Hstep.
  - injection Hrun as <-. destruct Hstep as [-> Hpool]. split; assumption.
  - injection Hrun as <-. exact Hstep.
Qed.

Lemma prps_done_inv (dev : apple_nvme_dev) (iod : apple_nvme_iod)
    (cmnd : nvme_command) (st : blk_status_t) (dev' : apple_nvme_dev)
    (iod' : apple_nvme_iod) (cmnd' : nvme_command) :
  prps_done dev iod cmnd = Ok (st, dev', iod', cmnd') ->
  st = BLK_STS_OK /\ dev' = dev /\ iod' = iod.
Proof.
  unfold prps_done. destruct (sg_load (iod_sg iod)) as [[a l] | |];
    try discriminate.
  cbn [mbind exec_bind]. intros [= <- <- <- <-]. repeat split.
Qed.

(** A payload of at most [2 ^ 31] less a page leaves no more than that
    after the first page. *)
Lemma prp_list_bytes_fit (iod : apple_nvme_iod) (payload : Z) :
  0 <= payload <= 2 ^ 31 - NVME_CTRL_PAGE_SIZE ->
  prp_list_bytes iod payload <= 2 ^ 31 - NVME_CTRL_PAGE_SIZE.
Proof.
  intros Hp. unfold prp_list_bytes.
  destruct (iod_sg iod) as [| [a l] rest];
    [unfold NVME_CTRL_PAGE_SIZE; change (2 ^ 31) with 2147483648; lia |].
  rewrite land_page_mask.
  pose proof (Z.mod_pos_bound (u64 a) NVME_CTRL_PAGE_SIZE ltac:(reflexivity))
    as Hmod.
  unfold NVME_CTRL_PAGE_SIZE in *. change (2 ^ 31) with 2147483648 in *.
  rewrite (s32_small (u64 a mod 4096))
    by (change (2 ^ 31) with 2147483648; lia).
  rewrite (s32_small payload) by (change (2 ^ 31) with 2147483648; lia).
  rewrite s32_small by (change (2 ^ 31) with 2147483648; lia).
  lia.
Qed.

(** How [apple_nvme_setup_prps] can end, on any scatterlist whose bytes
    after the first page are few enough for their rounding up to a page
    not to wrap: without having taken a block; after the loop, on
    [done] or on [bad_sgl]; or on [free_prps]. *)
Lemma setup_prps_acc (dev : apple_nvme_dev) (iod : apple_nvme_iod)
    (payload : Z) (cmnd : nvme_command) (st : blk_status_t)
    (dev' : apple_nvme_dev) (iod' : apple_nvme_iod) (cmnd' : nvme_command) :
  let len0 := prp_list_bytes iod payload in
  len0 <= 2 ^ 31 - NVME_CTRL_PAGE_SIZE ->
  apple_nvme_setup_prps dev iod payload cmnd = Ok (st, dev', iod', cmnd') ->
  dma_len iod' = dma_len iod /\
  ((dev' = dev /\
    (st = BLK_STS_OK /\ npages iod' = npages iod /\
     len0 <= NVME_CTRL_PAGE_SIZE \/
     st = BLK_STS_RESOURCE))
   \/
   (NVME_CTRL_PAGE_SIZE < len0 /\
    exists prp_list i length,
      prp_acc (if len0 <=? 32 * NVME_CTRL_PAGE_SIZE then SmallPool
               else PagePool)
        dev (dma_len iod) len0 dev' iod' prp_list i length /\
      (st = BLK_STS_OK /\ - NVME_CTRL_PAGE_SIZE < length <= 0 /\ 1 <= i \/
       st = BLK_STS_IOERR))
   \/
   (st = BLK_STS_RESOURCE /\
    exists dev1 prp_list i length,
      prp_acc PagePool dev (dma_len iod) len0 dev1 iod' prp_list i length /\
      dev' = apple_nvme_free_prps dev1 iod')).
Proof.
  intros len0. subst len0. unfold apple_nvme_setup_prps, prp_list_bytes.
  destruct (iod_sg iod) as [| [a0 l0] rest0] eqn:Hsg;
    [intros _; discriminate |].
  cbn [sg_load mbind exec_bind].
  set (offset := s32 (Z.land (u64 a0) (NVME_CTRL_PAGE_SIZE - 1))).
  set (L0 := s32 (s32 payload - (NVME_CTRL_PAGE_SIZE - offset))).
  intros Hfit.
  pose proof (s32_range (s32 payload - (NVME_CTRL_PAGE_SIZE - offset))) as HL0.
  fold L0 in HL0.
  destruct (Z.leb_spec L0 0) as [Hle0 | Hgt0].
  { intros Hdone. apply prps_done_inv in Hdone. destruct Hdone as (-> & -> & ->).
    split; [reflexivity |]. left. split; [reflexivity |]. left.
    repeat split. unfold NVME_CTRL_PAGE_SIZE. lia. }
  match goal with
  | |- context [mbind _ ?m] => destruct m as [[[sg da] dl] | |]
  end; try discriminate.
  cbn [mbind exec_bind].
  destruct (Z.leb_spec L0 NVME_CTRL_PAGE_SIZE) as [Hle1 | Hgt1].
  { intros Hdone. apply prps_done_inv in Hdone. destruct Hdone as (-> & -> & ->).
    split; [reflexivity |]. left. split; [reflexivity |]. left.
    repeat split. exact Hle1. }
  change (256 / 8) with 32.
  rewrite (DIV_ROUND_UP_int_small L0) by lia.
  assert (Hsmall : (DIV_ROUND_UP L0 NVME_CTRL_PAGE_SIZE <=? 32)
                   = (L0 <=? 32 * NVME_CTRL_PAGE_SIZE)).
  { destruct (Z.leb_spec (DIV_ROUND_UP L0 NVME_CTRL_PAGE_SIZE) 32),
             (Z.leb_spec L0 (32 * NVME_CTRL_PAGE_SIZE));
      try reflexivity; exfalso; page_arith. }
  rewrite Hsmall.
  set (pool := if L0 <=? 32 * NVME_CTRL_PAGE_SIZE then SmallPool else PagePool).
  unfold dma_pool_alloc.
  destruct (pool_of dev pool) as [| b rest] eqn:Hpool.
  { intros [= <- <- <- <-]. split; [reflexivity |]. left.
    split; [reflexivity |]. right. reflexivity. }
  set (iod0 := iod_set_first_dma _ b).
  set (s0 := mk_pls (dev_set_pool dev pool rest) iod0 b 0 sg da dl L0).
  assert (Hacc0 : prp_acc_state pool dev (dma_len iod) L0 s0).
  { unfold prp_acc_state, prp_acc. subst s0 iod0.
    cbn [pl_dev pl_iod pl_prp_list pl_i pl_length].
    split; [| split; [reflexivity |]].
    - subst pool. destruct (Z.leb_spec L0 (32 * NVME_CTRL_PAGE_SIZE)).
      + cbn [pool_of] in Hpool.
        cbn [npages iod_list iod_set_first_dma iod_set_list iod_set_npages
             dev_set_pool dev_set_small_pool prp_small_pool prp_page_pool].
        rewrite lookup_insert_eq.
        repeat split; try reflexivity; try assumption; lia.
      + cbn [pool_of] in Hpool.
        cbn [npages iod_list iod_set_first_dma iod_set_list iod_set_npages
             dev_set_pool dev_set_page_pool prp_small_pool prp_page_pool].
        unfold iod_blocks.
        cbn [npages iod_list iod_set_first_dma iod_set_list iod_set_npages].
        change (Z.to_nat 1) with 1%nat. cbn [seq fmap list_fmap].
        change (Z.of_nat 0) with 0. rewrite lookup_insert_eq.
        cbn [default from_option]. unfold id.
        rewrite Hpool.
        repeat split; try reflexivity; try lia.
        apply list_elem_of_here.
    - rewrite dma_mem_set_pool. intros blk i _. reflexivity. }
  destruct (prp_loop _ pool s0) as [r | |] eqn:Hloop; try discriminate.
  cbn [mbind exec_bind].
  pose proof (prp_loop_acc pool dev (dma_len iod) L0 _ s0 r Hacc0
                ltac:(subst s0; cbn [pl_length]; lia) Hloop) as Hend.
  destruct r as [s' | s' | s' | s'].
  - destruct Hend.
  - intros Hdone. apply prps_done_inv in Hdone. destruct Hdone as (-> & -> & ->).
    destruct Hend as (Hend & Hlast & Hi).
    pose proof Hend as (_ & Hdl & _).
    split; [exact Hdl |]. right. left. split; [exact Hgt1 |].
    exists (pl_prp_list s'), (pl_i s'), (pl_length s').
    split; [exact Hend | left; repeat split; assumption || lia].
  - intros [= <- <- <- <-]. destruct Hend as [Hend Hpage].
    pose proof Hend as (_ & Hdl & _).
    split; [exact Hdl |]. right. right. split; [reflexivity |].
    exists (pl_dev s'), (pl_prp_list s'), (pl_i s'), (pl_length s').
    rewrite <- Hpage. split; [exact Hend | reflexivity].
  - intros [= <- <- <- <-].
    pose proof Hend as (_ & Hdl & _).
    split; [exact Hdl |]. right. left. split; [exact Hgt1 |].
    exists (pl_prp_list s'), (pl_i s'), (pl_length s').
    split; [exact Hend | right; reflexivity].
Qed.

(** Releasing what a failed build took restores the pools. *)
Lemma setup_prps_resource_pools (dev : apple_nvme_dev) (iod : apple_nvme_iod)
    (payload : Z) (cmnd : nvme_command)
    (dev' : apple_nvme_dev) (iod' : apple_nvme_iod) (cmnd' : nvme_command) :
  prp_list_bytes iod payload <= 2 ^ 31 - NVME_CTRL_PAGE_SIZE ->
  apple_nvme_setup_prps dev iod payload cmnd
    = Ok (BLK_STS_RESOURCE, dev', iod', cmnd') ->
  prp_page_pool dev' ≡ₚ prp_page_pool dev /\
  prp_small_pool dev' = prp_small_pool dev.
Proof.
  intros Hfit Hrun. apply (setup_prps_acc _ _ _ _ _ _ _ _ Hfit) in Hrun.
  destruct Hrun as (_ & [(-> & _) | [(_ & Hloop) | (_ & Hfree)]]).
  - split; reflexivity.
  - destruct Hloop as (pl & i & len & _ & [(Hst & _) | Hst]); discriminate.
  - destruct Hfree as (dev1 & pl & i & len & Hacc & ->).
    destruct Hacc as ((_ & Hperm & Hsm & _) & _).
    destruct (free_prps_pools dev1 iod') as (Hp & Hs & _). cbn zeta in Hp, Hs.
    split; [rewrite Hp, Hperm; reflexivity | rewrite Hs, Hsm; reflexivity].
Qed.

(** X5: when [apple_nvme_setup_prps] gives up for lack of a PRP block
    ([BLK_STS_RESOURCE]), every block it had taken is back in its pool:
    the page pool holds the blocks it held at the call, in some order,
    and the small pool is as it was.  This is for a transfer that
    leaves at most [2 ^ 31] bytes less a page after its first page, so
    that the [int] count of list entries does not wrap. *)
Theorem setup_prps_failure_releases (dev : apple_nvme_dev)
    (iod : apple_nvme_iod) (payload : Z) (cmnd : nvme_command)
    (dev' : apple_nvme_dev) (iod' : apple_nvme_iod) (cmnd' : nvme_command) :
  prp_list_bytes iod payload <= 2 ^ 31 - NVME_CTRL_PAGE_SIZE ->
  apple_nvme_setup_prps dev iod payload cmnd
    = Ok (BLK_STS_RESOURCE, dev', iod', cmnd') ->
  prp_page_pool dev' ≡ₚ prp_page_pool dev /\
  prp_small_pool dev' = prp_small_pool dev.
Proof. apply setup_prps_resource_pools. Qed.

(** A run that evaluates to a result with status [st] is such a
    result. *)
Lemma setup_prps_result
    (r : exec (blk_status_t * apple_nvme_dev * apple_nvme_iod * nvme_command))
    (st : blk_status_t) :
  match r with
  | Ok (s, _, _, _) => s = st
  | _ => False
  end ->
  exists dev' iod' cmnd', r = Ok (st, dev', iod', cmnd').
Proof.
  destruct r as [[[[s d] i] c] | |]; try contradiction.
  intros ->. exists d, i, c. reflexivity.
Qed.

Lemma setup_prps_failure_releases_witness :
  exists dev' iod' cmnd',
    apple_nvme_setup_prps ex_dev_one_page ex_iod_large (4096 * 1030) ex_cmd
      = Ok (BLK_STS_RESOURCE, dev', iod', cmnd') /\
    prp_page_pool dev' ≡ₚ [0x100000] /\
    prp_small_pool dev' = [0x200000; 0x200100].
Proof.
  destruct (setup_prps_result
              (apple_nvme_setup_prps ex_dev_one_page ex_iod_large (4096 * 1030)
                 ex_cmd) BLK_STS_RESOURCE) as (dev' & iod' & cmnd' & Hrun).
  { vm_compute. reflexivity. }
  exists dev', iod', cmnd'. split; [exact Hrun |].
  apply (setup_prps_failure_releases ex_dev_one_page ex_iod_large (4096 * 1030)
           ex_cmd dev' iod' cmnd'); [zclosed | exact Hrun].
Defined.

(** Unmapping gives back what the mapping took. *)
Lemma map_unmap_pools (o : dma_oracle) (dev : apple_nvme_dev)
    (req : request) (cmnd : nvme_command)
    (dev' : apple_nvme_dev) (iod' : apple_nvme_iod) (cmnd' : nvme_command) :
  npages (rq_iod req) = -1 ->
  0 <= rq_payload_bytes req <= 2 ^ 31 - NVME_CTRL_PAGE_SIZE ->
  apple_nvme_map_data o dev req cmnd = Ok (BLK_STS_OK, dev', iod', cmnd') ->
  prp_page_pool (apple_nvme_unmap_data dev' iod') ≡ₚ prp_page_pool dev /\
  prp_small_pool (apple_nvme_unmap_data dev' iod') = prp_small_pool dev.
Proof.
  intros Hnp Hpay. unfold apple_nvme_map_data.
  assert (Hnone : forall d i, npages i = -1 ->
            apple_nvme_unmap_data d i = d).
  { intros d i Hi. unfold apple_nvme_unmap_data, apple_nvme_free_prps.
    rewrite Hi. destruct (dma_len i =? 0); reflexivity. }
  destruct (_ && _).
  - unfold apple_nvme_setup_prp_simple.
    destruct (o_bvec_err o); [discriminate |].
    intros [= <- <- <-]. rewrite Hnone by exact Hnp. split; reflexivity.
  - destruct (o_sg_alloc o); cbn [negb]; [| discriminate].
    destruct (_ =? 0); [discriminate |].
    destruct (_ =? 0); [discriminate |].
    set (iod0 := iod_set_sg _ _).
    destruct (apple_nvme_setup_prps dev iod0 (rq_payload_bytes req) cmnd)
      as [[[[st d1] i1] c1] | |] eqn:Hsetup; try discriminate.
    cbn [mbind exec_bind]. intros [= -> -> -> ->].
    apply setup_prps_acc in Hsetup;
      [| apply prp_list_bytes_fit; exact Hpay].
    destruct Hsetup as (Hdl & Hcases).
    change (dma_len iod0) with 0 in *.
    change (npages iod0) with (npages (rq_iod req)) in Hcases.
    destruct Hcases as [(-> & Hst) | [(_ & Hloop) | (Hst & _)]]; [| | discriminate].
    + destruct Hst as [(_ & Hn & _) | Hst]; [| discriminate].
      rewrite Hnone by (rewrite Hn; exact Hnp). split; reflexivity.
    + unfold apple_nvme_unmap_data. rewrite Hdl. cbn [Z.eqb negb].
      destruct Hloop as (pl & i & len & Hacc & _).
      destruct Hacc as (Hpool & _).
      destruct (_ <=? _).
      * destruct Hpool as (Hn & Hl0 & Hsm & Hpg & _).
        rewrite Hn, Hl0. cbn [Z.eqb default from_option]. unfold id.
        unfold dma_pool_free. cbn [pool_of dev_set_pool dev_set_small_pool
          prp_page_pool prp_small_pool].
        rewrite Hpg, Hsm. split; reflexivity.
      * destruct Hpool as (Hn & Hperm & Hsm & _).
        replace (npages iod' =? 0) with false by (symmetry; apply Z.eqb_neq; lia).
        destruct (free_prps_pools dev' iod') as (Hp & Hs & _).
        cbn zeta in Hp, Hs.
        split; [rewrite Hp, Hperm; reflexivity | rewrite Hs, Hsm; reflexivity].
Qed.

(** X6: mapping then unmapping a request gives every PRP block back.
    For a request prepared as [apple_nvme_queue_rq] prepares it
    ([npages] is -1), of at most [2 ^ 31] bytes less a page, if
    [apple_nvme_map_data] succeeds then
    [apple_nvme_unmap_data] on its result leaves the page pool with the
    blocks it held before the mapping, in some order, and the small pool
    as it was. *)
Theorem map_unmap_restores_pools (o : dma_oracle) (dev : apple_nvme_dev)
    (req : request) (cmnd : nvme_command)
    (dev' : apple_nvme_dev) (iod' : apple_nvme_iod) (cmnd' : nvme_command) :
  npages (rq_iod req) = -1 ->
  0 <= rq_payload_bytes req <= 2 ^ 31 - NVME_CTRL_PAGE_SIZE ->
  apple_nvme_map_data o dev req cmnd = Ok (BLK_STS_OK, dev', iod', cmnd') ->
  prp_page_pool (apple_nvme_unmap_data dev' iod') ≡ₚ prp_page_pool dev /\
  prp_small_pool (apple_nvme_unmap_data dev' iod') = prp_small_pool dev.
Proof. apply map_unmap_pools. Qed.

Lemma map_unmap_restores_pools_witness :
  exists dev' iod' cmnd',
    apple_nvme_map_data ex_dma_oracle_sg ex_dev ex_req_sg ex_cmd
      = Ok (BLK_STS_OK, dev', iod', cmnd') /\
    prp_small_pool dev' = [0x200100] /\
    prp_small_pool (apple_nvme_unmap_data dev' iod') = [0x200000; 0x200100].
Proof.
  eexists _, _, _. split; [vm_compute; reflexivity |].
  split; [reflexivity |].
  eapply (map_unmap_restores_pools ex_dma_oracle_sg ex_dev ex_req_sg ex_cmd).
  - reflexivity.
  - zclosed.
  - vm_compute. reflexivity.
Defined.

(** X7: whatever the scatterlist and however it ends,
    [apple_nvme_setup_prps] writes PRP memory only inside blocks that
    were in a pool when it was called, and inside the block: below slot
    32 of a small-pool block, below slot 512 of a page-pool block.
    This is for a transfer that leaves at most [2 ^ 31] bytes less a
    page after its first page, so that the [int] count of list entries
    does not wrap. *)
Theorem setup_prps_writes_in_blocks (dev : apple_nvme_dev)
    (iod : apple_nvme_iod) (payload : Z) (cmnd : nvme_command)
    (st : blk_status_t) (dev' : apple_nvme_dev) (iod' : apple_nvme_iod)
    (cmnd' : nvme_command) (blk i : Z) :
  prp_list_bytes iod payload <= 2 ^ 31 - NVME_CTRL_PAGE_SIZE ->
  apple_nvme_setup_prps dev iod payload cmnd = Ok (st, dev', iod', cmnd') ->
  dma_mem dev' !! (blk, i) <> dma_mem dev !! (blk, i) ->
  (blk ∈ prp_small_pool dev /\ 0 <= i < 32) \/
  (blk ∈ prp_page_pool dev /\ 0 <= i < 512).
Proof.
  intros Hfit Hrun Hdiff. apply (setup_prps_acc _ _ _ _ _ _ _ _ Hfit) in Hrun.
  assert (Hframe : forall pool m,
    mem_frame (pool_of dev pool) (pool_slots pool) (dma_mem dev) m ->
    m !! (blk, i) <> dma_mem dev !! (blk, i) ->
    (blk ∈ prp_small_pool dev /\ 0 <= i < 32) \/
    (blk ∈ prp_page_pool dev /\ 0 <= i < 512)).
  { intros pool m Hfr Hne.
    destruct (decide (blk ∈ pool_of dev pool)) as [Hin | Hout].
    2:{ exfalso. apply Hne. apply Hfr. left. exact Hout. }
    destruct (decide (0 <= i < pool_slots pool)) as [Hi | Hi].
    2:{ exfalso. apply Hne. apply Hfr. right. exact Hi. }
    destruct pool; [left | right]; split; assumption. }
  destruct Hrun as (_ & [(-> & _) | [(_ & Hloop) | (_ & Hfree)]]).
  - contradiction.
  - destruct Hloop as (pl & k & len & (_ & _ & Hfr) & _).
    exact (Hframe _ _ Hfr Hdiff).
  - destruct Hfree as (dev1 & pl & k & len & (_ & _ & Hfr) & ->).
    destruct (free_prps_pools dev1 iod') as (_ & _ & Hm). cbn zeta in Hm.
    rewrite Hm in Hdiff. exact (Hframe PagePool _ Hfr Hdiff).
Qed.

Lemma setup_prps_writes_in_blocks_witness :
  (0x200000 ∈ prp_small_pool ex_dev /\ 0 <= 2 < 32) \/
  (0x200000 ∈ prp_page_pool ex_dev /\ 0 <= 2 < 512).
Proof.
  eapply (setup_prps_writes_in_blocks ex_dev ex_iod_sg 0x3e00 ex_cmd).
  - zclosed.
  - vm_compute. reflexivity.
  - vm_compute. discriminate.
Defined.

(** The blocks a successful build holds. *)
Lemma setup_prps_blocks (dev : apple_nvme_dev) (iod : apple_nvme_iod)
    (payload : Z) (cmnd : nvme_command)
    (dev' : apple_nvme_dev) (iod' : apple_nvme_iod) (cmnd' : nvme_command) :
  let len := prp_list_bytes iod payload in
  let nprps := DIV_ROUND_UP len NVME_CTRL_PAGE_SIZE in
  len <= 2 ^ 31 - NVME_CTRL_PAGE_SIZE ->
  apple_nvme_setup_prps dev iod payload cmnd
    = Ok (BLK_STS_OK, dev', iod', cmnd') ->
  (len <= NVME_CTRL_PAGE_SIZE ->
     dev' = dev /\ npages iod' = npages iod) /\
  (NVME_CTRL_PAGE_SIZE < len -> nprps <= 32 ->
     npages iod' = 0 /\
     (exists blk, prp_small_pool dev = blk :: prp_small_pool dev') /\
     prp_page_pool dev' = prp_page_pool dev) /\
  (32 < nprps ->
     npages iod' = (nprps - 2) / 511 + 1 /\
     Z.of_nat (length (prp_page_pool dev))
       = npages iod' + Z.of_nat (length (prp_page_pool dev')) /\
     prp_small_pool dev' = prp_small_pool dev).
Proof.
  intros len nprps Hfit Hrun.
  apply (setup_prps_acc _ _ _ _ _ _ _ _ Hfit) in Hrun. fold len in Hrun.
  destruct Hrun as (_ & [(-> & Hst) | [(Hgt & Hloop) | (Hst & _)]]);
    [| | discriminate].
  - destruct Hst as [(_ & Hn & Hle) | Hst]; [| discriminate].
    split; [intros _; split; [reflexivity | exact Hn] |].
    split; [intros Hlt; exfalso; lia |].
    intros Hlt. exfalso. subst nprps. clear - Hlt Hle. page_arith.
  - destruct Hloop as (pl & i & l & Hacc & [(_ & Hl & Hi) | Hst]);
      [| discriminate].
    split; [intros Hle; exfalso; lia |].
    destruct Hacc as (Hpool & _).
    destruct (Z.leb_spec len (32 * NVME_CTRL_PAGE_SIZE)) as [Hsmall | Hbig].
    + destruct Hpool as (Hn & _ & Hsm & Hpg & _).
      split.
      * intros _ _. split; [exact Hn |]. split; [exists pl; exact Hsm | exact Hpg].
      * intros Hlt. exfalso. subst nprps. clear - Hlt Hsmall. page_arith.
    + destruct Hpool as (Hn & Hperm & Hsm & _ & Hi2 & Hcount & _ & Hsec).
      split.
      * intros _ Hle. exfalso. subst nprps. clear - Hle Hbig. page_arith.
      * intros _.
        assert (Hnp : nprps = i + 511 * (npages iod' - 1)).
        { subst nprps. clear - Hcount Hl. page_arith. }
        assert (Hi3 : 2 <= i).
        { destruct Hsec as [H1 | H2]; [| exact H2].
          rewrite H1 in Hnp. subst nprps. clear - Hnp Hbig. page_arith. }
        split; [| split; [| exact Hsm]].
        -- rewrite Hnp. clear - Hi2 Hi3 Hn. Z.div_mod_to_equations. lia.
        -- rewrite Hperm, length_app, Nat2Z.inj_add, iod_blocks_length by lia.
           reflexivity.
Qed.

(** X8: the number of PRP blocks a successful build holds, on any
    scatterlist.  With [len] the bytes left once the first page is
    taken, at most [2 ^ 31] less a page so that the [int] count of list
    entries does not wrap, and [nprps] the pages they span: no block
    when [len] fits one page; one block of the small pool, with
    [npages] 0, when [nprps] is at most 32; otherwise
    [(nprps - 2) / 511 + 1] blocks of the page pool, which is what
    [npages] counts. *)
Theorem setup_prps_block_count (dev : apple_nvme_dev) (iod : apple_nvme_iod)
    (payload : Z) (cmnd : nvme_command)
    (dev' : apple_nvme_dev) (iod' : apple_nvme_iod) (cmnd' : nvme_command) :
  let len := prp_list_bytes iod payload in
  let nprps := DIV_ROUND_UP len NVME_CTRL_PAGE_SIZE in
  len <= 2 ^ 31 - NVME_CTRL_PAGE_SIZE ->
  apple_nvme_setup_prps dev iod payload cmnd
    = Ok (BLK_STS_OK, dev', iod', cmnd') ->
  (len <= NVME_CTRL_PAGE_SIZE ->
     dev' = dev /\ npages iod' = npages iod) /\
  (NVME_CTRL_PAGE_SIZE < len -> nprps <= 32 ->
     npages iod' = 0 /\
     (exists blk, prp_small_pool dev = blk :: prp_small_pool dev') /\
     prp_page_pool dev' = prp_page_pool dev) /\
  (32 < nprps ->
     npages iod' = (nprps - 2) / 511 + 1 /\
     Z.of_nat (length (prp_page_pool dev))
       = npages iod' + Z.of_nat (length (prp_page_pool dev')) /\
     prp_small_pool dev' = prp_small_pool dev).
Proof. apply setup_prps_blocks. Qed.

Lemma setup_prps_block_count_witness :
  exists dev' iod' cmnd',
    apple_nvme_setup_prps ex_dev ex_iod_large (4096 * 1030) ex_cmd
      = Ok (BLK_STS_OK, dev', iod', cmnd') /\
    npages iod' = 3 /\
    Z.of_nat (length (prp_page_pool ex_dev))
      = 3 + Z.of_nat (length (prp_page_pool dev')).
Proof.
  destruct (setup_prps_result
              (apple_nvme_setup_prps ex_dev ex_iod_large (4096 * 1030) ex_cmd)
              BLK_STS_OK) as (dev' & iod' & cmnd' & Hrun).
  { vm_compute. reflexivity. }
  exists dev', iod', cmnd'. split; [exact Hrun |].
  destruct (setup_prps_block_count ex_dev ex_iod_large (4096 * 1030) ex_cmd
              dev' iod' cmnd') as (_ & _ & Hpage); [zclosed | exact Hrun |].
  destruct Hpage as (Hn & Hlen & _); [vm_compute; reflexivity |].
  change ((DIV_ROUND_UP (prp_list_bytes ex_iod_large (4096 * 1030))
             NVME_CTRL_PAGE_SIZE - 2) / 511 + 1) with 3 in Hn.
  rewrite Hn in Hlen. split; [exact Hn | exact Hlen].
Defined.

(** X9: [apple_nvme_npages_prp] counts one block pointer for the
    [list] array of a request, whatever the page size of the kernel,
    while a successful build whose list has more than 512 entries
    stores at least two (the bytes after the first page being at most
    [2 ^ 31] less a page, so that the [int] count of entries does not
    wrap). *)
Theorem npages_prp_below_blocks (page_size : Z) (dev : apple_nvme_dev)
    (iod : apple_nvme_iod) (payload : Z) (cmnd : nvme_command)
    (dev' : apple_nvme_dev) (iod' : apple_nvme_iod) (cmnd' : nvme_command) :
  24 <= page_size < 2 ^ 63 ->
  512 * NVME_CTRL_PAGE_SIZE < prp_list_bytes iod payload ->
  prp_list_bytes iod payload <= 2 ^ 31 - NVME_CTRL_PAGE_SIZE ->
  apple_nvme_setup_prps dev iod payload cmnd
    = Ok (BLK_STS_OK, dev', iod', cmnd') ->
  apple_nvme_npages_prp page_size = 1 /\ 2 <= npages iod'.
Proof.
  intros Hps Hlen Hfit Hrun. split.
  - unfold apple_nvme_npages_prp.
    change (u32 (DIV_ROUND_UP (NVME_MAX_KB_SZ + NVME_CTRL_PAGE_SIZE)
                   NVME_CTRL_PAGE_SIZE)) with 2.
    change (u64 (u32 (8 * 2))) with 16.
    rewrite (u64_small (page_size - 8))
      by (change (2 ^ 64) with 18446744073709551616;
          change (2 ^ 63) with 9223372036854775808 in Hps; lia).
    rewrite u64_small
      by (change (2 ^ 64) with 18446744073709551616;
          change (2 ^ 63) with 9223372036854775808 in Hps; lia).
    replace ((16 + (page_size - 8) - 1) / (page_size - 8)) with 1.
    + reflexivity.
    + apply (Z.div_unique _ _ 1 15); lia.
  - destruct (setup_prps_blocks dev iod payload cmnd dev' iod' cmnd' Hfit Hrun)
      as (_ & _ & Hpage).
    destruct Hpage as (Hn & _).
    { clear - Hlen. page_arith. }
    rewrite Hn. clear - Hlen. page_arith.
Qed.

Lemma npages_prp_below_blocks_witness :
  exists dev' iod' cmnd',
    apple_nvme_setup_prps ex_dev ex_iod_large (4096 * 1030) ex_cmd
      = Ok (BLK_STS_OK, dev', iod', cmnd') /\
    apple_nvme_npages_prp 16384 = 1 /\ 2 <= npages iod'.
Proof.
  destruct (setup_prps_result
              (apple_nvme_setup_prps ex_dev ex_iod_large (4096 * 1030) ex_cmd)
              BLK_STS_OK) as (dev' & iod' & cmnd' & Hrun).
  { vm_compute. reflexivity. }
  exists dev', iod', cmnd'. split; [exact Hrun |].
  apply (npages_prp_below_blocks 16384 ex_dev ex_iod_large (4096 * 1030) ex_cmd
           dev' iod' cmnd').
  - vm_compute. split; [discriminate | reflexivity].
  - vm_compute. reflexivity.
  - zclosed.
  - exact Hrun.
Defined.

(** ** Failed mappings and completion *)

(** X10: the blocks a mapping took are not given back when it fails on
    a malformed scatterlist.  When [apple_nvme_map_data] returns
    [BLK_STS_IOERR] for a request of at most [2 ^ 31] bytes less a
    page, either the first block of the small pool has left
    the pool and is [list[0]] of the request, or the [npages] blocks of
    the request, at least one, have left the page pool; the other pool
    is as it was. *)
Theorem map_data_ioerr_keeps_blocks (o : dma_oracle) (dev : apple_nvme_dev)
    (req : request) (cmnd : nvme_command)
    (dev' : apple_nvme_dev) (iod' : apple_nvme_iod) (cmnd' : nvme_command) :
  0 <= rq_payload_bytes req <= 2 ^ 31 - NVME_CTRL_PAGE_SIZE ->
  apple_nvme_map_data o dev req cmnd = Ok (BLK_STS_IOERR, dev', iod', cmnd') ->
  (npages iod' = 0 /\
   (exists blk, iod_list iod' !! 0 = Some blk /\
                prp_small_pool dev = blk :: prp_small_pool dev') /\
   prp_page_pool dev' = prp_page_pool dev)
  \/
  (1 <= npages iod' /\
   prp_page_pool dev ≡ₚ iod_blocks iod' ++ prp_page_pool dev' /\
   prp_small_pool dev' = prp_small_pool dev).
Proof.
  intros Hpay. unfold apple_nvme_map_data.
  destruct (_ && _).
  - unfold apple_nvme_setup_prp_simple.
    destruct (o_bvec_err o); intros [= ? ? ?]; discriminate.
  - destruct (o_sg_alloc o); cbn [negb]; [| discriminate].
    destruct (_ =? 0); [discriminate |].
    destruct (_ =? 0); [discriminate |].
    set (iod0 := iod_set_sg _ _).
    destruct (apple_nvme_setup_prps dev iod0 (rq_payload_bytes req) cmnd)
      as [[[[st d1] i1] c1] | |] eqn:Hsetup; try discriminate.
    cbn [mbind exec_bind]. intros [= -> -> -> ->].
    apply setup_prps_acc in Hsetup;
      [| apply prp_list_bytes_fit; exact Hpay].
    destruct Hsetup as (_ & [(_ & [(Hst & _) | Hst]) | [(_ & Hloop) | (Hst & _)]]);
      try discriminate.
    destruct Hloop as (pl & i & len & Hacc & _).
    destruct Hacc as (Hpool & _).
    destruct (_ <=? _).
    + destruct Hpool as (Hn & Hl0 & Hsm & Hpg & _).
      left. split; [exact Hn |]. split; [exists pl; split; assumption | exact Hpg].
    + destruct Hpool as (Hn & Hperm & Hsm & _).
      right. split; [exact Hn |]. split; [exact Hperm | exact Hsm].
Qed.

Lemma map_data_ioerr_keeps_blocks_witness :
  exists dev' iod' cmnd',
    apple_nvme_map_data ex_dma_oracle_bad ex_dev ex_req_bad ex_cmd
      = Ok (BLK_STS_IOERR, dev', iod', cmnd') /\
    prp_small_pool ex_dev = 0x200000 :: prp_small_pool dev' /\
    iod_list iod' !! 0 = Some 0x200000.
Proof.
  destruct (setup_prps_result
              (apple_nvme_map_data ex_dma_oracle_bad ex_dev ex_req_bad ex_cmd)
              BLK_STS_IOERR) as (dev' & iod' & cmnd' & Hrun).
  { vm_compute. reflexivity. }
  exists dev', iod', cmnd'. split; [exact Hrun |].
  destruct (map_data_ioerr_keeps_blocks ex_dma_oracle_bad ex_dev ex_req_bad
              ex_cmd dev' iod' cmnd')
    as [(_ & (blk & Hl & Hsm) & _) | (_ & _ & Hsm)]; [zclosed | exact Hrun | |].
  - assert (Hblk : blk = 0x200000).
    { change (prp_small_pool ex_dev) with [0x200000; 0x200100] in Hsm.
      congruence. }
    subst blk. split; assumption.
  - exfalso.
    assert (Hhead : head (prp_small_pool dev') = Some 0x200100).
    { apply (f_equal (fun r => match r with
                               | Ok (_, d, _, _) => head (prp_small_pool d)
                               | _ => None
                               end)) in Hrun.
      vm_compute in Hrun. symmetry. exact Hrun. }
    rewrite Hsm in Hhead. discriminate.
Defined.

(** X11: a request that was submitted and then completed has given
    every PRP block back.  Whatever the request held before, for a
    payload of at most [2 ^ 31] bytes less a page, if
    [apple_nvme_queue_rq] returns [BLK_STS_OK] then
    [apple_nvme_common_complete_rq] on the request it leaves puts the
    page pool back to the blocks it held before the submission, in some
    order, and the small pool to what it was. *)
Theorem submit_complete_restores_pools `{nvme_host} (o : rq_oracle)
    (nvmeq : apple_nvme_queue) (dev : apple_nvme_dev) (req : request)
    (res : rq_result) :
  0 <= rq_payload_bytes req <= 2 ^ 31 - NVME_CTRL_PAGE_SIZE ->
  apple_nvme_queue_rq o nvmeq dev req = Ok res ->
  r_status res = BLK_STS_OK ->
  let dev' := apple_nvme_common_complete_rq (r_dev res) (r_req res) in
  prp_page_pool dev' ≡ₚ prp_page_pool dev /\
  prp_small_pool dev' = prp_small_pool dev.
Proof.
  intros Hpay. unfold apple_nvme_queue_rq.
  destruct (test_bit NVMEQ_ENABLED (q_flags nvmeq)); cbn [negb];
    [| intros [= <-]; discriminate].
  destruct (o_check_ready o); cbn [negb].
  2:{ intros [= <-]. cbn [r_status r_dev r_req]. intros Hst.
      unfold apple_nvme_common_complete_rq.
      cbn [rq_nr_phys_segments rq_set_iod rq_iod].
      destruct (rq_nr_phys_segments req =? 0); cbn [negb];
        [split; reflexivity |].
      unfold apple_nvme_unmap_data, apple_nvme_free_prps.
      cbn [dma_len npages iod_set_nents iod_set_npages iod_set_aborted].
      destruct (dma_len (rq_iod req) =? 0); split; reflexivity. }
  destruct (blk_status_eqb (o_setup_status o) BLK_STS_OK) eqn:Hsetup;
    cbn [negb].
  2:{ intros [= <-]. cbn [r_status]. intros Hst. rewrite Hst in Hsetup.
      discriminate. }
  set (iod0 := iod_set_cmd _ (o_setup_cmd o)).
  set (req0 := rq_set_iod _ iod0).
  assert (Hnp : npages (rq_iod req0) = -1) by reflexivity.
  destruct (rq_nr_phys_segments req0 =? 0) eqn:Hseg; cbn [negb].
  - cbn [mbind exec_bind].
    cbn [blk_status_eqb negb].
    destruct (rq_integrity _).
    + unfold apple_nvme_map_metadata. destruct (o_meta_err (o_dma o)).
      * cbn [blk_status_eqb negb]. intros [= <-]. discriminate.
      * cbn [blk_status_eqb negb].
        destruct (apple_nvme_submit_cmd nvmeq _) as [q' hw].
        intros [= <-] _. cbn [r_dev r_req].
        cbn zeta. 
        unfold apple_nvme_common_complete_rq.
        cbn [rq_nr_phys_segments rq_set_iod].
        change (rq_nr_phys_segments req) with (rq_nr_phys_segments req0).
        rewrite Hseg. split; reflexivity.
    + cbn [blk_status_eqb negb].
      destruct (apple_nvme_submit_cmd nvmeq _) as [q' hw].
      intros [= <-] _. cbn [r_dev r_req]. cbn zeta.
      unfold apple_nvme_common_complete_rq.
      cbn [rq_nr_phys_segments rq_set_iod].
      change (rq_nr_phys_segments req) with (rq_nr_phys_segments req0).
      rewrite Hseg. split; reflexivity.
  - destruct (apple_nvme_map_data _ _ _ _) as [[[[st d1] i1] c1] | |] eqn:Hm;
      try discriminate.
    cbn [mbind exec_bind].
    destruct (blk_status_eqb st BLK_STS_OK) eqn:Hst; cbn [negb].
    2:{ intros [= <-]. cbn [r_status]. intros Hs. rewrite Hs in Hst.
        discriminate. }
    assert (st = BLK_STS_OK) as -> by (destruct st; try discriminate Hst;
                                       reflexivity).
    pose proof (map_unmap_pools _ _ _ _ _ _ _ Hnp Hpay Hm) as Hback.
    assert (Hun : forall c m c2,
              apple_nvme_unmap_data d1
                (iod_set_cmd (iod_set_meta_dma (iod_set_cmd i1 c) m) c2)
              = apple_nvme_unmap_data d1 i1) by reflexivity.
    assert (Hun1 : forall c,
              apple_nvme_unmap_data d1 (iod_set_cmd i1 c)
              = apple_nvme_unmap_data d1 i1) by reflexivity.
    destruct (rq_integrity _).
    + unfold apple_nvme_map_metadata. destruct (o_meta_err (o_dma o)).
      * cbn [blk_status_eqb negb]. intros [= <-]. discriminate.
      * cbn [blk_status_eqb negb].
        destruct (apple_nvme_submit_cmd nvmeq _) as [q' hw].
        intros [= <-] _. cbn [r_dev r_req]. cbn zeta.
        unfold apple_nvme_common_complete_rq.
        cbn [rq_nr_phys_segments rq_set_iod rq_iod].
        change (rq_nr_phys_segments req) with (rq_nr_phys_segments req0).
        rewrite Hseg. cbn [negb]. rewrite Hun. exact Hback.
    + cbn [blk_status_eqb negb].
      destruct (apple_nvme_submit_cmd nvmeq _) as [q' hw].
      intros [= <-] _. cbn [r_dev r_req]. cbn zeta.
      unfold apple_nvme_common_complete_rq.
      cbn [rq_nr_phys_segments rq_set_iod rq_iod].
      change (rq_nr_phys_segments req) with (rq_nr_phys_segments req0).
      rewrite Hseg. cbn [negb]. rewrite Hun1. exact Hback.
Qed.

Lemma submit_complete_restores_pools_witness :
  exists res,
    apple_nvme_queue_rq (H := linux_nvme_host) ex_rq_oracle_sg ex_queue ex_dev
      ex_req_sg = Ok res /\
    prp_small_pool (r_dev res) = [0x200100] /\
    prp_small_pool (apple_nvme_common_complete_rq (r_dev res) (r_req res))
      = [0x200000; 0x200100].
Proof.
  eexists. split; [vm_compute; reflexivity |].
  split; [reflexivity |].
  eapply (submit_complete_restores_pools (H := linux_nvme_host) ex_rq_oracle_sg
            ex_queue ex_dev ex_req_sg).
  - zclosed.
  - vm_compute. reflexivity.
  - reflexivity.
Defined.

(** ** Queue life cycle and the interrupt handler *)

Lemma process_cq_idle `{nvme_host} (o : cq_oracle) (dev : apple_nvme_dev)
    (q : apple_nvme_queue) :
  apple_nvme_cqe_pending q = false ->
  nvme_process_cq o dev q = Ok (mk_cq_run q 0 [] [] []).
Proof.
  intros Hp. unfold nvme_process_cq.
  rewrite process_cq_loop_stop by exact Hp. reflexivity.
Qed.

(** A drain finds nothing exactly when the head entry is stale; then it
    is the identity. *)
Lemma process_cq_found_zero `{nvme_host} (o : cq_oracle) (dev : apple_nvme_dev)
    (q : apple_nvme_queue) :
  0 <= cq_head q < q_depth q -> q_depth q <= 65536 ->
  0 <= cq_phase q < 256 ->
  exists r,
    nvme_process_cq o dev q = Ok r /\
    (run_found r = 0 <-> apple_nvme_cqe_pending q = false) /\
    (run_found r = 0 -> r = mk_cq_run q 0 [] [] []).
Proof.
  intros Hh Hd Hph.
  destruct (apple_nvme_cqe_pending q) eqn:Hp.
  - destruct (process_cq_loop_run o q Hh Hd Hph) as (r & Hrun & Hfound & _).
    destruct (process_cq_loop_frame o _ _ _ Hrun) as (_ & _ & (l & Hl & Hnil & _)).
    cbn [run_consumed app] in Hl.
    assert (Hnz : run_found r <> 0).
    { intros Hz. rewrite Hl, Hz in Hfound.
      assert (l = []) by (destruct l; [reflexivity | cbn [length] in Hfound; lia]).
      specialize (Hnil ltac:(assumption)). subst r.
      pose proof (process_cq_loop_post o _ _ _ Hrun) as Hpost.
      cbn [run_nvmeq] in Hpost. congruence. }
    unfold nvme_process_cq. rewrite Hrun. cbn [mbind exec_bind].
    replace (run_found r =? 0) with false by (symmetry; apply Z.eqb_neq; exact Hnz).
    cbn [negb]. eexists. split; [reflexivity |]. cbn [run_found].
    split; [split; [intros Hz; contradiction | discriminate] |].
    intros Hz; contradiction.
  - exists (mk_cq_run q 0 [] [] []). split; [apply process_cq_idle; exact Hp |].
    cbn [run_found]. split; [split; reflexivity | reflexivity].
Qed.

Lemma clearbit_idem (f n : Z) :
  0 <= n -> Z.clearbit (Z.clearbit f n) n = Z.clearbit f n.
Proof.
  intros Hn. apply Z.bits_inj'. intros k Hk.
  destruct (Z.eq_dec k n) as [-> | Hne].
  - rewrite !Z.clearbit_eq by lia. reflexivity.
  - rewrite (Z.clearbit_neq (Z.clearbit f n)) by lia. reflexivity.
Qed.

Lemma queue_of_set_queue (d : apple_nvme_queues) (sel : queue_sel)
    (q : apple_nvme_queue) :
  queue_of (set_queue d sel q) sel = q.
Proof. destruct sel; reflexivity. Qed.

Lemma set_queue_same (d : apple_nvme_queues) (sel : queue_sel) :
  set_queue d sel (queue_of d sel) = d.
Proof. destruct d, sel; reflexivity. Qed.

(** X12: suspending a queue returns 0 if [NVMEQ_ENABLED] was set and 1
    if not; either way the bit is clear afterwards and the other flag
    bits are as they were.  When it returns 0 the queue is marked
    offline (the admin or the I/O flag, as [is_adminq] says).  A second
    suspend returns 1, makes no call and changes nothing; a submission
    to the suspended queue fails with [BLK_STS_IOERR] without touching
    the hardware. *)
Theorem suspend_queue_twice `{nvme_host} (d : apple_nvme_queues)
    (sel : queue_sel) (o : rq_oracle) (dev : apple_nvme_dev) (req : request) :
  let d1 := (apple_nvme_suspend_queue d sel).1.2 in
  (apple_nvme_suspend_queue d sel).1.1
    = (if test_bit NVMEQ_ENABLED (q_flags (queue_of d sel)) then 0 else 1) /\
  (test_bit NVMEQ_ENABLED (q_flags (queue_of d sel)) = true ->
   if is_adminq (queue_of d sel) then adminq_online d1 = false
   else ioq_online d1 = false) /\
  test_bit NVMEQ_ENABLED (q_flags (queue_of d1 sel)) = false /\
  (forall k, 0 <= k -> k <> NVMEQ_ENABLED ->
     test_bit k (q_flags (queue_of d1 sel))
       = test_bit k (q_flags (queue_of d sel))) /\
  apple_nvme_suspend_queue d1 sel = (1, d1, []) /\
  exists res,
    apple_nvme_queue_rq o (queue_of d1 sel) dev req = Ok res /\
    r_status res = BLK_STS_IOERR /\ r_hw res = [] /\ r_calls res = [] /\
    r_nvmeq res = queue_of d1 sel /\ r_dev res = dev.
Proof.
  intros d1.
  assert (Hflags : q_flags (queue_of d1 sel)
                   = Z.clearbit (q_flags (queue_of d sel)) NVMEQ_ENABLED).
  { subst d1. unfold apple_nvme_suspend_queue, test_and_clear_bit.
    destruct (Z.testbit _ _); cbn [negb fst snd];
      [destruct (is_adminq _) |]; destruct sel; reflexivity. }
  assert (Hclear : test_bit NVMEQ_ENABLED (q_flags (queue_of d1 sel)) = false).
  { rewrite Hflags. unfold test_bit. apply Z.clearbit_eq. }
  split.
  { unfold apple_nvme_suspend_queue, test_and_clear_bit, test_bit.
    destruct (Z.testbit _ _); reflexivity. }
  split.
  { subst d1. unfold apple_nvme_suspend_queue, test_and_clear_bit, test_bit.
    intros ->. cbn [negb fst snd is_adminq set_q_flags].
    destruct (is_adminq (queue_of d sel)); destruct sel; reflexivity. }
  split; [exact Hclear |]. split.
  { intros k Hk Hne. rewrite Hflags. unfold test_bit.
    apply Z.clearbit_neq; unfold NVMEQ_ENABLED in *; lia. }
  split.
  - unfold apple_nvme_suspend_queue at 1, test_and_clear_bit.
    unfold test_bit in Hclear. rewrite Hclear. cbn [negb].
    f_equal. f_equal.
    rewrite Hflags, clearbit_idem by (unfold NVMEQ_ENABLED; lia).
    rewrite <- Hflags.
    replace (set_q_flags (queue_of d1 sel) (q_flags (queue_of d1 sel)))
      with (queue_of d1 sel) by (destruct (queue_of d1 sel); reflexivity).
    apply set_queue_same.
  - unfold apple_nvme_queue_rq. rewrite Hclear. cbn [negb].
    eexists. split; [reflexivity |]. repeat split.
Qed.

(** X13: after [apple_nvme_init_queue] the ring of a queue of depth at
    least 1 is empty for the driver: head 0, expected phase 1, every
    entry zeroed, so a drain finds nothing and writes nothing; and the
    first entry the device writes in slot 0 with phase bit 1 is seen as
    pending. *)
Theorem init_queue_idle `{nvme_host} (o : cq_oracle) (dev : apple_nvme_dev)
    (dbs : Z) (q : apple_nvme_queue) (cqe : nvme_completion) :
  0 < q_depth q ->
  let q' := apple_nvme_init_queue dev dbs q in
  cq_head q' = 0 /\ cq_phase q' = 1 /\
  (forall k, 0 <= k < q_depth q -> cqe_at q' k = cqe_zero) /\
  nvme_process_cq o dev q' = Ok (mk_cq_run q' 0 [] [] []) /\
  (Z.land (cqe_status cqe) 1 = 1 ->
   apple_nvme_cqe_pending (set_cqes q' (<[0%nat := cqe]> (cqes q'))) = true).
Proof.
  intros Hd q'.
  assert (Hat : forall k, 0 <= k < q_depth q -> cqe_at q' k = cqe_zero).
  { intros k Hk. subst q'. unfold cqe_at, apple_nvme_init_queue, set_cqes.
    cbn [cqes q_depth set_q_db set_cq].
    rewrite lookup_app_l by (rewrite length_replicate; lia).
    rewrite lookup_replicate_2 by lia. reflexivity. }
  split; [reflexivity |]. split; [reflexivity |]. split; [exact Hat |].
  split.
  - apply process_cq_idle. unfold apple_nvme_cqe_pending.
    change (cq_head q') with 0. change (cq_phase q') with 1.
    rewrite Hat by lia. reflexivity.
  - intros Hbit. unfold apple_nvme_cqe_pending, cqe_at.
    change (cq_head (set_cqes q' ?l)) with 0.
    change (cq_phase (set_cqes q' ?l)) with 1.
    cbn [cqes set_cqes]. change (Z.to_nat 0) with 0%nat.
    rewrite list_lookup_insert_eq.
    + cbn [default from_option]. unfold id. rewrite Hbit. reflexivity.
    + subst q'. unfold apple_nvme_init_queue, set_cqes.
      cbn [cqes q_depth set_q_db set_cq].
      rewrite length_app, length_replicate. lia.
Qed.

Lemma init_queue_idle_witness :
  nvme_process_cq (H := linux_nvme_host) ex_cq_oracle ex_dev
    (apple_nvme_init_queue ex_dev 0x1000 ex_queue_pending)
  = Ok (mk_cq_run (apple_nvme_init_queue ex_dev 0x1000 ex_queue_pending)
          0 [] [] []).
Proof.
  apply (init_queue_idle (H := linux_nvme_host) ex_cq_oracle ex_dev 0x1000
           ex_queue_pending cqe_zero).
  zclosed.
Defined.

(** X14: the interrupt handler drains only queues that are online.  It
    returns [IRQ_NONE] exactly when no online queue has a pending entry
    at its head, and then it has written nothing to the hardware and
    left both queues as they were; a queue that is not online is left
    as it was in every case. *)
Theorem irq_none_iff_idle `{nvme_host} (oa oi : cq_oracle)
    (dev : apple_nvme_dev) (d : apple_nvme_queues) :
  (forall sel, 0 <= cq_head (queue_of d sel) < q_depth (queue_of d sel) /\
               q_depth (queue_of d sel) <= 65536 /\
               0 <= cq_phase (queue_of d sel) < 256) ->
  exists res,
    apple_nvme_irq oa oi dev d = Ok res /\
    (irq_ret res = IRQ_NONE <->
       (adminq_online d = true -> apple_nvme_cqe_pending (adminq d) = false) /\
       (ioq_online d = true -> apple_nvme_cqe_pending (ioq d) = false)) /\
    (irq_ret res = IRQ_NONE ->
       irq_hw res = [] /\ irq_calls res = [] /\ irq_queues res = d) /\
    (adminq_online d = false -> adminq (irq_queues res) = adminq d) /\
    (ioq_online d = false -> ioq (irq_queues res) = ioq d).
Proof.
  intros Hq.
  destruct (Hq AdminQ) as (Hha & Hda & Hpa).
  destruct (Hq IoQ) as (Hhi & Hdi & Hpi). cbn [queue_of] in *.
  destruct (process_cq_found_zero oa dev (adminq d) Hha Hda Hpa)
    as (ra & Hra & Hza & Hida).
  destruct (process_cq_found_zero oi dev (ioq d) Hhi Hdi Hpi)
    as (ri & Hri & Hzi & Hidi).
  unfold apple_nvme_irq.
  destruct (adminq_online d) eqn:Hona; destruct (ioq_online d) eqn:Honi;
    rewrite ?Hra; cbn [mbind exec_bind set_queue ioq adminq ioq_online
                       adminq_online];
    rewrite ?Honi, ?Hri; cbn [mbind exec_bind];
    (eexists; split; [reflexivity |]); cbn [irq_ret irq_hw irq_calls irq_queues].
  - destruct (Z.eqb_spec (run_found ra) 0) as [Ha | Ha];
      destruct (Z.eqb_spec (run_found ri) 0) as [Hi | Hi]; cbn [negb].
    + specialize (Hida Ha). specialize (Hidi Hi). subst ra ri.
      cbn [run_hw run_calls run_nvmeq set_queue adminq ioq adminq_online
           ioq_online admin_q app].
      split; [split; [intros _; split; intros _; [apply Hza | apply Hzi];
                      reflexivity | reflexivity] |].
      split; [intros _; repeat split; destruct d; cbn in *; congruence |].
      split; discriminate.
    + split; [split; [discriminate | intros [_ Hx]; exfalso; apply Hi, Hzi, Hx;
                                     reflexivity] |].
      split; [discriminate |]. split; discriminate.
    + split; [split; [discriminate | intros [Hx _]; exfalso; apply Ha, Hza, Hx;
                                     reflexivity] |].
      split; [discriminate |]. split; discriminate.
    + split; [split; [discriminate | intros [Hx _]; exfalso; apply Ha, Hza, Hx;
                                     reflexivity] |].
      split; [discriminate |]. split; discriminate.
  - destruct (Z.eqb_spec (run_found ra) 0) as [Ha | Ha]; cbn [negb].
    + specialize (Hida Ha). subst ra.
      cbn [run_hw run_calls run_nvmeq].
      split; [split; [intros _; split; [intros _; apply Hza; reflexivity
                                       | discriminate] | reflexivity] |].
      split; [intros _; repeat split; destruct d; cbn in *; congruence |].
      split; [discriminate | reflexivity].
    + split; [split; [discriminate | intros [Hx _]; exfalso; apply Ha, Hza, Hx;
                                     reflexivity] |].
      split; [discriminate |]. split; [discriminate | reflexivity].
  - destruct (Z.eqb_spec (run_found ri) 0) as [Hi | Hi]; cbn [negb].
    + specialize (Hidi Hi). subst ri.
      cbn [run_hw run_calls run_nvmeq app].
      split; [split; [intros _; split; [discriminate
                                       | intros _; apply Hzi; reflexivity]
                     | reflexivity] |].
      split; [intros _; repeat split; destruct d; cbn in *; congruence |].
      split; [reflexivity | discriminate].
    + split; [split; [discriminate | intros [_ Hx]; exfalso; apply Hi, Hzi, Hx;
                                     reflexivity] |].
      split; [discriminate |]. split; [reflexivity | discriminate].
  - split; [split; [intros _; split; discriminate | reflexivity] |].
    split; [intros _; repeat split |]. split; reflexivity.
Qed.

Lemma irq_none_iff_idle_witness :
  exists res,
    apple_nvme_irq (H := linux_nvme_host) ex_cq_oracle ex_cq_oracle ex_dev
      ex_queues = Ok res /\
    irq_ret res = IRQ_HANDLED.
Proof.
  destruct (irq_none_iff_idle (H := linux_nvme_host) ex_cq_oracle ex_cq_oracle
              ex_dev ex_queues) as (res & Hrun & Hnone & _).
  - intros [|]; zclosed.
  - exists res. split; [exact Hrun |].
    destruct (irq_ret res); [| reflexivity].
    destruct Hnone as [Hnone _]. destruct (Hnone eq_refl) as [_ Hio].
    specialize (Hio eq_refl). vm_compute in Hio. discriminate.
Defined.

(** ** Submission and timeouts *)

Lemma map_data_not_ready_pools (o : dma_oracle) (dev : apple_nvme_dev)
    (req : request) (cmnd : nvme_command) (st : blk_status_t)
    (dev' : apple_nvme_dev) (iod' : apple_nvme_iod) (cmnd' : nvme_command) :
  apple_nvme_map_data o dev req cmnd = Ok (st, dev', iod', cmnd') ->
  0 <= rq_payload_bytes req <= 2 ^ 31 - NVME_CTRL_PAGE_SIZE ->
  is_not_ready st = true ->
  prp_page_pool dev' ≡ₚ prp_page_pool dev /\
  prp_small_pool dev' = prp_small_pool dev.
Proof.
  unfold apple_nvme_map_data.
  destruct (_ && _).
  - unfold apple_nvme_setup_prp_simple.
    destruct (o_bvec_err o); intros [= <- <- <- <-] _ _; split; reflexivity.
  - destruct (o_sg_alloc o); cbn [negb];
      [| intros [= <- <- <- <-] _ _; split; reflexivity].
    destruct (_ =? 0); [intros [= <- <- <- <-] _ _; split; reflexivity |].
    destruct (_ =? 0); [intros [= <- <- <- <-] _ _; split; reflexivity |].
    set (iod0 := iod_set_sg _ _).
    destruct (apple_nvme_setup_prps dev iod0 (rq_payload_bytes req) cmnd)
      as [[[[st1 d1] i1] c1] | |] eqn:Hsetup; try discriminate.
    cbn [mbind exec_bind]. intros [= -> -> -> ->] Hpay Hnr.
    apply setup_prps_acc in Hsetup;
      [| apply prp_list_bytes_fit; exact Hpay].
    destruct Hsetup as (_ & [(-> & _) | [(_ & Hloop) | (_ & Hfree)]]).
    + split; reflexivity.
    + destruct Hloop as (pl & i & len & _ & [(-> & _) | ->]); discriminate.
    + destruct Hfree as (dev1 & pl & i & len & Hacc & ->).
      destruct Hacc as ((_ & Hperm & Hsm & _) & _).
      destruct (free_prps_pools dev1 iod') as (Hp & Hs & _). cbn zeta in Hp, Hs.
      split; [rewrite Hp, Hperm; reflexivity | rewrite Hs, Hsm; reflexivity].
Qed.

(** X15: a submission either writes nothing to the hardware, leaves the
    queue as it was and does not start the request, or it returns
    [BLK_STS_OK] after exactly the writes of one [apple_nvme_submit_cmd]
    of the command it left in the request, having started the request
    once.  When it asks for a retry ([BLK_STS_RESOURCE] or
    [BLK_STS_DEV_RESOURCE]) on a request of at most [2 ^ 31] bytes less
    a page, the PRP pools hold the blocks they held before the call. *)
Theorem queue_rq_all_or_nothing `{nvme_host} (o : rq_oracle)
    (nvmeq : apple_nvme_queue) (dev : apple_nvme_dev) (req : request)
    (res : rq_result) :
  apple_nvme_queue_rq o nvmeq dev req = Ok res ->
  ((r_hw res = [] /\ r_nvmeq res = nvmeq /\
    (r_calls res = [] \/ r_calls res = [CallCleanupCmd (rq_tag req)]))
   \/
   (r_status res = BLK_STS_OK /\
    (r_nvmeq res, r_hw res)
      = apple_nvme_submit_cmd nvmeq (iod_cmd (rq_iod (r_req res))) /\
    r_calls res = [CallStartRequest (rq_tag req)])) /\
  (0 <= rq_payload_bytes req <= 2 ^ 31 - NVME_CTRL_PAGE_SIZE ->
   is_not_ready (r_status res) = true ->
   prp_page_pool (r_dev res) ≡ₚ prp_page_pool dev /\
   prp_small_pool (r_dev res) = prp_small_pool dev).
Proof.
  unfold apple_nvme_queue_rq.
  destruct (test_bit NVMEQ_ENABLED (q_flags nvmeq)); cbn [negb].
  2:{ intros [= <-]. cbn. split; [left; repeat split; left; reflexivity |].
      intros _ _; split; reflexivity. }
  destruct (o_check_ready o); cbn [negb].
  2:{ intros [= <-]. cbn. split; [left; repeat split; left; reflexivity |].
      intros _ _; split; reflexivity. }
  destruct (blk_status_eqb (o_setup_status o) BLK_STS_OK); cbn [negb].
  2:{ intros [= <-]. cbn. split; [left; repeat split; left; reflexivity |].
      intros _ _; split; reflexivity. }
  set (iod0 := iod_set_cmd _ (o_setup_cmd o)).
  set (req0 := rq_set_iod _ iod0).
  assert (Hmap : forall st d i,
    (if negb (rq_nr_phys_segments req0 =? 0) then
       '(ret, dev, iod, cmnd) ←
         apple_nvme_map_data (o_dma o) dev req0 (iod_cmd iod0);
       Ok (ret, dev, iod_set_cmd iod cmnd)
     else Ok (BLK_STS_OK, dev, iod0)) = Ok (st, d, i) ->
    0 <= rq_payload_bytes req <= 2 ^ 31 - NVME_CTRL_PAGE_SIZE ->
    is_not_ready st = true ->
    prp_page_pool d ≡ₚ prp_page_pool dev /\
    prp_small_pool d = prp_small_pool dev).
  { intros st d i. destruct (rq_nr_phys_segments req0 =? 0); cbn [negb].
    - intros [= <- <- <-] _ Hnr. discriminate.
    - destruct (apple_nvme_map_data _ _ _ _) as [[[[st1 d1] i1] c1] | |] eqn:Hm;
        try discriminate.
      cbn [mbind exec_bind]. intros [= <- <- <-].
      apply (map_data_not_ready_pools _ _ _ _ _ _ _ _ Hm). }
  match goal with
  | |- context [mbind _ ?m] =>
      destruct m as [[[st d1] i1] | |] eqn:Hm; try discriminate
  end.
  cbn [mbind exec_bind]. specialize (Hmap st d1 i1 eq_refl).
  destruct (blk_status_eqb st BLK_STS_OK) eqn:Hst; cbn [negb].
  2:{ intros [= <-]. cbn [r_hw r_nvmeq r_calls r_status r_dev r_req].
      split; [left; repeat split; right; reflexivity | exact Hmap]. }
  destruct (rq_integrity _).
  - unfold apple_nvme_map_metadata. destruct (o_meta_err (o_dma o)).
    + cbn [blk_status_eqb negb]. intros [= <-].
      cbn [r_hw r_nvmeq r_calls r_status r_dev r_req].
      split; [left; repeat split; right; reflexivity | intros _; discriminate].
    + cbn [blk_status_eqb negb].
      destruct (apple_nvme_submit_cmd nvmeq _) as [q' hw] eqn:Hsub.
      intros [= <-]. cbn [r_hw r_nvmeq r_calls r_status r_dev r_req].
      split; [| intros _; discriminate]. right.
      split; [reflexivity |]. split; [| reflexivity].
      cbn [rq_iod rq_set_iod]. rewrite <- Hsub. reflexivity.
  - cbn [blk_status_eqb negb].
    destruct (apple_nvme_submit_cmd nvmeq _) as [q' hw] eqn:Hsub.
    intros [= <-]. cbn [r_hw r_nvmeq r_calls r_status r_dev r_req].
    split; [| intros _; discriminate]. right.
    split; [reflexivity |]. split; [| reflexivity].
    cbn [rq_iod rq_set_iod]. rewrite <- Hsub. reflexivity.
Qed.

Lemma queue_rq_all_or_nothing_witness :
  exists res,
    apple_nvme_queue_rq (H := linux_nvme_host) ex_rq_oracle ex_queue ex_dev
      ex_req = Ok res /\
    r_status res = BLK_STS_OK /\
    r_calls res = [CallStartRequest 5].
Proof.
  eexists. split; [vm_compute; reflexivity |].
  destruct (queue_rq_all_or_nothing (H := linux_nvme_host) ex_rq_oracle
              ex_queue ex_dev ex_req _ eq_refl) as [[Hnone | Hok] _].
  - destruct Hnone as (Hhw & _). vm_compute in Hhw. discriminate.
  - destruct Hok as (Hst & _ & Hcalls). split; [exact Hst | exact Hcalls].
Defined.

Lemma tcb_update_lookup_ne (q : apple_nvme_queue) (tag : Z) (k : nat)
    (f : apple_nvmmu_tcb -> apple_nvmmu_tcb) :
  k <> Z.to_nat tag ->
  ans2_tcb_ptr (tcb_update q tag f) !! k = ans2_tcb_ptr q !! k.
Proof.
  intros Hne. unfold tcb_update, set_tcbs. cbn [ans2_tcb_ptr].
  apply list_lookup_alter_ne. congruence.
Qed.

Lemma tcbs_set_sq_cmds (q : apple_nvme_queue) (l : gmap Z nvme_command) :
  ans2_tcb_ptr (set_sq_cmds q l) = ans2_tcb_ptr q.
Proof. reflexivity. Qed.

Lemma submit_cmd_slots `{nvme_host} (q : apple_nvme_queue)
    (cmd : nvme_command) :
  let tag := u16 (nvme_tag_from_cid (c_command_id cmd)) in
  let q' := (apple_nvme_submit_cmd q cmd).1 in
  (forall t, ans2_tcb_ptr q !! Z.to_nat tag = Some t ->
     ans2_tcb_ptr q' !! Z.to_nat tag = Some (tcb_of_cmd cmd)) /\
  (forall k, k <> Z.to_nat tag ->
     ans2_tcb_ptr q' !! k = ans2_tcb_ptr q !! k) /\
  sq_cmds q' = <[u32 (Z.shiftl tag (sqes q)) := cmd]> (sq_cmds q) /\
  sqes q' = sqes q.
Proof.
  intros tag q'. subst q'. unfold apple_nvme_submit_cmd. fold tag.
  cbn [fst]. split; [| split; [| split; reflexivity]].
  - intros t Ht. rewrite tcbs_set_sq_cmds.
    pose proof (tcb_update_lookup _ tag (fun _ => tcb_zero) _ Ht) as H1.
    pose proof (tcb_update_lookup _ tag
                  (fun t => tcb_set_opcode t (c_opcode cmd)) _ H1) as H2.
    pose proof (tcb_update_lookup _ tag
                  (fun t => tcb_set_prp1 t (c_prp1 cmd)) _ H2) as H3.
    pose proof (tcb_update_lookup _ tag
                  (fun t => tcb_set_prp2 t (c_prp2 cmd)) _ H3) as H4.
    pose proof (tcb_update_lookup _ tag
                  (fun t => tcb_set_length t (rw_length cmd)) _ H4) as H5.
    pose proof (tcb_update_lookup _ tag
                  (fun t => tcb_set_command_id t tag) _ H5) as H6.
    pose proof (tcb_update_lookup _ tag
                  (fun t => tcb_set_dma_flags t
                     (if nvme_is_write cmd then APPLE_ANS2_TCB_DMA_TO_DEVICE
                      else APPLE_ANS2_TCB_DMA_FROM_DEVICE)) _ H6) as H7.
    rewrite H7. f_equal. unfold tcb_of_cmd. fold tag.
    destruct (nvme_is_write cmd); reflexivity.
  - intros k Hk. rewrite tcbs_set_sq_cmds.
    rewrite !tcb_update_lookup_ne by exact Hk. reflexivity.
Qed.

(** X16: arming a tag overwrites whatever its tracking slot held (the
    slot then depends on the command only), and two commands with
    different tags do not disturb each other: on a ring whose entries
    are at least the 64 bytes of a command ([sqes] from 6 up), after
    both are submitted, the slot and the ring entry of each hold its own
    command. *)
Theorem submit_cmd_separate_slots `{nvme_host} (q : apple_nvme_queue)
    (c1 c2 : nvme_command) :
  let t1 := u16 (nvme_tag_from_cid (c_command_id c1)) in
  let t2 := u16 (nvme_tag_from_cid (c_command_id c2)) in
  let q2 := (apple_nvme_submit_cmd (apple_nvme_submit_cmd q c1).1 c2).1 in
  t1 <> t2 ->
  6 <= sqes q <= 16 ->
  (Z.to_nat t1 < length (ans2_tcb_ptr q))%nat ->
  (Z.to_nat t2 < length (ans2_tcb_ptr q))%nat ->
  ans2_tcb_ptr q2 !! Z.to_nat t1 = Some (tcb_of_cmd c1) /\
  ans2_tcb_ptr q2 !! Z.to_nat t2 = Some (tcb_of_cmd c2) /\
  sq_cmds q2 !! u32 (Z.shiftl t1 (sqes q)) = Some c1 /\
  sq_cmds q2 !! u32 (Z.shiftl t2 (sqes q)) = Some c2.
Proof.
  intros t1 t2 q2 Hne Hs Hl1 Hl2.
  set (q1 := (apple_nvme_submit_cmd q c1).1) in *.
  destruct (submit_cmd_slots q c1) as (Ha1 & Hb1 & Hc1 & Hd1).
  destruct (submit_cmd_slots q1 c2) as (Ha2 & Hb2 & Hc2 & Hd2).
  cbn zeta in *. fold t1 in Ha1, Hb1, Hc1. fold t2 in Ha2, Hb2, Hc2.
  fold q1 in Ha1, Hb1, Hc1, Hd1. fold q2 in Ha2, Hb2, Hc2, Hd2.
  assert (Ht1 : 0 <= t1 < 2 ^ 16) by (apply Z.mod_pos_bound; lia).
  assert (Ht2 : 0 <= t2 < 2 ^ 16) by (apply Z.mod_pos_bound; lia).
  assert (Hnat : Z.to_nat t1 <> Z.to_nat t2) by lia.
  destruct (lookup_lt_is_Some_2 _ _ Hl1) as [x1 Hx1].
  destruct (lookup_lt_is_Some_2 _ _ Hl2) as [x2 Hx2].
  assert (Hoff : forall t, 0 <= t < 2 ^ 16 ->
            u32 (Z.shiftl t (sqes q)) = t * 2 ^ sqes q).
  { intros t Ht. rewrite Z.shiftl_mul_pow2 by lia. apply u32_small.
    assert (0 < 2 ^ sqes q <= 2 ^ 16).
    { split; [apply Z.pow_pos_nonneg; lia |].
      apply Z.pow_le_mono_r; lia. }
    change (2 ^ 32) with (2 ^ 16 * 2 ^ 16). nia. }
  split; [| split; [| split]].
  - rewrite Hb2 by exact Hnat. exact (Ha1 _ Hx1).
  - apply (Ha2 x2). rewrite Hb1 by (intros Heq; apply Hnat; symmetry; exact Heq).
    exact Hx2.
  - rewrite Hc2, Hd1, Hc1. rewrite lookup_insert_ne.
    + apply lookup_insert_eq.
    + rewrite !Hoff by assumption.
      assert (0 < 2 ^ sqes q) by (apply Z.pow_pos_nonneg; lia). nia.
  - rewrite Hc2, Hd1. apply lookup_insert_eq.
Qed.

Lemma submit_cmd_separate_slots_witness :
  sq_cmds (apple_nvme_submit_cmd (H := linux_nvme_host)
             (apple_nvme_submit_cmd (H := linux_nvme_host) ex_queue ex_cmd).1
             (set_opcode nvme_command_zero 1)).1
    !! u32 (Z.shiftl 5 6) = Some ex_cmd.
Proof.
  apply (submit_cmd_separate_slots (H := linux_nvme_host) ex_queue ex_cmd
           (set_opcode nvme_command_zero 1)); zclosed.
Defined.

(** X17: the timeout handler returns [BLK_EH_DONE] exactly when it
    found the request completed by the poll or tore the device down
    (disable, with or without reset), and [BLK_EH_RESET_TIMER] exactly
    when it did neither; and it hands an abort to the admin queue only
    for an I/O-queue request not yet aborted, which it then marks
    aborted, re-arming the timer. *)
Theorem timeout_done_or_running `{nvme_host} (o : timeout_oracle)
    (dev : apple_nvme_dev) (nvmeq : apple_nvme_queue) (req : request) :
  let res := apple_nvme_timeout o dev nvmeq req in
  (t_ret res = BLK_EH_DONE <->
     disables_device (t_calls res) = true \/
     In (CallWarnPolled (rq_tag req)) (t_calls res)) /\
  (t_ret res = BLK_EH_RESET_TIMER <-> disables_device (t_calls res) = false /\
     ~ In (CallWarnPolled (rq_tag req)) (t_calls res)) /\
  (issues_abort (t_calls res) = true ->
     is_adminq nvmeq = false /\ aborted (rq_iod req) = 0 /\
     aborted (rq_iod (t_req res)) = 1 /\ t_ret res = BLK_EH_RESET_TIMER).
Proof.
  intros res. subst res. unfold apple_nvme_timeout.
  destruct (apple_nvme_should_reset dev (u32 (o_csts o))).
  { cbn. repeat split; try discriminate; try (left; reflexivity); intuition discriminate. }
  destruct (o_completed o).
  { cbn. repeat split; try discriminate; try (left; reflexivity);
      try (intros _; right; left; reflexivity);
      intuition (try discriminate). }
  assert (Hpolled : forall t, CallPollIrqdisable (is_adminq nvmeq)
                              <> CallWarnPolled t) by discriminate.
  destruct (ctrl_state dev) eqn:Hstate;
    try (destruct (is_adminq nvmeq) eqn:Hadm; cbn [orb];
         [| destruct (aborted (rq_iod req) =? 0) eqn:Hab; cbn [negb];
            [apply Z.eqb_eq in Hab;
             destruct (abort_limit _ <? 0); [| destruct (o_alloc_ok o)] |]]);
    cbn; rewrite ?Hstate;
    repeat split; try discriminate; try (left; reflexivity);
    try (right; split; reflexivity); try assumption;
    intuition (try discriminate; try congruence).
Qed.

(** ** The SART address filter *)

(** ** Bit fields *)

Lemma lor_high_low (a b n : Z) :
  0 <= n -> 0 <= b < 2 ^ n -> Z.lor (Z.shiftl a n) b = a * 2 ^ n + b.
Proof.
  intros Hn Hb. rewrite <- Z.shiftl_mul_pow2 by exact Hn.
  rewrite <- Z.add_lor_land.
  replace (Z.land (Z.shiftl a n) b) with 0; [lia |].
  symmetry. apply Z.bits_inj'. intros k Hk.
  rewrite Z.land_spec, Z.bits_0.
  destruct (Z.lt_ge_cases k n) as [Hlt | Hge].
  - rewrite Z.shiftl_spec_low by exact Hlt. reflexivity.
  - rewrite <- (Z.mod_small b (2 ^ n)) by exact Hb.
    rewrite Z.mod_pow2_bits_high by lia. apply andb_false_r.
Qed.

Lemma setbit_same (w n : Z) :
  0 <= n -> Z.testbit w n = true -> Z.setbit w n = w.
Proof.
  intros Hn Hb. apply Z.bits_inj'. intros k Hk.
  rewrite Z.setbit_eqb by exact Hn.
  destruct (Z.eqb_spec n k) as [-> | Hne]; [rewrite Hb |]; reflexivity.
Qed.

Lemma land_page_bits (x : Z) :
  Z.land x (Z.shiftl 1 12 - 1) = x mod 4096.
Proof. change (Z.shiftl 1 12 - 1) with (Z.ones 12). apply Z.land_ones. lia. Qed.

Lemma sart_config_fields (flags s : Z) :
  0 <= flags < 2 ^ 8 -> 0 <= s < 2 ^ 24 ->
  let cfg :=
    u32 (Z.lor (u32 (FIELD_PREP APPLE_SART_CONFIG_FLAGS flags))
           (FIELD_PREP APPLE_SART_CONFIG_SIZE s)) in
  FIELD_GET APPLE_SART_CONFIG_FLAGS (u32 cfg) = flags /\
  FIELD_GET APPLE_SART_CONFIG_SIZE (u32 cfg) = s.
Proof.
  intros Hf Hs. cbn zeta.
  unfold FIELD_PREP, FIELD_GET.
  change APPLE_SART_CONFIG_FLAGS with (Z.shiftl (Z.ones 8) 24).
  change APPLE_SART_CONFIG_SIZE with (Z.ones 24).
  change (bf_shf (Z.shiftl (Z.ones 8) 24)) with 24.
  change (bf_shf (Z.ones 24)) with 0.
  rewrite <- Z.shiftl_land, !Z.land_ones by lia.
  rewrite Z.shiftl_0_r, !Z.shiftr_0_r.
  rewrite (Z.mod_small flags) by exact Hf.
  rewrite (Z.mod_small s) by exact Hs.
  assert (Hx : 0 <= Z.shiftl flags 24 < 2 ^ 32).
  { rewrite Z.shiftl_mul_pow2 by lia.
    change (2 ^ 32) with (2 ^ 8 * 2 ^ 24). nia. }
  rewrite (u32_small (Z.shiftl flags 24)) by exact Hx.
  rewrite lor_high_low by lia.
  assert (Hc : 0 <= flags * 2 ^ 24 + s < 2 ^ 32).
  { change (2 ^ 32) with (2 ^ 8 * 2 ^ 24). nia. }
  rewrite !(u32_small (flags * 2 ^ 24 + s)) by exact Hc.
  split.
  - rewrite Z.shiftr_land.
    change (Z.shiftr (Z.shiftl (Z.ones 8) 24) 24) with (Z.ones 8).
    rewrite Z.land_ones, Z.shiftr_div_pow2 by lia.
    rewrite Z.div_add_l by lia. rewrite (Z.div_small s) by lia.
    rewrite Z.add_0_r. apply Z.mod_small. exact Hf.
  - rewrite Z.add_comm, Z.mod_add by lia. apply Z.mod_small. exact Hs.
Qed.

(** ** Registers of different entries *)

Ltac sart_offsets :=
  unfold APPLE_SART_CONFIG, APPLE_SART_PADDR, APPLE_SART3_CONFIG,
    APPLE_SART3_SIZE in *; lia.

Lemma readl_writel_eq (s : apple_sart) (off v : Z) :
  readl_relaxed (writel_relaxed v s off) off = u32 v.
Proof.
  unfold readl_relaxed, writel_relaxed, sart_set_regs. cbn [sart_regs].
  rewrite lookup_insert_eq. cbn [default from_option]. unfold id.
  unfold u32. apply Z.mod_mod. lia.
Qed.

Lemma readl_writel_ne (s : apple_sart) (off off' v : Z) :
  off <> off' ->
  readl_relaxed (writel_relaxed v s off) off' = readl_relaxed s off'.
Proof.
  intros Hne. unfold readl_relaxed, writel_relaxed, sart_set_regs.
  cbn [sart_regs]. rewrite lookup_insert_ne by exact Hne. reflexivity.
Qed.

Lemma sart_set_entry_frame (sart : apple_sart) (i flags paddr size : Z) :
  let sart' := sart_set_entry sart i flags paddr size in
  sart_ops sart' = sart_ops sart /\
  protected_entries sart' = protected_entries sart /\
  used_entries sart' = used_entries sart.
Proof.
  unfold sart_set_entry. destruct (sart_ops sart) eqn:Hops;
    cbn; rewrite ?Hops; repeat split; reflexivity.
Qed.

Lemma sart_get_set_entry_ne (sart : apple_sart) (i j flags paddr size : Z) :
  0 <= i < 16 -> 0 <= j < 16 -> j <> i ->
  sart_get_entry (sart_set_entry sart i flags paddr size) j
  = sart_get_entry sart j.
Proof.
  intros Hi Hj Hne.
  destruct (sart_set_entry_frame sart i flags paddr size) as (Hops & _).
  cbn zeta in Hops. unfold sart_get_entry. rewrite Hops.
  unfold sart_set_entry.
  destruct (sart_ops sart).
  - unfold sart2_get_entry, sart2_set_entry.
    rewrite !readl_writel_ne by sart_offsets. reflexivity.
  - unfold sart3_get_entry, sart3_set_entry.
    rewrite !readl_writel_ne by sart_offsets. reflexivity.
Qed.

Lemma sart_get_entry_regs (s s' : apple_sart) (j : Z) :
  sart_regs s' = sart_regs s -> sart_ops s' = sart_ops s ->
  sart_get_entry s' j = sart_get_entry s j.
Proof.
  intros Hr Ho. unfold sart_get_entry, sart2_get_entry, sart3_get_entry,
    readl_relaxed. rewrite Hr, Ho. reflexivity.
Qed.

(** What an entry reads back as after it was written. *)
Lemma sart_get_set_entry_eq (sart : apple_sart) (i flags paddr size : Z) :
  0 <= i < 16 ->
  0 <= flags < 2 ^ 8 ->
  0 <= size < 2 ^ 36 -> size mod 4096 = 0 ->
  0 <= paddr < 2 ^ 44 -> paddr mod 4096 = 0 ->
  sart_get_entry (sart_set_entry sart i flags paddr size) i
  = mk_sart_entry flags
      (match sart_ops sart with
       | sart_ops_v2 => paddr mod 2 ^ 32
       | sart_ops_v3 => paddr
       end) size.
Proof.
  intros Hi Hf Hs Hsal Hp Hpal.
  destruct (sart_set_entry_frame sart i flags paddr size) as (Hops & _).
  cbn zeta in Hops. unfold sart_get_entry. rewrite Hops.
  unfold sart_set_entry.
  unfold APPLE_SART_PADDR_SHIFT, APPLE_SART_CONFIG_SIZE_SHIFT,
    APPLE_SART3_SIZE_SHIFT in *.
  assert (Hp12 : 0 <= Z.shiftr paddr 12 < 2 ^ 32).
  { rewrite Z.shiftr_div_pow2 by lia.
    change (2 ^ 44) with (2 ^ 12 * 2 ^ 32) in Hp.
    split; [apply Z.div_pos; lia | apply Z.div_lt_upper_bound; lia]. }
  assert (Hs12 : 0 <= Z.shiftr size 12 < 2 ^ 24).
  { rewrite Z.shiftr_div_pow2 by lia.
    change (2 ^ 36) with (2 ^ 12 * 2 ^ 24) in Hs.
    split; [apply Z.div_pos; lia | apply Z.div_lt_upper_bound; lia]. }
  assert (Hpb : Z.shiftl (Z.shiftr paddr 12) 12 = paddr).
  { rewrite Z.shiftl_mul_pow2, Z.shiftr_div_pow2 by lia.
    change (2 ^ 12) with 4096. pose proof (Z.div_mod paddr 4096 ltac:(lia)). lia. }
  assert (Hsb : Z.shiftl (Z.shiftr size 12) 12 = size).
  { rewrite Z.shiftl_mul_pow2, Z.shiftr_div_pow2 by lia.
    change (2 ^ 12) with 4096. pose proof (Z.div_mod size 4096 ltac:(lia)). lia. }
  assert (Hp64 : u64 paddr = paddr).
  { apply u64_small. change (2 ^ 64) with 18446744073709551616.
    change (2 ^ 44) with 17592186044416 in *. lia. }
  assert (Hs64 : u64 size = size).
  { apply u64_small. change (2 ^ 64) with 18446744073709551616.
    change (2 ^ 36) with 68719476736 in *. lia. }
  destruct (sart_ops sart).
  - unfold sart2_get_entry, sart2_set_entry.
    unfold APPLE_SART_PADDR_SHIFT, APPLE_SART_CONFIG_SIZE_SHIFT.
    rewrite Hp64, Hs64, (u8_small flags) by exact Hf.
    rewrite readl_writel_eq.
    rewrite readl_writel_ne by sart_offsets. rewrite readl_writel_eq.
    rewrite (u32_small (Z.shiftr paddr 12)) by exact Hp12.
    destruct (sart_config_fields flags (Z.shiftr size 12) Hf Hs12) as [Hgf Hgs].
    cbn zeta in Hgf, Hgs. rewrite Hgf, Hgs, Hpb, Hsb.
    rewrite (u8_small flags) by exact Hf.
    rewrite Hs64. reflexivity.
  - unfold sart3_get_entry, sart3_set_entry.
    unfold APPLE_SART_PADDR_SHIFT, APPLE_SART3_SIZE_SHIFT.
    rewrite Hp64, Hs64, (u8_small flags) by exact Hf.
    rewrite readl_writel_eq.
    rewrite (readl_writel_ne _ _ (APPLE_SART3_SIZE i)) by sart_offsets.
    rewrite readl_writel_eq.
    rewrite !(readl_writel_ne _ _ (APPLE_SART_PADDR i)) by sart_offsets.
    rewrite readl_writel_eq.
    rewrite (u32_small flags) by (change (2 ^ 32) with (2 ^ 8 * 2 ^ 24); lia).
    rewrite (u8_small flags) by exact Hf.
    rewrite (u32_small (Z.shiftr paddr 12)) by exact Hp12.
    rewrite (u32_small (Z.shiftr size 12))
      by (change (2 ^ 32) with (2 ^ 24 * 2 ^ 8); lia).
    rewrite Hpb, Hsb, Hp64, Hs64. reflexivity.
Qed.

(** X18: an entry reads back as it was written: the flags and the
    size exactly, and the address exactly on version 3 but cut to its
    low 32 bits on version 2, whose read-back shifts the address
    register as a 32-bit value; the other entries and the two bitmaps
    are not changed. *)
Theorem sart_set_get_entry (sart : apple_sart) (i j flags paddr size : Z) :
  0 <= i < 16 -> 0 <= j < 16 ->
  0 <= flags < 2 ^ 8 ->
  0 <= size < 2 ^ 36 -> size mod 4096 = 0 ->
  0 <= paddr < 2 ^ 44 -> paddr mod 4096 = 0 ->
  let sart' := sart_set_entry sart i flags paddr size in
  sart_get_entry sart' i
    = mk_sart_entry flags
        (match sart_ops sart with
         | sart_ops_v2 => paddr mod 2 ^ 32
         | sart_ops_v3 => paddr
         end) size /\
  (j <> i -> sart_get_entry sart' j = sart_get_entry sart j) /\
  protected_entries sart' = protected_entries sart /\
  used_entries sart' = used_entries sart.
Proof.
  intros Hi Hj Hf Hs Hsal Hp Hpal sart'. subst sart'.
  split; [apply sart_get_set_entry_eq; assumption |].
  split; [intros Hne; apply sart_get_set_entry_ne; assumption |].
  apply sart_set_entry_frame.
Qed.

Lemma sart_set_get_entry_witness :
  e_paddr (sart_get_entry
             (sart_set_entry (mk_sart ∅ sart_ops_v2 0 0) 1 0xff
                0x800000000 0x4000) 1) = 0 /\
  e_paddr (sart_get_entry
             (sart_set_entry (mk_sart ∅ sart_ops_v3 0 0) 1 0xff
                0x800000000 0x4000) 1) = 0x800000000.
Proof.
  split.
  - destruct (sart_set_get_entry (mk_sart ∅ sart_ops_v2 0 0) 1 1 0xff
                0x800000000 0x4000) as (Hget & _); [zclosed .. |].
    cbn zeta in Hget. rewrite Hget. reflexivity.
  - destruct (sart_set_get_entry (mk_sart ∅ sart_ops_v3 0 0) 1 1 0xff
                0x800000000 0x4000) as (Hget & _); [zclosed .. |].
    cbn zeta in Hget. rewrite Hget. reflexivity.
Defined.

Lemma sart_set_used_same (sart : apple_sart) :
  sart_set_used sart (used_entries sart) = sart.
Proof. destruct sart; reflexivity. Qed.

Lemma sart_add_loop_spec (paddr size : Z) (n : nat) :
  forall (i : Z) (sart : apple_sart),
    0 <= i ->
    ((forall k, i <= k < i + Z.of_nat n -> sart_entry_free sart k = false) ->
     sart_add_loop n i sart paddr size = (None, sart)) /\
    (forall k, i <= k < i + Z.of_nat n ->
       sart_entry_free sart k = true ->
       (forall j, i <= j < k -> sart_entry_free sart j = false) ->
       let sart' :=
         sart_set_entry
           (sart_set_used sart (set_bit k (used_entries sart))) k
           APPLE_SART_CONFIG_FLAGS_ALLOW paddr size in
       sart_add_loop n i sart paddr size = (Some sart', sart')).
Proof.
  induction n as [| n IH]; intros i sart Hi.
  - split; [reflexivity | intros k Hk; lia].
  - destruct (IH (i + 1) sart ltac:(lia)) as [IHnone IHsome].
    cbn [sart_add_loop]. unfold test_and_set_bit.
    unfold sart_entry_free in *.
    destruct (test_bit i (protected_entries sart)) eqn:Hprot.
    + split.
      * intros Hall. apply IHnone. intros k Hk. apply Hall. lia.
      * intros k Hk Hfree Hleast.
        assert (k <> i).
        { intros ->. rewrite Hprot in Hfree. discriminate. }
        apply IHsome; [lia | exact Hfree |]. intros j Hj. apply Hleast. lia.
    + destruct (Z.testbit (used_entries sart) i) eqn:Hused.
      * rewrite setbit_same by assumption. rewrite sart_set_used_same.
        split.
        -- intros Hall. apply IHnone. intros k Hk. apply Hall. lia.
        -- intros k Hk Hfree Hleast.
           assert (k <> i).
           { intros ->. unfold test_bit in Hfree. rewrite Hused in Hfree.
             rewrite andb_false_r in Hfree. discriminate. }
           apply IHsome; [lia | exact Hfree |]. intros j Hj. apply Hleast. lia.
      * split.
        -- intros Hall. specialize (Hall i ltac:(lia)).
           unfold test_bit in Hall, Hprot. rewrite Hprot, Hused in Hall.
           discriminate.
        -- intros k Hk Hfree Hleast.
           destruct (Z.eq_dec k i) as [-> | Hne]; [reflexivity |].
           specialize (Hleast i ltac:(lia)).
           unfold test_bit in Hleast, Hprot. rewrite Hprot, Hused in Hleast.
           discriminate.
Qed.

(** X19: for a page-aligned region, [apple_sart_add_allowed_region]
    takes the lowest entry that is neither protected nor in use: it
    marks it used, writes the region there with the allow flags and
    returns 0; when no entry of the 16 is free it returns [-EBUSY] and
    changes nothing.  A region that is not page-aligned is refused with
    [-EINVAL]. *)
Theorem sart_add_first_free (sart : apple_sart) (paddr size : Z) :
  0 <= paddr -> 0 <= size ->
  (paddr mod 4096 = 0 /\ size mod 4096 = 0 ->
   (forall i, 0 <= i < 16 ->
      sart_entry_free sart i = true ->
      (forall j, 0 <= j < i -> sart_entry_free sart j = false) ->
      apple_sart_add_allowed_region sart paddr size
      = (0, sart_set_entry
              (sart_set_used sart (set_bit i (used_entries sart))) i
              APPLE_SART_CONFIG_FLAGS_ALLOW paddr size)) /\
   ((forall j, 0 <= j < 16 -> sart_entry_free sart j = false) ->
    apple_sart_add_allowed_region sart paddr size = (- EBUSY, sart))) /\
  (paddr mod 4096 <> 0 \/ size mod 4096 <> 0 ->
   apple_sart_add_allowed_region sart paddr size = (- EINVAL, sart)).
Proof.
  intros Hp Hs. unfold apple_sart_add_allowed_region.
  unfold APPLE_SART_CONFIG_SIZE_SHIFT, APPLE_SART_PADDR_SHIFT.
  rewrite !land_page_bits.
  change (Z.to_nat APPLE_SART_MAX_ENTRIES) with 16%nat.
  destruct (sart_add_loop_spec paddr size 16 0 sart ltac:(lia))
    as [Hnone Hsome].
  split.
  - intros [Hpal Hsal]. rewrite Hpal, Hsal. cbn [Z.eqb negb].
    split.
    + intros i Hi Hfree Hleast.
      rewrite (Hsome i ltac:(lia) Hfree Hleast). reflexivity.
    + intros Hall. rewrite Hnone by (intros k Hk; apply Hall; lia).
      reflexivity.
  - intros [Hpal | Hsal].
    + destruct (size mod 4096 =? 0); cbn [negb]; [| reflexivity].
      replace (paddr mod 4096 =? 0) with false
        by (symmetry; apply Z.eqb_neq; exact Hpal).
      reflexivity.
    + replace (size mod 4096 =? 0) with false
        by (symmetry; apply Z.eqb_neq; exact Hsal).
      reflexivity.
Qed.

Lemma sart_add_first_free_witness :
  apple_sart_add_allowed_region ex_sart 0x800100000 0x4000
  = (0, sart_set_entry (sart_set_used ex_sart 2) 1 0xff 0x800100000 0x4000).
Proof.
  destruct (sart_add_first_free ex_sart 0x800100000 0x4000) as [Hal _];
    [zclosed | zclosed |].
  destruct Hal as [Hfirst _]; [zclosed |].
  apply (Hfirst 1); [zclosed | reflexivity |].
  intros j Hj. assert (j = 0) as -> by lia. reflexivity.
Defined.




Lemma sart_remove_loop_none (paddr size : Z) (n : nat) :
  forall (i : Z) (sart : apple_sart),
    (forall k, i <= k < i + Z.of_nat n ->
       e_paddr (sart_get_entry sart k) <> paddr \/
       e_size (sart_get_entry sart k) <> size) ->
    sart_remove_loop n i sart paddr size = None.
Proof.
  induction n as [| n IH]; intros i sart Hall; [reflexivity |].
  cbn [sart_remove_loop].
  destruct (Hall i ltac:(lia)) as [Hp | Hs].
  - replace (e_paddr (sart_get_entry sart i) =? paddr) with false
      by (symmetry; apply Z.eqb_neq; exact Hp).
    cbn [negb orb]. apply IH. intros k Hk. apply Hall. lia.
  - replace (e_size (sart_get_entry sart i) =? size) with false
      by (symmetry; apply Z.eqb_neq; exact Hs).
    cbn [negb]. rewrite orb_true_r. apply IH. intros k Hk. apply Hall. lia.
Qed.

Lemma sart_remove_loop_some (paddr size : Z) (n : nat) :
  forall (i : Z) (sart sart' : apple_sart),
    sart_remove_loop n i sart paddr size = Some sart' ->
    exists k, i <= k < i + Z.of_nat n /\
      e_paddr (sart_get_entry sart k) = paddr /\
      e_size (sart_get_entry sart k) = size /\
      (forall j, i <= j < k ->
         e_paddr (sart_get_entry sart j) <> paddr \/
         e_size (sart_get_entry sart j) <> size) /\
      sart' = sart_set_used (sart_set_entry sart k 0 0 0)
                (clear_bit k (used_entries (sart_set_entry sart k 0 0 0))).
Proof.
  induction n as [| n IH]; intros i sart sart' Hrun; [discriminate |].
  cbn [sart_remove_loop] in Hrun.
  destruct (Z.eqb_spec (e_paddr (sart_get_entry sart i)) paddr) as [Hp | Hp];
    cbn [negb orb] in Hrun.
  - destruct (Z.eqb_spec (e_size (sart_get_entry sart i)) size) as [Hs | Hs];
      cbn [negb] in Hrun.
    + injection Hrun as <-. exists i. split; [lia |].
      split; [exact Hp |]. split; [exact Hs |].
      split; [intros j Hj; lia | reflexivity].
    + destruct (IH _ _ _ Hrun) as (k & Hk & Hkp & Hks & Hleast & Heq).
      exists k. split; [lia |]. split; [exact Hkp |]. split; [exact Hks |].
      split; [| exact Heq]. intros j Hj.
      destruct (Z.eq_dec j i) as [-> | Hne]; [right; exact Hs |].
      apply Hleast. lia.
  - destruct (IH _ _ _ Hrun) as (k & Hk & Hkp & Hks & Hleast & Heq).
    exists k. split; [lia |]. split; [exact Hkp |]. split; [exact Hks |].
    split; [| exact Heq]. intros j Hj.
    destruct (Z.eq_dec j i) as [-> | Hne]; [left; exact Hp |].
    apply Hleast. lia.
Qed.

(** An address the filter can hold is not its own page number, unless
    it is 0. *)
Lemma paddr_not_shifted (ops : apple_sart_ops) (paddr : Z) :
  0 < paddr < 2 ^ 44 -> paddr mod 4096 = 0 ->
  match ops with
  | sart_ops_v2 => paddr mod 2 ^ 32
  | sart_ops_v3 => paddr
  end <> Z.shiftr paddr 12.
Proof.
  intros Hp Hal. rewrite Z.shiftr_div_pow2 by lia. change (2 ^ 12) with 4096.
  pose proof (Z.div_mod paddr 4096 ltac:(lia)) as Hdm. rewrite Hal in Hdm.
  set (q := paddr / 4096) in *.
  assert (Hq : 0 < q < 2 ^ 32).
  { change (2 ^ 44) with (4096 * 2 ^ 32) in Hp. lia. }
  destruct ops; [| lia].
  intros Heq.
  pose proof (Z.div_mod paddr (2 ^ 32) ltac:(lia)) as Hdm2.
  rewrite Heq in Hdm2.
  assert (Hdiv : (2 ^ 32 | 4095 * q)).
  { exists (paddr / 2 ^ 32). lia. }
  apply Z.gauss in Hdiv; [| reflexivity].
  destruct Hdiv as [c Hc].
  assert (c = 0) by nia. lia.
Qed.

(** X21: a region just added is not found again by
    [apple_sart_remove_allowed_region].  The removal compares the
    arguments shifted right by 12 with the address and size the entries
    read back as, which [get_entry] has shifted left by 12; so after a
    successful add under a non-zero address, the removal of the same
    address and size returns [-EINVAL] and leaves the filter as it is,
    unless some entry held the page number of the address as its
    address before the add. *)
Theorem sart_remove_after_add (sart sart' : apple_sart) (paddr size : Z) :
  0 < paddr < 2 ^ 44 -> 0 <= size < 2 ^ 36 ->
  apple_sart_add_allowed_region sart paddr size = (0, sart') ->
  (forall j, 0 <= j < 16 ->
     e_paddr (sart_get_entry sart j) <> Z.shiftr paddr 12) ->
  apple_sart_remove_allowed_region sart' paddr size = (- EINVAL, sart').
Proof.
  intros Hp Hs Hadd Hother.
  unfold apple_sart_add_allowed_region in Hadd.
  unfold apple_sart_remove_allowed_region.
  unfold APPLE_SART_CONFIG_SIZE_SHIFT, APPLE_SART_PADDR_SHIFT in *.
  rewrite !land_page_bits in *.
  destruct (Z.eqb_spec (size mod 4096) 0) as [Hsal | ]; cbn [negb] in *;
    [| discriminate].
  destruct (Z.eqb_spec (paddr mod 4096) 0) as [Hpal | ]; cbn [negb] in *;
    [| discriminate].
  change (Z.to_nat APPLE_SART_MAX_ENTRIES) with 16%nat in *.
  rewrite sart_remove_loop_none; [reflexivity |].
  intros k Hk. left.
  (* which entry the add wrote *)
  destruct (sart_add_loop 16 0 sart paddr size) as [[s1 |] s2] eqn:Hloop;
    [| discriminate].
  injection Hadd as <-.
  assert (Hwhich : exists i, 0 <= i < 16 /\
            s1 = sart_set_entry
                   (sart_set_used sart (set_bit i (used_entries sart))) i
                   APPLE_SART_CONFIG_FLAGS_ALLOW paddr size).
  { clear - Hloop. revert Hloop.
    assert (Hgen : forall n i s, 0 <= i ->
              sart_add_loop n i s paddr size = (Some s1, s2) ->
              exists k, i <= k < i + Z.of_nat n /\
                s1 = sart_set_entry
                       (sart_set_used s (set_bit k (used_entries s))) k
                       APPLE_SART_CONFIG_FLAGS_ALLOW paddr size).
    { induction n as [| n IH]; intros i s Hi; cbn [sart_add_loop];
        [discriminate |].
      unfold test_and_set_bit.
      destruct (test_bit i (protected_entries s)).
      { intros Hrun.
        destruct (IH (i + 1) s ltac:(lia) Hrun) as (k & Hk & Heq).
        exists k. split; [lia | exact Heq]. }
      destruct (Z.testbit (used_entries s) i) eqn:Hused.
      { rewrite setbit_same by assumption. rewrite sart_set_used_same.
        intros Hrun.
        destruct (IH (i + 1) s ltac:(lia) Hrun) as (k & Hk & Heq).
        exists k. split; [lia | exact Heq]. }
      intros [= <- _]. exists i. split; [lia | reflexivity]. }
    intros Hloop. destruct (Hgen 16%nat 0 sart ltac:(lia) Hloop) as (k & Hk & Heq).
    exists k. split; [lia | exact Heq]. }
  destruct Hwhich as (i & Hi & ->).
  destruct (Z.eq_dec k i) as [-> | Hne].
  - rewrite sart_get_set_entry_eq; try assumption; try lia;
      [| unfold APPLE_SART_CONFIG_FLAGS_ALLOW; change (2 ^ 8) with 256; lia].
    cbn [e_paddr sart_set_used sart_ops].
    apply paddr_not_shifted; assumption.
  - rewrite sart_get_set_entry_ne by lia.
    rewrite (sart_get_entry_regs sart) by reflexivity.
    apply Hother. lia.
Qed.

Lemma sart_remove_after_add_witness :
  apple_sart_remove_allowed_region
    (apple_sart_add_allowed_region ex_sart 0x800100000 0x4000).2
    0x800100000 0x4000
  = (- EINVAL, (apple_sart_add_allowed_region ex_sart 0x800100000 0x4000).2).
Proof.
  apply (sart_remove_after_add ex_sart).
  - zclosed.
  - zclosed.
  - reflexivity.
  - intros j Hj.
    assert (Hcases : j = 0 \/ 1 <= j < 16) by lia.
    destruct Hcases as [-> | Hj1]; [vm_compute; discriminate |].
    unfold sart_get_entry, sart3_get_entry, readl_relaxed, ex_sart.
    cbn [sart_ops sart_regs e_paddr].
    rewrite !lookup_insert_ne by (unfold APPLE_SART_PADDR; lia).
    rewrite lookup_empty. vm_compute. discriminate.
Defined.

(** X22: when [apple_sart_remove_allowed_region] returns 0, it has
    cleared the lowest entry whose address and size read back as the
    arguments shifted right by 12: that entry then reads back as all
    zeroes and its used bit is clear, whether or not the entry was
    protected; the protected bitmap and the other entries are
    unchanged. *)
Theorem sart_remove_match (sart sart' : apple_sart) (paddr size : Z) :
  apple_sart_remove_allowed_region sart paddr size = (0, sart') ->
  exists k, 0 <= k < 16 /\
    e_paddr (sart_get_entry sart k) = Z.shiftr paddr 12 /\
    e_size (sart_get_entry sart k) = Z.shiftr size 12 /\
    (forall j, 0 <= j < k ->
       e_paddr (sart_get_entry sart j) <> Z.shiftr paddr 12 \/
       e_size (sart_get_entry sart j) <> Z.shiftr size 12) /\
    sart_get_entry sart' k = mk_sart_entry 0 0 0 /\
    test_bit k (used_entries sart') = false /\
    protected_entries sart' = protected_entries sart /\
    (forall j, 0 <= j < 16 -> j <> k ->
       sart_get_entry sart' j = sart_get_entry sart j).
Proof.
  unfold apple_sart_remove_allowed_region.
  destruct (negb _); [discriminate |].
  destruct (negb _); [discriminate |].
  change (Z.to_nat APPLE_SART_MAX_ENTRIES) with 16%nat.
  unfold APPLE_SART_CONFIG_SIZE_SHIFT, APPLE_SART_PADDR_SHIFT.
  destruct (sart_remove_loop 16 0 sart _ _) as [s1 |] eqn:Hloop;
    [| discriminate].
  intros [= <-].
  destruct (sart_remove_loop_some _ _ _ _ _ _ Hloop)
    as (k & Hk & Hp & Hs & Hleast & ->).
  exists k. split; [lia |]. split; [exact Hp |]. split; [exact Hs |].
  split; [intros j Hj; apply Hleast; lia |].
  destruct (sart_set_entry_frame sart k 0 0 0) as (Ho & Hpr & Hu).
  cbn zeta in Ho, Hpr, Hu.
  split.
  { rewrite (sart_get_entry_regs (sart_set_entry sart k 0 0 0))
      by reflexivity.
    rewrite sart_get_set_entry_eq by (try lia; zclosed).
    destruct (sart_ops sart); reflexivity. }
  split.
  { cbn [used_entries sart_set_used]. unfold test_bit, clear_bit.
    apply Z.clearbit_eq. }
  split; [cbn [protected_entries sart_set_used]; exact Hpr |].
  intros j Hj Hne.
  rewrite (sart_get_entry_regs (sart_set_entry sart k 0 0 0)) by reflexivity.
  apply sart_get_set_entry_ne; lia.
Qed.

Lemma sart_remove_match_witness :
  exists k sart',
    apple_sart_remove_allowed_region ex_sart_low 0x1000000 0x1000000
      = (0, sart') /\
    0 <= k < 16 /\
    e_paddr (sart_get_entry ex_sart_low k) = 0x1000 /\
    sart_get_entry sart' k = mk_sart_entry 0 0 0.
Proof.
  destruct (sart_remove_match ex_sart_low
              (apple_sart_remove_allowed_region ex_sart_low 0x1000000
                 0x1000000).2 0x1000000 0x1000000 eq_refl)
    as (k & Hk & Hp & _ & _ & Hz & _).
  exists k, (apple_sart_remove_allowed_region ex_sart_low 0x1000000
               0x1000000).2.
  split; [reflexivity |]. split; [exact Hk |]. split; [exact Hp |]. exact Hz.
Defined.

Lemma sart_probe_loop_spec (n : nat) :
  forall (i : Z) (sart : apple_sart),
    0 <= i ->
    let sart' := sart_probe_loop n i sart in
    sart_regs sart' = sart_regs sart /\
    sart_ops sart' = sart_ops sart /\
    used_entries sart' = used_entries sart /\
    forall j, 0 <= j ->
      test_bit j (protected_entries sart') =
        test_bit j (protected_entries sart) ||
        ((i <=? j) && (j <? i + Z.of_nat n) &&
         negb (e_flags (sart_get_entry sart j) =? 0)).
Proof.
  induction n as [| n IH]; intros i sart Hi; cbn zeta.
  - cbn [sart_probe_loop]. repeat split; try reflexivity.
    intros j Hj.
    replace ((i <=? j) && (j <? i + Z.of_nat 0)) with false
      by (destruct (Z.leb_spec i j), (Z.ltb_spec j (i + Z.of_nat 0));
          try reflexivity; lia).
    cbn [andb]. rewrite orb_false_r. reflexivity.
  - cbn [sart_probe_loop].
    set (s1 := if e_flags (sart_get_entry sart i) =? 0 then sart
               else sart_set_protected sart (set_bit i (protected_entries sart))).
    assert (Hs1 : sart_regs s1 = sart_regs sart /\ sart_ops s1 = sart_ops sart /\
                  used_entries s1 = used_entries sart).
    { subst s1. destruct (_ =? 0); repeat split; reflexivity. }
    destruct Hs1 as (Hr1 & Ho1 & Hu1).
    destruct (IH (i + 1) s1 ltac:(lia)) as (Hr & Ho & Hu & Hp).
    cbn zeta in Hr, Ho, Hu, Hp.
    rewrite Hr, Ho, Hu. repeat split; try assumption.
    intros j Hj. rewrite (Hp j Hj).
    rewrite (sart_get_entry_regs sart s1 j) by assumption.
    destruct (Z.eq_dec j i) as [-> | Hne].
    + replace (i + 1 <=? i) with false by (symmetry; apply Z.leb_gt; lia).
      replace (i <=? i) with true by (symmetry; apply Z.leb_le; lia).
      replace (i <? i + Z.of_nat (S n)) with true
        by (symmetry; apply Z.ltb_lt; lia).
      cbn [andb]. rewrite orb_false_r. subst s1.
      destruct (e_flags (sart_get_entry sart i) =? 0); cbn [negb].
      * rewrite orb_false_r. reflexivity.
      * cbn [protected_entries sart_set_protected]. unfold test_bit, set_bit.
        rewrite Z.setbit_eq by lia. rewrite orb_true_r. reflexivity.
    + assert (Hsame : test_bit j (protected_entries s1)
                      = test_bit j (protected_entries sart)).
      { subst s1. destruct (_ =? 0); [reflexivity |].
        cbn [protected_entries sart_set_protected]. unfold test_bit, set_bit.
        apply Z.setbit_neq; lia. }
      rewrite Hsame. f_equal. f_equal.
      replace (j <? i + 1 + Z.of_nat n) with (j <? i + Z.of_nat (S n))
        by (f_equal; lia).
      f_equal.
      destruct (Z.leb_spec (i + 1) j), (Z.leb_spec i j); try reflexivity; lia.
Qed.

(** X23: after a successful [apple_sart_probe], an entry is protected
    exactly when the bootloader left it with non-zero flags: bit [j] of
    the protected bitmap is set if and only if [j] is below 16 and the
    flags of entry [j] read back non-zero; no entry is in use and the
    registers are as they were found. *)
Theorem sart_probe_protects (o : sart_probe_oracle) (sart : apple_sart) :
  - 4095 <= o_ioremap_err o <= 0 ->
  apple_sart_probe o = (0, Some sart) ->
  sart_regs sart = o_regs o /\
  sart_ops sart = o_match_data o /\
  used_entries sart = 0 /\
  forall j, 0 <= j ->
    test_bit j (protected_entries sart) =
      (j <? 16) && negb (e_flags (sart_get_entry sart j) =? 0).
Proof.
  intros Herr. unfold apple_sart_probe.
  destruct (o_kzalloc_ok o); cbn [negb]; [| discriminate].
  destruct (Z.eqb_spec (o_ioremap_err o) 0) as [Hz | Hnz]; cbn [negb].
  2:{ rewrite s32_small by (change (2 ^ 31) with 2147483648; lia).
      intros [= Hret _]. contradiction. }
  destruct (Z.ltb_spec (s32 (o_clk_get o)) 0) as [Hneg | _];
    [intros [= Hret _]; lia |].
  destruct (Z.eqb_spec (s32 (o_clk_enable o)) 0) as [Hen | Hen]; cbn [negb];
    [| intros [= Hret _]; contradiction].
  change (Z.to_nat APPLE_SART_MAX_ENTRIES) with 16%nat.
  intros Heq.
  assert (Hs : sart = sart_probe_loop 16 0
                 (sart_set_regs (mk_sart ∅ (o_match_data o) 0 0) (o_regs o))).
  { apply (f_equal snd) in Heq. cbn [snd] in Heq. congruence. }
  clear Heq. subst sart.
  set (s0 := sart_set_regs (mk_sart ∅ (o_match_data o) 0 0) (o_regs o)).
  destruct (sart_probe_loop_spec 16 0 s0 ltac:(lia)) as (Hr & Ho & Hu & Hp).
  cbn zeta in Hr, Ho, Hu, Hp.
  split; [rewrite Hr; reflexivity |]. split; [rewrite Ho; reflexivity |].
  split; [rewrite Hu; reflexivity |].
  intros j Hj. rewrite (Hp j Hj).
  rewrite (sart_get_entry_regs s0 (sart_probe_loop 16 0 s0) j) by assumption.
  change (protected_entries s0) with 0. unfold test_bit at 1.
  rewrite Z.bits_0. cbn [orb].
  replace (0 <=? j) with true by (symmetry; apply Z.leb_le; lia).
  reflexivity.
Qed.

Lemma sart_probe_protects_witness :
  apple_sart_probe ex_sart_probe_oracle = (0, Some ex_sart) /\
  test_bit 0 (protected_entries ex_sart) = true /\
  test_bit 1 (protected_entries ex_sart) = false.
Proof.
  split; [vm_compute; reflexivity |].
  destruct (sart_probe_protects ex_sart_probe_oracle ex_sart)
    as (_ & _ & _ & Hp); [zclosed | vm_compute; reflexivity |].
  rewrite (Hp 0), (Hp 1) by lia. split; reflexivity.
Defined.

Lemma sart_shutdown_loop_spec (n : nat) :
  forall (i : Z) (sart : apple_sart),
    0 <= i -> i + Z.of_nat n <= 16 ->
    let sart' := sart_shutdown_loop n i sart in
    sart_ops sart' = sart_ops sart /\
    protected_entries sart' = protected_entries sart /\
    used_entries sart' = used_entries sart /\
    forall j, 0 <= j < 16 ->
      sart_get_entry sart' j =
        if (i <=? j) && (j <? i + Z.of_nat n) &&
           negb (test_bit j (protected_entries sart))
        then mk_sart_entry 0 0 0
        else sart_get_entry sart j.
Proof.
  induction n as [| n IH]; intros i sart Hi Hn; cbn zeta.
  - cbn [sart_shutdown_loop]. repeat split; try reflexivity.
    intros j Hj.
    replace ((i <=? j) && (j <? i + Z.of_nat 0)) with false
      by (destruct (Z.leb_spec i j), (Z.ltb_spec j (i + Z.of_nat 0));
          try reflexivity; lia).
    reflexivity.
  - cbn [sart_shutdown_loop].
    set (s1 := if test_bit i (protected_entries sart) then sart
               else sart_set_entry sart i 0 0 0).
    assert (Hs1 : sart_ops s1 = sart_ops sart /\
                  protected_entries s1 = protected_entries sart /\
                  used_entries s1 = used_entries sart).
    { subst s1. destruct (test_bit _ _); [repeat split; reflexivity |].
      apply sart_set_entry_frame. }
    destruct Hs1 as (Ho1 & Hp1 & Hu1).
    destruct (IH (i + 1) s1 ltac:(lia) ltac:(lia)) as (Ho & Hp & Hu & Hg).
    cbn zeta in Ho, Hp, Hu, Hg.
    rewrite Ho, Hp, Hu. repeat split; try assumption.
    intros j Hj. rewrite (Hg j Hj). rewrite Hp1.
    destruct (Z.eq_dec j i) as [-> | Hne].
    + replace (i + 1 <=? i) with false by (symmetry; apply Z.leb_gt; lia).
      replace (i <=? i) with true by (symmetry; apply Z.leb_le; lia).
      replace (i <? i + Z.of_nat (S n)) with true
        by (symmetry; apply Z.ltb_lt; lia).
      cbn [andb]. subst s1.
      destruct (test_bit i (protected_entries sart)); cbn [negb];
        [reflexivity |].
      rewrite sart_get_set_entry_eq by (try lia; zclosed).
      destruct (sart_ops sart); reflexivity.
    + replace (j <? i + 1 + Z.of_nat n) with (j <? i + Z.of_nat (S n))
        by (f_equal; lia).
      replace (i + 1 <=? j) with (i <=? j)
        by (destruct (Z.leb_spec (i + 1) j), (Z.leb_spec i j);
            try reflexivity; lia).
      destruct (_ && _ && _); [reflexivity |].
      subst s1. destruct (test_bit i (protected_entries sart)); [reflexivity |].
      apply sart_get_set_entry_ne; lia.
Qed.

(** X24: [apple_sart_shutdown] revokes every region the driver could
    have added and nothing else: afterwards each of the 16 entries that
    is not protected reads back as all zeroes, and each protected entry
    reads back as before; the two bitmaps are unchanged. *)
Theorem sart_shutdown_clears (sart : apple_sart) (j : Z) :
  0 <= j < 16 ->
  let sart' := apple_sart_shutdown sart in
  sart_get_entry sart' j =
    (if test_bit j (protected_entries sart) then sart_get_entry sart j
     else mk_sart_entry 0 0 0) /\
  protected_entries sart' = protected_entries sart /\
  used_entries sart' = used_entries sart.
Proof.
  intros Hj sart'. subst sart'. unfold apple_sart_shutdown.
  change (Z.to_nat APPLE_SART_MAX_ENTRIES) with 16%nat.
  destruct (sart_shutdown_loop_spec 16 0 sart ltac:(lia) ltac:(lia))
    as (_ & Hp & Hu & Hg). cbn zeta in Hp, Hu, Hg.
  split; [| split; assumption].
  rewrite (Hg j Hj).
  replace (0 <=? j) with true by (symmetry; apply Z.leb_le; lia).
  replace (j <? 0 + Z.of_nat 16) with true by (symmetry; apply Z.ltb_lt; lia).
  cbn [andb]. destruct (test_bit j (protected_entries sart)); reflexivity.
Qed.

Lemma sart_shutdown_clears_witness :
  sart_get_entry
    (apple_sart_shutdown
       (apple_sart_add_allowed_region ex_sart 0x800100000 0x4000).2) 1
  = mk_sart_entry 0 0 0.
Proof.
  destruct (sart_shutdown_clears
              (apple_sart_add_allowed_region ex_sart 0x800100000 0x4000).2 1)
    as (Hget & _); [zclosed |].
  rewrite Hget. reflexivity.
Defined.

(** ** The RTKit management protocol *)

Lemma rtkit_state_eq_dec (a b : rtkit_state) : {a = b} + {a <> b}.
Proof. decide equality. Qed.

Lemma land_bit (x i : Z) :
  0 <= i -> (Z.land x (BIT i) =? 0) = negb (Z.testbit x i).
Proof.
  intros Hi. unfold BIT. rewrite Z.shiftl_1_l.
  destruct (Z.testbit x i) eqn:Hb; cbn [negb].
  - apply Z.eqb_neq. intros Hz.
    assert (Hbit : Z.testbit (Z.land x (2 ^ i)) i = true).
    { rewrite Z.land_spec, Hb, Z.pow2_bits_true by exact Hi. reflexivity. }
    rewrite Hz, Z.bits_0 in Hbit. discriminate.
  - apply Z.eqb_eq. apply Z.bits_inj'. intros k Hk.
    rewrite Z.land_spec, Z.bits_0, Z.pow2_bits_eqb by exact Hi.
    destruct (Z.eqb_spec i k) as [<- | Hne]; [rewrite Hb |];
      rewrite ?andb_false_r; reflexivity.
Qed.

Lemma epmap_base_range (msg : Z) :
  0 <= u32 (FIELD_GET APPLE_RTKIT_MGMT_EPMAP_BASE msg) < 8.
Proof.
  unfold FIELD_GET.
  change APPLE_RTKIT_MGMT_EPMAP_BASE with (Z.shiftl (Z.ones 3) 32).
  change (bf_shf (Z.shiftl (Z.ones 3) 32)) with 32.
  rewrite Z.shiftr_land.
  change (Z.shiftr (Z.shiftl (Z.ones 3) 32) 32) with (Z.ones 3).
  rewrite Z.land_ones by lia.
  change (2 ^ 3) with 8.
  pose proof (Z.mod_pos_bound (Z.shiftr msg 32) 8 ltac:(lia)) as Hb.
  rewrite u32_small by (change (2 ^ 32) with 4294967296; lia).
  exact Hb.
Qed.

Lemma management_send_log (mbox : Z -> Z -> Z) (rtk : apple_rtkit)
    (type msg : Z) :
  apple_rtkit_management_send mbox rtk type msg
  = rtk_emit rtk [RtkMboxSend (u64 (mgmt_msg type msg)) 0].
Proof.
  unfold apple_rtkit_management_send, apple_rtkit_send_message.
  change (u8 APPLE_RTKIT_EP_MGMT) with 0. cbn [Z.leb Z.compare andb].
  destruct (_ <? 0); reflexivity.
Qed.

Lemma rtk_sent_app (l1 l2 : list rtk_event) :
  rtk_sent (l1 ++ l2) = rtk_sent l1 ++ rtk_sent l2.
Proof. unfold rtk_sent. apply omap_app. Qed.

(** X25: the hello handler refuses a firmware whose version range
    misses the supported one: if the minimum offered is above 12 or the
    maximum below 11 it aborts the boot with [-ENOTSUPP] and sends
    nothing.  Otherwise it keeps the state, sets the version to
    [min(12, max)], which is 11 or 12 and inside the range offered when
    that range is not empty, and sends on endpoint 0 a reply of type 2
    that carries this version in both fields. *)
Theorem rtkit_hello_version (mbox : Z -> Z -> Z) (rtk : apple_rtkit)
    (msg : Z) :
  let min_ver := s32 (FIELD_GET APPLE_RTKIT_MGMT_HELLO_MINVER msg) in
  let max_ver := s32 (FIELD_GET APPLE_RTKIT_MGMT_HELLO_MAXVER msg) in
  let rtk' := apple_rtkit_management_rx_hello mbox rtk msg in
  (12 < min_ver \/ max_ver < 11 ->
   rtk_state rtk' = APPLE_RTKIT_STATE_BOOT_FAILED /\
   rtk_boot_result rtk' = - ENOTSUPP /\
   rtk_sent (rtk_log rtk') = rtk_sent (rtk_log rtk)) /\
  (min_ver <= 12 /\ 11 <= max_ver ->
   rtk_state rtk' = rtk_state rtk /\
   rtk_version rtk' = Z.min 12 max_ver /\
   11 <= rtk_version rtk' <= 12 /\
   rtk_version rtk' <= max_ver /\
   (min_ver <= max_ver -> min_ver <= rtk_version rtk') /\
   exists m,
     rtk_log rtk' = rtk_log rtk ++ [RtkMboxSend m 0] /\
     FIELD_GET APPLE_RTKIT_MGMT_TYPE m = APPLE_RTKIT_MGMT_HELLO_REPLY /\
     FIELD_GET APPLE_RTKIT_MGMT_HELLO_MINVER m = rtk_version rtk' /\
     FIELD_GET APPLE_RTKIT_MGMT_HELLO_MAXVER m = rtk_version rtk').
Proof.
  intros min_ver max_ver rtk'. subst rtk'.
  unfold apple_rtkit_management_rx_hello. fold min_ver max_ver.
  unfold APPLE_RTKIT_MAX_SUPPORTED_VERSION, APPLE_RTKIT_MIN_SUPPORTED_VERSION.
  destruct (Z.ltb_spec 12 min_ver) as [Hnew | Hmin].
  { split; [| intros [? ?]; lia]. intros _.
    unfold apple_rtkit_boot_abort. cbn [rtk_state rtk_boot_result rtk_log
      rtk_emit rtk_set_boot_result rtk_set_state].
    split; [reflexivity |]. split; [reflexivity |].
    rewrite rtk_sent_app. cbn. apply app_nil_r. }
  destruct (Z.ltb_spec max_ver 11) as [Hold | Hmax].
  { split; [| intros [? ?]; lia]. intros _.
    unfold apple_rtkit_boot_abort. cbn [rtk_state rtk_boot_result rtk_log
      rtk_emit rtk_set_boot_result rtk_set_state].
    split; [reflexivity |]. split; [reflexivity |].
    rewrite rtk_sent_app. cbn. apply app_nil_r. }
  split; [intros [? | ?]; lia |]. intros _.
  rewrite management_send_log.
  cbn [rtk_state rtk_version rtk_log rtk_emit rtk_set_version].
  split; [reflexivity |]. split; [reflexivity |].
  assert (Hwant : Z.min 12 max_ver = 11 \/ Z.min 12 max_ver = 12) by lia.
  split; [lia |]. split; [lia |]. split; [lia |].
  eexists. split; [reflexivity |].
  destruct Hwant as [-> | ->]; vm_compute; repeat split; reflexivity.
Qed.

Lemma rtkit_hello_version_witness :
  rtk_version (apple_rtkit_management_rx_hello ex_mbox ex_rtkit ex_hello) = 12 /\
  rtk_state (apple_rtkit_management_rx_hello ex_mbox ex_rtkit ex_hello)
    = APPLE_RTKIT_STATE_BOOTING.
Proof.
  destruct (rtkit_hello_version ex_mbox ex_rtkit ex_hello) as [_ Hok].
  destruct Hok as (Hst & _); [zclosed |].
  split; [reflexivity | exact Hst].
Defined.

Lemma epmap_set_loop_spec (msg : Z) (n : nat) :
  forall (i : Z) (rtk : apple_rtkit),
    let bitmap := u32 (FIELD_GET APPLE_RTKIT_MGMT_EPMAP_BITMAP msg) in
    let base := u32 (FIELD_GET APPLE_RTKIT_MGMT_EPMAP_BASE msg) in
    let rtk' := epmap_set_loop n i rtk msg in
    0 <= i -> i + Z.of_nat n <= 32 ->
    rtk_state rtk' = rtk_state rtk /\
    rtk_log rtk' = rtk_log rtk /\
    rtk_version rtk' = rtk_version rtk /\
    forall e, 0 <= e ->
      test_bit e (rtk_endpoints rtk') =
        test_bit e (rtk_endpoints rtk) ||
        ((32 * base + i <=? e) && (e <? 32 * base + i + Z.of_nat n) &&
         Z.testbit bitmap (e - 32 * base)).
Proof.
  induction n as [| n IH]; intros i rtk bitmap base rtk' Hi Hn; subst rtk'.
  - cbn [epmap_set_loop]. repeat split; try reflexivity.
    intros e He.
    replace ((32 * base + i <=? e) && (e <? 32 * base + i + Z.of_nat 0))
      with false
      by (destruct (Z.leb_spec (32 * base + i) e),
                   (Z.ltb_spec e (32 * base + i + Z.of_nat 0));
          try reflexivity; lia).
    cbn [andb]. rewrite orb_false_r. reflexivity.
  - cbn [epmap_set_loop]. fold bitmap base.
    pose proof (epmap_base_range msg) as Hbase. fold base in Hbase.
    set (rtk1 := if negb (Z.land bitmap (BIT i) =? 0) then _ else rtk).
    destruct (IH (i + 1) rtk1 ltac:(lia) ltac:(lia)) as (Hs & Hl & Hv & He).
    fold bitmap base in He.
    assert (H1 : rtk_state rtk1 = rtk_state rtk /\ rtk_log rtk1 = rtk_log rtk /\
                 rtk_version rtk1 = rtk_version rtk).
    { subst rtk1. destruct (negb _); repeat split; reflexivity. }
    destruct H1 as (Hs1 & Hl1 & Hv1).
    rewrite Hs, Hl, Hv. repeat split; try assumption.
    intros e Hge. rewrite (He e Hge).
    assert (Hbit : test_bit e (rtk_endpoints rtk1)
                   = test_bit e (rtk_endpoints rtk) ||
                     ((e =? 32 * base + i) && Z.testbit bitmap i)).
    { subst rtk1. rewrite land_bit by exact Hi. rewrite negb_involutive.
      destruct (Z.testbit bitmap i).
      - cbn [rtk_endpoints rtk_set_endpoints]. unfold test_bit, set_bit.
        rewrite u32_small by (change (2 ^ 32) with 4294967296; lia).
        rewrite Z.setbit_eqb by lia. rewrite andb_true_r.
        rewrite (Z.eqb_sym e). apply orb_comm.
      - rewrite andb_false_r, orb_false_r. reflexivity. }
    rewrite Hbit, <- orb_assoc. f_equal.
    destruct (Z.eqb_spec e (32 * base + i)) as [-> | Hne].
    + replace (32 * base + i - 32 * base) with i by lia.
      replace (32 * base + (i + 1) <=? 32 * base + i) with false
        by (symmetry; apply Z.leb_gt; lia).
      replace (32 * base + i <=? 32 * base + i) with true
        by (symmetry; apply Z.leb_le; lia).
      replace (32 * base + i <? 32 * base + i + Z.of_nat (S n)) with true
        by (symmetry; apply Z.ltb_lt; lia).
      cbn [andb]. rewrite orb_false_r. reflexivity.
    + cbn [andb orb].
      replace (e <? 32 * base + (i + 1) + Z.of_nat n)
        with (e <? 32 * base + i + Z.of_nat (S n)) by (f_equal; lia).
      replace (32 * base + (i + 1) <=? e) with (32 * base + i <=? e)
        by (destruct (Z.leb_spec (32 * base + (i + 1)) e),
                     (Z.leb_spec (32 * base + i) e); try reflexivity; lia).
      reflexivity.
Qed.

Lemma epmap_start_loop_app (mbox : Z -> Z -> Z) (a b : nat) :
  forall (ep : Z) (rtk : apple_rtkit),
    epmap_start_loop mbox (a + b) ep rtk
    = epmap_start_loop mbox b (ep + Z.of_nat a) (epmap_start_loop mbox a ep rtk).
Proof.
  induction a as [| a IH]; intros ep rtk.
  - cbn [Nat.add epmap_start_loop]. rewrite Z.add_0_r. reflexivity.
  - cbn [Nat.add epmap_start_loop]. rewrite IH. f_equal. lia.
Qed.

Lemma epmap_start_loop_rest (mbox : Z -> Z -> Z) (n : nat) :
  forall (ep : Z) (rtk : apple_rtkit),
    5 <= ep -> epmap_start_loop mbox n ep rtk = rtk.
Proof.
  induction n as [| n IH]; intros ep rtk Hep; [reflexivity |].
  cbn [epmap_start_loop].
  unfold APPLE_RTKIT_EP_MGMT, APPLE_RTKIT_EP_SYSLOG, APPLE_RTKIT_EP_CRASHLOG,
    APPLE_RTKIT_EP_DEBUG, APPLE_RTKIT_EP_IOREPORT.
  replace (ep =? 0) with false by (symmetry; apply Z.eqb_neq; lia).
  replace (ep =? 1) with false by (symmetry; apply Z.eqb_neq; lia).
  replace (ep =? 2) with false by (symmetry; apply Z.eqb_neq; lia).
  replace (ep =? 3) with false by (symmetry; apply Z.eqb_neq; lia).
  replace (ep =? 4) with false by (symmetry; apply Z.eqb_neq; lia).
  cbn [orb]. destruct (test_bit ep (rtk_endpoints rtk)); apply IH; lia.
Qed.

Lemma epmap_start_loop_all (mbox : Z -> Z -> Z) (rtk : apple_rtkit) :
  epmap_start_loop mbox 0x100 0 rtk
  = foldl (start_system_ep mbox) rtk [1; 2; 3; 4].
Proof.
  change 0x100%nat with (5 + 251)%nat.
  rewrite epmap_start_loop_app. rewrite epmap_start_loop_rest by (cbn; lia).
  assert (Hstep : forall r ep, 1 <= ep <= 4 ->
    (if test_bit ep (rtk_endpoints r)
     then (apple_rtkit_start_ep mbox r ep).2 else r)
    = start_system_ep mbox r ep).
  { intros r ep Hep. unfold start_system_ep, apple_rtkit_start_ep.
    rewrite (u8_small ep) by (change (2 ^ 8) with 256; lia).
    destruct (test_bit ep (rtk_endpoints r)); [| reflexivity].
    cbn [negb].
    replace (32 <=? ep) with false by (symmetry; apply Z.leb_gt; lia).
    cbn [andb snd]. rewrite management_send_log.
    reflexivity. }
  cbn [epmap_start_loop foldl].
  unfold APPLE_RTKIT_EP_MGMT, APPLE_RTKIT_EP_SYSLOG, APPLE_RTKIT_EP_CRASHLOG,
    APPLE_RTKIT_EP_DEBUG, APPLE_RTKIT_EP_IOREPORT.
  cbn [Z.eqb Z.add Pos.add Pos.succ Pos.eqb orb].
  replace (if test_bit 0 (rtk_endpoints rtk) then rtk else rtk) with rtk
    by (destruct (test_bit 0 (rtk_endpoints rtk)); reflexivity).
  rewrite !Hstep by lia. reflexivity.
Qed.

Lemma start_system_ep_frame (mbox : Z -> Z -> Z) (rtk : apple_rtkit) (ep : Z) :
  let rtk' := start_system_ep mbox rtk ep in
  rtk_state rtk' = rtk_state rtk /\
  rtk_endpoints rtk' = rtk_endpoints rtk /\
  rtk_version rtk' = rtk_version rtk /\
  rtk_sent (rtk_log rtk') =
    rtk_sent (rtk_log rtk) ++
    (if test_bit ep (rtk_endpoints rtk) then [(startep_msg ep, 0)] else []).
Proof.
  unfold start_system_ep. destruct (test_bit ep (rtk_endpoints rtk)); cbn.
  - repeat split; try reflexivity. apply rtk_sent_app.
  - repeat split; try reflexivity. symmetry. apply app_nil_r.
Qed.

Lemma epmap_base_u32 (msg : Z) :
  FIELD_GET APPLE_RTKIT_MGMT_EPMAP_BASE msg
  = u32 (FIELD_GET APPLE_RTKIT_MGMT_EPMAP_BASE msg).
Proof.
  unfold FIELD_GET.
  change APPLE_RTKIT_MGMT_EPMAP_BASE with (Z.shiftl (Z.ones 3) 32).
  change (bf_shf (Z.shiftl (Z.ones 3) 32)) with 32.
  rewrite Z.shiftr_land.
  change (Z.shiftr (Z.shiftl (Z.ones 3) 32) 32) with (Z.ones 3).
  rewrite Z.land_ones by lia. change (2 ^ 3) with 8.
  pose proof (Z.mod_pos_bound (Z.shiftr msg 32) 8 ltac:(lia)).
  symmetry. apply u32_small. change (2 ^ 32) with 4294967296. lia.
Qed.

Lemma epmap_reply_fields (base : Z) (last : bool) :
  0 <= base < 8 ->
  FIELD_GET APPLE_RTKIT_MGMT_TYPE (epmap_reply base last)
    = APPLE_RTKIT_MGMT_EPMAP_REPLY /\
  FIELD_GET APPLE_RTKIT_MGMT_EPMAP_BASE (epmap_reply base last) = base /\
  negb (Z.land (epmap_reply base last) APPLE_RTKIT_MGMT_EPMAP_LAST =? 0)
    = last /\
  negb (Z.land (epmap_reply base last) APPLE_RTKIT_MGMT_EPMAP_REPLY_MORE =? 0)
    = negb last.
Proof.
  intros Hbase.
  assert (Hcases : base = 0 \/ base = 1 \/ base = 2 \/ base = 3 \/
                   base = 4 \/ base = 5 \/ base = 6 \/ base = 7) by lia.
  destruct last;
    destruct Hcases as [-> | [-> | [-> | [-> | [-> | [-> | [-> | ->]]]]]]];
    vm_compute; repeat split; reflexivity.
Qed.

Lemma rx_epmap_unfold (mbox : Z -> Z -> Z) (rtk : apple_rtkit) (msg : Z) :
  let base := u32 (FIELD_GET APPLE_RTKIT_MGMT_EPMAP_BASE msg) in
  let last := negb (Z.land msg APPLE_RTKIT_MGMT_EPMAP_LAST =? 0) in
  let rtk2 :=
    rtk_emit (epmap_set_loop 32 0 rtk msg)
      [RtkMboxSend (epmap_reply base last) 0] in
  apple_rtkit_management_rx_epmap mbox rtk msg
  = if last then foldl (start_system_ep mbox) rtk2 [1; 2; 3; 4] else rtk2.
Proof.
  intros base last rtk2. unfold apple_rtkit_management_rx_epmap.
  fold last. rewrite management_send_log, <- epmap_start_loop_all.
  rewrite (epmap_base_u32 msg). fold base.
  subst rtk2. unfold epmap_reply. destruct last; reflexivity.
Qed.

Lemma start_system_eps_sent (mbox : Z -> Z -> Z) (rtk : apple_rtkit) :
  let rtk' := foldl (start_system_ep mbox) rtk [1; 2; 3; 4] in
  rtk_state rtk' = rtk_state rtk /\
  rtk_endpoints rtk' = rtk_endpoints rtk /\
  rtk_sent (rtk_log rtk') =
    rtk_sent (rtk_log rtk) ++
    ((fun ep => (startep_msg ep, 0))
       <$> filter (fun ep => test_bit ep (rtk_endpoints rtk) = true)
             [1; 2; 3; 4]).
Proof.
  cbn [foldl].
  destruct (start_system_ep_frame mbox rtk 1) as (Ha1 & Hb1 & _ & Hc1).
  revert Ha1 Hb1 Hc1. generalize (start_system_ep mbox rtk 1). intros r1 **.
  destruct (start_system_ep_frame mbox r1 2) as (Ha2 & Hb2 & _ & Hc2).
  revert Ha2 Hb2 Hc2. generalize (start_system_ep mbox r1 2). intros r2 **.
  destruct (start_system_ep_frame mbox r2 3) as (Ha3 & Hb3 & _ & Hc3).
  revert Ha3 Hb3 Hc3. generalize (start_system_ep mbox r2 3). intros r3 **.
  destruct (start_system_ep_frame mbox r3 4) as (Ha4 & Hb4 & _ & Hc4).
  revert Ha4 Hb4 Hc4. generalize (start_system_ep mbox r3 4). intros r4 **.
  split; [congruence |]. split; [congruence |].
  rewrite Hc4, Hc3, Hc2, Hc1, Hb3, Hb2, Hb1.
  rewrite <- !app_assoc. f_equal.
  rewrite !filter_cons, filter_nil.
  generalize startep_msg. intros f.
  generalize (rtk_endpoints rtk). intros E.
  destruct (test_bit 1 E); destruct (test_bit 2 E);
    destruct (test_bit 3 E); destruct (test_bit 4 E);
    repeat case_decide; try congruence; reflexivity.
Qed.

(** What [apple_rtkit_management_rx_epmap] does with a message. *)
Lemma rx_epmap_spec (mbox : Z -> Z -> Z) (rtk : apple_rtkit)
    (msg : Z) :
  let bitmap := u32 (FIELD_GET APPLE_RTKIT_MGMT_EPMAP_BITMAP msg) in
  let base := u32 (FIELD_GET APPLE_RTKIT_MGMT_EPMAP_BASE msg) in
  let last := negb (Z.land msg APPLE_RTKIT_MGMT_EPMAP_LAST =? 0) in
  let rtk' := apple_rtkit_management_rx_epmap mbox rtk msg in
  rtk_state rtk' = rtk_state rtk /\
  (forall e, 0 <= e ->
     test_bit e (rtk_endpoints rtk') =
       test_bit e (rtk_endpoints rtk) ||
       ((32 * base <=? e) && (e <? 32 * base + 32) &&
        Z.testbit bitmap (e - 32 * base))) /\
  exists reply,
    rtk_sent (rtk_log rtk') =
      rtk_sent (rtk_log rtk) ++
      (reply, 0) ::
      (if last
       then (fun ep => (startep_msg ep, 0))
              <$> filter (fun ep => test_bit ep (rtk_endpoints rtk') = true)
                    [1; 2; 3; 4]
       else []) /\
    FIELD_GET APPLE_RTKIT_MGMT_TYPE reply = APPLE_RTKIT_MGMT_EPMAP_REPLY /\
    FIELD_GET APPLE_RTKIT_MGMT_EPMAP_BASE reply = base /\
    negb (Z.land reply APPLE_RTKIT_MGMT_EPMAP_LAST =? 0) = last /\
    negb (Z.land reply APPLE_RTKIT_MGMT_EPMAP_REPLY_MORE =? 0) = negb last.
Proof.
  intros bitmap base last rtk'. subst rtk'.
  rewrite rx_epmap_unfold. fold base last.
  pose proof (epmap_reply_fields base last (epmap_base_range msg)) as Hreply.
  destruct (epmap_set_loop_spec msg 32 0 rtk ltac:(lia) ltac:(lia))
    as (Hs & Hl & _ & He).
  fold bitmap base in He.
  revert Hs Hl He. generalize (epmap_set_loop 32 0 rtk msg). intros rtk1 Hs Hl He.
  revert Hreply. generalize (epmap_reply base last). intros reply Hreply.
  assert (Hends : forall e, 0 <= e ->
            test_bit e (rtk_endpoints rtk1) =
              test_bit e (rtk_endpoints rtk) ||
              ((32 * base <=? e) && (e <? 32 * base + 32) &&
               Z.testbit bitmap (e - 32 * base))).
  { intros e Hge. rewrite (He e Hge). rewrite Z.add_0_r. reflexivity. }
  clear He. clearbody bitmap base last.
  assert (Hl2 : rtk_sent (rtk_log (rtk_emit rtk1 [RtkMboxSend reply 0]))
                = rtk_sent (rtk_log rtk) ++ [(reply, 0)]).
  { cbn [rtk_log rtk_emit]. rewrite rtk_sent_app, Hl. reflexivity. }
  destruct last.
  - destruct (start_system_eps_sent mbox (rtk_emit rtk1 [RtkMboxSend reply 0]))
      as (Hst & Hep & Hsent).
    cbn zeta in Hst, Hep, Hsent.
    revert Hst Hep Hsent.
    generalize (foldl (start_system_ep mbox)
                  (rtk_emit rtk1 [RtkMboxSend reply 0]) [1; 2; 3; 4]).
    intros r4 Hst Hep Hsent.
    change (rtk_endpoints (rtk_emit rtk1 [RtkMboxSend reply 0]))
      with (rtk_endpoints rtk1) in Hep, Hsent.
    change (rtk_state (rtk_emit rtk1 [RtkMboxSend reply 0]))
      with (rtk_state rtk1) in Hst.
    split; [congruence |].
    split; [intros e Hge; rewrite Hep; apply Hends; exact Hge |].
    exists reply. split; [| exact Hreply].
    rewrite Hsent, Hl2, Hep, <- app_assoc. reflexivity.
  - split; [exact Hs |]. split; [exact Hends |].
    exists reply. split; [exact Hl2 | exact Hreply].
Qed.

(** X26: the endpoint-map handler records the endpoints the message
    announces: endpoint [e] is known afterwards exactly if it was known
    before or bit [e - 32 * base] of the message's bitmap is set, with
    [e] in the 32 endpoints from [32 * base] on.  It keeps the state and
    answers on endpoint 0 with a message of type 8 that echoes the
    base and carries the last flag of the message, or the more flag
    when the map is not the last.  After the last map it then sends one
    start message for each of the system endpoints 1, 2, 3 and 4 that
    is known, in this order, and none for any other endpoint. *)
Theorem rtkit_epmap_endpoints (mbox : Z -> Z -> Z) (rtk : apple_rtkit)
    (msg : Z) :
  let bitmap := u32 (FIELD_GET APPLE_RTKIT_MGMT_EPMAP_BITMAP msg) in
  let base := u32 (FIELD_GET APPLE_RTKIT_MGMT_EPMAP_BASE msg) in
  let last := negb (Z.land msg APPLE_RTKIT_MGMT_EPMAP_LAST =? 0) in
  let rtk' := apple_rtkit_management_rx_epmap mbox rtk msg in
  rtk_state rtk' = rtk_state rtk /\
  (forall e, 0 <= e ->
     test_bit e (rtk_endpoints rtk') =
       test_bit e (rtk_endpoints rtk) ||
       ((32 * base <=? e) && (e <? 32 * base + 32) &&
        Z.testbit bitmap (e - 32 * base))) /\
  exists reply,
    rtk_sent (rtk_log rtk') =
      rtk_sent (rtk_log rtk) ++
      (reply, 0) ::
      (if last
       then (fun ep => (startep_msg ep, 0))
              <$> filter (fun ep => test_bit ep (rtk_endpoints rtk') = true)
                    [1; 2; 3; 4]
       else []) /\
    FIELD_GET APPLE_RTKIT_MGMT_TYPE reply = APPLE_RTKIT_MGMT_EPMAP_REPLY /\
    FIELD_GET APPLE_RTKIT_MGMT_EPMAP_BASE reply = base /\
    negb (Z.land reply APPLE_RTKIT_MGMT_EPMAP_LAST =? 0) = last /\
    negb (Z.land reply APPLE_RTKIT_MGMT_EPMAP_REPLY_MORE =? 0) = negb last.
Proof. apply rx_epmap_spec. Qed.

(** The last map of the handshake, by evaluation: the reply, then the
    start of endpoints 1, 2 and 4. *)
Example rtkit_epmap_run :
  rtk_sent (rtk_log (apple_rtkit_management_rx_epmap ex_mbox ex_rtkit ex_epmap))
  = [(0x0088000000000000, 0);
     (startep_msg 1, 0); (startep_msg 2, 0); (startep_msg 4, 0)].
Proof. vm_compute. reflexivity. Qed.

Lemma rx_hello_state (mbox : Z -> Z -> Z) (rtk : apple_rtkit) (msg : Z) :
  let rtk' := apple_rtkit_management_rx_hello mbox rtk msg in
  (rtk_state rtk' = rtk_state rtk \/
   rtk_state rtk' = APPLE_RTKIT_STATE_BOOT_FAILED) /\
  Forall (fun m => m.2 = 0)
    (drop (length (rtk_sent (rtk_log rtk))) (rtk_sent (rtk_log rtk'))).
Proof.
  unfold apple_rtkit_management_rx_hello.
  destruct (_ <? _); [| destruct (_ <? _)].
  - unfold apple_rtkit_boot_abort. cbn. split; [right; reflexivity |].
    rewrite rtk_sent_app. cbn. rewrite app_nil_r, drop_all. constructor.
  - unfold apple_rtkit_boot_abort. cbn. split; [right; reflexivity |].
    rewrite rtk_sent_app. cbn. rewrite app_nil_r, drop_all. constructor.
  - rewrite management_send_log. cbn [rtk_state rtk_emit rtk_set_version rtk_log].
    split; [left; reflexivity |].
    rewrite rtk_sent_app, drop_app_length. repeat constructor.
Qed.

(** X27: no message reaches an application endpoint before the
    firmware has finished booting.  While the state is not running,
    [apple_rtkit_send_message] and [apple_rtkit_start_ep] on an endpoint
    from 0x20 up return [-EINVAL] and send nothing; the management
    handler changes a state that is not running only to boot-failed, or
    to running on a message of type 0xb; and every message it sends
    goes to endpoint 0. *)
Theorem rtkit_app_gate (mbox : Z -> Z -> Z) (rtk : apple_rtkit)
    (ep message msg : Z) :
  rtkit_running (rtk_state rtk) = false ->
  let rtk' := apple_rtkit_management_rx mbox rtk msg in
  (0x20 <= u8 ep ->
   apple_rtkit_send_message mbox rtk ep message = (- EINVAL, rtk) /\
   apple_rtkit_start_ep mbox rtk ep = (- EINVAL, rtk)) /\
  (rtk_state rtk' = rtk_state rtk \/
   rtk_state rtk' = APPLE_RTKIT_STATE_BOOT_FAILED \/
   rtk_state rtk' = APPLE_RTKIT_STATE_RUNNING /\
   u8 (FIELD_GET APPLE_RTKIT_MGMT_TYPE msg) = APPLE_RTKIT_MGMT_BOOT_DONE2) /\
  Forall (fun m => m.2 = 0)
    (drop (length (rtk_sent (rtk_log rtk))) (rtk_sent (rtk_log rtk'))).
Proof.
  intros Hrun rtk'. subst rtk'. split.
  { intros Hep. unfold apple_rtkit_send_message, apple_rtkit_start_ep.
    rewrite Hrun.
    replace (32 <=? u8 ep) with true by (symmetry; apply Z.leb_le; lia).
    cbn [andb negb]. split; [reflexivity |].
    destruct (test_bit (u8 ep) (rtk_endpoints rtk)); reflexivity. }
  unfold apple_rtkit_management_rx.
  destruct (Z.eqb_spec (u8 (FIELD_GET APPLE_RTKIT_MGMT_TYPE msg))
              APPLE_RTKIT_MGMT_HELLO) as [_ | _].
  { destruct (rx_hello_state mbox rtk msg) as [[Hs | Hs] Hsent];
      (split; [| exact Hsent]); [left | right; left]; exact Hs. }
  destruct (Z.eqb_spec (u8 (FIELD_GET APPLE_RTKIT_MGMT_TYPE msg))
              APPLE_RTKIT_MGMT_EPMAP) as [_ | _].
  { destruct (rx_epmap_spec mbox rtk msg)
      as (Hs & _ & reply & Hsent & _).
    cbn zeta in Hs, Hsent. split; [left; exact Hs |].
    rewrite Hsent, drop_app_length.
    constructor; [reflexivity |].
    destruct (negb _); [| constructor].
    apply Forall_fmap. apply Forall_forall. intros x _. reflexivity. }
  destruct (Z.eqb_spec (u8 (FIELD_GET APPLE_RTKIT_MGMT_TYPE msg))
              APPLE_RTKIT_MGMT_BOOT_DONE) as [_ | _].
  { unfold apple_rtkit_management_rx_boot_done. rewrite management_send_log.
    cbn [rtk_state rtk_emit rtk_log]. split; [left; reflexivity |].
    rewrite rtk_sent_app, drop_app_length. repeat constructor. }
  destruct (Z.eqb_spec (u8 (FIELD_GET APPLE_RTKIT_MGMT_TYPE msg))
              APPLE_RTKIT_MGMT_BOOT_DONE2) as [Htype | _].
  { unfold apple_rtkit_management_rx_boot_done2.
    cbn [rtk_state rtk_emit rtk_log rtk_set_state].
    split; [right; right; split; [reflexivity | exact Htype] |].
    rewrite rtk_sent_app. cbn. rewrite app_nil_r, drop_all. constructor. }
  split; [left; reflexivity |]. rewrite drop_all. constructor.
Qed.

Lemma rtkit_app_gate_witness :
  apple_rtkit_send_message ex_mbox ex_rtkit 0x20 0 = (- EINVAL, ex_rtkit) /\
  rtk_state (apple_rtkit_management_rx ex_mbox ex_rtkit 0x00b0000000000000)
    = APPLE_RTKIT_STATE_RUNNING.
Proof.
  destruct (rtkit_app_gate ex_mbox ex_rtkit 0x20 0 0x00b0000000000000 eq_refl)
    as (Hgate & _ & _).
  destruct Hgate as [Hsend _]; [zclosed |].
  split; [exact Hsend | reflexivity].
Defined.

Lemma rtkit_boot_other (mbox : Z -> Z -> Z) (rtk : apple_rtkit) (cpu_ctrl : Z) :
  rtk_state rtk <> APPLE_RTKIT_STATE_INIT ->
  apple_rtkit_boot mbox rtk cpu_ctrl = (0, rtk).
Proof.
  intros Hne. unfold apple_rtkit_boot.
  destruct (rtk_state rtk); [contradiction | reflexivity ..].
Qed.

(** X28: [apple_rtkit_boot] acts once.  From the initial state it
    either starts the co-processor by setting the run bit of the CPU
    control register, or, if the bit is already set, sends the wake-up
    message on endpoint 0; it returns 0 with the state booting, unless
    the mailbox refuses the message, and then it returns the mailbox's
    error with the state boot-failed and that error recorded.  In any
    other state it returns 0 and does nothing, so a second call is
    without effect. *)
Theorem rtkit_boot_once (mbox : Z -> Z -> Z) (rtk : apple_rtkit)
    (cpu_ctrl cpu_ctrl' : Z) :
  let res := apple_rtkit_boot mbox rtk cpu_ctrl in
  (rtk_state rtk <> APPLE_RTKIT_STATE_INIT -> res = (0, rtk)) /\
  (rtk_state rtk = APPLE_RTKIT_STATE_INIT ->
   (res.1 = 0 /\ rtk_state res.2 = APPLE_RTKIT_STATE_BOOTING /\
    (Z.testbit (u32 cpu_ctrl) 4 = false /\
     rtk_log res.2 =
       rtk_log rtk ++ [RtkWriteCpuControl (u32 (Z.lor (u32 cpu_ctrl) 16))] \/
     Z.testbit (u32 cpu_ctrl) 4 = true /\
     rtk_log res.2 = rtk_log rtk ++ [RtkMboxSend APPLE_RTKIT_MGMT_WAKEUP 0])
    \/
    res.1 < 0 /\ Z.testbit (u32 cpu_ctrl) 4 = true /\
    rtk_state res.2 = APPLE_RTKIT_STATE_BOOT_FAILED /\
    rtk_boot_result res.2 = res.1)) /\
  apple_rtkit_boot mbox res.2 cpu_ctrl' = (0, res.2).
Proof.
  intros res.
  assert (Hinit : rtk_state rtk = APPLE_RTKIT_STATE_INIT ->
    (res.1 = 0 /\ rtk_state res.2 = APPLE_RTKIT_STATE_BOOTING /\
     (Z.testbit (u32 cpu_ctrl) 4 = false /\
      rtk_log res.2 =
        rtk_log rtk ++ [RtkWriteCpuControl (u32 (Z.lor (u32 cpu_ctrl) 16))] \/
      Z.testbit (u32 cpu_ctrl) 4 = true /\
      rtk_log res.2 = rtk_log rtk ++ [RtkMboxSend APPLE_RTKIT_MGMT_WAKEUP 0])
     \/
     res.1 < 0 /\ Z.testbit (u32 cpu_ctrl) 4 = true /\
     rtk_state res.2 = APPLE_RTKIT_STATE_BOOT_FAILED /\
     rtk_boot_result res.2 = res.1)).
  { intros Hst. subst res. unfold apple_rtkit_boot. rewrite Hst.
    change APPLE_RTKIT_CPU_CONTROL_RUN with (BIT 4).
    rewrite land_bit by lia. rewrite negb_involutive.
    destruct (Z.testbit (u32 cpu_ctrl) 4) eqn:Hbit.
    - unfold apple_rtkit_send_message.
      change (u8 APPLE_RTKIT_EP_MGMT) with 0. cbn [Z.leb Z.compare andb].
      change (u64 APPLE_RTKIT_MGMT_WAKEUP) with APPLE_RTKIT_MGMT_WAKEUP.
      destruct (Z.ltb_spec (s32 (mbox APPLE_RTKIT_MGMT_WAKEUP 0)) 0)
        as [Hneg | Hok].
      + replace (s32 (mbox APPLE_RTKIT_MGMT_WAKEUP 0) =? 0) with false
          by (symmetry; apply Z.eqb_neq; lia).
        cbn [negb fst snd]. right. split; [exact Hneg |].
        split; [reflexivity |]. split; [reflexivity |].
        cbn [apple_rtkit_boot_abort rtk_boot_result rtk_emit
             rtk_set_boot_result].
        apply s32_small. apply s32_range.
      + cbn [Z.eqb negb fst snd]. left. split; [reflexivity |].
        split; [reflexivity |]. right. split; reflexivity.
    - cbn [Z.eqb negb fst snd]. left. split; [reflexivity |].
      split; [reflexivity |]. left. split; reflexivity. }
  split; [intros Hne; apply rtkit_boot_other; exact Hne |].
  split; [exact Hinit |].
  apply rtkit_boot_other.
  destruct (rtkit_state_eq_dec (rtk_state rtk) APPLE_RTKIT_STATE_INIT)
    as [Hst | Hne].
  - destruct (Hinit Hst) as [(_ & Hs & _) | (_ & _ & Hs & _)];
      rewrite Hs; discriminate.
  - subst res. rewrite rtkit_boot_other by exact Hne. exact Hne.
Qed.
